(* ===== verification/_CoqProject ===== *)
-Q . S2P
Prelude.v
Types.v
World.v
ParseUtil.v
ParseSpec.v
Parcel.v
Ffrt.v
Util.v
TimeHandler.v
CommonEvent.v
TimedCollect.v
DevicePlugins.v
CollectManager.v
CollectFrame.v
Contexts.v
Interfaces.v
Hoare.v
ManagerBase.v
DBinder.v
CollectTasks.v
IpcInterface.v
Stub.v
StubFrame.v
Proxy.v
Notices.v
IpcLaws.v
IpcSpec.v
IpcExec.v
IpcCalls.v
IpcListCalls.v
IpcRefines.v
NoticeSpec.v
LocalProxy.v
ServiceRegistry.v
StateMachine.v
EventHandler.v
Scheduler.v
SchedulerQuery.v
SchedulerInv.v
SchedulerProofs.v
SchedulerKeeps.v
SchedulerBoot.v
SchedulerFrame.v
Policy.v
Subscribers.v
DumpStats.v
Manager.v
MultiManager.v
UserLifecycle.v
GlobalSubscriptions.v
Samgr.v
Dumper.v
Registry.v
System.v
SystemRegistry.v
Evolves.v
UsersInv.v
Service.v
Isolation.v
ManagerGood.v
ServiceGood.v
Concrete.v
ConcreteService.v
ServiceSpec.v
FfrtSpec.v
SchedulerSpec.v
RequestSpec.v
ManagerSpec.v
SystemSpec.v
CallbackSpec.v
QuerySpec.v
LifetimeSpec.v
AccessSpec.v
CollectSpec.v
PolicySpec.v
PersistSpec.v
CollectInv.v
EventSpec.v
DumpSpec.v
DBinderSpec.v
