(* ===== verification/Prelude.v ===== *)
(** * samgr: the system ability manager of OpenHarmony

    The service keeps the registry of system abilities (SAs), remote objects that live in
    host processes.  It starts a host process when an SA is asked for, tracks the state of
    every SA and process, unloads idle SAs, restarts SAs whose process died, and tells
    listeners and load callbacks what happened.  It serves these requests over IPC, and keeps
    one instance of all this per user for the SAs that are declared multi-instance.

    ** The program and its model

    All source paths are under services/samgr/native unless they say otherwise.

    - Prelude.v: record update, machine integers, counting, sums over maps, ordered keys, strings.
    - Types.v: the data.  Profiles and error codes (interfaces/innerkits/common/include), the
      contexts of SAs and processes (include/schedule/system_ability_state_context.h), the
      manager's records (include/base_system_ability_manager.h).
    - World.v: the state of the service [World] (scheduler [Sched], manager [Mgr], queues, the
      caller, the trace of calls that left the service), the state monad [M], the environment
      [Env], and the predicate [respects] with its automation [solve_respects].
    - ParseUtil.v: [ParseUtil] (services/common/src/parse_util.cpp) over JSON values: profiles,
      trust files, libraries, the comparison of a state with a profile value.
    - Ffrt.v: [FFRTHandler] (source/ffrt_handler.cpp), serial queues with named tasks.
    - Util.v: the helpers of [SamgrUtil] (source/system_ability_manager_util.cpp).
    - Contexts.v: lookups in the scheduler's context maps.
    - Interfaces.v: the two interfaces between components: [ManagerIface] with [ManagerLaws],
      what the scheduler calls in the manager and relies on, and [StateListener], what the state
      machine calls in the scheduler.
    - Hoare.v: weakest preconditions for [M] and symbolic execution.
    - ManagerBase.v: the operations of [BaseSystemAbilityManager]
      (source/base_system_ability_manager.cpp) the scheduler calls; the instances of the interface.
    - StateMachine.v, EventHandler.v: source/schedule/system_ability_state_machine.cpp and
      system_ability_event_handler.cpp.
    - Scheduler.v, SchedulerQuery.v: [SystemAbilityStateScheduler]
      (source/schedule/system_ability_state_scheduler.cpp), the driving operations and then
      initialisation, queries, dumps and subscriptions.
    - Manager.v: the rest of [BaseSystemAbilityManager], its tasks, the death recipients
      (source/ability_death_recipient.cpp), boot and destruction, and the overrides of
      [SystemAbilityManager] (source/system_ability_manager.cpp) that the base class calls.
    - System.v: one manager as a transition system: a step is a call, a task of a queue that
      was submitted before, or a death notice; [reachable] is what boot and steps lead to.
    - Policy.v: the on-demand policies, over the interface [CollectIface] of the collect manager,
      whose instance is [deviceStatusCollectManager].
    - Subscribers.v, MultiManager.v: [MultiSystemAbilityManager]
      (source/multi_system_ability_manager.cpp), the manager of one user.  The virtual members
      it overrides are resolved by [dynamicClass] of the manager where Manager.v calls them.
    - UserLifecycle.v, GlobalSubscriptions.v: [UserLifecycleManager]
      (source/user_lifecycle_manager.cpp).  [Service] is the whole state: the world of the base
      manager, the managers of the users, and the tables of users.  An operation on the manager of
      a user ([runUser]) runs in the world with that manager's members in the place of the base
      manager's.
    - Samgr.v: [SystemAbilityManager] (source/system_ability_manager.cpp): routing by the caller
      and the SA, requests about all users, remote load, IPC priority, initialisation; it is an
      instance of [ISystemAbilityManager].
    - DBinder.v: the distributed binder service as [SystemAbilityManager] uses it: the SAs other
      devices may ask for, the start of the service and the answers to loads from other devices; and
      the watchdog of a call, which stops the process the call waits for
      ([SamgrUtil::KillProcessByPid]).
    - DumpStats.v, Dumper.v: [SystemAbilityManagerDumper] (source/system_ability_manager_dumper.cpp)
      and [SystemAbilityManager::Dump]: states, listeners, ffrt and IPC statistics.
    - Service.v: the service as a transition system: a step is a request over IPC with any
      parcel and any caller, a submitted task, a death notice, an on-demand event, a timer that
      is due, something the system tells a plugin, a dump, a call that takes too long, or a load
      for another device.

    What starts and stops SAs on demand (source/collect):

    - TimeHandler.v: [SamgrTimeHandler] (source/samgr_time_handler.cpp), timers that wake the
      device, and [PreferencesUtil] (device_timed_collect_tool.cpp), the files of persisted events.
    - CommonEvent.v, TimedCollect.v, DevicePlugins.v: the six plugins, for common events, timed
      events, parameters, devices, switches and reference counts.  Their state is part of [World]
      ([Collect]), one per manager.
    - CollectManager.v: [DeviceStatusCollectManager], which starts the plugins, matches an event
      with the on-demand events of the profiles, and changes and persists policies.
      CollectFrame.v: none of this writes a member of the manager.
    - CollectTasks.v: the tasks of the plugins' queues and what reaches the plugins from the system.
      A subscription a plugin asks of the manager it belongs to is an event of the trace that a
      later step of the service serves.

    Requests over IPC:

    - Parcel.v: the interface [Parcels] of message parcels with the laws the code relies on, and
      a list of items as an instance.
    - IpcInterface.v: [ISystemAbilityManager]
      (interfaces/innerkits/samgr_proxy/include/if_system_ability_manager.h) as a type class over
      the state of the service, and the transfer of events
      (frameworks/native/source/system_ability_on_demand_event.cpp).
    - Stub.v: [SystemAbilityManagerStub] (source/system_ability_manager_stub.cpp), one handler per
      transaction code, proved for any instance of the interface.
    - Proxy.v: [SystemAbilityManagerProxy]
      (frameworks/native/source/system_ability_manager_proxy.cpp), with the client's cache and the
      table of local abilities.
    - Notices.v: the proxies (source/system_ability_load_callback_proxy.cpp and its two siblings)
      and stubs (frameworks/native/source) of load callbacks, status listeners and process listeners.
    - LocalProxy.v: [LocalAbilityManagerProxy] (services/lsamgr/src/local_ability_manager_proxy.cpp),
      the requests to the hosting processes.
    - ServiceRegistry.v: source/service_registry.cpp, the proxy of the older registry of services and
      the client's pointer to the service manager.

    The definitions keep the names of the source.  An overload gets a suffix ([...ById],
    [...Remote], [...ByName]); members of the manager that only forward to the scheduler have
    the prefix [Manager].  Contexts are shared objects in the source: here they are entries of
    the maps of [Sched], read and written through [derefA], [derefP], [storeA] and [storeP], so
    a write is seen by every holder of the pointer; a pointer is the key of the entry.  Maps are
    [gmap]s and loops over them follow the order of the C++ maps ([sorted_keys]); [m[k]] that
    creates an entry is [map_touch].  uint32_t counters wrap ([u32]).

    ** The environment

    Init, host processes, the ffrt library, system parameters, access tokens, the clock and the
    IPC objects, the files of the kernel and the distributed binder service are not part of the
    repository, or are other processes.  A call to one of them
    is an event of the trace, and its answer is a function of the trace so far ([Env]): the
    theorems hold for every such function.  The only laws assumed are that the two error codes
    of c_utils are not zero, those of [Parcels] for the theorems on remote calls and notices, that the
    names of the device's states are different ([events_distinct]), that [SplitStr] of c_utils
    splits a text at its separators ([splits]), that [std::sort] sorts ([SortLaws]), and that the
    binder service can be had ([distributed_kept]).  Concrete.v gives one environment and a run (boot, load
    request, process start, registration, unload) on which the hypotheses of the theorems hold,
    ConcreteService.v a run with a user that is activated, starts an SA and stops, and
    a client that gets notices.

    ** Bounds

    The state machine calls the scheduler as its listener, and the scheduler drives the state
    machine.  [schedulerListener n] unfolds this mutual recursion [n] times; [callback_depth]
    shows that depth 2 is enough, as any deeper one is the same function.  The loop that splits the
    process ids of a dump ([ffrtPids]) has the length of the text as fuel; [ffrt_pids_parsed] shows
    that more changes nothing.  All other loops are over lists and need no fuel.

    ** The theorems

    - SchedulerInv.v, SchedulerProofs.v, SchedulerKeeps.v, SchedulerBoot.v: the invariant
      [ctx_inv] of the contexts, kept by every operation, established by boot.  SchedulerFrame.v:
      what the manager's operations respect, the scheduler respects.  Registry.v,
      SystemRegistry.v: the invariants of the manager's registries.  SystemSpec.v: they hold in
      every reachable state.
    - SchedulerSpec.v: transitions, events, process death and the counting tests on every
      branch.  RequestSpec.v: pending requests, restart throttle, enable-once events, unloading.
    - ManagerSpec.v, CallbackSpec.v, LifetimeSpec.v: registration round trips, who is notified
      and how often, what deaths and destruction leave behind.  AccessSpec.v: caller checks and
      process subscriptions as a set.  QuerySpec.v: initialisation, idle processes, access counts.
    - IpcLaws.v, IpcSpec.v, IpcExec.v, IpcCalls.v, IpcListCalls.v,
      IpcRefines.v: a call through proxy, transaction and stub is the checks of the client, the
      checks of the service, the operation and its result.  StubFrame.v: what the operations of the
      interface keep, every request keeps.
    - Evolves.v, UsersInv.v: the invariant of the tables of users.  ManagerGood.v, ServiceGood.v: the
      invariant of contexts for all managers.  Isolation.v: what a request of a user can change.
      ServiceSpec.v: they hold in every state the service reaches, and a stop of a user ends.
    - FfrtSpec.v: the task map as a counter per name, delays without overflow.
    - ParseSpec.v: what the parser returns is in range.
    - NoticeSpec.v: a notice is the call of the client's method.  LocalProxy.v: what a hosting
      process gets and what the service makes of its reply.
    - CollectSpec.v: the SAs an event reaches are those of a declarative specification, in the order
      of their priority.  PolicySpec.v: what a change of a policy changes.  PersistSpec.v: policies
      are read back from the text they are kept in; the users' files are apart.  CollectInv.v: the
      invariant of the plugins in every interleaving.  EventSpec.v: what a common event leaves,
      which devices are online, and when a low load of the processors is noticed.
    - DumpSpec.v: the statistics of ffrt refine a machine of three states; a dump changes nothing, and
      shows nothing to others; the lists of listeners count the subscriptions; the process ids of a
      command.  DBinderSpec.v: no distributed SA is lost to the binder service; which process a
      watchdog stops.  ServiceRegistry.v: the wait for a service is bounded.

    ** What is not modelled

    - Locks: an operation runs to its end before the next one; interleavings are those of
      whole calls, tasks and notices.
    - The bytes of a parcel and of /proc/stat: parcels are sequences of items, and the numbers of a
      line are those [sscanf_s] finds.
    - dfx reports beyond the event (services/dfx), logging, tracing, [main], the loading of the penglai
      plugin, and the rust bindings (interfaces/innerkits/rust): they hold no state of the service. *)
From stdpp Require Export base gmap strings list sorting pretty relations.
From Stdlib Require Export ZArith Lia.

#[global] Open Scope Z_scope.

(** * Record update

    A record type declares its eta-expansion once; the setter of any of its
    projections is then found by type-class resolution, and reduces by [cbn]. *)

Class Eta (R : Type) := eta : R → R.
Class Setter {R T : Type} (proj : R → T) := set_with : (T → T) → R → R.
Arguments set_with {R T} proj {_} f r.

Ltac derive_setter :=
  match goal with
  | |- @Setter ?R ?T ?proj =>
      let f := fresh "f" in
      let r := fresh "r" in
      red; intros f r;
      let e := eval hnf in (eta r) in
      match e with
      | context C [proj r] => let t := context C [f (proj r)] in exact t
      end
  end.

#[export] Hint Extern 1 (Setter _) => derive_setter : typeclass_instances.

Declare Scope record_scope.
Delimit Scope record_scope with record.
#[global] Open Scope record_scope.
Notation "r <| p := v |>" := (set_with p (λ _, v) r)
  (at level 1, left associativity, p at level 9, v at level 200) : record_scope.
Notation "r <| p ::= f |>" := (set_with p f r)
  (at level 1, left associativity, p at level 9, f at level 200) : record_scope.

(** * Machine integers

    A w-bit integer is a [Z]; a C++ conversion to a w-bit type is one of these
    wrap-around functions. *)

Definition u32 (x : Z) : Z := x mod 2 ^ 32.
Definition u64 (x : Z) : Z := x mod 2 ^ 64.
Definition i32 (x : Z) : Z := (x + 2 ^ 31) mod 2 ^ 32 - 2 ^ 31.
Definition i64 (x : Z) : Z := (x + 2 ^ 63) mod 2 ^ 64 - 2 ^ 63.
Definition INT32_MAX : Z := 2 ^ 31 - 1.
Definition UINT64_MAX : Z := 2 ^ 64 - 1.
Definition is_i32 (x : Z) : Prop := - 2 ^ 31 ≤ x < 2 ^ 31.
Definition is_u32 (x : Z) : Prop := 0 ≤ x < 2 ^ 32.

Lemma u32_id x : is_u32 x → u32 x = x.
Proof. unfold is_u32, u32. intros. by rewrite Z.mod_small. Qed.

Lemma u32_range x : is_u32 (u32 x).
Proof. unfold is_u32, u32. apply Z.mod_pos_bound. lia. Qed.

Lemma i32_id x : is_i32 x → i32 x = x.
Proof. unfold is_i32, i32. intros. rewrite Z.mod_small; lia. Qed.

Lemma i32_range x : is_i32 (i32 x).
Proof. unfold is_i32, i32. pose proof (Z.mod_pos_bound (x + 2 ^ 31) (2 ^ 32)). lia. Qed.

Lemma i32_i32 x : i32 (i32 x) = i32 x.
Proof. apply i32_id, i32_range. Qed.

(** The round trip of [static_cast<int32_t>] after a conversion to [uint32_t]. *)
Lemma i32_u32 x : is_i32 x → i32 (u32 x) = x.
Proof.
  intros H. unfold i32, u32. rewrite Zplus_mod_idemp_l.
  apply i32_id in H as E. unfold i32 in E. exact E.
Qed.

Lemma u32_inj x y : is_i32 x → is_i32 y → u32 x = u32 y → x = y.
Proof. intros Hx Hy E. rewrite <- (i32_u32 x), <- (i32_u32 y), E; done. Qed.

(** * Generic lemmas on lists and options *)

(** Number of the elements of a list that a boolean test accepts. *)
Definition countb {A} (f : A → bool) (l : list A) : Z := Z.of_nat (length (filter (λ x, f x = true) l)).

Lemma countb_nil {A} (f : A → bool) : countb f [] = 0.
Proof. done. Qed.

Lemma countb_cons {A} (f : A → bool) x l : countb f (x :: l) = (if f x then 1 else 0) + countb f l.
Proof. unfold countb. rewrite filter_cons. destruct (f x) eqn:E; case_decide; simpl; try congruence; lia. Qed.

Lemma countb_app {A} (f : A → bool) l k : countb f (l ++ k) = countb f l + countb f k.
Proof. unfold countb. rewrite filter_app, length_app. lia. Qed.

Lemma countb_snoc {A} (f : A → bool) l x : countb f (l ++ [x]) = countb f l + (if f x then 1 else 0).
Proof. by rewrite countb_app, countb_cons, countb_nil, Z.add_0_r. Qed.

Lemma countb_nonneg {A} (f : A → bool) l : 0 ≤ countb f l.
Proof. unfold countb. lia. Qed.

Lemma countb_le_length {A} (f : A → bool) l : countb f l ≤ Z.of_nat (length l).
Proof. unfold countb. pose proof (length_filter (λ x, f x = true) l). lia. Qed.

Lemma countb_ext {A} (f g : A → bool) l : (∀ x, x ∈ l → f x = g x) → countb f l = countb g l.
Proof.
  induction l as [|x l IH]; intros H; [done|].
  rewrite !countb_cons, (H x), IH; [done| |]; intros; set_solver.
Qed.

Lemma countb_all {A} (f : A → bool) l : countb f l = Z.of_nat (length l) ↔ ∀ x, x ∈ l → f x = true.
Proof.
  induction l as [|x l IH]; [split; [set_solver|done]|].
  rewrite countb_cons. pose proof (countb_le_length f l). simpl length.
  split.
  - intros E y Hy. destruct (f x) eqn:Fx; [|lia].
    apply elem_of_cons in Hy as [->|Hy]; [done|]. apply IH; [lia|done].
  - intros Hall. rewrite (Hall x) by set_solver. rewrite (proj2 IH) by set_solver. lia.
Qed.

Lemma countb_zero {A} (f : A → bool) l : countb f l = 0 ↔ ∀ x, x ∈ l → f x = false.
Proof.
  induction l as [|x l IH]; [split; [set_solver|done]|].
  rewrite countb_cons. pose proof (countb_nonneg f l).
  split.
  - intros E y Hy. destruct (f x) eqn:Fx; [lia|].
    apply elem_of_cons in Hy as [->|Hy]; [done|]. apply IH; [lia|done].
  - intros Hall. rewrite (Hall x) by set_solver. rewrite (proj2 IH) by set_solver. lia.
Qed.

Lemma countb_pos {A} (f : A → bool) l x : x ∈ l → f x = true → 0 < countb f l.
Proof.
  intros Hx Hf. pose proof (countb_nonneg f l).
  assert (countb f l ≠ 0); [|lia]. rewrite countb_zero. intros H'. specialize (H' x Hx). congruence.
Qed.

(** Changing the verdict of one element of a duplicate-free list. *)
Lemma countb_flip {A} (f g : A → bool) l x :
  NoDup l → x ∈ l → (∀ y, y ≠ x → f y = g y) →
  countb g l = countb f l - (if f x then 1 else 0) + (if g x then 1 else 0).
Proof.
  induction l as [|y l IH]; intros Hnd Hx Hext; [set_solver|].
  apply NoDup_cons in Hnd as [Hy Hnd]. rewrite !countb_cons.
  apply elem_of_cons in Hx as [->|Hx].
  - rewrite (countb_ext f g l); [lia|]. intros z Hz. apply Hext. set_solver.
  - rewrite IH by done. rewrite (Hext y) by set_solver. lia.
Qed.

Lemma countb_or {A} (f g : A → bool) l :
  (∀ x, x ∈ l → f x && g x = false) →
  countb (λ x, f x || g x) l = countb f l + countb g l.
Proof.
  induction l as [|x l IH]; intros H; [done|].
  rewrite !countb_cons, IH by set_solver.
  specialize (H x ltac:(set_solver)). destruct (f x), (g x); simpl in *; try done; lia.
Qed.

Lemma existsb_countb {A} (f : A → bool) l : existsb f l = negb (countb f l =? 0).
Proof.
  induction l as [|x l IH]; [done|]. simpl. rewrite countb_cons, IH. pose proof (countb_nonneg f l).
  destruct (f x); simpl; [|by rewrite Z.add_0_l]. by destruct (Z.eqb_spec (1 + countb f l) 0); [lia|].
Qed.

Lemma forallb_countb {A} (f : A → bool) l : forallb f l = (countb f l =? Z.of_nat (length l)).
Proof.
  apply eq_true_iff_eq. rewrite Z.eqb_eq, countb_all, forallb_forall.
  by setoid_rewrite list_elem_of_In.
Qed.

(** * Keys of a map in the order [std::map] iterates them *)

Definition sorted_keys {K A} `{Countable K} (R : relation K) `{!RelDecision R} (m : gmap K A) : list K :=
  merge_sort R (elements (dom m)).

Lemma elem_of_sorted_keys {K A} `{Countable K} (R : relation K) `{!RelDecision R} (m : gmap K A) k :
  k ∈ sorted_keys R m ↔ is_Some (m !! k).
Proof. unfold sorted_keys. rewrite merge_sort_Permutation, elem_of_elements, elem_of_dom. done. Qed.

Lemma NoDup_sorted_keys {K A} `{Countable K} (R : relation K) `{!RelDecision R} (m : gmap K A) :
  NoDup (sorted_keys R m).
Proof. unfold sorted_keys. rewrite merge_sort_Permutation. apply NoDup_elements. Qed.

(** Lexicographic order on code units, as [std::u16string] compares. *)
Fixpoint u16_leb (a b : list Z) : bool :=
  match a, b with
  | [], _ => true
  | _ :: _, [] => false
  | x :: a', y :: b' => (x <? y) || ((x =? y) && u16_leb a' b')
  end.
Definition u16_le (a b : list Z) : Prop := u16_leb a b = true.
#[export] Instance u16_le_dec : RelDecision u16_le.
Proof. intros a b. unfold u16_le. apply _. Defined.

(** The order of [std::string]. *)
Definition str_le (a b : string) : Prop := String.leb a b = true.
#[export] Instance str_le_dec : RelDecision str_le.
Proof. intros a b. unfold str_le. apply _. Defined.

(** The elements of a [std::set] in the order it iterates them. *)
Definition sorted_set {K} `{Countable K} (R : relation K) `{!RelDecision R} (s : gset K) : list K :=
  merge_sort R (elements s).

Lemma elem_of_sorted_set {K} `{Countable K} (R : relation K) `{!RelDecision R} (s : gset K) k :
  k ∈ sorted_set R s ↔ k ∈ s.
Proof. unfold sorted_set. by rewrite merge_sort_Permutation, elem_of_elements. Qed.

(** First element of a list that passes a test, removed: [std::find_if] then [erase]. *)
Fixpoint erase_first {A} (f : A → bool) (l : list A) : list A :=
  match l with
  | [] => []
  | x :: l' => if f x then l' else x :: erase_first f l'
  end.

Lemma countb_erase_first {A} (f g : A → bool) l :
  countb g (erase_first f l) =
  countb g l - (match list_find (λ x, f x = true) l with Some (_, x) => if g x then 1 else 0 | None => 0 end).
Proof.
  induction l as [|x l IH]; [done|]. simpl. rewrite countb_cons.
  destruct (f x) eqn:Fx; case_decide; try congruence; simpl; [lia|].
  rewrite countb_cons, IH. destruct (list_find _ l) as [[i y]|]; simpl; lia.
Qed.

Lemma elem_of_erase_first {A} (f : A → bool) l x : x ∈ erase_first f l → x ∈ l.
Proof. induction l as [|y l IH]; simpl; [done|]. destruct (f y); set_solver. Qed.

(** * Sums over the values of a map *)

Definition msum {K V} `{Countable K} (g : V → Z) (m : gmap K V) : Z := map_fold (λ _ v acc, g v + acc) 0 m.

Section msum.
Context {K V : Type} `{Countable K} (g : V → Z).
Implicit Types (m : gmap K V) (k : K) (v : V).

Lemma msum_empty : msum g (∅ : gmap K V) = 0.
Proof. unfold msum. by rewrite map_fold_empty. Qed.

Lemma msum_insert m k v : m !! k = None → msum g (<[k := v]> m) = g v + msum g m.
Proof. intros Hk. unfold msum. rewrite map_fold_insert_L; [done| |done]. intros. lia. Qed.

Lemma msum_delete m k v : m !! k = Some v → msum g m = g v + msum g (delete k m).
Proof.
  intros Hk. rewrite <- (insert_delete_id m k v Hk) at 1. rewrite msum_insert; [done|]. apply lookup_delete_eq.
Qed.

Lemma msum_update m k v v' : m !! k = Some v → msum g (<[k := v']> m) = msum g m - g v + g v'.
Proof.
  intros Hk. rewrite (msum_delete m k v Hk), <- insert_delete_eq, msum_insert by apply lookup_delete_eq. lia.
Qed.

Lemma msum_alter m k v f : m !! k = Some v → msum g (alter f k m) = msum g m - g v + g (f v).
Proof.
  intros Hk. rewrite <- (msum_update m k v (f v) Hk). f_equal. apply map_eq. intros k'.
  destruct (decide (k = k')) as [<-|Hne].
  - by rewrite lookup_alter_eq, lookup_insert_eq, Hk.
  - by rewrite lookup_alter_ne, lookup_insert_ne.
Qed.

(** The sum does not see a change that keeps the measure. *)
Lemma msum_alter_same m k f : (∀ v, m !! k = Some v → g (f v) = g v) → msum g (alter f k m) = msum g m.
Proof.
  intros Hf. destruct (m !! k) as [v|] eqn:Hk.
  - rewrite (msum_alter _ _ _ _ Hk), (Hf v); [lia|done].
  - f_equal. apply alter_id. congruence.
Qed.

Lemma msum_nonneg m : (∀ v, 0 ≤ g v) → 0 ≤ msum g m.
Proof.
  intros Hg. unfold msum. apply (map_fold_weak_ind (λ acc _, 0 ≤ acc)); [done|].
  intros k v m' acc _ Hacc. specialize (Hg v). lia.
Qed.

Lemma msum_ge m k v : (∀ v, 0 ≤ g v) → m !! k = Some v → g v ≤ msum g m.
Proof. intros Hg Hk. rewrite (msum_delete m k v Hk). pose proof (msum_nonneg (delete k m) Hg). lia. Qed.
End msum.

(** The elements of the lists of a map, in the order of its keys. *)
Lemma countb_flatten {K A} `{Countable K} (R : relation K) `{!RelDecision R} (f : A → bool) (m : gmap K (list A)) :
  countb f (sorted_keys R m ≫= λ k, default [] (m !! k)) = msum (countb f) m.
Proof.
  assert (Hp : ∀ l : list K, NoDup l → (∀ k, k ∈ l ↔ is_Some (m !! k)) →
            countb f (l ≫= λ k, default [] (m !! k)) = msum (countb f) m).
  { revert m. clear. intros m l. revert m. induction l as [|k l IH]; intros m Hnd Hl.
    - assert (m = ∅) as ->; [|done]. apply map_empty. intros k. apply eq_None_not_Some. rewrite <- Hl. set_solver.
    - apply NoDup_cons in Hnd as [Hk Hnd]. destruct (proj1 (Hl k) ltac:(set_solver)) as [v Hv].
      rewrite bind_cons, countb_app, Hv, (msum_delete _ _ _ _ Hv). simpl. f_equal.
      rewrite <- (IH (delete k m)); [|done|].
      + f_equal. apply Forall_bind_ext, Forall_forall. intros k' Hk'. rewrite lookup_delete_ne; [done|congruence].
      + intros k'. destruct (decide (k = k')) as [<-|Hne].
        * rewrite lookup_delete_eq. split; [done|]. by intros [? [=]].
        * rewrite lookup_delete_ne, <- Hl by done. set_solver. }
  apply Hp; [apply NoDup_sorted_keys|]. intros k. apply elem_of_sorted_keys.
Qed.

(** ** Strings *)

Lemma string_app_cons c (s t : string) : String c s +:+ t = String c (s +:+ t).
Proof. done. Qed.
Lemma string_app_nil_r (s : string) : s +:+ "" = s.
Proof. induction s as [|c s IH]; [done|]. by rewrite string_app_cons, IH. Qed.
Lemma string_app_assoc (s t u : string) : (s +:+ t) +:+ u = s +:+ (t +:+ u).
Proof. induction s as [|c s IH]; [done|]. by rewrite !string_app_cons, IH. Qed.
Lemma string_length_app (s t : string) : String.length (s +:+ t) = (String.length s + String.length t)%nat.
Proof. induction s as [|c s IH]; [done|]. rewrite string_app_cons. simpl. by rewrite IH. Qed.
Lemma substring_all n s : (String.length s ≤ n)%nat → String.substring 0 n s = s.
Proof. revert n. induction s as [|c s IH]; intros [|n]; cbn; try done; [lia|]. intros. by rewrite IH by lia. Qed.
Lemma substring_skip s t n : String.substring (String.length s) n (s +:+ t) = String.substring 0 n t.
Proof. induction s as [|c s IH]; [done|]. rewrite string_app_cons. exact IH. Qed.
