(* ===== verification/Types.v ===== *)
(** Data of the system ability manager: error codes, SA profiles, on-demand
    events, the scheduler's contexts, the manager's registries, the tasks the
    queues run and the calls that leave the process.

    Sources: interfaces/innerkits/common/include/{samgr_err_code,sa_profiles}.h,
    services/samgr/native/include/schedule/{system_ability_state_context,
    system_ability_event_handler,system_ability_state_scheduler}.h,
    services/samgr/native/include/{base_system_ability_manager,ffrt_handler}.h. *)
From S2P Require Import Prelude.

(** UTF-16 strings are lists of code units, as [std::u16string]. *)
Abbreviation u16string := (list Z).

(** ** Error codes (samgr_err_code.h) *)

Definition ERR_OK : Z := 0.
Definition SAMGR_OK : Z := 0.
Definition LOAD_SA_TIMEOUT : Z := 999.
Definition INVALID_INPUT_PARA : Z := 1001.
Definition PROFILE_NOT_EXIST : Z := 1002.
Definition CALLBACK_NULL : Z := 1003.
Definition CALLBACK_MAP_SIZE_LIMIT : Z := 1004.
Definition INVALID_CALL_PROC : Z := 1005.
Definition STATE_SCHEDULER_NULL : Z := 1006.
Definition PEND_LOAD_EVENT_SIZE_LIMIT : Z := 1013.
Definition SAVE_FD_FAIL : Z := 1016.
Definition ACTIVE_SA_FAIL : Z := 1019.
Definition IDLE_SA_FAIL : Z := 1020.
Definition INVALID_CALLING_USER_ID : Z := 1026.
Definition SA_OPERATION_NOT_ALLOWED : Z := 1027.
Definition GET_SA_CONTEXT_FAIL : Z := 2000.
Definition INVALID_SA_STATE : Z := 2003.
Definition SA_CONTEXT_NULL : Z := 2005.
Definition TRANSIT_PROC_STATE_FAIL : Z := 2009.
Definition TRANSIT_SA_STATE_FAIL : Z := 2010.
Definition UPDATE_STATE_COUNT_FAIL : Z := 2011.
Definition UNLOAD_EVENT_HANDLER_NULL : Z := 2012.
Definition UNLOAD_REQUEST_NULL : Z := 2013.
Definition SEND_EVENT_FAIL : Z := 2014.
Definition PROC_CONTEXT_NULL : Z := 2034.

(** ** SA profiles and on-demand events (sa_profiles.h) *)

Definition INTERFACE_CALL : Z := 0.
Definition DEVICE_ONLINE : Z := 1.
Definition SETTING_SWITCH : Z := 2.
Definition PARAM : Z := 3.
Definition COMMON_EVENT : Z := 4.
Definition TIMED_EVENT : Z := 5.
Definition UNREF_EVENT : Z := 6.
Definition START_ON_DEMAND : Z := 1.
Definition STOP_ON_DEMAND : Z := 2.
Definition LOW_PRIORITY : Z := 3.
Definition IMMEDIATELY : Z := 0.
Definition LOW_MEMORY : Z := 1.

Record OnDemandCondition := MkCondition {
  cond_eventId : Z;
  cond_name : string;
  cond_value : string;
  cond_extraMessages : gmap string string;
}.

Record OnDemandEvent := MkEvent {
  eventId : Z;
  ev_name : string;
  ev_value : string;
  extraDataId : Z;
  persistence : bool;
  conditions : list OnDemandCondition;
  ev_enableOnce : bool;
  ev_loadPriority : Z;
  ev_extraMessages : gmap string string;
}.

(** An event built by aggregate initialisation [{id, name, value}]: the other
    members take their default initialisers. *)
Definition mkEvent (i : Z) (n v : string) : OnDemandEvent :=
  MkEvent i n v (-1) false [] false LOW_PRIORITY ∅.

(** [OnDemandEvent::operator==]. *)
Definition event_eqb (a b : OnDemandEvent) : bool :=
  (eventId a =? eventId b) && bool_decide (ev_name a = ev_name b) && bool_decide (ev_value a = ev_value b).

Record SaControlInfo := MkSaControl {
  ondemandId : Z;
  ctl_saId : Z;
  ctl_enableOnce : bool;
  ctl_loadPriority : Z;
  ctl_cacheCommonEvent : bool;
}.

(** [OnDemandEvent::ToString]. *)
Definition event_ToString (e : OnDemandEvent) : string := ev_name e +:+ "_" +:+ ev_value e.

(** [OnDemandReasonExtraData] of safwk: code, data and want parameters. *)
Record OnDemandReasonExtraData := MkExtraData {
  ed_code : Z;
  ed_data : string;
  ed_want : gmap string string;
}.

Record CollMgrSaProfile := MkCollMgrSaProfile {
  cm_saId : Z;
  startOnDemandEvents : list OnDemandEvent;
  stopOnDemandEvents : list OnDemandEvent;
  cm_cacheCommonEvent : bool;
}.
#[export] Instance CollMgrSaProfile_eta : Eta CollMgrSaProfile := λ r,
  MkCollMgrSaProfile (cm_saId r) (startOnDemandEvents r) (stopOnDemandEvents r) (cm_cacheCommonEvent r).

Record StartOnDemand := MkStartOnDemand {
  start_allowUpdate : bool;
  start_onDemandEvents : list OnDemandEvent;
}.

Record StopOnDemand := MkStopOnDemand {
  stop_allowUpdate : bool;
  unrefUnload : bool;
  delayTime : Z;
  unusedTimeout : Z;
  stop_onDemandEvents : list OnDemandEvent;
}.

Record SaProfile := MkSaProfile {
  process : u16string;
  saId : Z;
  libPath : string;
  dependSa : list Z;
  dependTimeout : Z;
  runOnCreate : bool;
  moduleUpdate : bool;
  autoRestart : bool;
  distributed : bool;
  dumpLevel : Z;
  bootPhase : Z;
  startOnDemand : StartOnDemand;
  stopOnDemand : StopOnDemand;
  recycleStrategy : Z;
  extension : list string;
  cacheCommonEvent : bool;
  independentUnload : bool;
}.

Record CommonSaProfile := MkCommonSaProfile {
  c_process : u16string;
  c_saId : Z;
  c_moduleUpdate : bool;
  c_distributed : bool;
  c_cacheCommonEvent : bool;
  c_startAllowUpdate : bool;
  c_stopAllowUpdate : bool;
  c_recycleStrategy : Z;
  c_extension : list string;
}.

(** ** Remote objects

    A binder object is a name; an [sptr] to one is an [option].  The interface
    objects clients pass (load callbacks, SA listeners, process listeners) have
    an identity of their own and the binder object [AsObject()] returns. *)

Abbreviation RemoteObject := positive.

Record LoadCallback := MkLoadCallback { cb_ptr : positive; cb_AsObject : RemoteObject }.
Record StatusChange := MkStatusChange { sc_ptr : positive; sc_AsObject : RemoteObject }.
Record ProcessStatusChange := MkProcessStatusChange { psc_ptr : positive; psc_AsObject : option RemoteObject }.

#[export] Instance LoadCallback_eq_dec : EqDecision LoadCallback.
Proof. solve_decision. Defined.
#[export] Instance StatusChange_eq_dec : EqDecision StatusChange.
Proof. solve_decision. Defined.
#[export] Instance ProcessStatusChange_eq_dec : EqDecision ProcessStatusChange.
Proof. solve_decision. Defined.

(** ** Scheduler contexts (system_ability_state_context.h) *)

Inductive SystemAbilityState := NOT_LOADED | LOADING | LOADED | UNLOADABLE | UNLOADING.
Inductive SystemProcessState := NOT_STARTED | STARTED | STOPPING.
Inductive PendingEvent := NO_EVENT | LOAD_ABILITY_EVENT | UNLOAD_ABILITY_EVENT.

#[export] Instance SystemAbilityState_eq_dec : EqDecision SystemAbilityState.
Proof. solve_decision. Defined.
#[export] Instance SystemProcessState_eq_dec : EqDecision SystemProcessState.
Proof. solve_decision. Defined.
#[export] Instance PendingEvent_eq_dec : EqDecision PendingEvent.
Proof. solve_decision. Defined.

(** [static_cast<int32_t>] of the state enumeration, and its inverse. *)
Definition state_code (s : SystemAbilityState) : positive :=
  match s with NOT_LOADED => 1 | LOADING => 2 | LOADED => 3 | UNLOADABLE => 4 | UNLOADING => 5 end.
Definition state_decode (p : positive) : option SystemAbilityState :=
  match p with
  | 1 => Some NOT_LOADED | 2 => Some LOADING | 3 => Some LOADED
  | 4 => Some UNLOADABLE | 5 => Some UNLOADING | _ => None
  end%positive.
#[export] Program Instance SystemAbilityState_countable : Countable SystemAbilityState :=
  {| encode := state_code; decode := state_decode |}.
Next Obligation. by intros []. Qed.

Record LoadRequestInfo := MkLoadRequest {
  deviceId : string;
  lr_callback : option LoadCallback;
  lr_systemAbilityId : Z;
  lr_callingPid : Z;
  loadEvent : OnDemandEvent;
}.

Record UnloadRequestInfo := MkUnloadRequest {
  unloadEvent : OnDemandEvent;
  ur_systemAbilityId : Z;
  ur_callingPid : Z;
}.

Record SystemProcessContext := MkProcessContext {
  processName : u16string;
  saList : list Z;
  abilityStateCountMap : gmap SystemAbilityState Z;
  restartCountsCtrl : list Z;
  pid : Z;
  uid : Z;
  p_state : SystemProcessState;
  enableRestart : bool;
  lastStopTime : Z;
  pendingLoadFirstTimestamp : Z;
}.
#[export] Instance SystemProcessContext_eta : Eta SystemProcessContext := λ r,
  MkProcessContext (processName r) (saList r) (abilityStateCountMap r) (restartCountsCtrl r)
    (pid r) (uid r) (p_state r) (enableRestart r) (lastStopTime r) (pendingLoadFirstTimestamp r).

(** [std::make_shared<SystemProcessContext>()]: the default member initialisers. *)
Definition newProcessContext : SystemProcessContext :=
  MkProcessContext [] [] ∅ [] (-1) (-1) NOT_STARTED true (-1) 0.

(** [ownProcessContext] is the address of a process context, i.e. its key in
    [processContextMap_]; [None] is the null pointer. *)
Record SystemAbilityContext := MkAbilityContext {
  pendingLoadEventCountMap : gmap Z Z;
  pendingLoadEventList : list LoadRequestInfo;
  ownProcessContext : option u16string;
  pendingUnloadEvent : option UnloadRequestInfo;
  unloadRequest : option UnloadRequestInfo;
  systemAbilityId : Z;
  delayUnloadTime : Z;
  lastStartTime : Z;
  lastIdleTime : Z;
  a_state : SystemAbilityState;
  pendingEvent : PendingEvent;
  isAutoRestart : bool;
  a_independentUnload : bool;
}.
#[export] Instance SystemAbilityContext_eta : Eta SystemAbilityContext := λ r,
  MkAbilityContext (pendingLoadEventCountMap r) (pendingLoadEventList r) (ownProcessContext r)
    (pendingUnloadEvent r) (unloadRequest r) (systemAbilityId r) (delayUnloadTime r)
    (lastStartTime r) (lastIdleTime r) (a_state r) (pendingEvent r) (isAutoRestart r)
    (a_independentUnload r).

Definition newAbilityContext : SystemAbilityContext :=
  MkAbilityContext ∅ [] None None None (-1) 0 0 (-1) NOT_LOADED NO_EVENT false false.

(** ** Events of the scheduler (system_ability_event_handler.h) *)

Inductive AbilityStateEvent :=
  ABILITY_LOAD_SUCCESS_EVENT | ABILITY_LOAD_FAILED_EVENT | ABILITY_UNLOAD_SUCCESS_EVENT.
Inductive ProcessStateEvent := PROCESS_STARTED_EVENT | PROCESS_STOPPED_EVENT.
#[export] Instance ProcessStateEvent_eq_dec : EqDecision ProcessStateEvent.
Proof. solve_decision. Defined.

Record ProcessInfo := MkProcessInfo { pi_processName : u16string; pi_pid : Z; pi_uid : Z }.

Record SystemProcessInfo := MkSystemProcessInfo { spi_processName : string; spi_pid : Z; spi_uid : Z }.
#[export] Instance SystemProcessInfo_eta : Eta SystemProcessInfo := λ r,
  MkSystemProcessInfo (spi_processName r) (spi_pid r) (spi_uid r).

Record IdleProcessInfo := MkIdleProcessInfo { ipi_pid : Z; ipi_processName : u16string; ipi_lastIdleTime : Z }.

(** ** Manager registries (base_system_ability_manager.h) *)

Record SAInfo := MkSAInfo { remoteObj : option RemoteObject; sai_isDistributed : bool }.

Inductive ListenerState := L_INIT | L_NOTIFIED.
#[export] Instance ListenerState_eq_dec : EqDecision ListenerState.
Proof. solve_decision. Defined.

Record SAListener := MkSAListener {
  sal_listener : option StatusChange;
  sal_callingPid : Z;
  sal_state : ListenerState;
}.
#[export] Instance SAListener_eta : Eta SAListener := λ r,
  MkSAListener (sal_listener r) (sal_callingPid r) (sal_state r).

Inductive AbilityState := AS_INIT | AS_STARTING | AS_STARTED.
#[export] Instance AbilityState_eq_dec : EqDecision AbilityState.
Proof. solve_decision. Defined.

Abbreviation CallbackList := (list (LoadCallback * Z)).

Record AbilityItem := MkAbilityItem {
  ai_state : AbilityState;
  callbackMap : gmap string CallbackList;
  ai_event : OnDemandEvent;
}.
#[export] Instance AbilityItem_eta : Eta AbilityItem := λ r,
  MkAbilityItem (ai_state r) (callbackMap r) (ai_event r).

(** A value-initialised [AbilityItem], as [operator[]] inserts it. *)
Definition newAbilityItem : AbilityItem := MkAbilityItem AS_INIT ∅ (mkEvent 0 "" "").

Record StartingProcessInfo := MkStartingProcessInfo {
  stp_procName : u16string;
  stp_callingPid : Z;
  stp_callUid : Z;
  stp_callPname : string;
  stp_calleeSaId : Z;
  stp_begin : Z;
}.

(** [ISystemAbilityManager::SAExtraProp]; [dumpFlags] is an [unsigned int]. *)
Record SAExtraProp := MkSAExtraProp {
  isDistributed : bool;
  dumpFlags : Z;
  capability : u16string;
  permission : u16string;
}.

Record ProcessListener := MkProcessListener {
  pl_listener : ProcessStatusChange;
  hasDirectSubscription : bool;
  hasForegroundSubscription : bool;
}.
#[export] Instance ProcessListener_eta : Eta ProcessListener := λ r,
  MkProcessListener (pl_listener r) (hasDirectSubscription r) (hasForegroundSubscription r).

(** The constructor [ProcessListener(listener, foregroundOnly)]. *)
Definition newProcessListener (l : ProcessStatusChange) (foregroundOnly : bool) : ProcessListener :=
  MkProcessListener l (negb foregroundOnly) foregroundOnly.
