(* ===== verification/World.v ===== *)
(** The world the operations act on: the tasks posted to the queues, the calls
    that leave the process with the environment that answers them, the state of
    the manager and of its scheduler, the state monad the operations are written
    in, and the framework of relational frame lemmas used by every component. *)
From S2P Require Import Prelude Types.

(** ** Tasks

    The lambdas the code posts to its queues, one constructor per lambda with
    the values it captures. *)

(** The tasks of the collect manager and of its plugins. *)
Inductive CollectTask :=
  | CtStart
  | CtReport (event : OnDemandEvent)
  | CtUnref (l : list SaControlInfo)
  | CtWatchParameters
  | CtSubscribeSwitch
  | CtTimed (time : string) (persistence : bool)
  | CtLoop (interval : Z) (persistence : bool)
  | CtCommonEvent (eventId extraDataId : Z)
  | CtNetworking (eventId : Z)
  | CtEmptyFunction.

Inductive Task :=
  | TUpdateDelayUnloadTime (said : Z)
  | TPendingLoadOverflow (said : Z) (pn : u16string)
  | TTryUnloadAll (pn : u16string)
  | TUnloadTimeout (pn : u16string)
  | TTryKillProcess (pn : u16string)
  | TPendingUnload (said : Z)
  | TProcessUnloadEvent (evId : Z)
  | TStartOnDemandAbility (pn : u16string) (said : Z)
  | TListenerNotify (said : Z) (l : StatusChange)
  | TUnSubscribe (obj : RemoteObject)
  | TNotifyAdded (said : Z) (obj : RemoteObject)
  | TNotifyRemoved (said : Z)
  | TCheckLoaded (said : Z) (pn : u16string) (srcDeviceId : string) (cb : LoadCallback)
  | TNotifyLoadFail (said : Z) (cb : LoadCallback)
  | TNotifyLoaded (said : Z) (obj : RemoteObject) (cb : option LoadCallback)
  | TSetParameter (key value : string)
  | TInvalidateCache
  | TUserStopTimeout (userId : Z) (context : positive)
  | TResetIpcPrior
  | TLoadRemote (said callPid callUid : Z) (dev : string) (cb : LoadCallback)
  | TOndemandLoad
  | TClearFfrtStatistics
  | TRpcLoadCompleted (dev : string) (said : Z) (obj : option RemoteObject)
  | TCollect (c : CollectTask).

(** The queues: each is an [FFRTHandler] object of the program. *)
Inductive HandlerId :=
  workHandler | deathHandler | processHandler | unloadHandler | recoverHandler | setParmHandler
  | collectHandler | commonWorkHandler | commonUnsubHandler | networkingHandler
  | ffrtDumpHandler | stopTaskHandler (userId : Z).
#[export] Instance HandlerId_eq_dec : EqDecision HandlerId.
Proof. solve_decision. Defined.
Definition handler_code (h : HandlerId) : positive + Z :=
  match h with
  | workHandler => inl 1%positive | deathHandler => inl 2%positive | processHandler => inl 3%positive
  | unloadHandler => inl 4%positive | recoverHandler => inl 5%positive | setParmHandler => inl 6%positive
  | collectHandler => inl 7%positive | commonWorkHandler => inl 8%positive
  | commonUnsubHandler => inl 9%positive | networkingHandler => inl 10%positive | ffrtDumpHandler => inl 11%positive
  | stopTaskHandler u => inr u
  end.
Definition handler_decode (c : positive + Z) : HandlerId :=
  match c with
  | inl 1 => workHandler | inl 2 => deathHandler | inl 3 => processHandler
  | inl 4 => unloadHandler | inl 5 => recoverHandler | inl 6 => setParmHandler
  | inl 7 => collectHandler | inl 8 => commonWorkHandler | inl 9 => commonUnsubHandler
  | inl 10 => networkingHandler | inl _ => ffrtDumpHandler | inr u => stopTaskHandler u
  end%positive.
#[export] Program Instance HandlerId_countable : Countable HandlerId :=
  inj_countable' handler_code handler_decode _.
Next Obligation. by intros []. Qed.

Abbreviation TaskHandle := positive.

(** [FFRTHandler]: [queue_] ([None] is null) and [taskMap_]. *)
Record FFRTHandler := MkFFRTHandler {
  queue_ : option positive;
  taskMap_ : gmap string (list TaskHandle);
}.
#[export] Instance FFRTHandler_eta : Eta FFRTHandler := λ r, MkFFRTHandler (queue_ r) (taskMap_ r).

(** ** Calls that leave the process

    Everything the code asks of other processes and libraries is an event of a
    trace; what they answer is decided by an environment that may depend on the
    whole trace before the call. *)

Inductive ServiceAction := SA_START | SA_START_ONDEMAND | SA_STOP.
Inductive DeathKind := AbilityDeath | SystemProcessDeath | AbilityStatusDeath | AbilityCallbackDeath
  | RemoteCallbackDeath | ProcessListenerDeath.
Inductive ProcessNotification := ProcStarted | ProcStopped | ProcActivated | ProcIdled.
(** Calls to the common event service: the events that are subscribed. *)
Inductive CommonEventCall :=
  | SubscribeCommonEvent (names : gset string)
  | UpdateSubscription (names : gset string)
  | SubscribeSwitchEvents | UnSubscribeSwitchEvents.
(** Calls to the preferences library on the file of a user. *)
Inductive PreferencesCall :=
  | PutLong (key : string) (value : Z)
  | PutString (key value : string)
  | DeleteKey (key : string)
  | FlushSync.
(** Calls to the device manager. *)
Inductive DeviceCall := InitDeviceManager | GetTrustedDeviceList | RegisterDevStateCallback | UnRegisterDevStateCallback.
(** Calls to the kernel's timers and threads. *)
Inductive TimerCall :=
  | TimerCreate (alarm : bool)
  | EpollAdd (fd : Z)
  | TimerSet (fd delay : Z)
  | TimerClose (fd : Z)
  | TimerThread.
(** The listeners the plugins subscribe with. *)
Inductive CollectListener := CommonEventListener | ParamListener | CesStateListener.
Inductive MonitorCall :=
  MonitorThread | ReclaimThread | TriggerSystemIPCThreadReclaim | UnrefTimer | UnrefTimerShutdown | SleepFor (seconds : Z).
(** Calls to the distributed binder service. *)
Inductive DBinderCall :=
  | RegisterRemoteProxy (said : Z)
  | StartDBinderService
  | MakeRemoteBinder (said : Z) (networkId : string) (callPid callUid : Z)
  | LoadSystemAbilityComplete (dev : string) (said : Z) (obj : option RemoteObject).
(** What a dump asks of the ffrt library, of the IPC library, of the hosting processes
    and of the file it is written to. *)
Inductive FfrtDumpCmd := DUMP_INFO_ALL | DUMP_START_STAT | DUMP_STOP_STAT.
Inductive DumpCall :=
  | FfrtDump (c : FfrtDumpCmd)
  | IpcStatistics (start : bool)
  | IpcStatCmd (proc : RemoteObject) (fd cmd : Z)
  | FfrtStatCmd (proc : RemoteObject) (fd cmd : Z)
  | FfrtDumper (proc : RemoteObject)
  | SaveStringToFd (fd : Z) (text : string).
Inductive Report :=
  | ReportSaCrash (said : Z)
  | ReportProcessStopFail (pn : string) (pid uid err : Z)
  | ReportProcessStopDuration (pn : string) (pid uid duration : Z)
  | ReportProcessStartFail (pn : string) (err : Z)
  | ReportProcessStartDuration (pn : string) (pid uid duration : Z) (info : option StartingProcessInfo)
  | ReportSamgrSaLoad (said : Z) (info : SystemProcessInfo)
  | ReportSamgrSaUnload (said : Z)
  | ReportSamgrSaLoadFail (said pid uid : Z) (reason : string)
  | ReportSaUnLoadFail (said pid uid : Z) (reason : string)
  | ReportGetSAFrequency (uid said count : Z)
  | ReportSaAbnormallyFrozen (said : Z) (pn reason : string).

(** Calls to the QoS library: set the calling thread, reset another, reset the calling one. *)
Inductive QosCall := SetThreadQos | ResetQosForOtherThread (tid : Z) | ResetThreadQos.

Inductive Ev :=
  | EvTick
  | EvQueueCreate (h : HandlerId)
  | EvQueueDestroy (q : positive)
  | EvSubmit (h : HandlerId) (q : positive) (t : Task) (delay_us : Z)
  | EvCancel (th : TaskHandle)
  | EvStartAbility (proc : RemoteObject) (said : Z) (event : string)
  | EvStopAbility (proc : RemoteObject) (said : Z) (event : string)
  | EvIdleAbility (proc : RemoteObject) (said : Z) (reason : OnDemandEvent)
  | EvActiveAbility (proc : RemoteObject) (said : Z) (reason : OnDemandEvent)
  | EvSendStrategy (proc : RemoteObject) (type said level : Z) (action : string)
  | EvServiceControl (name : string) (act : ServiceAction) (userId : Z) (extra : option string)
  | EvServiceWait (name : string)
  | EvServiceWaitUser (name : string) (userId : Z)
  | EvDeletePreferences (path : string)
  | EvThread (t : Task)
  | EvDBinder (c : DBinderCall)
  | EvDump (c : DumpCall)
  | EvLoadRemoteComplete (cb : LoadCallback) (dev : string) (said : Z) (obj : option RemoteObject)
  | EvProcess (n : ProcessNotification) (l : ProcessStatusChange) (info : SystemProcessInfo)
  | EvOnAddSystemAbility (l : StatusChange) (said : Z) (dev : string)
  | EvOnRemoveSystemAbility (l : StatusChange) (said : Z) (dev : string)
  | EvOnLoadSuccess (cb : LoadCallback) (said : Z) (obj : RemoteObject)
  | EvOnLoadFail (cb : LoadCallback) (said : Z) (err : Z)
  | EvAddDeath (k : DeathKind) (obj : RemoteObject)
  | EvRemoveDeath (k : DeathKind) (obj : RemoteObject)
  | EvSetParameter (key value : string)
  | EvCommonEvent (c : CommonEventCall)
  | EvPreferences (path : string) (c : PreferencesCall)
  | EvDevice (c : DeviceCall)
  | EvTimer (c : TimerCall)
  | EvMonitor (c : MonitorCall)
  | EvSubscribeFor (l : CollectListener) (said : Z)
  | EvRemoveParameterWatcher (key : string)
  | EvReport (r : Report)
  | EvNewCallback
  | EvQos (q : QosCall)
  | EvUsleep (us : Z)
  | EvCacheDeath (add : bool) (obj : RemoteObject)
  | EvWaitLoaded (seconds : Z)
  | EvNullDeref
  | EvWatchParameter (key : string).

Abbreviation Trace := (list Ev).

(** Names of common events the collect plugins look at
    ([EventFwk::CommonEventSupport]). *)
Record CommonEventSupport := MkCommonEventSupport {
  SCREEN_ON : string;
  SCREEN_OFF : string;
  CHARGING : string;
  DISCHARGING : string;
  POWER_CONNECTED : string;
  POWER_DISCONNECTED : string;
  USER_UNLOCKED : string;
  WIFI_POWER_STATE : string;
  BLUETOOTH_HOST_STATE_UPDATE : string;
}.

(** A value of the preferences library. *)
Inductive PreferencesValue := PrefLong (v : Z) | PrefString (v : string).

(** A device of the device manager's list. *)
Record DmDeviceInfo := MkDmDeviceInfo { dm_deviceId : string; dm_networkId : string }.

(** What the ffrt library records of a task ([ffrt_stat]). *)
Record FfrtStat := MkFfrtStat { fs_taskName : string; fs_startTime : Z; fs_endTime : Z }.

(** The statistics of the IPC library ([IPCPayloadStatistics]). *)
Record IPCInterfaceInfo := MkIPCInterfaceInfo { ipc_desc : u16string; ipc_code : Z }.
Record IPCPayloadCost := MkIPCPayloadCost { totalCost : Z; maxCost : Z; minCost : Z; averCost : Z }.
Record IPCPayloadStatistics := MkIPCPayloadStatistics {
  GetTotalCount : Z;
  GetTotalCost : Z;
  GetPids : list Z;
  GetCount : Z → Z;
  GetCost : Z → Z;
  GetDescriptorCodes : Z → list IPCInterfaceInfo;
  GetDescriptorCodeCount : Z → IPCInterfaceInfo → Z;
  GetDescriptorCodeCost : Z → IPCInterfaceInfo → IPCPayloadCost;
}.

(** The environment: constants of c_utils' errors.h, the conversions of
    string_ex.h, the build flag, and the answers of other processes and libraries
    to the calls above, most recent event first. *)
Class Env := {
  ERR_INVALID_VALUE : Z;
  ERR_PERMISSION_DENIED : Z;
  ERR_INVALID_VALUE_nz : ERR_INVALID_VALUE ≠ 0;
  ERR_PERMISSION_DENIED_nz : ERR_PERMISSION_DENIED ≠ 0;
  Str16ToStr8 : u16string → string;
  Str8ToStr16 : string → u16string;
  DeleteBlank : u16string → u16string;
  EventToStr_dump : Z → string → string → Z → string;
  SUPPORT_MULTI_INSTANCE : bool;
  SAMGR_ENABLE_EXTEND_LOAD_TIMEOUT : bool;
  PREFERENCES_ENABLE : bool;
  env_GetTickCount : Trace → Z;
  env_queue_create : Trace → option positive;
  env_queue_submit : Trace → option TaskHandle;
  env_iface_cast : RemoteObject → bool;
  env_StartAbility : Trace → bool;
  env_StopAbility : Trace → bool;
  env_IdleAbility : Trace → bool * Z;
  env_ActiveAbility : Trace → bool;
  env_ServiceControl : Trace → Z;
  env_ServiceWaitUser : Trace → Z;
  env_promote : Trace → RemoteObject → bool;
  env_GetNativeTokenInfo : Trace → Z → Z * string;
  env_GetParameter : Trace → string → string → string;
  env_GetBoolParameter : Trace → string → bool → bool;
  env_cmdline : Trace → Z → option string;
  env_transaction_proc : Trace → option (list string);
  env_ServiceStatus_STARTED : string;
  env_newCallback : Trace → LoadCallback;
  StrToInt : string → option Z;
  SplitStr : string → string → list string;
  SUPPORT_DEVICE_MANAGER : bool;
  SUPPORT_COMMON_EVENT : bool;
  SUPPORT_SWITCH_COLLECT : bool;
  SAMGR_ENABLE_DELAY_DBINDER : bool;
  ces : CommonEventSupport;
  env_SubscribeCommonEvent : Trace → bool;
  env_WatchParameter : Trace → Z;
  env_RemoveParameterWatcher : Trace → Z;
  env_GetPreferences : Trace → string → bool;
  env_PreferencesPut : Trace → bool;
  env_PreferencesFlush : Trace → bool;
  env_PreferencesDelete : Trace → bool;
  env_PreferencesHasKey : Trace → string → string → bool;
  env_PreferencesGetString : Trace → string → string → option string;
  env_PreferencesGetAll : Trace → string → gmap string PreferencesValue;
  env_time : Trace → Z;
  env_mktime : Trace → string → Z;
  env_timerfd_create : Trace → option Z;
  env_epoll_add : Trace → bool;
  env_timerfd_settime : Trace → bool;
  env_DeviceManager : Trace → DeviceCall → Z;
  env_TrustedDevices : Trace → list DmDeviceInfo;
  env_ProxyIsDead : Trace → RemoteObject → bool;
  env_StrongRefCount : Trace → RemoteObject → Z;
  env_dBinderService : Trace → bool;
  env_ffrt_dump : Trace → Z;
  env_ffrt_stat : Trace → list FfrtStat;
  env_ffrt_info : Trace → string;
  env_IpcStatistics : Trace → bool;
  env_IPCPayloadStatistics : Trace → IPCPayloadStatistics;
  env_FfrtDumperProc : Trace → option string;
  env_SaveStringToFd : Trace → bool;
  std_sort : ∀ {A : Type}, (A → A → bool) → list A → list A;
  env_coreNum : Z;
  env_proc_stat : Trace → option (list Z);
  env_uninitialised : Trace → Z;
  env_sysinfo : Trace → option (Z * Z);
  env_CheckSupportSetDeathPrior : bool;
  env_samgrObject : RemoteObject;
  env_getpid : Z;
  env_getuid : Z;
}.

(** ** State *)

(** Scheduler members that are not contexts. *)
Record Sched := MkSched {
  abilityContextMap_ : gmap Z SystemAbilityContext;
  processContextMap_ : gmap u16string SystemProcessContext;
  procListenerMap_ : gmap u16string (list ProcessStatusChange);
  subscribeProcCountMap_ : gmap Z Z;
  processListeners_ : list ProcessListener;
  processListenerDeath_ : bool;
  startEnableOnceMap_ : gmap Z (list OnDemandEvent);
  stopEnableOnceMap_ : gmap Z (list OnDemandEvent);
  runningProcessList_ : list SystemProcessInfo;
  lowMemoryProcessList_ : list u16string;
}.
#[export] Instance Sched_eta : Eta Sched := λ r,
  MkSched (abilityContextMap_ r) (processContextMap_ r) (procListenerMap_ r) (subscribeProcCountMap_ r)
    (processListeners_ r) (processListenerDeath_ r) (startEnableOnceMap_ r) (stopEnableOnceMap_ r)
    (runningProcessList_ r) (lowMemoryProcessList_ r).

(** The dynamic class of the manager object: which overrides of the virtual
    member functions it has. *)
Inductive ManagerClass := KBaseSystemAbilityManager | KSystemAbilityManager | KMultiSystemAbilityManager.

(** [MultiSystemAbilityManager::SubscriberInfo]. *)
Record SubscriberInfo := MkSubscriberInfo {
  si_remoteObject : RemoteObject;
  si_hasDirectSubscription : bool;
  si_hasForegroundSubscription : bool;
}.
#[export] Instance SubscriberInfo_eta : Eta SubscriberInfo := λ r,
  MkSubscriberInfo (si_remoteObject r) (si_hasDirectSubscription r) (si_hasForegroundSubscription r).

(** Manager members.  A pointer member that is only tested and called through is
    a boolean: [true] when it is not null. *)
Record Mgr := MkMgr {
  dynamicClass : ManagerClass;
  selfPtr_ : bool;
  userId_ : Z;
  abilityMap_ : gmap Z SAInfo;
  listenerMap_ : gmap Z (list SAListener);
  subscribeCountMap_ : gmap Z Z;
  onDemandAbilityMap_ : gmap Z u16string;
  startingAbilityMap_ : gmap Z AbilityItem;
  systemProcessMap_ : gmap u16string RemoteObject;
  startingProcessMap_ : gmap u16string StartingProcessInfo;
  callbackCountMap_ : gmap Z Z;
  saProfileMap_ : gmap Z CommonSaProfile;
  onDemandSaIdsSet_ : gset Z;
  remoteCallbacks_ : gmap string (list LoadCallback);
  saFrequencyMap_ : gmap Z Z;
  multiInstanceSaIds_ : gset Z;
  allSaProfiles_ : list SaProfile;
  subscriberInfoMap_ : gmap Z (list SubscriberInfo);
  abilityStateScheduler_ : bool;
  collectManager_ : bool;
  abilityDeath_ : bool;
  systemProcessDeath_ : bool;
  abilityStatusDeath_ : bool;
  abilityCallbackDeath_ : bool;
  remoteCallbackDeath_ : bool;
}.
#[export] Instance Mgr_eta : Eta Mgr := λ r,
  MkMgr (dynamicClass r) (selfPtr_ r) (userId_ r) (abilityMap_ r) (listenerMap_ r) (subscribeCountMap_ r)
    (onDemandAbilityMap_ r) (startingAbilityMap_ r) (systemProcessMap_ r) (startingProcessMap_ r)
    (callbackCountMap_ r) (saProfileMap_ r) (onDemandSaIdsSet_ r) (remoteCallbacks_ r)
    (saFrequencyMap_ r) (multiInstanceSaIds_ r) (allSaProfiles_ r) (subscriberInfoMap_ r) (abilityStateScheduler_ r) (collectManager_ r) (abilityDeath_ r)
    (systemProcessDeath_ r) (abilityStatusDeath_ r) (abilityCallbackDeath_ r) (remoteCallbackDeath_ r).

(** *** Members of the collect manager and of its plugins *)

(** [CommonEventCollect]; [commonEventSubscriber_] is the set of events its
    subscription names, the handlers are queues of the world. *)
Record CommonEventCollect := MkCommonEventCollect {
  commonEventNames_ : gset string;
  commonEventSubscriber_ : option (gset string);
  commonEventWhitelist : gset string;
  commonEventConditionExtraData_ : gmap string (gmap string string);
  commonEventConditionValue_ : gmap string string;
  extraDataId_ : Z;
  extraDatas_ : gmap Z OnDemandReasonExtraData;
  saExtraDataIdMap_ : gmap Z (list Z);
  isTriggerTaskStart_ : bool;
  isCancel_ : bool;
  keepRunning_ : bool;
}.
#[export] Instance CommonEventCollect_eta : Eta CommonEventCollect := λ r,
  MkCommonEventCollect (commonEventNames_ r) (commonEventSubscriber_ r) (commonEventWhitelist r)
    (commonEventConditionExtraData_ r) (commonEventConditionValue_ r) (extraDataId_ r) (extraDatas_ r)
    (saExtraDataIdMap_ r) (isTriggerTaskStart_ r) (isCancel_ r) (keepRunning_ r).
Definition newCommonEventCollect : CommonEventCollect := MkCommonEventCollect ∅ None ∅ ∅ ∅ 0 ∅ ∅ false false false.

Record TimeInfo := MkTimeInfo { ti_normal : bool; ti_awake : bool }.

(** [PreferencesUtil]: the file, and whether it is open ([ptr_]). *)
Record PreferencesUtil := MkPreferencesUtil { path_ : string; ptr_ : bool }.

Record DeviceTimedCollect := MkDeviceTimedCollect {
  nonPersitenceLoopEventSet_ : gset Z;
  persitenceLoopEventSet_ : gset Z;
  nonPersitenceLoopTasks_ : gmap Z CollectTask;
  persitenceLoopTasks_ : gmap Z CollectTask;
  timeInfos_ : gmap Z TimeInfo;
  preferencesUtil_ : option PreferencesUtil;
}.
#[export] Instance DeviceTimedCollect_eta : Eta DeviceTimedCollect := λ r,
  MkDeviceTimedCollect (nonPersitenceLoopEventSet_ r) (persitenceLoopEventSet_ r) (nonPersitenceLoopTasks_ r)
    (persitenceLoopTasks_ r) (timeInfos_ r) (preferencesUtil_ r).
Definition newDeviceTimedCollect : DeviceTimedCollect := MkDeviceTimedCollect ∅ ∅ ∅ ∅ ∅ None.

Record DeviceParamCollect := MkDeviceParamCollect {
  pendingParams_ : gset string;
  params_ : gset string;
  lowMemPrepareList_ : list Z;
}.
#[export] Instance DeviceParamCollect_eta : Eta DeviceParamCollect := λ r,
  MkDeviceParamCollect (pendingParams_ r) (params_ r) (lowMemPrepareList_ r).
Definition newDeviceParamCollect : DeviceParamCollect := MkDeviceParamCollect ∅ ∅ [].

(** [DeviceNetworkingCollect]: [stateCallback_] is its [deviceOnlineSet_]. *)
Record DeviceNetworkingCollect := MkDeviceNetworkingCollect {
  initCallback_ : bool;
  stateCallback_ : option (gset string);
}.
#[export] Instance DeviceNetworkingCollect_eta : Eta DeviceNetworkingCollect := λ r,
  MkDeviceNetworkingCollect (initCallback_ r) (stateCallback_ r).
Definition newDeviceNetworkingCollect : DeviceNetworkingCollect := MkDeviceNetworkingCollect false None.

(** [DeviceSwitchCollect]: [switchEventSubscriber_] is its [isListenSwitchEvent_]. *)
Record DeviceSwitchCollect := MkDeviceSwitchCollect {
  switchEventSubscriber_ : option bool;
  needListenSwitchEvent_ : bool;
}.
#[export] Instance DeviceSwitchCollect_eta : Eta DeviceSwitchCollect := λ r,
  MkDeviceSwitchCollect (switchEventSubscriber_ r) (needListenSwitchEvent_ r).
Definition newDeviceSwitchCollect : DeviceSwitchCollect := MkDeviceSwitchCollect None false.

Record RefCountCollect := MkRefCountCollect { unrefUnloadSaList_ : list Z; timer_ : bool }.
#[export] Instance RefCountCollect_eta : Eta RefCountCollect := λ r, MkRefCountCollect (unrefUnloadSaList_ r) (timer_ r).
Definition newRefCountCollect : RefCountCollect := MkRefCountCollect [] false.

(** [DeviceStatusCollectManager]: the event ids that have a plugin, the profiles
    with on-demand events, and the plugins. *)
Record Collect := MkCollect {
  collectPluginMap_ : gset Z;
  onDemandSaProfiles_ : list CollMgrSaProfile;
  c_common : CommonEventCollect;
  c_timed : DeviceTimedCollect;
  c_param : DeviceParamCollect;
  c_networking : DeviceNetworkingCollect;
  c_switch : DeviceSwitchCollect;
  c_refCount : RefCountCollect;
}.
#[export] Instance Collect_eta : Eta Collect := λ r,
  MkCollect (collectPluginMap_ r) (onDemandSaProfiles_ r) (c_common r) (c_timed r) (c_param r) (c_networking r)
    (c_switch r) (c_refCount r).
Definition newCollect : Collect :=
  MkCollect ∅ [] newCommonEventCollect newDeviceTimedCollect newDeviceParamCollect newDeviceNetworkingCollect
    newDeviceSwitchCollect newRefCountCollect.

(** The members of new objects. *)
Definition emptySched : Sched := MkSched ∅ ∅ ∅ ∅ [] false ∅ ∅ [] [].
Definition emptyMgr (k : ManagerClass) (userId : Z) : Mgr :=
  MkMgr k false userId ∅ ∅ ∅ ∅ ∅ ∅ ∅ ∅ ∅ ∅ ∅ ∅ ∅ [] ∅ false false false false false false false.

(** Identity of the IPC caller, as [IPCSkeleton] reports it. *)
Record Caller := MkCaller { callingPid : Z; callingUid : Z; callingTokenID : Z; callingUserID : Z }.

(** Members of [SystemAbilityManagerStub], the IPC end of the service. *)
Record StubState := MkStubState {
  isPengLai_ : bool;
  isSupportSetPrior_ : bool;
  priorEnable_ : bool;
  highPrioTidSet_ : gset Z;
}.
#[export] Instance StubState_eta : Eta StubState := λ r,
  MkStubState (isPengLai_ r) (isSupportSetPrior_ r) (priorEnable_ r) (highPrioTidSet_ r).

(** Members of [SystemAbilityManager] for SAs of other devices: whether the pointers to the
    distributed binder service and to its callback are set, and the SAs that wait for it. *)
Record Distributed := MkDistributed {
  dBinderService_ : bool;
  rpcCallbackImp_ : bool;
  isDbinderServiceInit_ : bool;
  distributedSaList_ : list Z;
}.
#[export] Instance Distributed_eta : Eta Distributed := λ r,
  MkDistributed (dBinderService_ r) (rpcCallbackImp_ r) (isDbinderServiceInit_ r) (distributedSaList_ r).

(** Static members of [SystemAbilityManagerDumper]: whether the buffer is allocated, and
    whether the ffrt library collects into it. *)
Record Dumper := MkDumper { ffrtMetricBuffer : bool; collectEnable : bool }.
#[export] Instance Dumper_eta : Eta Dumper := λ r, MkDumper (ffrtMetricBuffer r) (collectEnable r).

(** [w_foreground] is [foregroundUserId_] of the service's [UserLifecycleManager];
    [w_collect] is the manager's collect manager; [w_timeFunc] is [timeFunc] of the
    process's [SamgrTimeHandler], the tasks of its timers. *)
Record World := MkWorld {
  w_sched : Sched;
  w_mgr : Mgr;
  w_handlers : gmap HandlerId FFRTHandler;
  w_caller : Caller;
  w_trace : Trace;
  w_stub : StubState;
  w_foreground : Z;
  w_collect : Collect;
  w_timeFunc : gmap Z Task;
  w_distributed : Distributed;
  w_dumper : Dumper;
}.
#[export] Instance World_eta : Eta World := λ r,
  MkWorld (w_sched r) (w_mgr r) (w_handlers r) (w_caller r) (w_trace r) (w_stub r) (w_foreground r)
    (w_collect r) (w_timeFunc r) (w_distributed r) (w_dumper r).

(** ** The state monad *)

Definition M (A : Type) : Type := World → A * World.

#[export] Instance M_ret : MRet M := λ A a w, (a, w).
#[export] Instance M_bind : MBind M := λ A B k m w, let '(a, w') := m w in k a w'.

Definition gets {A} (f : World → A) : M A := λ w, (f w, w).
Definition modify (f : World → World) : M unit := λ w, (tt, f w).

(** [if (b) { m }]. *)
Definition when (b : bool) (m : M unit) : M unit := if b then m else mret tt.

(** [for (auto& x : l) { f(x); }]. *)
Fixpoint forM {A} (l : list A) (f : A → M unit) : M unit :=
  match l with
  | [] => mret tt
  | x :: l' => f x;; forM l' f
  end.

(** A loop that threads an accumulator. *)
Fixpoint foldM {A B} (l : list A) (b : B) (f : B → A → M B) : M B :=
  match l with
  | [] => mret b
  | x :: l' => b' ← f b x; foldM l' b' f
  end.

(** Loops that are left early: with the first error, with the first test that
    fails, with the first thing found. *)
Fixpoint whileOk {A} (f : A → M Z) (l : list A) : M Z :=
  match l with
  | [] => mret ERR_OK
  | x :: l' => r ← f x; if negb (r =? ERR_OK) then mret r else whileOk f l'
  end.
Fixpoint allM {A} (f : A → M bool) (l : list A) : M bool :=
  match l with
  | [] => mret true
  | x :: l' => b ← f x; if negb b then mret false else allM f l'
  end.
Fixpoint findM {A B} (f : A → M (option B)) (l : list A) : M (option B) :=
  match l with
  | [] => mret None
  | x :: l' => o ← f x; match o with Some b => mret (Some b) | None => findM f l' end
  end.

Definition emit (e : Ev) : M unit := modify (λ w, w <| w_trace ::= cons e |>).

(** A call that leaves the process: the answer is the environment's, given the
    trace before the call. *)
Definition ask {A} (answer : Trace → A) (e : Ev) : M A :=
  tr ← gets w_trace; emit e;; mret (answer tr).

Definition updS {T} (proj : Sched → T) `{!Setter proj} (f : T → T) : M unit :=
  modify (λ w, w <| w_sched ::= set_with proj f |>).
Definition updM {T} (proj : Mgr → T) `{!Setter proj} (f : T → T) : M unit :=
  modify (λ w, w <| w_mgr ::= set_with proj f |>).
Definition getS {T} (proj : Sched → T) : M T := gets (λ w, proj (w_sched w)).
Definition getM {T} (proj : Mgr → T) : M T := gets (λ w, proj (w_mgr w)).

Definition getD {T} (proj : Distributed → T) : M T := gets (λ w, proj (w_distributed w)).
Definition updD {T} (proj : Distributed → T) `{!Setter proj} (f : T → T) : M unit :=
  modify (λ w, w <| w_distributed ::= λ d, d <| proj ::= f |> |>).
Definition getDump {T} (proj : Dumper → T) : M T := gets (λ w, proj (w_dumper w)).
Definition updDump {T} (proj : Dumper → T) `{!Setter proj} (f : T → T) : M unit :=
  modify (λ w, w <| w_dumper ::= λ d, d <| proj ::= f |> |>).
Definition getC {T} (proj : Collect → T) : M T := gets (λ w, proj (w_collect w)).
Definition updC {T} (proj : Collect → T) `{!Setter proj} (f : T → T) : M unit :=
  modify (λ w, w <| w_collect ::= set_with proj f |>).

(** [map[k]] of a C++ map: the entry is created with value [d] when absent. *)
Definition map_touch {K V} `{Countable K} (k : K) (d : V) (m : gmap K V) : gmap K V :=
  match m !! k with Some _ => m | None => <[k := d]> m end.

(** Reads and writes through a pointer to an ability or a process context. *)
Definition derefA (said : Z) : M SystemAbilityContext :=
  gets (λ w, default newAbilityContext (abilityContextMap_ (w_sched w) !! said)).
Definition derefP (pn : u16string) : M SystemProcessContext :=
  gets (λ w, default newProcessContext (processContextMap_ (w_sched w) !! pn)).
Definition storeA (said : Z) (f : SystemAbilityContext → SystemAbilityContext) : M unit :=
  updS abilityContextMap_ (alter f said).
Definition storeP (pn : u16string) (f : SystemProcessContext → SystemProcessContext) : M unit :=
  updS processContextMap_ (alter f pn).

Section calls.
Context `{E : Env}.
Definition GetTickCount : M Z := ask env_GetTickCount EvTick.
Definition GetCallingPid : M Z := gets (λ w, callingPid (w_caller w)).
Definition GetCallingUid : M Z := gets (λ w, callingUid (w_caller w)).
Definition AddDeathRecipient (k : DeathKind) (obj : RemoteObject) : M unit := emit (EvAddDeath k obj).
Definition RemoveDeathRecipient (k : DeathKind) (obj : RemoteObject) : M unit := emit (EvRemoveDeath k obj).
(** [manager_.lock()]: whether the manager object is alive. *)
Definition lockManager : M bool := getM selfPtr_.
End calls.

(** ** Relational frame reasoning

    [respects R m]: every run of [m] relates the world before it to the world
    after it by [R].  Instances used by the components are equality of a
    projection ([same]), preservation of an invariant and reachability in an
    abstract transition system. *)

Definition respects {A} (R : relation World) (m : M A) : Prop := ∀ w, R w (m w).2.
Definition same {T} (π : World → T) : relation World := λ w w', π w = π w'.

#[export] Instance same_preorder {T} (π : World → T) : PreOrder (same π).
Proof. split; [done|]. unfold same. intros ???; congruence. Qed.

Create HintDb respects.

Section respects.
Context {R : relation World} `{!PreOrder R}.

Lemma respects_ret {A} (a : A) : respects R (mret a).
Proof. intros w. simpl. reflexivity. Qed.

Lemma respects_gets {A} (f : World → A) : respects R (gets f).
Proof. intros w. simpl. reflexivity. Qed.

Lemma respects_bind {A B} (m : M A) (k : A → M B) :
  respects R m → (∀ a, respects R (k a)) → respects R (m ≫= k).
Proof.
  intros Hm Hk w. specialize (Hm w). unfold mbind, M_bind.
  destruct (m w) as [a w'] eqn:E. simpl in *. etrans; [exact Hm|apply Hk].
Qed.

Lemma respects_when b (m : M unit) : respects R m → respects R (when b m).
Proof. destruct b; simpl; [done|]. intros _. apply respects_ret. Qed.

Lemma respects_forM {A} (l : list A) (f : A → M unit) :
  (∀ x, x ∈ l → respects R (f x)) → respects R (forM l f).
Proof.
  induction l as [|x l IH]; intros H; simpl; [apply respects_ret|].
  apply respects_bind; [apply H; set_solver|]. intros _. apply IH. set_solver.
Qed.

Lemma respects_foldM {A B} (l : list A) (b : B) (f : B → A → M B) :
  (∀ b x, respects R (f b x)) → respects R (foldM l b f).
Proof.
  revert b. induction l as [|x l IH]; intros b H; simpl; [apply respects_ret|].
  apply respects_bind; [apply H|]. intros b'. by apply IH.
Qed.

Lemma respects_whileOk {A} (l : list A) (f : A → M Z) : (∀ x, respects R (f x)) → respects R (whileOk f l).
Proof.
  intros H. induction l as [|x l IH]; simpl; [apply respects_ret|]. apply respects_bind; [apply H|]. intros r.
  destruct (negb _); [apply respects_ret|done].
Qed.
Lemma respects_allM {A} (l : list A) (f : A → M bool) : (∀ x, respects R (f x)) → respects R (allM f l).
Proof.
  intros H. induction l as [|x l IH]; simpl; [apply respects_ret|]. apply respects_bind; [apply H|]. intros r.
  destruct (negb _); [apply respects_ret|done].
Qed.
Lemma respects_findM {A B} (l : list A) (f : A → M (option B)) : (∀ x, respects R (f x)) → respects R (findM f l).
Proof.
  intros H. induction l as [|x l IH]; simpl; [apply respects_ret|]. apply respects_bind; [apply H|]. intros [b|]; [|done].
  apply respects_ret.
Qed.
End respects.

Lemma respects_mono {A} (R R' : relation World) (m : M A) :
  (∀ w w', R w w' → R' w w') → respects R m → respects R' m.
Proof. intros H Hm w. apply H, Hm. Qed.

(** The automation: follow the structure of a monadic program, close the leaves
    with the lemmas of the [respects] database or by computation. *)
Ltac respects_step :=
  lazymatch goal with
  | |- respects _ (_ ≫= _) => apply respects_bind; [|intros ?]
  | |- respects _ (mret _) => apply respects_ret
  | |- respects _ (gets _) => apply respects_gets
  | |- respects _ (getS _) => apply respects_gets
  | |- respects _ (getM _) => apply respects_gets
  | |- respects _ (derefA _) => apply respects_gets
  | |- respects _ (derefP _) => apply respects_gets
  | |- respects _ (when _ _) => apply respects_when
  | |- respects _ (forM _ _) => apply respects_forM; intros ? ?
  | |- respects _ (foldM _ _ _) => apply respects_foldM; intros ? ?
  | |- respects _ (whileOk _ _) => apply respects_whileOk; intros ?
  | |- respects _ (allM _ _) => apply respects_allM; intros ?
  | |- respects _ (findM _ _) => apply respects_findM; intros ?
  | |- respects _ (match ?x with _ => _ end) => destruct x eqn:?
  | |- respects _ (let _ := _ in _) => cbv zeta
  end.
Ltac solve_respects :=
  repeat (first [ respects_step | solve [auto with respects nocore] | solve [intros ?; reflexivity] ]);
  try solve [auto with respects].

(** Follow a program, opening the definitions that no lemma covers. *)
Ltac op_head t := lazymatch t with ?f _ => op_head f | _ => t end.
Ltac unfold_op := lazymatch goal with |- respects _ ?m => let h := op_head m in unfold h end.
Ltac solve_deep :=
  repeat first [ respects_step | solve [auto with respects] | solve [intros ?; reflexivity] | unfold_op ].

(** ** Pointwise equality of operations *)

Definition meq {A} (m m' : M A) : Prop := ∀ w, m w = m' w.

Lemma meq_refl {A} (m : M A) : meq m m.
Proof. intros w. reflexivity. Qed.

Lemma meq_bind {A B} (m m' : M A) (k k' : A → M B) :
  meq m m' → (∀ a, meq (k a) (k' a)) → meq (m ≫= k) (m' ≫= k').
Proof.
  intros Hm Hk w. unfold mbind, M_bind. rewrite (Hm w). destruct (m' w) as [a w']. apply Hk.
Qed.

Lemma meq_when b (m m' : M unit) : meq m m' → meq (when b m) (when b m').
Proof. intros H. destruct b; [exact H|apply meq_refl]. Qed.

Lemma meq_forM {A} (l : list A) (f g : A → M unit) : (∀ x, meq (f x) (g x)) → meq (forM l f) (forM l g).
Proof. intros H. induction l as [|x l IH]; simpl; [apply meq_refl|]. apply meq_bind; auto. Qed.

Create HintDb meq.

Ltac meq_step :=
  lazymatch goal with
  | |- meq (_ ≫= _) (_ ≫= _) => apply meq_bind; [|intros ?]
  | |- meq (when _ _) (when _ _) => apply meq_when
  | |- meq (forM _ _) (forM _ _) => apply meq_forM; intros ?
  | |- meq (match ?x with _ => _ end) _ => destruct x
  | |- meq (let _ := _ in _) _ => cbv zeta
  end.
(** A leaf is closed by the database, or is the same operation on both sides. *)
Ltac solve_meq :=
  repeat (first [ solve [auto with meq nocore] | meq_step | solve [simple apply meq_refl] ]).
