(* ===== verification/ParseUtil.v ===== *)
(** [ParseUtil] (services/common/src/parse_util.cpp,
    interfaces/innerkits/common/include/parse_util.h): SA profiles from JSON files, the
    libraries of SAs, and the comparison of a state with a value of a profile. *)
From Stdlib Require Import Ascii.
From S2P Require Import Prelude Types World.

(** ** JSON values

    The kinds of value of nlohmann::json; an object has each key once.  The parser
    looks at no value of a floating-point number.  [find] on a value that is not an
    object finds nothing. *)
Inductive Json :=
  | JNull
  | JBoolean (b : bool)
  | JInteger (n : Z)
  | JFloat
  | JString (s : string)
  | JArray (l : list Json)
  | JObject (m : gmap string Json).

Definition find (obj : Json) (key : string) : option Json :=
  match obj with JObject m => m !! key | _ => None end.

Inductive DlCall := DlOpen (path : string) | DlClose (handle : positive).

(** What the parser asks of the file system, the JSON library, the dynamic linker
    and string_ex.h.  [pe_parse] has no result when the value is discarded. *)
Class ParseEnv := {
  pe_realpath : string → option string;
  pe_readFile : string → option string;
  pe_parse : string → option Json;
  pe_dlopen : list DlCall → option positive;
  pe_GetCfgFiles : string → option (list (option string));
  pe_GetDirFiles : string → list string;
  pe_CheckPengLai : bool;
}.

Definition MAX_JSON_OBJECT_SIZE : Z := 50 * 1024.
Definition MAX_JSON_STRING_LENGTH : Z := 128.
Definition PARSE_FIRST_SYS_ABILITY_ID : Z := 0.
Definition PARSE_LAST_SYS_ABILITY_ID : Z := 0xffffff.
Definition MAX_EXTENSIONO_NUM : Z := 100.
Definition BOOT_START : Z := 1.
Definition CORE_START : Z := 2.
Definition OTHER_START : Z := 3.
Definition HIGH_PRIORITY : Z := 1.
Definition MEDIUM_PRIORITY : Z := 2.

(** [std::string::length]. *)
Definition len (s : string) : Z := Z.of_nat (String.length s).

(** ** Members of an object, into [out] when they have the type asked for *)

Definition GetBoolFromJson (obj : Json) (key : string) (out : bool) : bool :=
  match find obj key with Some (JBoolean b) => b | _ => out end.
Definition GetStringFromJson (obj : Json) (key : string) (out : string) : string :=
  match find obj key with Some (JString s) => s | _ => out end.
Definition GetInt32FromJson (obj : Json) (key : string) (out : Z) : Z :=
  match find obj key with Some (JInteger n) => i32 n | _ => out end.
Definition intItem (j : Json) : option Z := match j with JInteger n => Some (i32 n) | _ => None end.
Definition GetIntArrayFromJson (obj : Json) (key : string) (out : list Z) : list Z :=
  match find obj key with Some (JArray l) => out ++ omap intItem l | _ => out end.

(** ** On-demand events *)

Definition GetBootPriorityPara (bootPhase : string) : Z :=
  if bool_decide (bootPhase = "BootStartPhase") then BOOT_START
  else if bool_decide (bootPhase = "CoreStartPhase") then CORE_START else OTHER_START.

Definition GetOndemandPriorityPara (loadPriority : string) : Z :=
  if bool_decide (loadPriority = "HighPriority") then HIGH_PRIORITY
  else if bool_decide (loadPriority = "MediumPriority") then MEDIUM_PRIORITY else LOW_PRIORITY.

Definition stringItem (j : Json) : option string := match j with JString s => Some s | _ => None end.

(** The members of the object that are strings; the others are skipped. *)
Definition GetOnDemandExtraMessagesFromJson (obj : Json) (key : string) : gmap string string :=
  match find obj key with Some (JObject m) => omap stringItem m | _ => ∅ end.

Definition conditionEventId (type : string) : option Z :=
  if bool_decide (type = "deviceonline") then Some DEVICE_ONLINE
  else if bool_decide (type = "settingswitch") then Some SETTING_SWITCH
  else if bool_decide (type = "commonevent") then Some COMMON_EVENT
  else if bool_decide (type = "param") then Some PARAM
  else if bool_decide (type = "timedevent") then Some TIMED_EVENT
  else None.

(** The loop body: [None] is [continue]. *)
Definition conditionOf (condition : Json) : option OnDemandCondition :=
  let name := GetStringFromJson condition "name" "" in
  let value := GetStringFromJson condition "value" "" in
  eventId ← conditionEventId (GetStringFromJson condition "eventId" "");
  Some (MkCondition eventId name value (GetOnDemandExtraMessagesFromJson condition "extra-messages")).

Definition GetOnDemandConditionsFromJson (obj : Json) (key : string) : list OnDemandCondition :=
  match find obj key with Some (JArray l) => omap conditionOf l | _ => [] end.

(** The loop body of [GetOnDemandArrayFromJson]. *)
Definition eventOf (eventId : Z) (item : Json) : option OnDemandEvent :=
  let name := GetStringFromJson item "name" "" in
  let value := GetStringFromJson item "value" "" in
  let persistence := GetBoolFromJson item "persistence" false in
  let conditions := GetOnDemandConditionsFromJson item "conditions" in
  let enableOnce := GetBoolFromJson item "enable-once" false in
  let loadPriority := GetOndemandPriorityPara (GetStringFromJson item "load-priority" "") in
  let extraMessages := GetOnDemandExtraMessagesFromJson item "extra-messages" in
  if negb (bool_decide (name = "")) && (len name <=? MAX_JSON_STRING_LENGTH) && (len value <=? MAX_JSON_STRING_LENGTH)
  then Some (MkEvent eventId name value (-1) persistence conditions enableOnce loadPriority extraMessages)
  else None.

Definition GetOnDemandArrayFromJson (eventId : Z) (obj : Json) (key : string) (out : list OnDemandEvent)
    : list OnDemandEvent :=
  match find obj key with Some (JArray l) => out ++ omap (eventOf eventId) l | _ => out end.

Definition ParseOndemandTag (onDemandJson : Json) (out : list OnDemandEvent) : list OnDemandEvent :=
  let out := GetOnDemandArrayFromJson DEVICE_ONLINE onDemandJson "deviceonline" out in
  let out := GetOnDemandArrayFromJson SETTING_SWITCH onDemandJson "settingswitch" out in
  let out := GetOnDemandArrayFromJson COMMON_EVENT onDemandJson "commonevent" out in
  let out := GetOnDemandArrayFromJson PARAM onDemandJson "param" out in
  GetOnDemandArrayFromJson TIMED_EVENT onDemandJson "timedevent" out.

Definition ParseJsonTag (systemAbilityJson : Json) (jsonTag : string) : option Json :=
  match find systemAbilityJson jsonTag with Some (JObject m) => Some (JObject m) | _ => None end.

Definition ParseStartOndemandTag (systemAbilityJson : Json) (jsonTag : string) (out : StartOnDemand) : StartOnDemand :=
  match ParseJsonTag systemAbilityJson jsonTag with
  | None => out
  | Some j =>
      MkStartOnDemand (GetBoolFromJson j "allow-update" (start_allowUpdate out))
        (ParseOndemandTag j (start_onDemandEvents out))
  end.

Definition ParseStopOndemandTag (systemAbilityJson : Json) (jsonTag : string) (out : StopOnDemand) : StopOnDemand :=
  match ParseJsonTag systemAbilityJson jsonTag with
  | None => out
  | Some j =>
      MkStopOnDemand (GetBoolFromJson j "allow-update" (stop_allowUpdate out))
        (GetBoolFromJson j "unreferenced-unload" (unrefUnload out))
        (GetInt32FromJson j "recycle-delaytime" (delayTime out))
        (GetInt32FromJson j "longtimeunused-unload" (unusedTimeout out))
        (ParseOndemandTag j (stop_onDemandEvents out))
  end.

(** ** The profile of an SA

    [get<std::string>()] throws on another type: such a run of the parser has no
    result.  The boolean is the result of the function, next to its out parameter. *)

#[export] Instance SaProfile_eta : Eta SaProfile := λ r,
  MkSaProfile (process r) (saId r) (libPath r) (dependSa r) (dependTimeout r) (runOnCreate r) (moduleUpdate r)
    (autoRestart r) (distributed r) (dumpLevel r) (bootPhase r) (startOnDemand r) (stopOnDemand r) (recycleStrategy r)
    (extension r) (cacheCommonEvent r) (independentUnload r).

(** [SaProfile saProfile = { procName_ }]. *)
Definition newSaProfile (proc : u16string) : SaProfile :=
  MkSaProfile proc 0 "" [] 0 false false false false 0 3 (MkStartOnDemand false []) (MkStopOnDemand false false 20000 (-1) [])
    IMMEDIATELY [] false false.

Definition CheckRecycleStrategy (recycleStrategyStr : string) : option Z :=
  if bool_decide (recycleStrategyStr = "") || bool_decide (recycleStrategyStr = "immediately") then Some IMMEDIATELY
  else if bool_decide (recycleStrategyStr = "low-memory") then Some LOW_MEMORY else None.

Fixpoint extensionLoop (items : list Json) (p : SaProfile) : option (bool * SaProfile) :=
  match items with
  | [] => Some (true, p)
  | item :: items' =>
      extension_ ← stringItem item;
      if MAX_JSON_STRING_LENGTH <? len extension_ then Some (false, p)
      else if MAX_EXTENSIONO_NUM <=? Z.of_nat (length (extension p)) then Some (false, p)
      else if bool_decide (extension_ ∈ extension p) then extensionLoop items' p
      else extensionLoop items' (p <| extension ::= λ l, l ++ [extension_] |>)
  end.

Definition ParseSystemAbilityGetExtension (p : SaProfile) (j : Json) : option (bool * SaProfile) :=
  match find j "extension" with Some (JArray items) => extensionLoop items p | _ => Some (true, p) end.

Definition ParseSystemAbilityGetSaBaseInfo (p : SaProfile) (j : Json) : bool * SaProfile :=
  let p := p <| saId := GetInt32FromJson j "name" (saId p) |> in
  if saId p =? 0 then (false, p)
  else if (saId p <? PARSE_FIRST_SYS_ABILITY_ID) || (PARSE_LAST_SYS_ABILITY_ID <? saId p) then (false, p)
  else
    let p := p <| libPath := GetStringFromJson j "libpath" (libPath p) |> in
    if bool_decide (libPath p = "") then (false, p)
    else if MAX_JSON_STRING_LENGTH <? len (libPath p) then (false, p)
    else (true, p).

Definition ParseSystemAbilityGetSaExtInfo (p : SaProfile) (j : Json) : option (bool * SaProfile) :=
  let p := p <| runOnCreate := GetBoolFromJson j "run-on-create" (runOnCreate p) |>
             <| moduleUpdate := GetBoolFromJson j "module-update" (moduleUpdate p) |>
             <| autoRestart := GetBoolFromJson j "auto-restart" (autoRestart p) |>
             <| distributed := GetBoolFromJson j "distributed" (distributed p) |>
             <| cacheCommonEvent := GetBoolFromJson j "cache-common-event" (cacheCommonEvent p) |>
             <| independentUnload := GetBoolFromJson j "independent-unload" (independentUnload p) |>
             <| dependSa := GetIntArrayFromJson j "depend" (dependSa p) |>
             <| dependTimeout := GetInt32FromJson j "depend-time-out" (dependTimeout p) |> in
  let p := if dependTimeout p =? 0 then p <| dependTimeout := GetInt32FromJson j "depend_time_out" (dependTimeout p) |>
           else p in
  let p := p <| dumpLevel := GetInt32FromJson j "dump-level" (dumpLevel p) |>
             <| bootPhase := GetBootPriorityPara (GetStringFromJson j "bootphase" "") |>
             <| startOnDemand := ParseStartOndemandTag j "start-on-demand" (startOnDemand p) |>
             <| stopOnDemand := ParseStopOndemandTag j "stop-on-demand" (stopOnDemand p) |> in
  match CheckRecycleStrategy (GetStringFromJson j "recycle-strategy" "") with
  | None => Some (false, p)
  | Some r => ParseSystemAbilityGetExtension (p <| recycleStrategy := r |>) j
  end.

Definition ParseSystemAbility (p : SaProfile) (j : Json) : option (bool * SaProfile) :=
  let '(ok, p) := ParseSystemAbilityGetSaBaseInfo p j in
  if negb ok then Some (false, p) else ParseSystemAbilityGetSaExtInfo p j.

(** ** The parser object

    A profile is stored with the handle of its library. *)
Record ParseUtil := MkParseUtil {
  saProfiles_ : list (SaProfile * option positive);
  procName_ : u16string;
  parsedMultiInstanceSaIds : gset Z;
  dlCalls : list DlCall;
}.
#[export] Instance ParseUtil_eta : Eta ParseUtil := λ r,
  MkParseUtil (saProfiles_ r) (procName_ r) (parsedMultiInstanceSaIds r) (dlCalls r).
Definition newParseUtil : ParseUtil := MkParseUtil [] [] ∅ [].

(** ** Values of a profile *)

Inductive Relationship := EQ | GREATER_EQ | GREATER | LESS_EQ | LESS.

Definition compareAs (r : Relationship) (state profile : Z) : bool :=
  match r with
  | EQ => state =? profile
  | GREATER_EQ => profile <=? state
  | GREATER => profile <? state
  | LESS_EQ => state <=? profile
  | LESS => state <? profile
  end.

(** The relation at the beginning of a value and where the number begins. *)
Definition relationOf (profile : string) : Relationship * nat :=
  match profile with
  | String ">"%char (String "="%char _) => (GREATER_EQ, 2%nat)
  | String ">"%char _ => (GREATER, 1%nat)
  | String "<"%char (String "="%char _) => (LESS_EQ, 2%nat)
  | String "<"%char _ => (LESS, 1%nat)
  | _ => (EQ, 0%nat)
  end.

Definition CheckLogicRelationship `{E : Env} (state profile : string) : bool :=
  if bool_decide (profile = "") || bool_decide (state = profile) then true
  else if bool_decide (state = "") then false
  else
    let '(r, valueStartPosition) := relationOf profile in
    match StrToInt (String.substring valueStartPosition (String.length profile - 1) profile) with
    | None => false
    | Some profileInt =>
        match StrToInt state with
        | None => false
        | Some stateInt => compareAs r stateInt profileInt
        end
    end.

Section parser.
Context `{E : Env} `{PE : ParseEnv}.

(** *** Files *)

Definition GetRealPath (profilePath : string) : string := default "" (pe_realpath profilePath).
Definition CheckPathExist (profilePath : string) : bool := bool_decide (is_Some (pe_readFile profilePath)).

(** [std::string::rfind]: the last position at which [sub] begins. *)
Fixpoint rfind (sub s : string) : option nat :=
  let here := if String.prefix sub s then Some 0%nat else None in
  match s with
  | "" => here
  | String _ s' => match rfind sub s' with Some n => Some (S n) | None => here end
  end.
Definition Endswith (src sub : string) : bool :=
  (len sub <=? len src) &&
  bool_decide (rfind sub src = Some (Z.to_nat (len src - len sub))).

(** The loop that reads the file: [buffer] is in reverse. *)
Fixpoint readLoop (chars : list Ascii.ascii) (readSize : Z) (buffer : list Ascii.ascii) : option string :=
  match chars with
  | [] => Some (String.string_of_list_ascii (rev buffer))
  | ch :: chars' =>
      let readSize := readSize + 1 in
      if readSize <? MAX_JSON_OBJECT_SIZE then readLoop chars' readSize (ch :: buffer) else None
  end.

Definition ParseJsonObj (jsonPath : string) : option Json :=
  content ← pe_readFile jsonPath;
  jsonStr ← readLoop (String.list_ascii_of_string content) 0 [];
  pe_parse jsonStr.

(** *** Profiles *)

Fixpoint multiIds (items : list Json) (tmp : gset Z) : option (gset Z) :=
  match items with
  | [] => Some tmp
  | item :: items' =>
      if negb (GetBoolFromJson item "multi-instance" false) then None
      else multiIds items' (tmp ∪ {[GetInt32FromJson item "name" 0]})
  end.

Definition ParseMultiInstanceSaIds (items : list Json) (u : ParseUtil) : ParseUtil :=
  if negb SUPPORT_MULTI_INSTANCE then u
  else match multiIds items ∅ with
       | None => u
       | Some ids => u <| parsedMultiInstanceSaIds ::= λ s, s ∪ ids |>
       end.

(** The loop over the SAs of a file. *)
Fixpoint abilitiesLoop (items : list Json) (u : ParseUtil) : option ParseUtil :=
  match items with
  | [] => Some u
  | item :: items' =>
      '(ok, p) ← ParseSystemAbility (newSaProfile (procName_ u)) item;
      abilitiesLoop items' (if negb (ok : bool) then u else u <| saProfiles_ ::= λ l, l ++ [(p, None)] |>)
  end.

Definition ParseJsonFile (realPath : string) (u : ParseUtil) : option (bool * ParseUtil) :=
  match ParseJsonObj realPath with
  | None => Some (false, u)
  | Some profileJson =>
      let process_ := GetStringFromJson profileJson "process" "" in
      if bool_decide (process_ = "") then Some (false, u)
      else if MAX_JSON_STRING_LENGTH <? len process_ then Some (false, u)
      else
        let u := u <| procName_ := Str8ToStr16 process_ |> in
        match find profileJson "systemability" with
        | Some (JArray items) =>
            u' ← abilitiesLoop items u;
            let u'' := ParseMultiInstanceSaIds items u' in
            Some (negb (bool_decide (saProfiles_ u'' = [])), u'')
        | _ => Some (false, u)
        end
  end.

Definition ParseSaProfiles (profilePath : string) (u : ParseUtil) : option (bool * ParseUtil) :=
  let realPath := GetRealPath profilePath in
  if negb (CheckPathExist realPath) then Some (false, u)
  else if Endswith realPath ".json" then ParseJsonFile realPath u
  else Some (false, u).

Definition GetAllSaProfiles (u : ParseUtil) : list SaProfile := (saProfiles_ u).*1.
Definition GetProfile (said : Z) (u : ParseUtil) : option SaProfile :=
  snd <$> list_find (λ p, saId p = said) (GetAllSaProfiles u).
Definition RemoveSaProfile (said : Z) (u : ParseUtil) : ParseUtil :=
  u <| saProfiles_ ::= filter (λ p, saId p.1 ≠ said) |>.

(** A trust file: the ids of a process are added to those of [values]. *)
Definition ParseTrustConfig (profilePath : string) (values : gmap u16string (gset Z)) : bool * gmap u16string (gset Z) :=
  let realPath := GetRealPath profilePath in
  if negb (CheckPathExist realPath) then (false, values)
  else match ParseJsonObj realPath with
       | None => (false, values)
       | Some j =>
           let process_ := GetStringFromJson j "process" "" in
           if bool_decide (process_ = "") then (false, values)
           else if MAX_JSON_STRING_LENGTH <? len process_ then (false, values)
           else
             let key := Str8ToStr16 process_ in
             let saIds := default ∅ (values !! key) ∪ list_to_set (GetIntArrayFromJson j "said" []) in
             (true, <[key := saIds]> values)
       end.

(** *** The files the service parses (SamgrUtil and InitSaProfile) *)

(** [fs::path(file).filename()]. *)
Fixpoint filenameLoop (s acc : string) : string :=
  match s with
  | "" => acc
  | String c s' => if Ascii.eqb c "/"%char then filenameLoop s' s' else filenameLoop s' acc
  end.
Definition filename (file : string) : string := filenameLoop file file.

Definition GetFilesFromPath (path : string) (fileNamesMap : gmap string string) : gmap string string :=
  match pe_GetCfgFiles path with
  | None => fileNamesMap
  | Some paths =>
      foldl (λ m p, match p with
                    | None => m
                    | Some dir => foldl (λ m f, <[filename f := f]> m) m (pe_GetDirFiles dir)
                    end) fileNamesMap paths
  end.

(** The files of the last directory that has the name, in the order of names. *)
Definition GetFilesByPriority (path : string) : list string :=
  let m := GetFilesFromPath path ∅ in
  let m := if pe_CheckPengLai then GetFilesFromPath "profile/penglai" m else m in
  omap (λ k, m !! k) (sorted_keys str_le m).

Definition isProfileFile (file : string) : bool :=
  negb (bool_decide (file = "") || bool_decide (String.index 0 ".json" file = None)
        || bool_decide (is_Some (String.index 0 "_trust.json" file))).

Fixpoint parseFiles (files : list string) (u : ParseUtil) : option ParseUtil :=
  match files with
  | [] => Some u
  | file :: files' =>
      if negb (isProfileFile file) then parseFiles files' u
      else '(_, u) ← ParseSaProfiles file u; parseFiles files' u
  end.

(** *** Libraries *)

Definition CloseHandle (p : SaProfile * option positive) (u : list DlCall) : SaProfile * option positive * list DlCall :=
  match p.2 with None => (p, u) | Some h => ((p.1, None), DlClose h :: u) end.

Fixpoint closeAll (l : list (SaProfile * option positive)) (c : list DlCall)
    : list (SaProfile * option positive) * list DlCall :=
  match l with
  | [] => ([], c)
  | p :: l' => let '(p', c) := CloseHandle p c in let '(l', c) := closeAll l' c in (p' :: l', c)
  end.
Definition CloseSo (u : ParseUtil) : ParseUtil :=
  let '(l, c) := closeAll (saProfiles_ u) (dlCalls u) in u <| saProfiles_ := l |> <| dlCalls := c |>.

(** The first profile with this id. *)
Fixpoint onFirst (said : Z) (f : SaProfile * option positive → list DlCall → SaProfile * option positive * list DlCall)
    (l : list (SaProfile * option positive)) (c : list DlCall) : bool * list (SaProfile * option positive) * list DlCall :=
  match l with
  | [] => (false, [], c)
  | p :: l' =>
      if saId p.1 =? said then let '(p', c) := f p c in (true, p' :: l', c)
      else let '(b, l', c) := onFirst said f l' c in (b, p :: l', c)
  end.
Definition CloseSoById (said : Z) (u : ParseUtil) : ParseUtil :=
  let '(_, l, c) := onFirst said CloseHandle (saProfiles_ u) (dlCalls u) in u <| saProfiles_ := l |> <| dlCalls := c |>.

Definition ClearResource (u : ParseUtil) : ParseUtil :=
  let u := CloseSo u <| saProfiles_ := [] |> in
  if SUPPORT_MULTI_INSTANCE then u <| parsedMultiInstanceSaIds := ∅ |> else u.

Definition OpenSo (p : SaProfile * option positive) (c : list DlCall) : SaProfile * option positive * list DlCall :=
  match p.2 with
  | Some _ => (p, c)
  | None => let c := DlOpen (libPath p.1) :: c in ((p.1, pe_dlopen c), c)
  end.

Fixpoint openPhase (bootPhase_ : Z) (l : list (SaProfile * option positive)) (c : list DlCall)
    : list (SaProfile * option positive) * list DlCall :=
  match l with
  | [] => ([], c)
  | p :: l' =>
      let '(p', c) := if runOnCreate p.1 && (bootPhase p.1 =? bootPhase_) then OpenSo p c else (p, c) in
      let '(l', c) := openPhase bootPhase_ l' c in (p' :: l', c)
  end.
Definition OpenSoPhase (bootPhase_ : Z) (u : ParseUtil) : ParseUtil :=
  let '(l, c) := openPhase bootPhase_ (saProfiles_ u) (dlCalls u) in u <| saProfiles_ := l |> <| dlCalls := c |>.

Definition LoadSaLib (said : Z) (u : ParseUtil) : bool * ParseUtil :=
  let '(b, l, c) := onFirst said OpenSo (saProfiles_ u) (dlCalls u) in (b, u <| saProfiles_ := l |> <| dlCalls := c |>).

(** *** Events as JSON text *)

Definition StringToJsonObj (eventStr : string) : Json :=
  if bool_decide (eventStr = "") then JObject ∅
  else match pe_parse eventStr with Some (JObject m) => JObject m | _ => JObject ∅ end.

Definition JsonObjToMap (eventJson : Json) : gmap string string :=
  <["eventId" := GetStringFromJson eventJson "eventId" ""]>
    (<["name" := GetStringFromJson eventJson "name" ""]>
      (<["value" := GetStringFromJson eventJson "value" ""]> ∅)).

Definition StringToMap (eventStr : string) : gmap string string := JsonObjToMap (StringToJsonObj eventStr).
End parser.
