(* ===== verification/ParseSpec.v ===== *)
(** What the profile parser accepts: the profiles it can produce are exactly the
    well-typed ones, each from the JSON text [render] gives for it. *)
From Stdlib Require Import Ascii.
From S2P Require Import Prelude Types World ParseUtil.

(** ** Well-typed profiles *)

Definition short (s : string) : Prop := len s ≤ MAX_JSON_STRING_LENGTH.

(** The kinds of event, in the order in which the parser reads them. *)
Definition eventKinds : list Z := [DEVICE_ONLINE; SETTING_SWITCH; COMMON_EVENT; PARAM; TIMED_EVENT].

Record event_typed (e : OnDemandEvent) : Prop := {
  et_name : ev_name e ≠ "" ∧ short (ev_name e);
  et_value : short (ev_value e);
  et_extraData : extraDataId e = -1;
  et_priority : ev_loadPriority e ∈ [HIGH_PRIORITY; MEDIUM_PRIORITY; LOW_PRIORITY];
  et_conditions : Forall (λ c, cond_eventId c ∈ eventKinds) (conditions e);
}.

Definition ofKind (l : list OnDemandEvent) (k : Z) : list OnDemandEvent := filter (λ e, eventId e = k) l.
Definition events_typed (l : list OnDemandEvent) : Prop := Forall event_typed l ∧ l = eventKinds ≫= ofKind l.

Record profile_typed (p : SaProfile) : Prop := {
  pt_saId : 0 < saId p ≤ PARSE_LAST_SYS_ABILITY_ID;
  pt_libPath : libPath p ≠ "" ∧ short (libPath p);
  pt_depend : Forall is_i32 (dependSa p);
  pt_ints : is_i32 (dependTimeout p) ∧ is_i32 (dumpLevel p);
  pt_bootPhase : bootPhase p ∈ [BOOT_START; CORE_START; OTHER_START];
  pt_start : events_typed (start_onDemandEvents (startOnDemand p));
  pt_stop : events_typed (stop_onDemandEvents (stopOnDemand p));
  pt_delays : is_i32 (delayTime (stopOnDemand p)) ∧ is_i32 (unusedTimeout (stopOnDemand p));
  pt_recycle : recycleStrategy p ∈ [IMMEDIATELY; LOW_MEMORY];
  pt_extension : NoDup (extension p) ∧ Forall short (extension p) ∧ Z.of_nat (length (extension p)) ≤ MAX_EXTENSIONO_NUM;
}.

(** ** What is parsed is well typed *)

Lemma getInt_range j k out : is_i32 out → is_i32 (GetInt32FromJson j k out).
Proof. unfold GetInt32FromJson. intros ?. repeat case_match; auto using i32_range. Qed.

Lemma getIntArray_range j k : Forall is_i32 (GetIntArrayFromJson j k []).
Proof.
  unfold GetIntArrayFromJson. destruct (find j k) as [[]|]; simpl; auto.
  apply Forall_forall. intros n (i & _ & Hi)%list_elem_of_omap.
  destruct i; simplify_eq/=. apply i32_range.
Qed.

Lemma bootPhase_range s : GetBootPriorityPara s ∈ [BOOT_START; CORE_START; OTHER_START].
Proof. unfold GetBootPriorityPara. repeat case_bool_decide; set_solver. Qed.
Lemma priority_range s : GetOndemandPriorityPara s ∈ [HIGH_PRIORITY; MEDIUM_PRIORITY; LOW_PRIORITY].
Proof. unfold GetOndemandPriorityPara. repeat case_bool_decide; set_solver. Qed.

Lemma conditionOf_kind j c : conditionOf j = Some c → cond_eventId c ∈ eventKinds.
Proof.
  unfold conditionOf, conditionEventId, eventKinds. intros (k & Hk & [= <-])%bind_Some. simpl.
  repeat case_bool_decide; simplify_eq; set_solver.
Qed.

Lemma conditions_kinds j k : Forall (λ c, cond_eventId c ∈ eventKinds) (GetOnDemandConditionsFromJson j k).
Proof.
  unfold GetOnDemandConditionsFromJson. destruct (find j k) as [[]|]; auto.
  apply Forall_forall. intros c (i & _ & Hi)%list_elem_of_omap. by eapply conditionOf_kind.
Qed.

Lemma eventOf_typed k j e : eventOf k j = Some e → event_typed e ∧ eventId e = k.
Proof.
  unfold eventOf. destruct (_ && _ && _) eqn:H; [|done]. intros [= <-].
  apply andb_true_iff in H as [[Hn Hl]%andb_true_iff Hv]. apply negb_true_iff, bool_decide_eq_false in Hn.
  apply Z.leb_le in Hl, Hv. split; [|done]. split; simpl; auto using priority_range, conditions_kinds.
Qed.

(** The events one kind contributes. *)
Definition kindEvents (k : Z) (j : Json) (key : string) : list OnDemandEvent := GetOnDemandArrayFromJson k j key [].
Lemma getArray_app k j key out : GetOnDemandArrayFromJson k j key out = out ++ kindEvents k j key.
Proof. unfold kindEvents, GetOnDemandArrayFromJson. destruct (find j key) as [[]|]; simpl; by rewrite ?app_nil_r. Qed.

Lemma kindEvents_typed k j key : Forall (λ e, event_typed e ∧ eventId e = k) (kindEvents k j key).
Proof.
  unfold kindEvents, GetOnDemandArrayFromJson. destruct (find j key) as [[]|]; simpl; auto.
  apply Forall_forall. intros e (i & _ & Hi)%list_elem_of_omap. by apply eventOf_typed in Hi.
Qed.

Lemma ofKind_same k l : Forall (λ e, event_typed e ∧ eventId e = k) l → ofKind l k = l.
Proof.
  induction 1 as [|e l [_ He] _ IH]; [done|]. unfold ofKind in *. rewrite filter_cons_True by done. by rewrite IH.
Qed.
Lemma ofKind_other k k' l : Forall (λ e, event_typed e ∧ eventId e = k) l → k ≠ k' → ofKind l k' = [].
Proof.
  intros H Hk. induction H as [|e l [_ He] _ IH]; [done|]. unfold ofKind in *. by rewrite filter_cons_False by congruence.
Qed.
Lemma ofKind_app l l' k : ofKind (l ++ l') k = ofKind l k ++ ofKind l' k.
Proof. apply filter_app. Qed.

Lemma ParseOndemandTag_typed j : events_typed (ParseOndemandTag j []).
Proof.
  unfold ParseOndemandTag. rewrite !getArray_app, !app_nil_l.
  set (a := kindEvents DEVICE_ONLINE _ _). set (b := kindEvents SETTING_SWITCH _ _).
  set (c := kindEvents COMMON_EVENT _ _). set (d := kindEvents PARAM _ _). set (e := kindEvents TIMED_EVENT _ _).
  assert (Ha := kindEvents_typed DEVICE_ONLINE j "deviceonline"). assert (Hb := kindEvents_typed SETTING_SWITCH j "settingswitch").
  assert (Hc := kindEvents_typed COMMON_EVENT j "commonevent"). assert (Hd := kindEvents_typed PARAM j "param").
  assert (He := kindEvents_typed TIMED_EVENT j "timedevent"). fold a b c d e in Ha, Hb, Hc, Hd, He. split.
  - rewrite !Forall_app. split_and!; eapply Forall_impl; try eassumption; by intros ? [].
  - unfold eventKinds. simpl. rewrite !ofKind_app.
    rewrite !(ofKind_same _ a Ha), !(ofKind_same _ b Hb), !(ofKind_same _ c Hc), !(ofKind_same _ d Hd), !(ofKind_same _ e He).
    rewrite ?(ofKind_other _ _ a Ha), ?(ofKind_other _ _ b Hb), ?(ofKind_other _ _ c Hc), ?(ofKind_other _ _ d Hd),
      ?(ofKind_other _ _ e He) by done.
    by rewrite ?app_nil_r, ?app_nil_l, <- ?app_assoc.
Qed.

Lemma events_nil : events_typed [].
Proof. by split. Qed.

Lemma extensionLoop_typed items p p' :
  NoDup (extension p) ∧ Forall short (extension p) ∧ Z.of_nat (length (extension p)) ≤ MAX_EXTENSIONO_NUM →
  extensionLoop items p = Some (true, p') →
  (NoDup (extension p') ∧ Forall short (extension p') ∧ Z.of_nat (length (extension p')) ≤ MAX_EXTENSIONO_NUM) ∧
  p' = p <| extension := extension p' |>.
Proof.
  revert p. induction items as [|i items IH]; intros p Hp; cbn [extensionLoop].
  { intros [= <-]. split; [done|]. by destruct p. }
  intros (x & _ & H)%bind_Some. destruct (Z.ltb_spec MAX_JSON_STRING_LENGTH (len x)); [done|].
  destruct (Z.leb_spec MAX_EXTENSIONO_NUM (Z.of_nat (length (extension p)))); [done|].
  case_bool_decide as Hin; [by apply IH|]. destruct Hp as (Hn & Hs & Hl).
  apply IH in H as [? Heq].
  - split; [done|]. by rewrite Heq.
  - cbn. split_and!.
    + rewrite NoDup_app. split_and!; [done| |apply NoDup_singleton]. intros y Hy ->%list_elem_of_singleton. done.
    + rewrite Forall_app. split; [done|]. by repeat constructor.
    + rewrite length_app. simpl. lia.
Qed.

Lemma recycle_range s r : CheckRecycleStrategy s = Some r → r ∈ [IMMEDIATELY; LOW_MEMORY].
Proof. unfold CheckRecycleStrategy. repeat case_bool_decide; simpl; intros [= <-]; set_solver. Qed.

Lemma base_typed p j p' :
  saId p = 0 → libPath p = "" → ParseSystemAbilityGetSaBaseInfo p j = (true, p') →
  0 < saId p' ≤ PARSE_LAST_SYS_ABILITY_ID ∧ (libPath p' ≠ "" ∧ short (libPath p')) ∧
  p' = p <| saId := saId p' |> <| libPath := libPath p' |>.
Proof.
  intros H0 Hl. unfold ParseSystemAbilityGetSaBaseInfo.
  set (n := GetInt32FromJson _ _ _). set (lib := GetStringFromJson _ _ _). cbn.
  destruct (Z.eqb_spec n 0); [done|].
  destruct (Z.ltb_spec n PARSE_FIRST_SYS_ABILITY_ID); [done|]. destruct (Z.ltb_spec PARSE_LAST_SYS_ABILITY_ID n); [done|]. cbn.
  case_bool_decide; [done|]. destruct (Z.ltb_spec MAX_JSON_STRING_LENGTH (len lib)); [done|]. intros [= <-]. cbn.
  unfold PARSE_FIRST_SYS_ABILITY_ID in *. split_and!; try done; lia.
Qed.

Lemma start_typed j key : events_typed (start_onDemandEvents (ParseStartOndemandTag j key (MkStartOnDemand false []))).
Proof. unfold ParseStartOndemandTag. case_match; simpl; auto using events_nil, ParseOndemandTag_typed. Qed.
Lemma stop_typed j key :
  let s := ParseStopOndemandTag j key (MkStopOnDemand false false 20000 (-1) []) in
  events_typed (stop_onDemandEvents s) ∧ is_i32 (delayTime s) ∧ is_i32 (unusedTimeout s).
Proof.
  unfold ParseStopOndemandTag. case_match; simpl; split_and!; auto using events_nil, ParseOndemandTag_typed;
    try apply getInt_range; unfold is_i32; lia.
Qed.

Lemma extension_typed p j p' :
  profile_typed p → ParseSystemAbilityGetExtension p j = Some (true, p') → profile_typed p' ∧ process p' = process p.
Proof.
  intros Hp H. assert (∃ items, extensionLoop items p = Some (true, p')) as [items Hi].
  { unfold ParseSystemAbilityGetExtension in H. destruct (find j "extension") as [[]|]; eauto; by exists []. }
  apply extensionLoop_typed in Hi as [He ->]; [|apply Hp]. destruct Hp. split; [by split|done].
Qed.

Lemma parsed_typed proc j p :
  ParseSystemAbility (newSaProfile proc) j = Some (true, p) → profile_typed p ∧ process p = proc.
Proof.
  unfold ParseSystemAbility. destruct (ParseSystemAbilityGetSaBaseInfo _ _) as [[] q] eqn:Hb; [|done].
  apply base_typed in Hb as (Hid & Hlib & ->); [|done|done]. cbn [negb]. unfold ParseSystemAbilityGetSaExtInfo. cbn.
  destruct (CheckRecycleStrategy _) as [r|] eqn:Hr; [|done]. apply recycle_range in Hr.
  destruct (stop_typed j "stop-on-demand") as (Hs1 & Hs2 & Hs3).
  intros H. apply extension_typed in H as [Ht Hproc].
  - split; [done|]. rewrite Hproc. by case_match.
  - assert (H0 : is_i32 0) by (unfold is_i32; lia).
    assert (Hx : NoDup (@nil string) ∧ Forall short [] ∧ Z.of_nat 0 ≤ MAX_EXTENSIONO_NUM)
      by (split_and!; [constructor|constructor|unfold MAX_EXTENSIONO_NUM; lia]).
    case_match; split; cbn; auto using getInt_range, getIntArray_range, bootPhase_range, start_typed, conj.
Qed.

(** ** A text for every well-typed profile *)

Definition obj (l : list (string * Json)) : Json := JObject (list_to_map l).

Fixpoint assoc (k : string) (l : list (string * Json)) : option Json :=
  match l with [] => None | (k', j) :: l' => if String.eqb k k' then Some j else assoc k l' end.
Lemma find_obj l k : find (obj l) k = assoc k l.
Proof.
  induction l as [|[k' j] l IH]; [done|]. cbn. destruct (String.eqb_spec k k') as [->|Hne].
  - by rewrite lookup_insert_eq.
  - by rewrite lookup_insert_ne.
Qed.

Definition kindName (k : Z) : string :=
  if k =? DEVICE_ONLINE then "deviceonline" else if k =? SETTING_SWITCH then "settingswitch"
  else if k =? COMMON_EVENT then "commonevent" else if k =? PARAM then "param" else "timedevent".
Definition priorityName (n : Z) : string :=
  if n =? HIGH_PRIORITY then "HighPriority" else if n =? MEDIUM_PRIORITY then "MediumPriority" else "".
Definition phaseName (n : Z) : string :=
  if n =? BOOT_START then "BootStartPhase" else if n =? CORE_START then "CoreStartPhase" else "".
Definition strategyName (n : Z) : string := if n =? LOW_MEMORY then "low-memory" else "immediately".

Definition renderMessages (m : gmap string string) : Json := JObject (JString <$> m).
Definition renderCondition (c : OnDemandCondition) : Json :=
  obj [("eventId", JString (kindName (cond_eventId c))); ("name", JString (cond_name c)); ("value", JString (cond_value c));
       ("extra-messages", renderMessages (cond_extraMessages c))].
Definition renderEvent (e : OnDemandEvent) : Json :=
  obj [("name", JString (ev_name e)); ("value", JString (ev_value e)); ("persistence", JBoolean (persistence e));
       ("conditions", JArray (renderCondition <$> conditions e)); ("enable-once", JBoolean (ev_enableOnce e));
       ("load-priority", JString (priorityName (ev_loadPriority e)));
       ("extra-messages", renderMessages (ev_extraMessages e))].
Definition renderEvents (l : list OnDemandEvent) : list (string * Json) :=
  (λ k, (kindName k, JArray (renderEvent <$> ofKind l k))) <$> eventKinds.

Definition render (p : SaProfile) : Json :=
  let start := startOnDemand p in let stop := stopOnDemand p in
  obj [("name", JInteger (saId p)); ("libpath", JString (libPath p)); ("depend", JArray (JInteger <$> dependSa p));
       ("depend-time-out", JInteger (dependTimeout p)); ("run-on-create", JBoolean (runOnCreate p));
       ("module-update", JBoolean (moduleUpdate p)); ("auto-restart", JBoolean (autoRestart p));
       ("distributed", JBoolean (distributed p)); ("dump-level", JInteger (dumpLevel p));
       ("bootphase", JString (phaseName (bootPhase p)));
       ("start-on-demand", obj (("allow-update", JBoolean (start_allowUpdate start)) :: renderEvents (start_onDemandEvents start)));
       ("stop-on-demand", obj (("allow-update", JBoolean (stop_allowUpdate stop)) ::
          ("unreferenced-unload", JBoolean (unrefUnload stop)) :: ("recycle-delaytime", JInteger (delayTime stop)) ::
          ("longtimeunused-unload", JInteger (unusedTimeout stop)) :: renderEvents (stop_onDemandEvents stop)));
       ("recycle-strategy", JString (strategyName (recycleStrategy p)));
       ("extension", JArray (JString <$> extension p)); ("cache-common-event", JBoolean (cacheCommonEvent p));
       ("independent-unload", JBoolean (independentUnload p))].

Lemma omap_render {A B} (f : A → option B) (g : B → A) (l : list B) :
  Forall (λ x, f (g x) = Some x) l → omap f (g <$> l) = l.
Proof. induction 1 as [|x l Hx _ IH]; [done|]. cbn. rewrite Hx. by f_equal. Qed.

Lemma messages_render (m : gmap string string) : omap stringItem (JString <$> m) = m.
Proof. apply map_eq. intros k. rewrite lookup_omap, lookup_fmap. by destruct (m !! k). Qed.

Ltac read_obj := unfold GetStringFromJson, GetBoolFromJson, GetInt32FromJson, GetIntArrayFromJson,
  GetOnDemandExtraMessagesFromJson, GetOnDemandConditionsFromJson; rewrite !find_obj; cbn [assoc String.eqb Ascii.eqb Bool.eqb].

Lemma kindName_id k : k ∈ eventKinds → conditionEventId (kindName k) = Some k.
Proof. unfold eventKinds. intros H. repeat (apply elem_of_cons in H as [->|H]; [reflexivity|]). by apply elem_of_nil in H. Qed.

Lemma condition_render c : cond_eventId c ∈ eventKinds → conditionOf (renderCondition c) = Some c.
Proof.
  intros Hk. unfold conditionOf, renderCondition. read_obj. rewrite kindName_id by done. cbn.
  rewrite messages_render. by destruct c.
Qed.

Lemma event_render k e : event_typed e → eventId e = k → eventOf k (renderEvent e) = Some e.
Proof.
  intros [[Hn Hs] Hv Hx Hp Hc] <-. unfold eventOf, renderEvent. read_obj.
  rewrite (proj2 (Z.leb_le _ _) Hs), (proj2 (Z.leb_le _ _) Hv), bool_decide_eq_false_2 by done. cbn [negb andb].
  rewrite omap_render by (eapply Forall_impl; [exact Hc|apply condition_render]).
  unfold renderMessages. rewrite messages_render.
  assert (GetOndemandPriorityPara (priorityName (ev_loadPriority e)) = ev_loadPriority e) as ->
    by (repeat (apply elem_of_cons in Hp as [->|Hp]; [reflexivity|]); by apply elem_of_nil in Hp).
  rewrite <- Hx. by destruct e.
Qed.

Lemma assoc_renderEvents l k : k ∈ eventKinds → assoc (kindName k) (renderEvents l) = Some (JArray (renderEvent <$> ofKind l k)).
Proof. intros H. repeat (apply elem_of_cons in H as [->|H]; [reflexivity|]). by apply elem_of_nil in H. Qed.

Lemma kindEvents_render head l k :
  k ∈ eventKinds → Forall event_typed l → assoc (kindName k) head = None →
  kindEvents k (obj (head ++ renderEvents l)) (kindName k) = ofKind l k.
Proof.
  intros Hk Hl Hh. unfold kindEvents, GetOnDemandArrayFromJson. rewrite find_obj.
  assert (assoc (kindName k) (head ++ renderEvents l) = Some (JArray (renderEvent <$> ofKind l k))) as ->.
  { induction head as [|[k' j] head IH]; [by apply assoc_renderEvents|]. cbn in *. by destruct (String.eqb _ _); [|apply IH]. }
  simpl. apply omap_render, Forall_forall. intros e [He Hin]%list_elem_of_filter. apply event_render; [|done].
  by apply (proj1 (Forall_forall _ _) Hl).
Qed.

Lemma ParseOndemandTag_render head l :
  events_typed l → (∀ k, k ∈ eventKinds → assoc (kindName k) head = None) →
  ParseOndemandTag (obj (head ++ renderEvents l)) [] = l.
Proof.
  intros [Ht Hl] Hh. unfold ParseOndemandTag. rewrite !getArray_app, !app_nil_l.
  assert (H : ∀ k, k ∈ eventKinds → kindEvents k (obj (head ++ renderEvents l)) (kindName k) = ofKind l k)
    by (intros; apply kindEvents_render; auto).
  set (j := obj (head ++ renderEvents l)) in *.
  pose proof (H DEVICE_ONLINE ltac:(set_solver)) as H1. pose proof (H SETTING_SWITCH ltac:(set_solver)) as H2.
  pose proof (H COMMON_EVENT ltac:(set_solver)) as H3. pose proof (H PARAM ltac:(set_solver)) as H4.
  pose proof (H TIMED_EVENT ltac:(set_solver)) as H5. cbn in H1, H2, H3, H4, H5. rewrite H1, H2, H3, H4, H5.
  etransitivity; [|symmetry; exact Hl]. unfold eventKinds. simpl. by rewrite app_nil_r, <- !app_assoc.
Qed.

Lemma extension_render l p :
  NoDup (extension p ++ l) → Forall short l → Z.of_nat (length (extension p ++ l)) ≤ MAX_EXTENSIONO_NUM →
  extensionLoop (JString <$> l) p = Some (true, p <| extension := extension p ++ l |>).
Proof.
  revert p. induction l as [|x l IH]; intros p Hn Hs Hl; cbn [extensionLoop fmap list_fmap].
  { rewrite app_nil_r. by destruct p. }
  apply Forall_cons in Hs as [Hx Hs]. cbn. unfold short in Hx.
  rewrite (proj2 (Z.ltb_ge _ _) Hx). rewrite length_app in Hl. simpl in Hl.
  rewrite (proj2 (Z.leb_gt MAX_EXTENSIONO_NUM (Z.of_nat (length (extension p))))) by lia.
  rewrite bool_decide_eq_false_2.
  - rewrite IH; cbn; rewrite <- ?app_assoc; [done|done|done|]. rewrite length_app. simpl. lia.
  - intros Hin. apply NoDup_app in Hn as (_ & Hd & _). apply (Hd x Hin), list_elem_of_here.
Qed.

Lemma base_render proc p :
  profile_typed p →
  ParseSystemAbilityGetSaBaseInfo (newSaProfile proc) (render p) =
  (true, (newSaProfile proc) <| saId := saId p |> <| libPath := libPath p |>).
Proof.
  intros Hp. destruct (pt_saId p Hp), (pt_libPath p Hp) as [? Hs]. unfold ParseSystemAbilityGetSaBaseInfo, render. read_obj.
  rewrite i32_id by (unfold is_i32, PARSE_LAST_SYS_ABILITY_ID in *; lia). cbn -[PARSE_LAST_SYS_ABILITY_ID Z.ltb Z.eqb].
  rewrite (proj2 (Z.eqb_neq (saId p) 0)) by lia.
  rewrite (proj2 (Z.ltb_ge (saId p) PARSE_FIRST_SYS_ABILITY_ID)) by (unfold PARSE_FIRST_SYS_ABILITY_ID; lia).
  rewrite (proj2 (Z.ltb_ge PARSE_LAST_SYS_ABILITY_ID (saId p))) by lia.
  rewrite bool_decide_eq_false_2 by done. by rewrite (proj2 (Z.ltb_ge _ _) Hs).
Qed.

Lemma no_kind k : k ∈ eventKinds → assoc (kindName k) [("allow-update", JNull); ("unreferenced-unload", JNull);
  ("recycle-delaytime", JNull); ("longtimeunused-unload", JNull)] = None.
Proof. intros H. repeat (apply elem_of_cons in H as [->|H]; [reflexivity|]). by apply elem_of_nil in H. Qed.
Lemma assoc_keys k l l' : l.*1 = l'.*1 → assoc k l = None → assoc k l' = None.
Proof.
  revert l'. induction l as [|[a x] l IH]; intros [|[b y] l'] Heq; try done. cbn in *. injection Heq as -> Heq.
  destruct (String.eqb k b); [done|]. eauto.
Qed.

Lemma start_render p :
  events_typed (start_onDemandEvents (startOnDemand p)) →
  ParseStartOndemandTag (render p) "start-on-demand" (MkStartOnDemand false []) = startOnDemand p.
Proof.
  intros He. unfold ParseStartOndemandTag, ParseJsonTag, render. rewrite find_obj. cbn [assoc String.eqb Ascii.eqb Bool.eqb].
  set (h := [("allow-update", JBoolean (start_allowUpdate (startOnDemand p)))]).
  change (_ :: renderEvents _) with (h ++ renderEvents (start_onDemandEvents (startOnDemand p))).
  unfold obj at 1. fold (obj (h ++ renderEvents (start_onDemandEvents (startOnDemand p)))).
  cbn [start_onDemandEvents]. rewrite ParseOndemandTag_render; [|done|].
  - unfold GetBoolFromJson. rewrite find_obj. cbn. by destruct (startOnDemand p).
  - intros k Hk. assert (H := no_kind k Hk). cbn in *. by destruct (String.eqb _ "allow-update").
Qed.

Lemma stop_render p :
  events_typed (stop_onDemandEvents (stopOnDemand p)) →
  is_i32 (delayTime (stopOnDemand p)) → is_i32 (unusedTimeout (stopOnDemand p)) →
  ParseStopOndemandTag (render p) "stop-on-demand" (MkStopOnDemand false false 20000 (-1) []) = stopOnDemand p.
Proof.
  intros He Hd Hu. unfold ParseStopOndemandTag, ParseJsonTag, render. rewrite find_obj. cbn [assoc String.eqb Ascii.eqb Bool.eqb].
  set (h := [("allow-update", JBoolean (stop_allowUpdate (stopOnDemand p)));
    ("unreferenced-unload", JBoolean (unrefUnload (stopOnDemand p)));
    ("recycle-delaytime", JInteger (delayTime (stopOnDemand p)));
    ("longtimeunused-unload", JInteger (unusedTimeout (stopOnDemand p)))]).
  change (_ :: _ :: _ :: _ :: renderEvents _) with (h ++ renderEvents (stop_onDemandEvents (stopOnDemand p))).
  unfold obj at 1. fold (obj (h ++ renderEvents (stop_onDemandEvents (stopOnDemand p)))).
  cbn [stop_onDemandEvents]. rewrite ParseOndemandTag_render; [|done|].
  - unfold GetBoolFromJson, GetInt32FromJson. rewrite !find_obj. cbn -[i32]. rewrite !i32_id by done. by destruct (stopOnDemand p).
  - intros k Hk. by eapply assoc_keys, no_kind.
Qed.

Lemma flags_render p b :
  GetBoolFromJson (render p) "run-on-create" b = runOnCreate p ∧ GetBoolFromJson (render p) "module-update" b = moduleUpdate p ∧
  GetBoolFromJson (render p) "auto-restart" b = autoRestart p ∧ GetBoolFromJson (render p) "distributed" b = distributed p ∧
  GetBoolFromJson (render p) "cache-common-event" b = cacheCommonEvent p ∧
  GetBoolFromJson (render p) "independent-unload" b = independentUnload p.
Proof. unfold render. read_obj. done. Qed.

Lemma numbers_render p n :
  Forall is_i32 (dependSa p) → is_i32 (dependTimeout p) → is_i32 (dumpLevel p) →
  GetIntArrayFromJson (render p) "depend" [] = dependSa p ∧ GetInt32FromJson (render p) "depend-time-out" n = dependTimeout p ∧
  GetInt32FromJson (render p) "depend_time_out" n = n ∧ GetInt32FromJson (render p) "dump-level" n = dumpLevel p.
Proof.
  intros Hd Ht Hu. unfold render. read_obj. rewrite !i32_id by done. split_and!; try done. apply omap_render.
  eapply Forall_impl; [exact Hd|]. intros x Hx. cbn. by rewrite i32_id.
Qed.

Lemma names_render p :
  bootPhase p ∈ [BOOT_START; CORE_START; OTHER_START] → recycleStrategy p ∈ [IMMEDIATELY; LOW_MEMORY] →
  GetBootPriorityPara (GetStringFromJson (render p) "bootphase" "") = bootPhase p ∧
  CheckRecycleStrategy (GetStringFromJson (render p) "recycle-strategy" "") = Some (recycleStrategy p).
Proof.
  intros Hb Hr. unfold render. read_obj. split.
  - repeat (apply elem_of_cons in Hb as [->|Hb]; [reflexivity|]). by apply elem_of_nil in Hb.
  - repeat (apply elem_of_cons in Hr as [->|Hr]; [reflexivity|]). by apply elem_of_nil in Hr.
Qed.

Lemma render_parsed p : profile_typed p → ParseSystemAbility (newSaProfile (process p)) (render p) = Some (true, p).
Proof.
  intros Hp. unfold ParseSystemAbility. rewrite base_render by done. cbn [negb].
  destruct Hp as [_ _ Hd [Ht Hu] Hb Hst Hsp [Hx1 Hx2] Hr (He1 & He2 & He3)].
  destruct (flags_render p false) as (F1 & F2 & F3 & F4 & F5 & F6), (numbers_render p 0 Hd Ht Hu) as (N1 & N2 & N3 & N4),
    (names_render p Hb Hr) as [B R].
  assert (X : ∀ q, extension q = [] → ParseSystemAbilityGetExtension q (render p) = Some (true, q <| extension := extension p |>)).
  { intros q Hq. unfold ParseSystemAbilityGetExtension, render. rewrite find_obj. cbn [assoc String.eqb Ascii.eqb Bool.eqb].
    rewrite extension_render; rewrite ?Hq; done. }
  unfold ParseSystemAbilityGetSaExtInfo. rewrite R. cbn -[render]. rewrite F1, F2, F3, F4, F5, F6, N1, N2.
  destruct (Z.eqb_spec (dependTimeout p) 0) as [H0|H0]; cbn -[render]; rewrite ?H0, ?N3, N4, B, start_render, stop_render, X by done;
    cbn -[render]; rewrite <- ?H0; by destruct p.
Qed.

(** What a profile that names only the id and the library leads to. *)
Lemma defaults_parsed proc n lib :
  0 < n ≤ PARSE_LAST_SYS_ABILITY_ID → lib ≠ "" → short lib →
  ParseSystemAbility (newSaProfile proc) (obj [("name", JInteger n); ("libpath", JString lib)]) =
  Some (true, (newSaProfile proc) <| saId := n |> <| libPath := lib |>).
Proof.
  intros Hn Hl Hs. unfold ParseSystemAbility, ParseSystemAbilityGetSaBaseInfo. read_obj.
  rewrite i32_id by (unfold is_i32, PARSE_LAST_SYS_ABILITY_ID in *; lia). cbn -[PARSE_LAST_SYS_ABILITY_ID Z.ltb Z.eqb].
  rewrite (proj2 (Z.eqb_neq n 0)) by lia.
  rewrite (proj2 (Z.ltb_ge n PARSE_FIRST_SYS_ABILITY_ID)) by (unfold PARSE_FIRST_SYS_ABILITY_ID; lia).
  rewrite (proj2 (Z.ltb_ge PARSE_LAST_SYS_ABILITY_ID n)) by lia.
  rewrite bool_decide_eq_false_2 by done. rewrite (proj2 (Z.ltb_ge _ _) Hs). cbn [orb negb].
  set (j := obj _). assert (Hf : ∀ key, String.eqb key "name" = false → String.eqb key "libpath" = false → find j key = None).
  { intros key H1 H2. unfold j. rewrite find_obj. cbn [assoc]. by rewrite H1, H2. }
  assert (B : ∀ key b, String.eqb key "name" = false → String.eqb key "libpath" = false → GetBoolFromJson j key b = b)
    by (intros; unfold GetBoolFromJson; by rewrite Hf).
  assert (I : ∀ key b, String.eqb key "name" = false → String.eqb key "libpath" = false → GetInt32FromJson j key b = b)
    by (intros; unfold GetInt32FromJson; by rewrite Hf).
  assert (S : ∀ key b, String.eqb key "name" = false → String.eqb key "libpath" = false → GetStringFromJson j key b = b)
    by (intros; unfold GetStringFromJson; by rewrite Hf).
  assert (A : GetIntArrayFromJson j "depend" [] = []) by (unfold GetIntArrayFromJson; by rewrite Hf).
  assert (T1 : ∀ o, ParseStartOndemandTag j "start-on-demand" o = o)
    by (intros; unfold ParseStartOndemandTag, ParseJsonTag; by rewrite Hf).
  assert (T2 : ∀ o, ParseStopOndemandTag j "stop-on-demand" o = o)
    by (intros; unfold ParseStopOndemandTag, ParseJsonTag; by rewrite Hf).
  assert (X : ∀ q, ParseSystemAbilityGetExtension q j = Some (true, q))
    by (intros; unfold ParseSystemAbilityGetExtension; by rewrite Hf).
  clearbody j. unfold ParseSystemAbilityGetSaExtInfo. rewrite (S "recycle-strategy") by done.
  change (CheckRecycleStrategy "") with (Some IMMEDIATELY).
  cbn -[ParseSystemAbilityGetExtension GetBoolFromJson GetInt32FromJson GetStringFromJson GetIntArrayFromJson
    ParseStartOndemandTag ParseStopOndemandTag].
  rewrite !B, !I, S, A, T1, T2 by done. cbn -[ParseSystemAbilityGetExtension]. by rewrite X.
Qed.

(** C40: The profiles the parser can produce for an SA are exactly the well-typed ones: ids in
    the range of SA ids, names and values within their limits, 32-bit numbers,
    events with a name, of a known kind and in the order of the kinds, known phases,
    priorities and recycle strategies, at most 100 different extensions; no JSON text
    leads to another profile.  Each member is read from its tag: the object that has the
    members of a well-typed profile under the tags spelled out here, events
    included, is parsed to that very profile.  And an object with only the id and the
    library is parsed to a profile whose other members have their defaults. *)
Theorem parser_range proc p :
  (profile_typed p ∧ process p = proc ↔ ∃ j, ParseSystemAbility (newSaProfile proc) j = Some (true, p)) ∧
  (profile_typed p → process p = proc →
   let events l :=
     (λ '(key, kind), (key, JArray ((λ e : OnDemandEvent,
        obj [("name", JString (ev_name e)); ("value", JString (ev_value e)); ("persistence", JBoolean (persistence e));
             ("conditions", JArray ((λ c : OnDemandCondition,
                obj [("eventId", JString (kindName (cond_eventId c))); ("name", JString (cond_name c));
                     ("value", JString (cond_value c)); ("extra-messages", JObject (JString <$> cond_extraMessages c))])
                <$> conditions e));
             ("enable-once", JBoolean (ev_enableOnce e)); ("load-priority", JString (priorityName (ev_loadPriority e)));
             ("extra-messages", JObject (JString <$> ev_extraMessages e))]) <$> filter (λ e, eventId e = kind) l)))
     <$> [("deviceonline", DEVICE_ONLINE); ("settingswitch", SETTING_SWITCH); ("commonevent", COMMON_EVENT);
          ("param", PARAM); ("timedevent", TIMED_EVENT)] in
   ParseSystemAbility (newSaProfile proc)
     (obj [("name", JInteger (saId p)); ("libpath", JString (libPath p)); ("depend", JArray (JInteger <$> dependSa p));
           ("depend-time-out", JInteger (dependTimeout p)); ("run-on-create", JBoolean (runOnCreate p));
           ("module-update", JBoolean (moduleUpdate p)); ("auto-restart", JBoolean (autoRestart p));
           ("distributed", JBoolean (distributed p)); ("dump-level", JInteger (dumpLevel p));
           ("bootphase", JString (phaseName (bootPhase p)));
           ("start-on-demand", obj (("allow-update", JBoolean (start_allowUpdate (startOnDemand p))) ::
              events (start_onDemandEvents (startOnDemand p))));
           ("stop-on-demand", obj (("allow-update", JBoolean (stop_allowUpdate (stopOnDemand p))) ::
              ("unreferenced-unload", JBoolean (unrefUnload (stopOnDemand p))) ::
              ("recycle-delaytime", JInteger (delayTime (stopOnDemand p))) ::
              ("longtimeunused-unload", JInteger (unusedTimeout (stopOnDemand p))) ::
              events (stop_onDemandEvents (stopOnDemand p))));
           ("recycle-strategy", JString (strategyName (recycleStrategy p)));
           ("extension", JArray (JString <$> extension p)); ("cache-common-event", JBoolean (cacheCommonEvent p));
           ("independent-unload", JBoolean (independentUnload p))]) = Some (true, p)) ∧
  (∀ n lib, 0 < n ≤ 0xffffff → lib ≠ "" → len lib ≤ 128 →
   ParseSystemAbility (newSaProfile proc) (obj [("name", JInteger n); ("libpath", JString lib)]) =
   Some (true, MkSaProfile proc n lib [] 0 false false false false 0 OTHER_START (MkStartOnDemand false [])
     (MkStopOnDemand false false 20000 (-1) []) IMMEDIATELY [] false false)).
Proof.
  split; [|split].
  - split; [|by intros [j Hj]; eapply parsed_typed]. intros [Hp <-]. exists (render p). by apply render_parsed.
  - intros Hp <-. exact (render_parsed p Hp).
  - intros n lib. apply defaults_parsed.
Qed.

(** ** Files *)

Section files.
Context `{E : Env} `{PE : ParseEnv}.

Lemma readLoop_size l n buf :
  readLoop l n buf =
  if (n + Z.of_nat (length l) <? MAX_JSON_OBJECT_SIZE) || bool_decide (l = [])
  then Some (String.string_of_list_ascii (rev buf ++ l)) else None.
Proof.
  revert n buf. induction l as [|c l IH]; intros n buf; cbn [readLoop].
  { rewrite bool_decide_eq_true_2, orb_true_r by done. by rewrite app_nil_r. }
  rewrite IH, (bool_decide_eq_false_2 (c :: l = [])), orb_false_r by done. cbn [rev length]. rewrite <- app_assoc. simpl.
  destruct (Z.ltb_spec (n + 1) MAX_JSON_OBJECT_SIZE), (Z.ltb_spec (n + Z.of_nat (S (length l))) MAX_JSON_OBJECT_SIZE),
    (Z.ltb_spec (n + 1 + Z.of_nat (length l)) MAX_JSON_OBJECT_SIZE); simpl; try lia; try done; case_bool_decide; subst; simpl in *; done || lia.
Qed.

Lemma abilities_typed items u u' :
  abilitiesLoop items u = Some u' → Forall profile_typed (GetAllSaProfiles u) → Forall profile_typed (GetAllSaProfiles u').
Proof.
  revert u. induction items as [|i items IH]; intros u; cbn [abilitiesLoop]; [by intros [= ->]|].
  intros ([[] p] & Hp & H)%bind_Some Hu; cbn [negb] in H; apply IH in H; try done.
  unfold GetAllSaProfiles. cbn. rewrite fmap_app, Forall_app. split; [done|].
  apply Forall_singleton. by apply parsed_typed in Hp as [].
Qed.

Lemma multi_profiles items u : GetAllSaProfiles (ParseMultiInstanceSaIds items u) = GetAllSaProfiles u.
Proof. unfold ParseMultiInstanceSaIds. by repeat case_match. Qed.

Lemma file_typed path u b u' :
  ParseSaProfiles path u = Some (b, u') → Forall profile_typed (GetAllSaProfiles u) → Forall profile_typed (GetAllSaProfiles u').
Proof.
  unfold ParseSaProfiles, ParseJsonFile. intros H Hu. repeat case_match; simplify_eq/=; try done.
  apply bind_Some in H as (u1 & Hu1 & [= _ <-]). rewrite multi_profiles. by eapply abilities_typed.
Qed.

(** Every profile the service starts from is well typed. *)
Lemma files_typed files u u' :
  parseFiles files u = Some u' → Forall profile_typed (GetAllSaProfiles u) → Forall profile_typed (GetAllSaProfiles u').
Proof.
  revert u. induction files as [|f files IH]; intros u; cbn [parseFiles]; [by intros [= ->]|].
  destruct (negb _); [apply IH|]. intros ([b u1] & H1 & H)%bind_Some Hu. eapply IH; [done|]. by eapply file_typed.
Qed.
End files.

(** ** Names and values *)

Lemma prefix_app s t : String.prefix s t = true ↔ ∃ k, t = s +:+ k.
Proof.
  revert t. induction s as [|c s IH]; intros t; [split; [by exists t|by destruct t]|].
  destruct t as [|d t]; [split; [done|]; intros [k Hk]; by rewrite string_app_cons in Hk|]. simpl.
  destruct (Ascii.ascii_dec c d) as [->|Hne].
  - rewrite IH. split; intros [k Hk]; exists k; rewrite string_app_cons in *; [by rewrite Hk|by injection Hk].
  - split; [done|]. intros [k Hk]. rewrite string_app_cons in Hk. by injection Hk.
Qed.

Lemma rfind_some sub s n : rfind sub s = Some n → ∃ pre k, s = pre +:+ sub +:+ k ∧ String.length pre = n.
Proof.
  revert n. induction s as [|c s IH]; intros n; cbn [rfind].
  - destruct (String.prefix sub "") eqn:H; [|done]. intros [= <-]. apply prefix_app in H as [k Hk]. by exists "", k.
  - destruct (rfind sub s) as [m|].
    + intros [= <-]. destruct (IH m eq_refl) as (pre & k & -> & <-). by exists (String c pre), k.
    + destruct (String.prefix sub (String c s)) eqn:H; [|done]. intros [= <-]. apply prefix_app in H as [k Hk]. by exists "", k.
Qed.
Lemma rfind_suffix sub pre : rfind sub (pre +:+ sub) = Some (String.length pre).
Proof.
  induction pre as [|c pre IH]; [|rewrite string_app_cons; simpl; by rewrite IH].
  change (rfind sub sub = Some 0%nat).
  assert (Hp : String.prefix sub sub = true) by (apply prefix_app; exists ""; by rewrite string_app_nil_r).
  destruct (rfind sub sub) as [n|] eqn:Hr.
  - apply rfind_some in Hr as (p & k & Heq & <-). f_equal. assert (H := f_equal String.length Heq).
    rewrite !string_length_app in H. lia.
  - destruct sub; cbn [rfind] in *; rewrite ?Hp in Hr; [done|]. by case_match.
Qed.

(** [Endswith] is what its name says. *)
Lemma Endswith_spec src sub : Endswith src sub = true ↔ ∃ pre, src = pre +:+ sub.
Proof.
  unfold Endswith, len. rewrite andb_true_iff, bool_decide_eq_true, Z.leb_le. split.
  - intros [Hl Hr]. apply rfind_some in Hr as (pre & k & Heq & Hn). exists pre.
    assert (H := f_equal String.length Heq). rewrite !string_length_app in H.
    destruct k; simpl in *; [|lia]. by rewrite string_app_nil_r in Heq.
  - intros [pre ->]. rewrite string_length_app, rfind_suffix. split; [lia|]. f_equal. lia.
Qed.

Section values.
Context `{E : Env}.

Definition sign (r : Relationship) : string :=
  match r with EQ => "" | GREATER_EQ => ">=" | GREATER => ">" | LESS_EQ => "<=" | LESS => "<" end.

(** With a sign before a number that does not begin with [=], the state is compared
    with that number. *)
Lemma signed_value r num state n m :
  r ≠ EQ → state ≠ "" → state ≠ sign r +:+ num → String.get 0 num ≠ Some "="%char →
  StrToInt num = Some n → StrToInt state = Some m →
  CheckLogicRelationship state (sign r +:+ num) = compareAs r m n.
Proof.
  intros Hr Hs Hne He Hn Hm. unfold CheckLogicRelationship.
  rewrite (bool_decide_eq_false_2 (sign r +:+ num = "")) by (by destruct r).
  rewrite (bool_decide_eq_false_2 (state = sign r +:+ num)), (bool_decide_eq_false_2 (state = "")) by done. cbn [orb].
  assert (relationOf (sign r +:+ num) = (r, String.length (sign r))) as ->.
  { destruct r; [done|done| |done|]; (destruct num as [|c num]; [done|]); cbn in He; by destruct c as [[] [] [] [] [] [] [] []]. }
  rewrite substring_skip, substring_all; [by rewrite Hn, Hm|]. rewrite string_length_app. destruct r; simpl; [done|lia..].
Qed.

(** Without a sign the last character of the value is dropped before the
    comparison: the state 5 passes for the value 50. *)
Lemma plain_value_drops_last num c state n m :
  state ≠ "" → state ≠ num +:+ String c "" → relationOf (num +:+ String c "") = (EQ, 0%nat) →
  StrToInt num = Some n → StrToInt state = Some m →
  CheckLogicRelationship state (num +:+ String c "") = (m =? n).
Proof.
  intros Hs Hne Hr Hn Hm. unfold CheckLogicRelationship.
  rewrite (bool_decide_eq_false_2 (num +:+ String c "" = "")) by (by destruct num).
  rewrite (bool_decide_eq_false_2 (state = _)), (bool_decide_eq_false_2 (state = "")) by done. cbn [orb]. rewrite Hr.
  assert (String.substring 0 (String.length (num +:+ String c "") - 1) (num +:+ String c "") = num) as ->.
  { rewrite string_length_app. simpl. replace (String.length num + 1 - 1)%nat with (String.length num) by lia.
    clear. induction num as [|d num IH]; [done|]. rewrite string_app_cons. cbn. by rewrite IH. }
  by rewrite Hn, Hm.
Qed.
End values.
