(* ===== verification/Parcel.v ===== *)
(** Message parcels: the buffers IPC requests and replies travel in.

    [MessageParcel] belongs to the IPC framework, so it is a parameter: a type of
    parcels with typed reads and writes ([Parcels]) and what its documentation
    promises of them ([ParcelLaws]): a parcel is a queue, a read of the kind of
    the oldest unread value returns that value, and each unread value takes at
    least one of the readable bytes.  [queueParcels] is the plain queue, which
    has the laws.

    The second half is the monad [X] both ends of a call are written in: a parcel
    to read from, a parcel to write to, the state of the service, and early
    return. *)
From S2P Require Import Prelude Types World.

(** ** Values a parcel carries *)

Inductive Kind :=
  | KToken | KInt32 | KInt64 | KBool | KString | KString16 | KObject
  | KInt32Vector | KInt64Vector | KString16Vector | KExtraData | KFileDescriptor.

Definition denote (k : Kind) : Type :=
  match k with
  | KToken | KString16 => u16string
  | KInt32 | KInt64 | KFileDescriptor => Z
  | KBool => bool
  | KString => string
  | KObject => RemoteObject
  | KInt32Vector | KInt64Vector => list Z
  | KString16Vector => list u16string
  | KExtraData => OnDemandReasonExtraData
  end.

(** What a value becomes when it is converted to the kind's C++ type. *)
Definition conv (k : Kind) : denote k → denote k :=
  match k with
  | KInt32 => i32
  | KInt64 => i64
  | KInt32Vector => fmap i32
  | KInt64Vector => fmap i64
  | _ => λ v, v
  end.

Abbreviation Item := {k : Kind & denote k}.
Definition item (k : Kind) (v : denote k) : Item := existT k (conv k v).

(** ** The interface of parcels *)

Class Parcels := {
  Parcel : Type;
  emptyParcel : Parcel;
  Write : ∀ k, denote k → Parcel → bool * Parcel;
  Read : ∀ k, Parcel → option (denote k) * Parcel;
  GetReadableBytes : Parcel → Z;
}.

(** [unread p] is what was written to [p] and not read yet, oldest first; a write
    succeeds as long as the parcel has room. *)
Class ParcelLaws (P : Parcels) := {
  unread : Parcel → list Item;
  unread_empty : unread emptyParcel = [];
  Write_unread k v p : (Write k v p).1 = true → unread (Write k v p).2 = unread p ++ [item k v];
  Read_unread k v p l : unread p = item k v :: l → (Read k p).1 = Some (conv k v) ∧ unread (Read k p).2 = l;
  readable_unread p : Z.of_nat (length (unread p)) ≤ GetReadableBytes p;
}.

(** Parcels whose capacity is not exhausted. *)
Class RoomyParcels (P : Parcels) : Prop := Write_room : ∀ k v p, (Write k v p).1 = true.

(** ** The queue *)

Instance Kind_eq_dec : EqDecision Kind.
Proof. solve_decision. Defined.

Definition readItem (k : Kind) (i : Item) : option (denote k) :=
  match decide (projT1 i = k) with
  | left e => Some (eq_rect _ denote (projT2 i) _ e)
  | right _ => None
  end.

Definition queueParcels : Parcels := {|
  Parcel := list Item;
  emptyParcel := [];
  Write k v p := (true, p ++ [item k v]);
  Read k p := match p with [] => (None, []) | i :: l => (readItem k i, l) end;
  GetReadableBytes p := 4 * Z.of_nat (length p);
|}.

Lemma readItem_same k v : readItem k (existT k v) = Some v.
Proof.
  unfold readItem; simpl. case_decide as H; [|done].
  by rewrite <- (Eqdep_dec.eq_rect_eq_dec Kind_eq_dec).
Qed.

#[export] Program Instance queueParcels_laws : ParcelLaws queueParcels := {| unread := λ p, p |}.
Next Obligation. done. Qed.
Next Obligation. done. Qed.
Next Obligation. simpl. intros k v p l ->. simpl. unfold item. by rewrite readItem_same. Qed.
Next Obligation. simpl. lia. Qed.

#[export] Instance queueParcels_roomy : RoomyParcels queueParcels.
Proof. done. Qed.

(** ** The state of the service seen from IPC

    The service may be more than one manager; what the IPC layer needs of its
    state is where the world of the process (caller, trace, stub members) is. *)

Class HasWorld (S : Type) := {
  getWorld : S → World;
  setWorld : World → S → S;
}.
#[export] Instance World_HasWorld : HasWorld World := {| getWorld w := w; setWorld w _ := w |}.

Definition ST (S A : Type) : Type := S → A * S.
#[export] Instance ST_ret S : MRet (ST S) := λ A a s, (a, s).
#[export] Instance ST_bind S : MBind (ST S) := λ A B k m s, let '(a, s') := m s in k a s'.

Definition liftW {S} `{HasWorld S} {A} (m : M A) : ST S A :=
  λ s, let '(a, w) := m (getWorld s) in (a, setWorld w s).

(** ** Both ends of a call *)

Section ipc.
Context `{P : Parcels} {S : Type} `{HS : HasWorld S}.

Record Ipc := MkIpc { ip_in : Parcel; ip_out : Parcel }.

(** A computation that reads [ip_in], writes [ip_out], acts on the service, and
    ends early with an [R] or goes on with an [A]. *)
Definition X (R A : Type) : Type := Ipc → ST S ((R + A) * Ipc).

#[global] Instance X_ret R : MRet (X R) := λ A a p, mret (inr a, p).
#[global] Instance X_bind R : MBind (X R) := λ A B k m p,
  '(r, p') ← m p;
  match r with inl e => mret (inl e, p') | inr a => k a p' end.

(** [return e;]. *)
Definition stop {R A} (e : R) : X R A := λ p, mret (inl e, p).
(** [if (!b) { return e; }]. *)
Definition require {R} (b : bool) (e : R) : X R unit := if b then mret tt else stop e.

Definition liftS {R A} (m : ST S A) : X R A := λ p, a ← m; mret (inr a, p).
Definition liftM {R A} (m : M A) : X R A := liftS (liftW m).

(** [if (!b()) { return e; }] for a check [b] that looks at the world. *)
Definition check {R} (b : M bool) (e : R) : X R unit := r ← liftM b; require r e.

(** [int32_t result = op(...);]. *)
Definition int32 {R} (m : ST S Z) : X R Z := r ← liftS m; mret (i32 r).

Definition write {R} (k : Kind) (v : denote k) : X R bool := λ p,
  let '(b, out) := Write k v (ip_out p) in mret (inr b, MkIpc (ip_in p) out).
Definition read {R} (k : Kind) : X R (option (denote k)) := λ p,
  let '(v, inp) := Read k (ip_in p) in mret (inr v, MkIpc inp (ip_out p)).
Definition readableBytes {R} : X R Z := λ p, mret (inr (GetReadableBytes (ip_in p)), p).

(** [if (!parcel.WriteX(v)) { return e; }] and [if (!parcel.ReadX(v)) { return e; }]. *)
Definition put {R} (k : Kind) (v : denote k) (e : R) : X R unit := b ← write k v; require b e.
Definition get {R} (k : Kind) (e : R) : X R (denote k) :=
  v ← read k; match v with Some v => mret v | None => stop e end.

(** [WriteRemoteObject(object)] fails on a null pointer. *)
Definition putObject {R} (o : option RemoteObject) (e : R) : X R unit :=
  match o with Some o => put KObject o e | None => stop e end.

(** A loop that stops with the first early return. *)
Fixpoint each {R A} (l : list A) (f : A → X R unit) : X R unit :=
  match l with [] => mret tt | a :: l => f a;; each l f end.

(** [for (int32_t i = 0; i < n; i++) { v.emplace_back(f()); }]. *)
Fixpoint times {R A} (n : nat) (f : X R A) : X R (list A) :=
  match n with O => mret [] | Datatypes.S n => a ← f; l ← times n f; mret (a :: l) end.

Definition ended {R} (r : R + R) : R := match r with inl e => e | inr e => e end.
End ipc.
