(* ===== verification/Ffrt.v ===== *)
(** [FFRTHandler] (services/samgr/native/source/ffrt_handler.cpp): a serial queue
    of the ffrt library with the handles of its named delayed tasks.  The library
    itself is the environment: submitting, cancelling and destroying are events
    of the trace, and [env_queue_submit] decides whether a handle comes back. *)
From S2P Require Import Prelude Types World.

Definition CONVERSION_FACTOR : Z := 1000.

Section ffrt.
Context `{E : Env}.

Definition getH (h : HandlerId) : M (option FFRTHandler) := gets (λ w, w_handlers w !! h).
Definition updH (h : HandlerId) (f : FFRTHandler → FFRTHandler) : M unit :=
  modify (λ w, w <| w_handlers ::= alter f h |>).

(** [FFRTHandler::CreateQueue]. *)
Definition CreateQueue (h : HandlerId) : M (option positive) := ask env_queue_create (EvQueueCreate h).

(** [std::make_shared<FFRTHandler>(name)] stored in member [h]. *)
Definition newFFRTHandler (h : HandlerId) : M unit :=
  q ← CreateQueue h;
  modify (λ w, w <| w_handlers ::= <[h := MkFFRTHandler q ∅]> |>).

Definition CleanFfrt (h : HandlerId) : M unit :=
  o ← getH h;
  match o with
  | None => mret tt
  | Some hd =>
      match queue_ hd with
      | None => mret tt
      | Some q =>
          updH h (λ r, r <| taskMap_ := ∅ |> <| queue_ := None |>);;
          emit (EvQueueDestroy q)
      end
  end.

Definition SetFfrt (h : HandlerId) : M unit :=
  o ← getH h;
  match o with
  | None => mret tt
  | Some hd =>
      q ← CreateQueue h;
      updH h (λ r, r <| taskMap_ := ∅ |> <| queue_ := q |>);;
      match queue_ hd with
      | Some old => emit (EvQueueDestroy old)
      | None => mret tt
      end
  end.

(** [PostTask(func)]. *)
Definition PostTask (h : HandlerId) (t : Task) : M bool :=
  o ← getH h;
  match o ≫= queue_ with
  | None => mret false
  | Some q =>
      r ← ask env_queue_submit (EvSubmit h q t 0);
      mret (bool_decide (is_Some r))
  end.

(** [PostTask(func, delayTime)]. *)
Definition PostTaskDelay (h : HandlerId) (t : Task) (delay : Z) : M bool :=
  if UINT64_MAX / CONVERSION_FACTOR <? delay then mret false
  else
    o ← getH h;
    match o ≫= queue_ with
    | None => mret false
    | Some q =>
        r ← ask env_queue_submit (EvSubmit h q t (u64 (delay * CONVERSION_FACTOR)));
        mret (bool_decide (is_Some r))
    end.

(** [PostTask(func, name, delayTime)]. *)
Definition PostTaskNamed (h : HandlerId) (t : Task) (name : string) (delay : Z) : M bool :=
  if UINT64_MAX / CONVERSION_FACTOR <? delay then mret false
  else
    o ← getH h;
    match o ≫= queue_ with
    | None => mret false
    | Some q =>
        r ← ask env_queue_submit (EvSubmit h q t (u64 (delay * CONVERSION_FACTOR)));
        match r with
        | None => mret false
        | Some th =>
            updH h (λ r, r <| taskMap_ ::= λ m, <[name := default [] (m !! name) ++ [th]]> m |>);;
            mret true
        end
    end.

Definition RemoveTask (h : HandlerId) (name : string) : M unit :=
  o ← getH h;
  match o ≫= λ hd, taskMap_ hd !! name with
  | None => mret tt
  | Some handles =>
      forM handles (λ th, emit (EvCancel th));;
      updH h (λ r, r <| taskMap_ ::= delete name |>)
  end.

Definition DelTask (h : HandlerId) (name : string) : M unit :=
  o ← getH h;
  match o ≫= λ hd, taskMap_ hd !! name with
  | None => mret tt
  | Some handles =>
      match tail handles with
      | [] => updH h (λ r, r <| taskMap_ ::= delete name |>)
      | rest => updH h (λ r, r <| taskMap_ ::= <[name := rest]> |>)
      end
  end.

Definition HasInnerEvent (h : HandlerId) (name : string) : M bool :=
  o ← getH h;
  mret (bool_decide (is_Some (o ≫= λ hd, taskMap_ hd !! name))).

(** ** Invariant: a name that is in [taskMap_] has an outstanding handle. *)

Definition handlers_ok (w : World) : Prop :=
  ∀ h hd name q, w_handlers w !! h = Some hd → taskMap_ hd !! name = Some q → q ≠ [].
Definition keeps_handlers : relation World := λ w w', handlers_ok w → handlers_ok w'.

#[export] Instance keeps_handlers_preorder : PreOrder keeps_handlers.
Proof. split; [by intros ? ?|]. intros x y z H1 H2 H3. auto. Qed.

Lemma updH_keeps h f :
  (∀ hd, (∀ name q, taskMap_ hd !! name = Some q → q ≠ []) →
         ∀ name q, taskMap_ (f hd) !! name = Some q → q ≠ []) →
  respects keeps_handlers (updH h f).
Proof.
  intros Hf w Hw h' hd name q Hl Hq. simpl in Hl.
  destruct (decide (h = h')) as [->|Hne].
  - rewrite lookup_alter_eq in Hl. apply fmap_Some in Hl as (hd0 & Hl & ->).
    eapply Hf; [|done]. intros ?? Hn. by eapply Hw.
  - rewrite lookup_alter_ne in Hl by done. by eapply Hw.
Qed.

Lemma emit_keeps e : respects keeps_handlers (emit e).
Proof. intros w Hw. exact Hw. Qed.

Lemma ask_respects {R : relation World} `{!PreOrder R} {A} (f : Trace → A) e :
  respects R (emit e) → respects R (ask f e).
Proof. intros H. unfold ask. solve_respects. Qed.

Lemma getH_respects {R : relation World} `{!PreOrder R} h : respects R (getH h).
Proof. apply respects_gets. Qed.
End ffrt.

#[export] Hint Extern 1 (respects _ (getH _)) => apply getH_respects : respects.
#[export] Hint Extern 1 (respects _ (ask _ _)) => apply ask_respects : respects.

Section ops.
Context `{E : Env}.

Lemma CreateQueue_keeps h : respects keeps_handlers (CreateQueue h).
Proof. unfold CreateQueue. apply ask_respects, emit_keeps. Qed.

Lemma newFFRTHandler_keeps h : respects keeps_handlers (newFFRTHandler h).
Proof.
  apply respects_bind; [apply CreateQueue_keeps|]. intros q w Hw h' hd name l Hl Hq. simpl in Hl.
  apply lookup_insert_Some in Hl as [[-> <-]|[_ Hl]]; [done|]. by eapply Hw.
Qed.

Lemma CleanFfrt_keeps h : respects keeps_handlers (CleanFfrt h).
Proof.
  unfold CleanFfrt. solve_respects; auto using emit_keeps. apply updH_keeps. done.
Qed.

Lemma SetFfrt_keeps h : respects keeps_handlers (SetFfrt h).
Proof.
  unfold SetFfrt. solve_respects; auto using emit_keeps, CreateQueue_keeps. apply updH_keeps. done.
Qed.

Lemma PostTask_keeps h t : respects keeps_handlers (PostTask h t).
Proof.
  unfold PostTask. solve_respects. apply ask_respects, emit_keeps.
Qed.

Lemma PostTaskDelay_keeps h t d : respects keeps_handlers (PostTaskDelay h t d).
Proof.
  unfold PostTaskDelay. destruct (_ <? _); [apply respects_ret|].
  solve_respects. apply ask_respects, emit_keeps.
Qed.

Lemma PostTaskNamed_keeps h t n d : respects keeps_handlers (PostTaskNamed h t n d).
Proof.
  unfold PostTaskNamed. destruct (_ <? _); [apply respects_ret|].
  solve_respects; [apply ask_respects, emit_keeps|].
  apply updH_keeps. intros hd Hhd name q Hq. simpl in Hq.
  apply lookup_insert_Some in Hq as [[_ <-]|[_ Hq]]; [|by eapply Hhd].
  destruct (default [] _); done.
Qed.

Lemma RemoveTask_keeps h n : respects keeps_handlers (RemoveTask h n).
Proof.
  unfold RemoveTask. solve_respects; [apply emit_keeps|].
  apply updH_keeps. intros hd Hhd name q Hq. simpl in Hq.
  apply lookup_delete_Some in Hq as [_ Hq]. by eapply Hhd.
Qed.

Lemma DelTask_keeps h n : respects keeps_handlers (DelTask h n).
Proof.
  unfold DelTask. solve_respects; apply updH_keeps; intros hd Hhd name q Hq; simpl in Hq.
  - apply lookup_delete_Some in Hq as [_ Hq]. by eapply Hhd.
  - apply lookup_insert_Some in Hq as [[_ <-]|[_ Hq]]; [done|by eapply Hhd].
Qed.

Lemma HasInnerEvent_keeps h n : respects keeps_handlers (HasInnerEvent h n).
Proof. unfold HasInnerEvent. solve_respects. Qed.
End ops.

(** ** Frames: a queue operation touches only the queues and the trace. *)

Definition rest (w : World) : Sched * Mgr * Caller * Z * bool :=
  (w_sched w, w_mgr w, w_caller w, w_foreground w, priorEnable_ (w_stub w)).

(** The rest of the world is the same and the trace goes on. *)
Definition frame : relation World := λ w w', rest w = rest w' ∧ w_trace w `suffix_of` w_trace w'.

#[export] Instance frame_preorder : PreOrder frame.
Proof.
  split; [by split|]. intros x y z [H1 H2] [H3 H4]. split; [congruence|by etrans].
Qed.

Lemma respects_sub {A} (R R' : relation World) (m : M A) :
  subrelation R R' → respects R m → respects R' m.
Proof. intros H Hm w. apply H, Hm. Qed.

(** Whatever a relation says of the scheduler, the manager and the caller, queue
    operations respect it. *)
#[export] Hint Extern 5 (respects ?R _) =>
  lazymatch R with
  | frame => fail
  | _ => apply (respects_sub frame R); [typeclasses eauto|]
  end : respects.

#[export] Instance rest_sched : subrelation frame (same w_sched).
Proof. intros w w' [H _]. unfold same, rest in *. congruence. Qed.
#[export] Instance rest_mgr : subrelation frame (same w_mgr).
Proof. intros w w' [H _]. unfold same, rest in *. congruence. Qed.

Section frames.
Context `{E : Env}.

Lemma emit_rest e : respects frame (emit e).
Proof. intros w. split; [done|]. by exists [e]. Qed.
Lemma updH_rest h f : respects frame (updH h f).
Proof. by intros w. Qed.
Lemma updC_rest {T} (proj : Collect → T) `{!Setter proj} f : respects frame (updC proj f).
Proof. by intros w. Qed.
Lemma updD_rest {T} (proj : Distributed → T) `{!Setter proj} f : respects frame (updD proj f).
Proof. by intros w. Qed.
Lemma updDump_rest {T} (proj : Dumper → T) `{!Setter proj} f : respects frame (updDump proj f).
Proof. by intros w. Qed.
Hint Resolve emit_rest updH_rest : respects.

Lemma CreateQueue_rest h : respects frame (CreateQueue h).
Proof. unfold CreateQueue. auto with respects. Qed.
Lemma newFFRTHandler_rest h : respects frame (newFFRTHandler h).
Proof. apply respects_bind; [apply CreateQueue_rest|]. by intros q w. Qed.
Hint Resolve CreateQueue_rest : respects.
Lemma CleanFfrt_rest h : respects frame (CleanFfrt h).
Proof. unfold CleanFfrt. solve_respects. Qed.
Lemma SetFfrt_rest h : respects frame (SetFfrt h).
Proof. unfold SetFfrt. solve_respects. Qed.
Lemma PostTask_rest h t : respects frame (PostTask h t).
Proof. unfold PostTask. solve_respects. Qed.
Lemma PostTaskDelay_rest h t d : respects frame (PostTaskDelay h t d).
Proof. unfold PostTaskDelay. solve_respects. Qed.
Lemma PostTaskNamed_rest h t n d : respects frame (PostTaskNamed h t n d).
Proof. unfold PostTaskNamed. solve_respects. Qed.
Lemma RemoveTask_rest h n : respects frame (RemoveTask h n).
Proof. unfold RemoveTask. solve_respects. Qed.
Lemma DelTask_rest h n : respects frame (DelTask h n).
Proof. unfold DelTask. solve_respects. Qed.
Lemma HasInnerEvent_rest h n : respects frame (HasInnerEvent h n).
Proof. unfold HasInnerEvent. solve_respects. Qed.
End frames.

#[export] Hint Resolve emit_rest updC_rest updD_rest updDump_rest CreateQueue_rest newFFRTHandler_rest CleanFfrt_rest
  SetFfrt_rest PostTask_rest PostTaskDelay_rest PostTaskNamed_rest RemoveTask_rest DelTask_rest
  HasInnerEvent_rest : respects.
