(* ===== verification/Util.v ===== *)
(** [SamgrUtil] (services/samgr/native/source/system_ability_manager_util.cpp):
    the helpers the manager and the scheduler call. *)
From S2P Require Import Prelude Types World Ffrt.

Definition MAX_NAME_SIZE : Z := 200.
Definition SHFIT_BIT : Z := 32.
Definition MODULE_UPDATE_PARAM : string := "persist.samgr.moduleupdate".
Definition SAMGR_CACHE_KEY : string := "samgr.cache.sa".
Definition BASE_USER : Z := 0.
Definition SAMGR_INVALID_USER_ID : Z := -1.
Definition LOCAL_DEVICE : string := "local".

Definition to_string (x : Z) : string := pretty x.

(** [SamgrUtil::IsSameEvent]. *)
Definition IsSameEvent (event : OnDemandEvent) (enableOnceList : list OnDemandEvent) : bool :=
  existsb (λ e, (eventId event =? eventId e) && bool_decide (ev_name event = ev_name e)
                && bool_decide (ev_value event = ev_value e)) enableOnceList.

(** [SamgrUtil::GenerateFreKey]: the uid in the high, the SA id in the low 32 bits. *)
Definition GenerateFreKey (uid said : Z) : Z :=
  Z.lor (u64 (Z.shiftl (u64 uid) SHFIT_BIT)) (u32 said).

(** [SamgrUtil::GetCacheCommonEventSa]. *)
Definition GetCacheCommonEventSa (event : OnDemandEvent) (l : list SaControlInfo) : list Z :=
  if negb (eventId event =? COMMON_EVENT) || (extraDataId event =? -1) then []
  else ctl_saId <$> filter (λ i, ctl_cacheCommonEvent i = true) l.

(** [SamgrUtil::FilterCommonSaProfile]. *)
Definition FilterCommonSaProfile (p : SaProfile) : CommonSaProfile :=
  MkCommonSaProfile (process p) (saId p) (moduleUpdate p) (distributed p) (cacheCommonEvent p)
    (start_allowUpdate (startOnDemand p)) (stop_allowUpdate (stopOnDemand p))
    (recycleStrategy p) (extension p).

(** [enum class OnDemandPolicyType]; a value cast from an integer may be neither. *)
Definition START_POLICY : Z := 0.
Definition STOP_POLICY : Z := 1.

(** [SamgrUtil::CheckAllowUpdate]. *)
Definition CheckAllowUpdate (type : Z) (p : CommonSaProfile) : bool :=
  if (type =? START_POLICY) && c_startAllowUpdate p then true
  else if (type =? STOP_POLICY) && c_stopAllowUpdate p then true
  else false.

(** [std::getline(file, name, '\0')]: the text before the first NUL. *)
Fixpoint untilNul (s : string) : string :=
  match s with
  | EmptyString => ""
  | String c s' => if Ascii.eqb c Ascii.zero then "" else String c (untilNul s')
  end.
(** What follows the position [find_last_of('/')] finds. *)
Fixpoint afterLastSlash (s : string) : option string :=
  match s with
  | EmptyString => None
  | String c s' =>
      match afterLastSlash s' with
      | Some r => Some r
      | None => if Ascii.eqb c (Ascii.ascii_of_nat 47) then Some s' else None
      end
  end.

Section util.
Context `{E : Env}.

(** [SamgrUtil::GetProcessNameFromCmdline]; [env_cmdline] is the file of the process. *)
Definition GetProcessNameFromCmdline (tr : Trace) (pid : Z) : string :=
  match env_cmdline tr pid with
  | None => ""
  | Some text => let name := untilNul text in default name (afterLastSlash name)
  end.

(** [SamgrUtil::IsNameInValid]. *)
Definition IsNameInValid (name : u16string) : bool :=
  bool_decide (name = []) || (MAX_NAME_SIZE <? Z.of_nat (length name)) || bool_decide (DeleteBlank name = []).

(** [SamgrUtil::EventToStr]: the dump of a JSON object with four members. *)
Definition EventToStr (e : OnDemandEvent) : string :=
  EventToStr_dump (eventId e) (ev_name e) (ev_value e) (extraDataId e).

(** [SamgrUtil::CheckCallerProcess(callProcess)]. *)
Definition CheckCallerProcessName (callProcess : string) : M bool :=
  token ← gets (λ w, callingTokenID (w_caller w));
  tr ← gets w_trace;
  let '(res, pname) := env_GetNativeTokenInfo tr token in
  mret ((res =? ERR_OK) && bool_decide (pname = callProcess)).

(** [SamgrUtil::CheckCallerProcess(saProfile)]. *)
Definition CheckCallerProcess (p : CommonSaProfile) : M bool :=
  CheckCallerProcessName (Str16ToStr8 (c_process p)).

(** [SamgrUtil::SetModuleUpdateParam]. *)
Definition SetModuleUpdateParam (key value : string) : M unit :=
  _ ← PostTask setParmHandler (TSetParameter key value); mret tt.

(** [SystemAbilityManager::IsModuleUpdate] as [SendUpdateSaState] asks it. *)
Definition IsModuleUpdate (said : Z) : M bool :=
  m ← getM saProfileMap_;
  mret (match m !! said with Some p => c_moduleUpdate p | None => false end).

(** [SamgrUtil::SendUpdateSaState]. *)
Definition SendUpdateSaState (said : Z) (st : string) : M unit :=
  b ← IsModuleUpdate said;
  when b (
    SetModuleUpdateParam (MODULE_UPDATE_PARAM +:+ ".start") "true";;
    SetModuleUpdateParam (MODULE_UPDATE_PARAM +:+ "." +:+ to_string said) st).

(** [SamgrUtil::InvalidateSACache]. *)
Definition InvalidateSACache : M unit :=
  _ ← PostTask setParmHandler TInvalidateCache; mret tt.

(** [SamgrUtil::CheckSystemProcessStarted(procName, userId)]. *)
Definition CheckSystemProcessStarted (pn : u16string) (userId : Z) : M bool :=
  tr ← gets w_trace;
  let serviceName :=
    if userId =? BASE_USER then "startup.service.ctl." +:+ Str16ToStr8 pn
    else "startup.service.ctl." +:+ Str16ToStr8 pn +:+ ".userid." +:+ to_string userId in
  mret (bool_decide (env_GetParameter tr serviceName "-1" = env_ServiceStatus_STARTED)).

(** [ServiceControlWithExtra] and [ServiceControlWithExtraByUserId] of init. *)
Definition ServiceControlWithExtra (name : string) (act : ServiceAction) (user : Z) (extra : option string) : M Z :=
  ask env_ServiceControl (EvServiceControl name act user extra).

(** ** Frames *)

Lemma GetTickCount_rest : respects frame GetTickCount.
Proof. unfold GetTickCount. auto with respects. Qed.
Lemma AddDeathRecipient_rest k o : respects frame (AddDeathRecipient k o).
Proof. unfold AddDeathRecipient. auto with respects. Qed.
Lemma RemoveDeathRecipient_rest k o : respects frame (RemoveDeathRecipient k o).
Proof. unfold RemoveDeathRecipient. auto with respects. Qed.
Lemma CheckCallerProcess_rest p : respects frame (CheckCallerProcess p).
Proof. unfold CheckCallerProcess, CheckCallerProcessName. solve_respects. Qed.
Lemma CheckCallerProcessName_rest p : respects frame (CheckCallerProcessName p).
Proof. unfold CheckCallerProcessName. solve_respects. Qed.
Lemma SetModuleUpdateParam_rest k v : respects frame (SetModuleUpdateParam k v).
Proof. unfold SetModuleUpdateParam. solve_respects. Qed.
Hint Resolve SetModuleUpdateParam_rest : respects.
Lemma SendUpdateSaState_rest said st : respects frame (SendUpdateSaState said st).
Proof. unfold SendUpdateSaState, IsModuleUpdate. solve_respects. Qed.
Lemma InvalidateSACache_rest : respects frame InvalidateSACache.
Proof. unfold InvalidateSACache. solve_respects. Qed.
Lemma CheckSystemProcessStarted_rest pn u : respects frame (CheckSystemProcessStarted pn u).
Proof. unfold CheckSystemProcessStarted. solve_respects. Qed.
Lemma ServiceControlWithExtra_rest n a u x : respects frame (ServiceControlWithExtra n a u x).
Proof. unfold ServiceControlWithExtra. solve_respects. Qed.
End util.

#[export] Hint Resolve GetTickCount_rest AddDeathRecipient_rest RemoveDeathRecipient_rest
  CheckCallerProcess_rest CheckCallerProcessName_rest SendUpdateSaState_rest InvalidateSACache_rest
  CheckSystemProcessStarted_rest ServiceControlWithExtra_rest : respects.
#[export] Hint Extern 1 (respects _ lockManager) => apply respects_gets : respects.
#[export] Hint Extern 1 (respects _ GetCallingPid) => apply respects_gets : respects.
#[export] Hint Extern 1 (respects _ GetCallingUid) => apply respects_gets : respects.
