(* ===== verification/TimeHandler.v ===== *)
(** [SamgrTimeHandler] (services/samgr/native/source/samgr_time_handler.cpp) and
    [PreferencesUtil] (services/samgr/native/source/collect/device_timed_collect_tool.cpp):
    the timers that wake the device, and the files that keep timed events over a
    restart.  The kernel's timers and the preferences library are the environment:
    their calls are events of the trace, their answers decided by it. *)
From S2P Require Import Prelude Types World Ffrt Util.

Definition RETRY_TIMES : nat := 3.
Definition PREFERENCES_PATH : string := "/data/samgr/samgr.xml".
Definition MULTI_USER_PREFERENCES_PATH_PREFIX : string := "/data/samgr/samgr_".
Definition PREFERENCES_PATH_SUFFIX : string := ".xml".

Definition updTimers (f : gmap Z Task → gmap Z Task) : M unit := modify (λ w, w <| w_timeFunc ::= f |>).

Section timers.
Context `{E : Env}.

(** ** SamgrTimeHandler *)

Definition timerfd_create (alarm : bool) : M (option Z) := ask env_timerfd_create (EvTimer (TimerCreate alarm)).

Definition CreateAndRetry : M (option Z) := findM (λ _, timerfd_create true) (seq 0 RETRY_TIMES).

(** [timeFunc.FirstInsert(timerfd, func)]: whether the map was empty. *)
Definition FirstInsert (fd : Z) (t : Task) : M bool :=
  m ← gets w_timeFunc; updTimers <[fd := t]>;; mret (bool_decide (m = ∅)).

Definition isFunction (t : CollectTask) : bool := match t with CtEmptyFunction => false | _ => true end.

Definition TimerPostTask (func : CollectTask) (delayTime : Z) : M bool :=
  if negb (isFunction func) then mret false
  else
    r ← CreateAndRetry;
    timerfd ← match r with Some fd => mret (Some fd) | None => timerfd_create false end;
    match timerfd with
    | None => mret false
    | Some fd =>
        added ← ask env_epoll_add (EvTimer (EpollAdd fd));
        if negb added then emit (EvTimer (TimerClose fd));; mret false
        else
          set ← ask env_timerfd_settime (EvTimer (TimerSet fd (i64 delayTime)));
          if negb set then emit (EvTimer (TimerClose fd));; mret false
          else
            isFirst ← FirstInsert (u32 fd) (TCollect func);
            when isFirst (emit (EvTimer TimerThread));;
            mret true
    end.

(** [OnTime] for one descriptor that is readable: the task that is called, and
    what is done after it. *)
Definition timerTask (fd : Z) : M (option Task) := gets (λ w, w_timeFunc w !! fd).
Definition timerDone (fd : Z) : M unit := updTimers (delete fd);; emit (EvTimer (TimerClose fd)).

(** ** PreferencesUtil

    A method takes the object and returns it: [GetPreference] opens the file once. *)

Definition GetPathForUser (userId : Z) : string :=
  if userId =? BASE_USER then PREFERENCES_PATH
  else MULTI_USER_PREFERENCES_PATH_PREFIX +:+ to_string userId +:+ PREFERENCES_PATH_SUFFIX.

(** The result is only logged. *)
Definition DeleteUserPreferences (userId : Z) : M unit :=
  if (userId =? BASE_USER) || (userId =? SAMGR_INVALID_USER_ID) then mret tt
  else emit (EvDeletePreferences (GetPathForUser userId)).

Definition newPreferencesUtil (userId : Z) : PreferencesUtil := MkPreferencesUtil (GetPathForUser userId) false.

Definition GetPreference (u : PreferencesUtil) : M (bool * PreferencesUtil) :=
  if ptr_ u then mret (true, u)
  else tr ← gets w_trace; let b := env_GetPreferences tr (path_ u) in mret (b, MkPreferencesUtil (path_ u) b).

Definition RefreshSync (u : PreferencesUtil) : M (bool * PreferencesUtil) :=
  '(b, u) ← GetPreference u;
  if negb b then mret (false, u)
  else r ← ask env_PreferencesFlush (EvPreferences (path_ u) FlushSync); mret (r, u).

(** [Save(key, value)]: [c] is the call that puts the value. *)
Definition Save (c : PreferencesCall) (u : PreferencesUtil) : M (bool * PreferencesUtil) :=
  '(b, u) ← GetPreference u;
  if negb b then mret (false, u)
  else
    r ← ask env_PreferencesPut (EvPreferences (path_ u) c);
    if negb r then mret (false, u) else RefreshSync u.
Definition SaveLong (key : string) (value : Z) (u : PreferencesUtil) : M (bool * PreferencesUtil) := Save (PutLong key value) u.
Definition SaveString (key value : string) (u : PreferencesUtil) : M (bool * PreferencesUtil) := Save (PutString key value) u.

Definition ObtainAll (u : PreferencesUtil) : M (gmap string PreferencesValue * PreferencesUtil) :=
  '(b, u) ← GetPreference u;
  if negb b then mret (∅, u) else tr ← gets w_trace; mret (env_PreferencesGetAll tr (path_ u), u).

Definition ObtainString (key defValue : string) (u : PreferencesUtil) : M (string * PreferencesUtil) :=
  '(b, u) ← GetPreference u;
  if negb b then mret (defValue, u)
  else tr ← gets w_trace; mret (default defValue (env_PreferencesGetString tr (path_ u) key), u).

Definition IsExist (key : string) (u : PreferencesUtil) : M (bool * PreferencesUtil) :=
  '(b, u) ← GetPreference u;
  if negb b then mret (false, u) else tr ← gets w_trace; mret (env_PreferencesHasKey tr (path_ u) key, u).

Definition RemoveKey (key : string) (u : PreferencesUtil) : M (bool * PreferencesUtil) :=
  '(b, u) ← GetPreference u;
  if negb b then mret (false, u)
  else
    r ← ask env_PreferencesDelete (EvPreferences (path_ u) (DeleteKey key));
    if negb r then mret (false, u) else RefreshSync u.

(** [TimeUtils::GetTimestamp]. *)
Definition GetTimestamp : M Z := gets (λ w, i64 (env_time (w_trace w))).

(** ** Frames *)

Lemma updTimers_rest f : respects frame (updTimers f).
Proof. by intros w. Qed.
Hint Resolve updTimers_rest : respects.
Lemma TimerPostTask_rest t d : respects frame (TimerPostTask t d).
Proof. unfold TimerPostTask, CreateAndRetry, timerfd_create, FirstInsert. solve_respects. Qed.
Lemma timerDone_rest fd : respects frame (timerDone fd).
Proof. unfold timerDone. solve_respects. Qed.
Lemma DeleteUserPreferences_rest u : respects frame (DeleteUserPreferences u).
Proof. unfold DeleteUserPreferences. solve_respects. Qed.
Lemma GetPreference_rest u : respects frame (GetPreference u).
Proof. unfold GetPreference. solve_respects. Qed.
Hint Resolve GetPreference_rest : respects.
Lemma RefreshSync_rest u : respects frame (RefreshSync u).
Proof. unfold RefreshSync. solve_respects. Qed.
Hint Resolve RefreshSync_rest : respects.
Lemma Save_rest c u : respects frame (Save c u).
Proof. unfold Save. solve_respects. Qed.
Lemma ObtainAll_rest u : respects frame (ObtainAll u).
Proof. unfold ObtainAll. solve_respects. Qed.
Lemma ObtainString_rest k d u : respects frame (ObtainString k d u).
Proof. unfold ObtainString. solve_respects. Qed.
Lemma IsExist_rest k u : respects frame (IsExist k u).
Proof. unfold IsExist. solve_respects. Qed.
Lemma RemoveKey_rest k u : respects frame (RemoveKey k u).
Proof. unfold RemoveKey. solve_respects. Qed.
End timers.

#[export] Hint Resolve TimerPostTask_rest timerDone_rest DeleteUserPreferences_rest Save_rest ObtainAll_rest ObtainString_rest IsExist_rest RemoveKey_rest : respects.
