(* ===== verification/CommonEvent.v ===== *)
(** What every collect plugin does through [ICollectPlugin] and [IReport], and
    [CommonEventCollect] (services/samgr/native/source/collect/icollect_plugin.cpp,
    device_status_collect_manager.cpp, common_event_collect.cpp): the plugin that
    turns common events into on-demand events and keeps their data. *)
From S2P Require Import Prelude Types World ParseUtil Ffrt Util TimeHandler.

Definition TO_MILLISECOND : Z := 1000.
Definition INIT_EVENT : Z := 10.
Definition SUB_COMMON_EVENT : Z := 11.
Definition REMOVE_EXTRA_DATA_EVENT : Z := 12.
Definition REMOVE_EXTRA_DATA_DELAY_TIME : Z := 300000.
Definition MAX_EXTRA_DATA_ID : Z := 1000000000.
Definition COMMON_EVENT_SERVICE_ID : Z := 3299.
Definition UID : string := "uid".
Definition NET_TYPE : string := "NetType".
Definition BUNDLE_NAME : string := "bundleName".
Definition COMMON_EVENT_ACTION_NAME : string := "common_event_action_name".
Definition COMMON_RECENT_EVENT : string := "RECENT_EVENT".
Definition COMMON_RECENT_CLEAR_ALL : string := "RECENT_CLEAR_ALL".

(** [AAFwk::Want] and [EventFwk::CommonEventData]: what the plugin reads of them. *)
Record Want := MkWant {
  GetAction : string;
  GetBundle : string;
  KeySet : gset string;
  GetIntParam : string → Z → Z;
  GetStringParam : string → string;
  GetBoolParam : string → bool → bool;
}.
Record CommonEventData := MkCommonEventData { GetWant : Want; GetCode : Z; GetData : string }.

(** ** [float] *)

(** A non-negative [float] is [f_mant * 2 ^ f_exp]. The values here lie between [2 ^ -64] and
    [2 ^ 72], or are zero: no operation overflows or has a subnormal result. *)
Record F32 := MkF32 { f_mant : Z; f_exp : Z }.

(** The [float] nearest to [n / d], ties to even; [d] is positive. *)
Definition f32_round (n d : Z) : F32 :=
  if n <=? 0 then MkF32 0 0
  else
    let e := Z.log2 n - Z.log2 d - 23 in
    let scaled e := (n * 2 ^ Z.max 0 (- e), d * 2 ^ Z.max 0 e) in
    let e := if (scaled e).1 / (scaled e).2 <? 2 ^ 23 then e - 1 else e in
    let '(num, den) := scaled e in
    let q := num / den in
    let r := num mod den in
    MkF32 (if (den <? 2 * r) || ((2 * r =? den) && Z.odd q) then q + 1 else q) e.

Definition f32_of_Z (n : Z) : F32 := f32_round n 1.
Definition f32_div (a b : F32) : F32 :=
  f32_round (f_mant a * 2 ^ Z.max 0 (f_exp a - f_exp b)) (f_mant b * 2 ^ Z.max 0 (f_exp b - f_exp a)).
Definition f32_mul (a b : F32) : F32 :=
  let e := f_exp a + f_exp b in f32_round (f_mant a * f_mant b * 2 ^ Z.max 0 e) (2 ^ Z.max 0 (- e)).
Definition f32_leb (a b : F32) : bool :=
  f_mant a * 2 ^ Z.max 0 (f_exp a - f_exp b) <=? f_mant b * 2 ^ Z.max 0 (f_exp b - f_exp a).
Definition f32_ltb (a b : F32) : bool := negb (f32_leb b a).

Definition CPU_STAT_MIN_FIELDS : Z := 7.
Definition CPU_STAT_CHECK_INTERVAL : Z := 5.
Definition CPU_LOAD_SHIFT : Z := 16.
Definition CPU_LOAD_CHECK_INTERVAL : Z := 300.
Definition CPU_LOAD_INVALID : F32 := MkF32 0 0.
Definition CPU_LOAD_IDLE_THRESHOLD : F32 := f32_of_Z 10.
Definition CPU_LOAD_PERCENT : F32 := f32_of_Z 100.

Section common.
Context `{E : Env}.

(** ** IReport: the queue of the collect manager *)

Definition isHandler (h : HandlerId) : M bool := o ← getH h; mret (bool_decide (is_Some o)).

(** [DeviceStatusCollectManager::ReportEvent]. *)
Definition ReportEvent (event : OnDemandEvent) : M unit :=
  b ← isHandler collectHandler;
  when b (_ ← PostTask collectHandler (TCollect (CtReport event)); mret tt).

(** [DeviceStatusCollectManager::PostTask] and [PostDelayTask]: a null handler is
    dereferenced. *)
Definition CollectPostTask (t : CollectTask) : M unit :=
  b ← isHandler collectHandler;
  if negb b then emit EvNullDeref else _ ← PostTask collectHandler (TCollect t); mret tt.

Definition PostDelayTask (t : CollectTask) (delayTime : Z) : M unit :=
  let delayTime := i32 delayTime in
  if (delayTime <? 0) || (INT32_MAX / TO_MILLISECOND <? delayTime) then mret tt
  else
    b ← isHandler collectHandler;
    if negb b then emit EvNullDeref
    else _ ← PostTaskDelay collectHandler (TCollect t) (delayTime * TO_MILLISECOND); mret tt.

(** [manager != nullptr && manager->GetUserId() != BASE_USER] where users have managers. *)
Definition isOtherUser : M bool :=
  alive ← lockManager; u ← getM userId_; mret (SUPPORT_MULTI_INSTANCE && alive && negb (u =? BASE_USER)).

(** ** CommonEventCollect *)

Definition getCE {T} (proj : CommonEventCollect → T) : M T := gets (λ w, proj (c_common (w_collect w))).
Definition updCE {T} (proj : CommonEventCollect → T) `{!Setter proj} (f : T → T) : M unit :=
  updC c_common (set_with proj f).

Definition CommonRemoveWhiteCommonEvent : M unit :=
  updCE commonEventWhitelist (λ s, s ∖ {[USER_UNLOCKED ces]}).

Definition CommonCleanFfrt : M unit := CleanFfrt commonWorkHandler;; CleanFfrt commonUnsubHandler.
Definition CommonSetFfrt : M unit := SetFfrt commonWorkHandler;; SetFfrt commonUnsubHandler.

(** [CommonHandler::SendEvent]. *)
Definition sendEvent (h : HandlerId) (eventId : Z) : M bool := PostTask h (TCollect (CtCommonEvent eventId 0)).
Definition sendEventDelay (h : HandlerId) (eventId extraDataId delayTime : Z) : M bool :=
  PostTaskDelay h (TCollect (CtCommonEvent eventId extraDataId)) delayTime.

Definition StartMonitorThread : M unit :=
  updCE keepRunning_ (λ _, true);; emit (EvMonitor MonitorThread).
Definition StopMonitorThread : M unit :=
  b ← getCE keepRunning_; when b (updCE keepRunning_ (λ _, false)).

Definition CommonOnStart : M Z :=
  names ← getCE commonEventNames_;
  if bool_decide (names = ∅) then mret ERR_OK
  else
    newFFRTHandler commonWorkHandler;;
    newFFRTHandler commonUnsubHandler;;
    _ ← sendEvent commonWorkHandler INIT_EVENT;
    other ← isOtherUser;
    if (other : bool) then mret ERR_OK else StartMonitorThread;; mret ERR_OK.

Definition dropHandler (h : HandlerId) : M unit := modify (λ w, w <| w_handlers ::= delete h |>).

Definition CommonOnStop : M Z :=
  CommonCleanFfrt;;
  dropHandler commonWorkHandler;; dropHandler commonUnsubHandler;;
  other ← isOtherUser;
  if (other : bool) then mret ERR_OK else StopMonitorThread;; mret ERR_OK.

Definition InitCommonEventState (event : OnDemandEvent) : M unit :=
  when (eventId event =? COMMON_EVENT) (updCE commonEventNames_ (λ s, {[ev_name event]} ∪ s));;
  forM (conditions event) (λ condition,
    when (cond_eventId condition =? COMMON_EVENT) (
      updCE commonEventNames_ (λ s, {[cond_name condition]} ∪ s);;
      when (bool_decide (cond_extraMessages condition ≠ ∅))
        (updCE commonEventConditionExtraData_ (λ m,
          <[cond_name condition := ((λ _, "") <$> cond_extraMessages condition) ∪ default ∅ (m !! cond_name condition)]> m)))).

(** The on-demand events of a profile, the start events first. *)
Definition profileEvents (p : SaProfile) : list OnDemandEvent :=
  start_onDemandEvents (startOnDemand p) ++ stop_onDemandEvents (stopOnDemand p).

Definition CommonInit (profiles : list SaProfile) : M unit :=
  updCE commonEventWhitelist (λ s, {[SCREEN_ON ces; DISCHARGING ces; POWER_DISCONNECTED ces]} ∪ s);;
  updCE commonEventNames_ (λ s,
    {[SCREEN_ON ces; SCREEN_OFF ces; CHARGING ces; DISCHARGING ces; POWER_CONNECTED ces; POWER_DISCONNECTED ces;
      USER_UNLOCKED ces; COMMON_RECENT_EVENT]} ∪ s);;
  forM profiles (λ p, forM (profileEvents p) InitCommonEventState).

(** *** The subscription *)

(** [CreateCommonEventSubscriberLocked], with the skills of [AddSkillsEvent]. *)
Definition CreateCommonEventSubscriber : M bool :=
  names ← getCE commonEventNames_;
  sub ← getCE commonEventSubscriber_;
  updCE commonEventSubscriber_ (λ _, Some names);;
  ask env_SubscribeCommonEvent (EvCommonEvent
    match sub with None => SubscribeCommonEvent names | Some _ => UpdateSubscription names end).

Definition CleanFailedEventLocked (eventNames : list string) : M unit :=
  sub ← getCE commonEventSubscriber_;
  match sub with
  | None => mret tt
  | Some _ => updCE commonEventNames_ (λ s, s ∖ list_to_set eventNames)
  end.

Definition CommonSendEvent (eventId : Z) : M bool :=
  b ← isHandler commonWorkHandler;
  if negb b then mret false else sendEvent commonWorkHandler eventId.

Fixpoint addNames (events : list OnDemandEvent) (names : gset string) : list string * gset string :=
  match events with
  | [] => ([], names)
  | e :: l =>
      if bool_decide (ev_name e ∈ names) then addNames l names
      else let '(ins, names') := addNames l ({[ev_name e]} ∪ names) in (ev_name e :: ins, names')
  end.

Definition AddCommonEventName (events : list OnDemandEvent) : M (list string) :=
  names ← getCE commonEventNames_;
  let '(insertNames, names') := addNames events names in
  updCE commonEventNames_ (λ _, names');; mret insertNames.

Definition CommonAddCollectEvent (events : list OnDemandEvent) : M Z :=
  insertNames ← AddCommonEventName events;
  if bool_decide (insertNames = []) then mret ERR_OK
  else
    ok ← CreateCommonEventSubscriber;
    if negb ok then
      CleanFailedEventLocked insertNames;;
      _ ← CreateCommonEventSubscriber;
      mret ERR_INVALID_VALUE
    else mret ERR_OK.

Definition CommonRemoveUnusedEvent (event : OnDemandEvent) : M Z :=
  updCE commonEventNames_ (λ s, s ∖ {[ev_name event]});; mret ERR_OK.

(** *** The state of the device *)

Definition SaveAction (action : string) : M unit :=
  let swap (ins del : string) := updCE commonEventWhitelist (λ s, ({[ins]} ∪ s) ∖ {[del]}) in
  if bool_decide (action = SCREEN_ON ces) then swap (SCREEN_ON ces) (SCREEN_OFF ces)
  else if bool_decide (action = SCREEN_OFF ces) then swap (SCREEN_OFF ces) (SCREEN_ON ces)
  else if bool_decide (action = CHARGING ces) then swap (CHARGING ces) (DISCHARGING ces)
  else if bool_decide (action = DISCHARGING ces) then swap (DISCHARGING ces) (CHARGING ces)
  else if bool_decide (action = POWER_CONNECTED ces) then swap (POWER_CONNECTED ces) (POWER_DISCONNECTED ces)
  else if bool_decide (action = POWER_DISCONNECTED ces) then swap (POWER_DISCONNECTED ces) (POWER_CONNECTED ces)
  else if bool_decide (action = USER_UNLOCKED ces) then updCE commonEventWhitelist (λ s, {[USER_UNLOCKED ces]} ∪ s)
  else mret tt.

(** Every value of a profile holds of the state. *)
Definition checkMessages (state messages : gmap string string) : bool :=
  forallb (λ kv, CheckLogicRelationship (default "" (state !! kv.1)) kv.2) (map_to_list messages).

Definition stateEvents : list string :=
  [SCREEN_ON ces; SCREEN_OFF ces; CHARGING ces; DISCHARGING ces; POWER_CONNECTED ces; POWER_DISCONNECTED ces; USER_UNLOCKED ces].

Definition CommonCheckCondition (condition : OnDemandCondition) : M bool :=
  updCE commonEventConditionExtraData_ (map_touch (cond_name condition) ∅);;
  extra ← getCE commonEventConditionExtraData_;
  if negb (checkMessages (default ∅ (extra !! cond_name condition)) (cond_extraMessages condition)) then mret false
  else
    updCE commonEventConditionValue_ (map_touch (cond_name condition) "");;
    values ← getCE commonEventConditionValue_;
    if negb (bool_decide (default "" (values !! cond_name condition) = cond_value condition))
       && negb (bool_decide (cond_value condition = "")) then mret false
    else if bool_decide (cond_name condition ∈ stateEvents) then
      white ← getCE commonEventWhitelist; mret (bool_decide (cond_name condition ∈ white))
    else mret true.

(** *** The data of the events *)

Definition CommonGetExtraData (id : Z) : M (option OnDemandReasonExtraData) :=
  m ← getCE extraDatas_; mret (m !! id).

Definition CommonCheckExtraMessage (id : Z) (profileEvent : OnDemandEvent) : M bool :=
  d ← CommonGetExtraData id;
  mret (match d with None => false | Some d => checkMessages (ed_want d) (ev_extraMessages profileEvent) end).

Definition GenerateExtraDataIdLocked : M Z :=
  updCE extraDataId_ (λ n, if MAX_EXTRA_DATA_ID <? n + 1 then 1 else n + 1);; getCE extraDataId_.

Definition GetParamFromWant (key : string) (want : Want) : string :=
  let valueInt := GetIntParam want key (-1) in
  let valueString := if valueInt =? -1 then GetStringParam want key else to_string valueInt in
  if GetBoolParam want key false then "true"
  else if negb (GetBoolParam want key true) then "false" else valueString.

Definition wantMap (want : Want) : gmap string string :=
  <[COMMON_EVENT_ACTION_NAME := GetAction want]>
    (<[BUNDLE_NAME := GetBundle want]>
      (<[NET_TYPE := to_string (GetIntParam want NET_TYPE (-1))]>
        (<[UID := to_string (GetIntParam want UID (-1))]>
          (set_to_map (λ k, (k, GetParamFromWant k want)) (KeySet want))))).

Definition SaveOnDemandReasonExtraData (data : CommonEventData) : M Z :=
  id ← GenerateExtraDataIdLocked;
  updCE extraDatas_ <[id := MkExtraData (GetCode data) (GetData data) (wantMap (GetWant data))]>;;
  b ← isHandler commonWorkHandler;
  if negb b then mret (-1)
  else
    _ ← sendEventDelay commonWorkHandler REMOVE_EXTRA_DATA_EVENT id REMOVE_EXTRA_DATA_DELAY_TIME;
    mret id.

Definition SaveOnDemandConditionExtraData (data : CommonEventData) : M unit :=
  let action := GetAction (GetWant data) in
  updCE commonEventConditionValue_ <[action := to_string (GetCode data)]>;;
  updCE commonEventConditionExtraData_ (λ m,
    <[action := map_imap (λ k _, Some (GetParamFromWant k (GetWant data))) (default ∅ (m !! action))]> m).

Definition CommonSaveSaExtraDataId (said id : Z) : M unit :=
  updCE saExtraDataIdMap_ (λ m, <[said := default [] (m !! said) ++ [id]]> m).

(** The first occurrence of the id goes from every list, and lists that are empty go. *)
Definition dropExtraId (id : Z) (l : list Z) : option (list Z) :=
  match erase_first (Z.eqb id) l with [] => None | l => Some l end.
Definition RemoveSaExtraDataId (id : Z) : M unit := updCE saExtraDataIdMap_ (omap (dropExtraId id)).

Definition RemoveOnDemandReasonExtraData (id : Z) : M unit :=
  updCE extraDatas_ (delete id);; RemoveSaExtraDataId id.

Definition CommonClearSaExtraDataId (said : Z) : M unit := updCE saExtraDataIdMap_ (delete said).

Definition CommonSaveCacheExtraId (event : OnDemandEvent) (l : list SaControlInfo) : M unit :=
  forM (GetCacheCommonEventSa event l) (λ said, CommonSaveSaExtraDataId said (extraDataId event)).

(** The name of the event an id stands for, while its data is kept. *)
Definition extraAction (datas : gmap Z OnDemandReasonExtraData) (id : Z) : option string :=
  (λ d, default "" (ed_want d !! COMMON_EVENT_ACTION_NAME)) <$> datas !! id.

Definition CommonGetSaExtraDataIdList (said : Z) (eventName : string) : M (Z * list Z) :=
  m ← getCE saExtraDataIdMap_;
  datas ← getCE extraDatas_;
  let ids := default [] (m !! said) in
  mret (ERR_OK,
    if bool_decide (eventName = "") then ids
    else filter (λ id, extraAction datas id = Some eventName) ids).

(** *** Reclaiming IPC threads *)

Definition SendKernalReclaimIpcThread : M unit := emit (EvMonitor ReclaimThread).

Definition StartReclaimIpcThreadWork (data : CommonEventData) : M unit :=
  other ← isOtherUser;
  when (negb other) (
    let eventName := GetAction (GetWant data) in
    isTrigger ←
      (if bool_decide (eventName = SCREEN_OFF ces) then updCE isCancel_ (λ _, false);; mret true
       else if bool_decide (eventName = SCREEN_ON ces) then updCE isCancel_ (λ _, true);; mret false
       else if bool_decide (eventName = COMMON_RECENT_EVENT) && bool_decide (GetData data = COMMON_RECENT_CLEAR_ALL) then
         updCE isCancel_ (λ _, false);; emit (EvMonitor TriggerSystemIPCThreadReclaim);; mret true
       else mret false);
    started ← getCE isTriggerTaskStart_;
    when isTrigger (
      updCE isTriggerTaskStart_ (λ _, true);;
      when (negb started) SendKernalReclaimIpcThread)).

(** The thread: it ends when it sees the cancellation, or triggers when the time is up. *)
Definition reclaimThread (timeUp : bool) : M unit :=
  cancel ← getCE isCancel_;
  if timeUp then emit (EvMonitor TriggerSystemIPCThreadReclaim);; updCE isTriggerTaskStart_ (λ _, false)
  else when cancel (updCE isTriggerTaskStart_ (λ _, false)).

(** *** The load of the processors *)

(** [sscanf_s] fills the fields in order; [env_proc_stat] are the numbers it finds on the first
    line of the file, none where the file cannot be read. A local that is not initialised and
    not filled has the value [env_uninitialised]. *)
Definition GetCpuTimes : M (option (Z * Z)) :=
  tr ← gets w_trace;
  match env_proc_stat tr with
  | None => mret None
  | Some line =>
      let fields := take 10 line in
      let num := Z.of_nat (length fields) in
      if num <? CPU_STAT_MIN_FIELDS then mret None
      else
        let f i := nth i fields 0 in
        let steal := nth 7 fields (env_uninitialised tr) in
        let idle := f 3%nat in
        let total := u64 (f 0%nat + f 1%nat + f 2%nat + idle + f 4%nat + f 5%nat + f 6%nat + steal) in
        mret (Some (if CPU_STAT_MIN_FIELDS <? num then u64 (total + (f 8%nat + f 9%nat)) else total, idle))
  end.

(** The difference of two counters, with the step back taken for a wrap-around. *)
Definition counterDelta (now pre : Z) : Z := if pre <=? now then now - pre else u64 (UINT64_MAX - pre + now).

Definition GetCpuUsage (interval : Z) : M F32 :=
  if interval <=? 0 then mret CPU_LOAD_INVALID
  else
    pre ← GetCpuTimes;
    match pre with
    | None => mret CPU_LOAD_INVALID
    | Some (totalPre, idlePre) =>
        emit (EvMonitor (SleepFor interval));;
        now ← GetCpuTimes;
        match now with
        | None => mret CPU_LOAD_INVALID
        | Some (total, idle) =>
            let totalDelta := counterDelta total totalPre in
            let idleDelta := counterDelta idle idlePre in
            if (totalDelta =? 0) || (totalDelta <? idleDelta) then mret CPU_LOAD_INVALID
            else
              let usage := f32_div (f32_of_Z (totalDelta - idleDelta)) (f32_of_Z totalDelta) in
              mret (f32_mul usage CPU_LOAD_PERCENT)
        end
    end.

(** One round of [MonitorCpuUsageThread]; the loop ends when [keepRunning_] is cleared. *)
Definition MonitorCpuUsageThread : M unit :=
  let baseLoad := u64 (Z.shiftl env_coreNum CPU_LOAD_SHIFT) in
  running ← getCE keepRunning_;
  when running (
    emit (EvMonitor (SleepFor (CPU_LOAD_CHECK_INTERVAL - CPU_STAT_CHECK_INTERVAL)));;
    usage ← GetCpuUsage CPU_STAT_CHECK_INTERVAL;
    tr ← gets w_trace;
    match env_sysinfo tr with
    | None => mret tt
    | Some (load1, load5) =>
        when ((u64 (load1 - baseLoad) <? Z.shiftl 1 CPU_LOAD_SHIFT) && (load1 <? load5)
              && f32_ltb CPU_LOAD_INVALID usage && f32_leb usage CPU_LOAD_IDLE_THRESHOLD)
          (emit (EvMonitor TriggerSystemIPCThreadReclaim))
    end).

(** *** Events that arrive *)

(** [CommonHandler::ProcessEvent]; the plugin is alive while the manager has it. *)
Definition CommonProcessEvent (eventId extraDataId : Z) : M unit :=
  plugins ← getC collectPluginMap_;
  if bool_decide (COMMON_EVENT ∉ plugins) then mret tt
  else if eventId =? REMOVE_EXTRA_DATA_EVENT then RemoveOnDemandReasonExtraData extraDataId
  else if eventId =? SUB_COMMON_EVENT then _ ← CreateCommonEventSubscriber; mret tt
  else if eventId =? INIT_EVENT then emit (EvSubscribeFor CommonEventListener COMMON_EVENT_SERVICE_ID)
  else mret tt.

(** [CommonEventListener::OnAddSystemAbility]. *)
Definition CommonOnAddSystemAbility (said : Z) : M unit :=
  when (said =? COMMON_EVENT_SERVICE_ID) (_ ← CommonSendEvent SUB_COMMON_EVENT; mret tt).

(** [CommonEventSubscriber::OnReceiveEvent]. *)
Definition CommonOnReceiveEvent (data : CommonEventData) : M unit :=
  plugins ← getC collectPluginMap_;
  when (bool_decide (COMMON_EVENT ∈ plugins)) (
    let action := GetAction (GetWant data) in
    SaveAction action;;
    id ← SaveOnDemandReasonExtraData data;
    SaveOnDemandConditionExtraData data;;
    ReportEvent (MkEvent COMMON_EVENT action (to_string (GetCode data)) id false [] false LOW_PRIORITY ∅);;
    StartReclaimIpcThreadWork data).
End common.
