(* ===== verification/TimedCollect.v ===== *)
(** [DeviceTimedCollect] (services/samgr/native/source/collect/device_timed_collect.cpp):
    the plugin that reports loop events every so many seconds and timed events at a
    point in time, and keeps the persistent ones over a restart. *)
From Stdlib Require Import Ascii.
From S2P Require Import Prelude Types World ParseUtil Ffrt Util TimeHandler CommonEvent.

Definition LOOP_EVENT : string := "loopevent".
Definition AWAKE_LOOP_EVENT : string := "awakeloopevent".
Definition ORDER_TIMED_EVENT : string := "timedevent".
Definition MIN_INTERVAL : Z := 30.
Definition MIN_AWAKE_INTERVAL : Z := 3600.

(** [atoi]: blanks, a sign, digits; the rest is not looked at.  The C standard leaves
    a number that is no [int] open; it wraps here. *)
Definition isBlank (c : ascii) : bool := let n := N_of_ascii c in ((9 <=? n) && (n <=? 13) || (n =? 32))%N.
Definition digitOf (c : ascii) : option Z :=
  let n := Z.of_N (N_of_ascii c) in if (48 <=? n) && (n <=? 57) then Some (n - 48) else None.
Fixpoint digits (s : string) (acc : Z) : Z :=
  match s with
  | String c s' => match digitOf c with Some d => digits s' (acc * 10 + d) | None => acc end
  | EmptyString => acc
  end.
Definition signed (s : string) : Z :=
  match s with
  | String "-" s' => - digits s' 0
  | String "+" s' => digits s' 0
  | _ => digits s 0
  end.
Fixpoint skipBlanks (s : string) : string :=
  match s with String c s' => if isBlank c then skipBlanks s' else s | EmptyString => s end.
Definition atoi (s : string) : Z := i32 (signed (skipBlanks s)).

(** [s.find(c) != std::string::npos]. *)
Definition contains (sub s : string) : bool := bool_decide (is_Some (String.index 0 sub s)).

Section timed.
Context `{E : Env}.

Definition getT {T} (proj : DeviceTimedCollect → T) : M T := gets (λ w, proj (c_timed (w_collect w))).
Definition updT {T} (proj : DeviceTimedCollect → T) `{!Setter proj} (f : T → T) : M unit :=
  updC c_timed (set_with proj f).

Definition timedEvent (name value : string) (persistence : bool) : OnDemandEvent :=
  MkEvent TIMED_EVENT name value (-1) persistence [] false LOW_PRIORITY ∅.

(** [preferencesUtil_->method(...)]. *)
Definition onPreferences {A} (d : A) (m : PreferencesUtil → M (A * PreferencesUtil)) : M A :=
  u ← getT preferencesUtil_;
  match u with
  | None => emit EvNullDeref;; mret d
  | Some u => '(a, u') ← m u; updT preferencesUtil_ (λ _, Some u');; mret a
  end.

Definition InitPreferencesUtil : M unit :=
  alive ← lockManager;
  userId ← getM userId_;
  updT preferencesUtil_ (λ _, Some (newPreferencesUtil (if (alive : bool) then userId else BASE_USER))).

(** *** Posting *)

(** [if (IsMultiUser() || !SamgrTimeHandler::GetInstance()->PostTask(t, d)) PostDelayTask(t, d);]. *)
Definition postTimer (t : CollectTask) (disTime : Z) : M unit :=
  other ← isOtherUser;
  posted ← (if (other : bool) then mret false else TimerPostTask t (u64 disTime));
  when (negb posted) (PostDelayTask t disTime).

Definition ReportEventByTimeInfo (interval : Z) (persistence : bool) : M unit :=
  infos ← getT timeInfos_;
  match infos !! interval with
  | None => mret tt
  | Some info =>
      when (ti_normal info) (ReportEvent (timedEvent LOOP_EVENT (to_string interval) persistence));;
      when (ti_awake info) (ReportEvent (timedEvent AWAKE_LOOP_EVENT (to_string interval) persistence))
  end.

Definition PostDelayTaskByTimeInfo (callback : CollectTask) (interval disTime : Z) : M unit :=
  infos ← getT timeInfos_;
  match infos !! interval with
  | None => mret tt
  | Some info => if ti_awake info then postTimer callback disTime else PostDelayTask callback disTime
  end.

Definition PostPersistenceDelayTask (postTask : CollectTask) (interval disTime : Z) : M unit :=
  when PREFERENCES_ENABLE (
    currentTime ← GetTimestamp;
    _ ← onPreferences false (SaveLong (to_string interval) (currentTime + disTime));
    PostDelayTaskByTimeInfo postTask interval disTime).

(** [tasks[interval]] as a function to post. *)
Definition loopTask (persistence : bool) (interval : Z) : M CollectTask :=
  (if persistence then updT persitenceLoopTasks_ (map_touch interval CtEmptyFunction)
   else updT nonPersitenceLoopTasks_ (map_touch interval CtEmptyFunction));;
  m ← (if persistence then getT persitenceLoopTasks_ else getT nonPersitenceLoopTasks_);
  mret (default CtEmptyFunction (m !! interval)).

Definition PostPersistenceLoopTaskLocked (interval : Z) : M unit :=
  tasks ← getT persitenceLoopTasks_;
  if bool_decide (is_Some (tasks !! interval)) then mret tt
  else
    updT persitenceLoopTasks_ <[interval := CtLoop interval true]>;;
    PostPersistenceDelayTask (CtLoop interval true) interval interval.

Definition PostNonPersistenceLoopTaskLocked (interval : Z) : M unit :=
  tasks ← getT nonPersitenceLoopTasks_;
  if bool_decide (is_Some (tasks !! interval)) then mret tt
  else
    updT nonPersitenceLoopTasks_ <[interval := CtLoop interval false]>;;
    PostDelayTaskByTimeInfo (CtLoop interval false) interval interval.

(** The lambdas of the loop tasks. *)
Definition runLoop (interval : Z) (persistence : bool) : M unit :=
  if persistence then
    tasks ← getT persitenceLoopTasks_;
    when (bool_decide (is_Some (tasks !! interval))) (
      ReportEventByTimeInfo interval true;;
      t ← loopTask true interval;
      PostPersistenceDelayTask t interval interval)
  else
    set ← getT nonPersitenceLoopEventSet_;
    when (bool_decide (interval ∈ set)) (
      ReportEventByTimeInfo interval false;;
      t ← loopTask false interval;
      PostDelayTaskByTimeInfo t interval interval).

(** The lambdas of the timed tasks. *)
Definition runTimed (timeString : string) (persistence : bool) : M unit :=
  ReportEvent (timedEvent ORDER_TIMED_EVENT timeString persistence);;
  when persistence (_ ← onPreferences false (RemoveKey timeString); mret tt).

(** *** What was kept over a restart *)

Definition ProcessPersistenceTimedTask (disTime : Z) (timeString : string) : M unit :=
  if disTime <=? 0 then runTimed timeString true
  else postTimer (CtTimed timeString true) disTime.

Definition ProcessPersistenceLoopTask (disTime triggerTime : Z) (strInterval : string) : M unit :=
  let interval := atoi strInterval in
  tasks ← getT persitenceLoopTasks_;
  if bool_decide (is_Some (tasks !! interval)) then mret tt
  else
    currentTime ← GetTimestamp;
    if PREFERENCES_ENABLE && (currentTime <? triggerTime - interval) then mret tt
    else if interval <? MIN_INTERVAL then mret tt
    else
      updT persitenceLoopTasks_ <[interval := CtLoop interval true]>;;
      if disTime <=? 0 then
        ReportEventByTimeInfo interval true;;
        PostPersistenceDelayTask (CtLoop interval true) interval (i32 (interval - Z.abs disTime `mod` interval))
      else PostDelayTaskByTimeInfo (CtLoop interval true) interval (i32 disTime).

(** The loop over the entries, in the order of their keys, which ends with the
    first timed event. *)
Definition persistedLoop (allData : gmap string PreferencesValue) (currentTime : Z) (keys : list string) : M unit :=
  _ ← findM (λ strInterval,
    if contains "_" strInterval then mret None
    else
      match allData !! strInterval with
      | Some (PrefLong triggerTime) =>
          let disTime := triggerTime - currentTime in
          if contains ":" strInterval then ProcessPersistenceTimedTask disTime strInterval;; mret (Some tt)
          else ProcessPersistenceLoopTask disTime triggerTime strInterval;; mret None
      | _ => mret None
      end) keys;
  mret tt.

Definition ProcessPersistenceTasks : M unit :=
  when PREFERENCES_ENABLE (
    u ← getT preferencesUtil_;
    when (bool_decide (u = None)) InitPreferencesUtil;;
    allData ← onPreferences ∅ ObtainAll;
    currentTime ← GetTimestamp;
    persistedLoop allData currentTime (sorted_keys str_le allData)).

(** *** Start *)

Definition SaveTimedInfos (event : OnDemandEvent) (interval : Z) : M unit :=
  updT timeInfos_ (λ m,
    let info := default (MkTimeInfo false false) (m !! interval) in
    <[interval := MkTimeInfo (ti_normal info || bool_decide (ev_name event = LOOP_EVENT))
                             (ti_awake info || bool_decide (ev_name event = AWAKE_LOOP_EVENT))]> m).

Definition isLoopName (name : string) : bool :=
  bool_decide (name = LOOP_EVENT) || bool_decide (name = AWAKE_LOOP_EVENT).

(** [interval < MIN_INTERVAL], or too short to wake the device. *)
Definition badInterval (name : string) (interval : Z) : bool :=
  (interval <? MIN_INTERVAL) || ((interval <? MIN_AWAKE_INTERVAL) && bool_decide (name = AWAKE_LOOP_EVENT)).

Definition SaveTimedEvent (event : OnDemandEvent) : M unit :=
  if (eventId event =? TIMED_EVENT) && isLoopName (ev_name event) then
    let interval := atoi (ev_value event) in
    if badInterval (ev_name event) interval then mret tt
    else
      (if persistence event then updT persitenceLoopEventSet_ (λ s, {[interval]} ∪ s)
       else updT nonPersitenceLoopEventSet_ (λ s, {[interval]} ∪ s));;
      SaveTimedInfos event interval
  else mret tt.

Definition TimedInit (profiles : list SaProfile) : M unit :=
  when PREFERENCES_ENABLE InitPreferencesUtil;;
  forM profiles (λ p, forM (profileEvents p) SaveTimedEvent).

Definition PostNonPersistenceLoopTasks : M unit :=
  s ← getT nonPersitenceLoopEventSet_; forM (sorted_set Z.le s) PostNonPersistenceLoopTaskLocked.
Definition PostPersistenceLoopTasks : M unit :=
  s ← getT persitenceLoopEventSet_; forM (sorted_set Z.le s) PostPersistenceLoopTaskLocked.

Definition TimedOnStart : M Z :=
  ProcessPersistenceTasks;; PostNonPersistenceLoopTasks;; PostPersistenceLoopTasks;; mret ERR_OK.
Definition TimedOnStop : M Z := mret ERR_OK.

(** *** Changes of the policy *)

Definition CalculateDelayTime (timeString : string) : M Z :=
  tr ← gets w_trace; mret (i64 (env_mktime tr timeString - env_time tr)).

Definition PostPersistenceTimedTaskLocked (timeString : string) (timeGap : Z) : M unit :=
  if timeGap <=? 0 then mret tt
  else
    currentTime ← GetTimestamp;
    _ ← onPreferences false (SaveLong timeString (currentTime + timeGap));
    postTimer (CtTimed timeString true) timeGap.

Definition PostNonPersistenceTimedTaskLocked (timeString : string) (timeGap : Z) : M unit :=
  if timeGap <=? 0 then mret tt else postTimer (CtTimed timeString false) timeGap.

Definition TimedAddCollectEvent (events : list OnDemandEvent) : M Z :=
  whileOk (λ event,
    if negb (isLoopName (ev_name event)) && negb (bool_decide (ev_name event = ORDER_TIMED_EVENT)) then mret ERR_INVALID_VALUE
    else if bool_decide (ev_name event = ORDER_TIMED_EVENT) then
      timeGap ← CalculateDelayTime (ev_value event);
      (if PREFERENCES_ENABLE && persistence event then PostPersistenceTimedTaskLocked (ev_value event) timeGap
       else PostNonPersistenceTimedTaskLocked (ev_value event) timeGap);;
      mret ERR_OK
    else if persistence event then mret ERR_INVALID_VALUE
    else
      let interval := atoi (ev_value event) in
      if badInterval (ev_name event) interval then mret ERR_INVALID_VALUE
      else
        SaveTimedInfos event interval;;
        set ← getT nonPersitenceLoopEventSet_;
        when (bool_decide (interval ∉ set)) (
          updT nonPersitenceLoopEventSet_ (λ s, {[interval]} ∪ s);;
          PostNonPersistenceLoopTaskLocked interval);;
        mret ERR_OK) events.

Definition RemoveTimesInfo (event : OnDemandEvent) (interval : Z) : M unit :=
  updT timeInfos_ (λ m,
    match m !! interval with
    | None => m
    | Some info =>
        let normal := ti_normal info && negb (bool_decide (ev_name event = LOOP_EVENT)) in
        let awake := ti_awake info && negb (bool_decide (ev_name event = AWAKE_LOOP_EVENT)) in
        if normal || awake then <[interval := MkTimeInfo normal awake]> m else delete interval m
    end).

Definition RemoveNonPersistenceLoopTask (interval : Z) : M unit :=
  s ← getT nonPersitenceLoopEventSet_;
  when (bool_decide (interval ∈ s)) (
    updT nonPersitenceLoopEventSet_ (λ s, s ∖ {[interval]});;
    updT nonPersitenceLoopTasks_ (delete interval)).
Definition RemovePersistenceLoopTask (interval : Z) : M unit :=
  s ← getT persitenceLoopEventSet_;
  when (bool_decide (interval ∈ s)) (
    updT persitenceLoopEventSet_ (λ s, s ∖ {[interval]});;
    updT persitenceLoopTasks_ (delete interval)).

Definition TimedRemoveUnusedEvent (event : OnDemandEvent) : M Z :=
  if negb (isLoopName (ev_name event)) then mret ERR_INVALID_VALUE
  else
    let interval := atoi (ev_value event) in
    (if persistence event then RemovePersistenceLoopTask interval else RemoveNonPersistenceLoopTask interval);;
    RemoveTimesInfo event interval;;
    mret ERR_OK.
End timed.
