(* ===== verification/DevicePlugins.v ===== *)
(** The smaller collect plugins: [DeviceParamCollect], [DeviceNetworkingCollect],
    [DeviceSwitchCollect] and [RefCountCollect]
    (services/samgr/native/source/collect/device_param_collect.cpp,
    device_networking_collect.cpp, device_switch_collect.cpp, ref_count_collect.cpp).
    What they ask of the manager is in CollectTasks.v. *)
From S2P Require Import Prelude Types World ParseUtil Ffrt Util TimeHandler CommonEvent.

Definition PARAM_WATCHER_DISTRIBUTED_SERVICE_ID : Z := 3901.
Definition PARAM_LOW_MEM_PREPARE_NAME : string := "resourceschedule.memmgr.low.memory.prepare".
Definition SA_TAG_DEVICE_ON_LINE : string := "deviceonline".
Definition DM_DIED_EVENT : Z := 11.
Definition DELAY_TIME : Z := 1000.
Definition BLUETOOTH_NAME : string := "bluetooth_status".
Definition WIFI_NAME : string := "wifi_status".
Definition WIFI_ON : Z := 3.
Definition WIFI_OFF : Z := 1.
Definition BLUETOOTH_STATE_TURN_ON : Z := 1.
Definition BLUETOOTH_STATE_TURN_OFF : Z := 3.

Section plugins.
Context `{E : Env}.

(** ** DeviceParamCollect *)

Definition getP {T} (proj : DeviceParamCollect → T) : M T := gets (λ w, proj (c_param (w_collect w))).
Definition updP {T} (proj : DeviceParamCollect → T) `{!Setter proj} (f : T → T) : M unit :=
  updC c_param (set_with proj f).

(** [DeviceParamCallback]. *)
Definition DeviceParamCallback (key value : string) : M unit := ReportEvent (mkEvent PARAM key value).

Definition ParamCheckCondition (condition : OnDemandCondition) : M bool :=
  tr ← gets w_trace; mret (bool_decide (env_GetParameter tr (cond_name condition) "" = cond_value condition)).

Definition CheckLowMemSA (name : string) (said : Z) : M unit :=
  when (bool_decide (name = PARAM_LOW_MEM_PREPARE_NAME)) (updP lowMemPrepareList_ (λ l, l ++ [said])).

Definition ParamInit (profiles : list SaProfile) : M unit :=
  forM profiles (λ p,
    forM (start_onDemandEvents (startOnDemand p)) (λ e,
      when (eventId e =? PARAM) (updP pendingParams_ (λ s, {[ev_name e]} ∪ s)));;
    forM (stop_onDemandEvents (stopOnDemand p)) (λ e,
      when (eventId e =? PARAM) (
        CheckLowMemSA (ev_name e) (saId p);;
        updP pendingParams_ (λ s, {[ev_name e]} ∪ s)))).

Definition ParamOnStart : M Z := emit (EvSubscribeFor ParamListener PARAM_WATCHER_DISTRIBUTED_SERVICE_ID);; mret ERR_OK.
Definition ParamOnStop : M Z := mret ERR_OK.

Definition WatchParameter (param : string) : M Z := ask env_WatchParameter (EvWatchParameter param).

Definition WatchParameters : M unit :=
  pending ← getP pendingParams_;
  forM (sorted_set str_le pending) (λ param,
    result ← WatchParameter param;
    when (result =? ERR_OK) (updP params_ (λ s, {[param]} ∪ s)));;
  updP pendingParams_ (λ _, ∅).

Definition ParamAddCollectEvent (events : list OnDemandEvent) : M Z :=
  whileOk (λ event,
    params ← getP params_;
    if bool_decide (ev_name event ∈ params) then mret ERR_OK
    else
      result ← WatchParameter (ev_name event);
      if negb (result =? ERR_OK) then mret result
      else updP params_ (λ s, {[ev_name event]} ∪ s);; mret ERR_OK) events.

Definition ParamRemoveUnusedEvent (event : OnDemandEvent) : M Z :=
  params ← getP params_;
  if bool_decide (ev_name event ∉ params) then mret ERR_OK
  else
    result ← ask env_RemoveParameterWatcher (EvRemoveParameterWatcher (ev_name event));
    if negb (result =? ERR_OK) then mret result
    else updP params_ (λ s, s ∖ {[ev_name event]});; mret ERR_OK.

(** [SystemAbilityStatusChange::OnAddSystemAbility]. *)
Definition ParamOnAddSystemAbility (said : Z) : M unit :=
  when (said =? PARAM_WATCHER_DISTRIBUTED_SERVICE_ID) (PostDelayTask CtWatchParameters 0).

(** ** DeviceNetworkingCollect *)

Definition getN {T} (proj : DeviceNetworkingCollect → T) : M T := gets (λ w, proj (c_networking (w_collect w))).
Definition updN {T} (proj : DeviceNetworkingCollect → T) `{!Setter proj} (f : T → T) : M unit :=
  updC c_networking (set_with proj f).

Definition onlineEvent (value : string) : OnDemandEvent := mkEvent DEVICE_ONLINE SA_TAG_DEVICE_ON_LINE value.

Definition NetworkingCleanFfrt : M unit := CleanFfrt networkingHandler.
Definition NetworkingSetFfrt : M unit := SetFfrt networkingHandler.

(** [WorkHandler::SendEvent]. *)
Definition NetworkingSendEvent (eventId : Z) : M bool := PostTask networkingHandler (TCollect (CtNetworking eventId)).
Definition NetworkingSendEventDelay (eventId delayTime : Z) : M bool :=
  PostTaskDelay networkingHandler (TCollect (CtNetworking eventId)) delayTime.

Definition NetworkingOnStart : M Z :=
  other ← isOtherUser;
  if (other : bool) then mret ERR_OK
  else
    newFFRTHandler networkingHandler;;
    updN initCallback_ (λ _, true);;
    updN stateCallback_ (λ _, Some ∅);;
    _ ← NetworkingSendEvent INIT_EVENT;
    mret ERR_OK.

Definition ClearDeviceOnlineSet : M unit := updN stateCallback_ (fmap (λ _, ∅)).
Definition UpdateDeviceOnlineSet (deviceId : string) : M unit := updN stateCallback_ (fmap (λ s, {[deviceId]} ∪ s)).
Definition IsOnline : M bool := s ← getN stateCallback_; mret (bool_decide (default ∅ s ≠ ∅)).

Definition NetworkingOnStop : M Z :=
  other ← isOtherUser;
  if (other : bool) then mret ERR_OK
  else
    emit (EvDevice UnRegisterDevStateCallback);;
    NetworkingCleanFfrt;;
    dropHandler networkingHandler;;
    updN initCallback_ (λ _, false);;
    ClearDeviceOnlineSet;;
    updN stateCallback_ (λ _, None);;
    mret ERR_OK.

Definition NetworkingCheckCondition (condition : OnDemandCondition) : M bool :=
  isOnline ← IsOnline;
  mret (if bool_decide (cond_value condition = "on") && isOnline then true
        else if bool_decide (cond_value condition = "off") && negb isOnline then true else false).

Definition DeviceManagerCall (c : DeviceCall) : M Z := ask (λ tr, env_DeviceManager tr c) (EvDevice c).

Definition ReportMissedEvents : M bool :=
  tr ← gets w_trace;
  let devList := env_TrustedDevices tr in
  ret ← DeviceManagerCall GetTrustedDeviceList;
  if negb (ret =? ERR_OK) then mret false
  else
    isPreviousOnline ← IsOnline;
    (if (isPreviousOnline : bool) then
       ClearDeviceOnlineSet;;
       match devList with
       | [] => ReportEvent (onlineEvent "off")
       | _ => forM devList (λ d, UpdateDeviceOnlineSet (dm_networkId d))
       end
     else
       match devList with
       | [] => mret tt
       | _ => forM devList (λ d, UpdateDeviceOnlineSet (dm_networkId d));; ReportEvent (onlineEvent "on")
       end);;
    mret true.

(** [DeviceInitCallBack::OnRemoteDied]. *)
Definition NetworkingOnRemoteDied : M unit := _ ← NetworkingSendEventDelay DM_DIED_EVENT DELAY_TIME; mret tt.

(** [DeviceStateCallback]: what the device manager tells the registered object. *)
Definition OnDeviceOffline (networkId : string) : M unit :=
  s ← getN stateCallback_;
  match s with
  | None => mret tt
  | Some _ =>
      updN stateCallback_ (fmap (λ s, s ∖ {[networkId]}));;
      isOnline ← IsOnline;
      when (negb isOnline) (ReportEvent (onlineEvent "off"))
  end.

Definition OnDeviceReady : M unit :=
  s ← getN stateCallback_; when (bool_decide (is_Some s)) (ReportEvent (onlineEvent "ready")).

(** ** DeviceSwitchCollect *)

Definition getSw {T} (proj : DeviceSwitchCollect → T) : M T := gets (λ w, proj (c_switch (w_collect w))).
Definition updSw {T} (proj : DeviceSwitchCollect → T) `{!Setter proj} (f : T → T) : M unit :=
  updC c_switch (set_with proj f).

Definition InitCommonEventSubscriber : M unit := updSw switchEventSubscriber_ (λ _, Some false).

(** [DeviceSwitchCollect::SubscribeSwitchEvent] and the subscriber's. *)
Definition SubscribeSwitchEvent : M Z :=
  s ← getSw switchEventSubscriber_;
  match s with
  | None => mret ERR_INVALID_VALUE
  | Some true => mret ERR_OK
  | Some false =>
      ok ← ask env_SubscribeCommonEvent (EvCommonEvent SubscribeSwitchEvents);
      if negb ok then mret ERR_INVALID_VALUE else updSw switchEventSubscriber_ (λ _, Some true);; mret ERR_OK
  end.
Definition UnSubscribeSwitchEvent : M Z :=
  s ← getSw switchEventSubscriber_;
  match s with
  | Some true =>
      ok ← ask env_SubscribeCommonEvent (EvCommonEvent UnSubscribeSwitchEvents);
      if negb ok then mret ERR_INVALID_VALUE else updSw switchEventSubscriber_ (λ _, Some false);; mret ERR_OK
  | _ => mret ERR_OK
  end.

Definition CheckSwitchEvent (event : OnDemandEvent) : Z :=
  if negb (eventId event =? SETTING_SWITCH) then ERR_INVALID_VALUE
  else if negb (bool_decide (ev_name event = WIFI_NAME)) && negb (bool_decide (ev_name event = BLUETOOTH_NAME))
  then ERR_INVALID_VALUE else ERR_OK.

Definition SwitchInit (profiles : list SaProfile) : M unit :=
  InitCommonEventSubscriber;;
  when (existsb (λ p, existsb (λ e, CheckSwitchEvent e =? ERR_OK) (profileEvents p)) profiles)
    (updSw needListenSwitchEvent_ (λ _, true)).

Definition SwitchOnStart : M Z :=
  need ← getSw needListenSwitchEvent_;
  when need (emit (EvSubscribeFor CesStateListener COMMON_EVENT_SERVICE_ID));;
  mret ERR_OK.
Definition SwitchOnStop : M Z := _ ← UnSubscribeSwitchEvent; mret ERR_OK.

Definition SwitchAddCollectEvent (events : list OnDemandEvent) : M Z :=
  whileOk (λ event,
    if negb (CheckSwitchEvent event =? ERR_OK) then mret ERR_INVALID_VALUE else SubscribeSwitchEvent) events.

(** [CesStateListener::OnAddSystemAbility]; the plugin is alive while the manager has it. *)
Definition SwitchOnAddSystemAbility (said : Z) : M unit :=
  plugins ← getC collectPluginMap_;
  when ((said =? COMMON_EVENT_SERVICE_ID) && bool_decide (SETTING_SWITCH ∈ plugins)) (PostDelayTask CtSubscribeSwitch 0).

Definition switchEvent (name : string) (code on off : Z) : M unit :=
  if code =? on then ReportEvent (mkEvent SETTING_SWITCH name "on")
  else if code =? off then ReportEvent (mkEvent SETTING_SWITCH name "off")
  else mret tt.
Definition OnReceiveWifiEvent (code : Z) : M unit := switchEvent WIFI_NAME code WIFI_ON WIFI_OFF.
Definition OnReceiveBluetoothEvent (code : Z) : M unit :=
  switchEvent BLUETOOTH_NAME code BLUETOOTH_STATE_TURN_ON BLUETOOTH_STATE_TURN_OFF.

(** [SwitchEventSubscriber::OnReceiveEvent]. *)
Definition SwitchOnReceiveEvent (data : CommonEventData) : M unit :=
  plugins ← getC collectPluginMap_;
  when (bool_decide (SETTING_SWITCH ∈ plugins)) (
    let action := GetAction (GetWant data) in
    if bool_decide (action = WIFI_POWER_STATE ces) then OnReceiveWifiEvent (GetCode data)
    else if bool_decide (action = BLUETOOTH_HOST_STATE_UPDATE ces) then OnReceiveBluetoothEvent (GetCode data)
    else mret tt).

(** ** RefCountCollect *)

Definition getR {T} (proj : RefCountCollect → T) : M T := gets (λ w, proj (c_refCount (w_collect w))).
Definition updR {T} (proj : RefCountCollect → T) `{!Setter proj} (f : T → T) : M unit :=
  updC c_refCount (set_with proj f).

Definition RefCountInit (profiles : list SaProfile) : M unit :=
  updR unrefUnloadSaList_ (λ l, l ++ (saId <$> filter (λ p, unrefUnload (stopOnDemand p) = true) profiles)).

Definition RefCountOnStart : M Z :=
  updR timer_ (λ _, true);;
  l ← getR unrefUnloadSaList_;
  when (negb (bool_decide (l = []))) (emit (EvMonitor UnrefTimer));;
  mret ERR_OK.

Definition RefCountOnStop : M Z :=
  t ← getR timer_;
  when t (emit (EvMonitor UnrefTimerShutdown);; updR timer_ (λ _, false));;
  mret ERR_OK.
End plugins.
