(* ===== verification/CollectManager.v ===== *)
(** [DeviceStatusCollectManager]
    (services/samgr/native/source/collect/device_status_collect_manager.cpp): which
    SAs an event starts or stops, the on-demand events of the SAs and their changes,
    and the plugins that collect the events. *)
From S2P Require Import Prelude Types World ParseUtil Ffrt Util TimeHandler CommonEvent TimedCollect DevicePlugins.

(** A stable sort by a key, as [std::list::sort]. *)
Fixpoint insertBy {A} (key : A → Z) (x : A) (l : list A) : list A :=
  match l with
  | [] => [x]
  | y :: l' => if key x <=? key y then x :: l else y :: insertBy key x l'
  end.
Definition sortBy {A} (key : A → Z) (l : list A) : list A := foldr (insertBy key) [] l.

Section collect.
Context `{E : Env}.

(** ** The plugins by event id *)

Definition hasPlugin (id : Z) : M bool := s ← getC collectPluginMap_; mret (bool_decide (id ∈ s)).

(** [CheckCondition] of the plugin; the default is [false]. *)
Definition pluginCheckCondition (c : OnDemandCondition) : M bool :=
  if cond_eventId c =? PARAM then ParamCheckCondition c
  else if cond_eventId c =? DEVICE_ONLINE then NetworkingCheckCondition c
  else if cond_eventId c =? COMMON_EVENT then CommonCheckCondition c
  else mret false.
(** [CheckExtraMessage]; the default is [true]. *)
Definition pluginCheckExtraMessage (id extraDataId : Z) (profileEvent : OnDemandEvent) : M bool :=
  if id =? COMMON_EVENT then CommonCheckExtraMessage extraDataId profileEvent else mret true.
Definition pluginAddCollectEvent (id : Z) (events : list OnDemandEvent) : M Z :=
  if id =? PARAM then ParamAddCollectEvent events
  else if id =? COMMON_EVENT then CommonAddCollectEvent events
  else if id =? SETTING_SWITCH then SwitchAddCollectEvent events
  else if id =? TIMED_EVENT then TimedAddCollectEvent events
  else mret ERR_OK.
Definition pluginRemoveUnusedEvent (id : Z) (event : OnDemandEvent) : M Z :=
  if id =? PARAM then ParamRemoveUnusedEvent event
  else if id =? COMMON_EVENT then CommonRemoveUnusedEvent event
  else if id =? TIMED_EVENT then TimedRemoveUnusedEvent event
  else mret ERR_OK.
Definition pluginOnStart (id : Z) : M Z :=
  if id =? PARAM then ParamOnStart
  else if id =? DEVICE_ONLINE then NetworkingOnStart
  else if id =? COMMON_EVENT then CommonOnStart
  else if id =? SETTING_SWITCH then SwitchOnStart
  else if id =? TIMED_EVENT then TimedOnStart
  else if id =? UNREF_EVENT then RefCountOnStart else mret ERR_OK.
Definition pluginOnStop (id : Z) : M Z :=
  if id =? PARAM then ParamOnStop
  else if id =? DEVICE_ONLINE then NetworkingOnStop
  else if id =? COMMON_EVENT then CommonOnStop
  else if id =? SETTING_SWITCH then SwitchOnStop
  else if id =? TIMED_EVENT then TimedOnStop
  else if id =? UNREF_EVENT then RefCountOnStop else mret ERR_OK.

(** [for (auto& iter : collectPluginMap_)]. *)
Definition forPlugins (f : Z → M unit) : M unit := s ← getC collectPluginMap_; forM (sorted_set Z.le s) f.

(** ** Start and end *)

(** The constructor. *)
Definition newCollectManager : M unit := modify (λ w, w <| w_collect := newCollect |>).

Definition FilterOnDemandSaProfiles (profiles : list SaProfile) : M unit :=
  forM profiles (λ p,
    let start := start_onDemandEvents (startOnDemand p) in
    let stop := stop_onDemandEvents (stopOnDemand p) in
    when (negb (bool_decide (start = []) && bool_decide (stop = [])))
      (updC onDemandSaProfiles_ (λ l, l ++ [MkCollMgrSaProfile (saId p) start stop (cacheCommonEvent p)]))).

Definition StartCollect : M unit :=
  b ← isHandler collectHandler; when b (_ ← PostTask collectHandler (TCollect CtStart); mret tt).

(** The task of [StartCollect]. *)
Definition startPlugins : M unit := forPlugins (λ id, _ ← pluginOnStart id; mret tt).

Definition addPlugin (id : Z) : M unit := updC collectPluginMap_ (λ s, {[id]} ∪ s).

Definition CollectInit (profiles : list SaProfile) : M unit :=
  FilterOnDemandSaProfiles profiles;;
  newFFRTHandler collectHandler;;
  updC c_param (λ _, newDeviceParamCollect);; ParamInit profiles;; addPlugin PARAM;;
  when SUPPORT_DEVICE_MANAGER (updC c_networking (λ _, newDeviceNetworkingCollect);; addPlugin DEVICE_ONLINE);;
  when SUPPORT_COMMON_EVENT (updC c_common (λ _, newCommonEventCollect);; CommonInit profiles;; addPlugin COMMON_EVENT);;
  when SUPPORT_SWITCH_COLLECT (updC c_switch (λ _, newDeviceSwitchCollect);; SwitchInit profiles;; addPlugin SETTING_SWITCH);;
  updC c_timed (λ _, newDeviceTimedCollect);; TimedInit profiles;; addPlugin TIMED_EVENT;;
  updC c_refCount (λ _, newRefCountCollect);; RefCountInit profiles;; addPlugin UNREF_EVENT;;
  StartCollect.

Definition CollectUnInit : M unit :=
  CleanFfrt collectHandler;;
  dropHandler collectHandler;;
  forPlugins (λ id, _ ← pluginOnStop id; mret tt);;
  updC collectPluginMap_ (λ _, ∅).

Definition CollectCleanFfrt : M unit :=
  forPlugins (λ id, if id =? DEVICE_ONLINE then NetworkingCleanFfrt
                    else if id =? COMMON_EVENT then CommonCleanFfrt else mret tt);;
  CleanFfrt collectHandler.
Definition CollectSetFfrt : M unit :=
  forPlugins (λ id, if id =? DEVICE_ONLINE then NetworkingSetFfrt
                    else if id =? COMMON_EVENT then CommonSetFfrt else mret tt);;
  SetFfrt collectHandler.

(** ** The SAs of an event *)

Definition CollectIsSameEvent (ev1 ev2 : OnDemandEvent) : bool :=
  (eventId ev1 =? eventId ev2) && bool_decide (ev_name ev1 = ev_name ev2)
  && Bool.eqb (persistence ev1) (persistence ev2)
  && (bool_decide (ev_value ev1 = ev_value ev2) || bool_decide ("" = ev_value ev2)).

Definition IsSameEventName (ev1 ev2 : OnDemandEvent) : bool :=
  if negb (eventId ev1 =? TIMED_EVENT) then (eventId ev1 =? eventId ev2) && bool_decide (ev_name ev1 = ev_name ev2)
  else (eventId ev1 =? eventId ev2) && bool_decide (ev_name ev1 = ev_name ev2)
       && bool_decide (ev_value ev1 = ev_value ev2) && Bool.eqb (persistence ev1) (persistence ev2).

Definition CheckConditions (conditions : list OnDemandCondition) : M bool :=
  allM (λ c, b ← hasPlugin (cond_eventId c); if negb b then mret false else pluginCheckCondition c) conditions.

Definition CheckExtraMessages (ev1 ev2 : OnDemandEvent) : M bool :=
  b ← hasPlugin (eventId ev1);
  if negb b then mret false else pluginCheckExtraMessage (eventId ev1) (extraDataId ev1) ev2.

(** [IsSameEvent(event, e) && CheckConditions(e) && CheckExtraMessages(event, e)]. *)
Definition matchEvent (event e : OnDemandEvent) : M bool :=
  if negb (CollectIsSameEvent event e) then mret false
  else ok ← CheckConditions (conditions e); if negb ok then mret false else CheckExtraMessages event e.

(** The first event of the list that matches. *)
Definition firstMatch (event : OnDemandEvent) (l : list OnDemandEvent) : M (option OnDemandEvent) :=
  findM (λ e, b ← matchEvent event e; mret (if (b : bool) then Some e else None)) l.

Definition controlOf (id : Z) (p : CollMgrSaProfile) (e : OnDemandEvent) : SaControlInfo :=
  MkSaControl id (cm_saId p) (ev_enableOnce e) (ev_loadPriority e) (cm_cacheCommonEvent p).

Definition GetSaControlListByEvent (event : OnDemandEvent) (acc : list SaControlInfo) : M (list SaControlInfo) :=
  profiles ← getC onDemandSaProfiles_;
  foldM profiles acc (λ acc p,
    start ← firstMatch event (startOnDemandEvents p);
    stop ← firstMatch event (stopOnDemandEvents p);
    mret (acc ++ option_list (controlOf START_ON_DEMAND p <$> start) ++ option_list (controlOf STOP_ON_DEMAND p <$> stop))).

(** *** SAs whose events are kept over a restart *)

Definition CreatePreferencesUtil : M (option PreferencesUtil) :=
  alive ← lockManager; userId ← getM userId_;
  mret (if (alive : bool) then Some (newPreferencesUtil userId) else None).

Definition TypeAndSaidToString (type said : Z) : string :=
  if type =? START_POLICY then "start#" +:+ to_string said +:+ "#"
  else if type =? STOP_POLICY then "stop#" +:+ to_string said +:+ "#"
  else "".

(** [type] and [systemAbilityId] keep their values when the text has another form. *)
Definition StringToTypeAndSaid (eventStr : string) (type said : Z) : Z * Z :=
  match String.index 0 "#" eventStr with
  | None => (type, said)
  | Some pos =>
      let strType := String.substring 0 pos eventStr in
      let number := atoi (String.substring (pos + 1) (String.length eventStr - pos - 1) eventStr) in
      if bool_decide (strType = "start") then (START_POLICY, number)
      else if bool_decide (strType = "stop") then (STOP_POLICY, number)
      else (type, said)
  end.

Definition persistedControl (text : string) : SaControlInfo :=
  let '(type, said) := StringToTypeAndSaid text START_POLICY (-1) in
  MkSaControl (if type =? START_POLICY then START_ON_DEMAND else STOP_ON_DEMAND) said false LOW_PRIORITY false.

Definition GetSaControlListByPersistEvent (event : OnDemandEvent) (acc : list SaControlInfo) : M (list SaControlInfo) :=
  if negb PREFERENCES_ENABLE then mret acc
  else
    u ← CreatePreferencesUtil;
    match u with
    | None => mret acc
    | Some u =>
        '(value, _) ← ObtainString (event_ToString event) "" u;
        mret (if bool_decide (value = "") then acc else acc ++ (persistedControl <$> SplitStr value "+"))
    end.

Definition SortSaControlListByLoadPriority (l : list SaControlInfo) : list SaControlInfo := sortBy ctl_loadPriority l.

(** The task of [ReportEvent]: what the manager is asked to process. *)
Definition reportTask (event : OnDemandEvent) : M (list SaControlInfo) :=
  l ← GetSaControlListByEvent event [];
  l ← GetSaControlListByPersistEvent event l;
  mret (SortSaControlListByLoadPriority l).

(** ** What the manager asks *)

Definition IsExistInPluginMap (id : Z) : M Z := b ← hasPlugin id; mret (if (b : bool) then ERR_OK else ERR_INVALID_VALUE).

(** [if (IsExistInPluginMap(COMMON_EVENT) != ERR_OK) return d; m]. *)
Definition withCommon {A} (d : A) (m : M A) : M A :=
  r ← IsExistInPluginMap COMMON_EVENT; if negb (r =? ERR_OK) then mret d else m.

Definition CollectRemoveWhiteCommonEvent : M unit := withCommon tt CommonRemoveWhiteCommonEvent.

Definition CollectGetReasonExtraData (id : Z) : M (Z * OnDemandReasonExtraData) :=
  withCommon (ERR_INVALID_VALUE, MkExtraData 0 "" ∅) (
    d ← CommonGetExtraData id;
    mret (match d with Some d => (ERR_OK, d) | None => (ERR_INVALID_VALUE, MkExtraData 0 "" ∅) end)).

Definition CollectClearSaExtraDataId (said : Z) : M unit := withCommon tt (CommonClearSaExtraDataId said).
Definition CollectSaveExtraId (event : OnDemandEvent) (l : list SaControlInfo) : M unit :=
  withCommon tt (CommonSaveCacheExtraId event l).
Definition CollectGetSaExtraDataIdList (said : Z) (eventName : string) : M (Z * list Z) :=
  withCommon (ERR_INVALID_VALUE, []) (CommonGetSaExtraDataIdList said eventName).

(** [collectPluginMap_[PARAM]->GetLowMemPrepareList()]: null without the plugin. *)
Definition GetLowMemPrepareList : M (list Z) :=
  b ← hasPlugin PARAM; if negb b then emit EvNullDeref;; mret [] else getP lowMemPrepareList_.

(** *** Policies *)

Definition allSupported (events : list OnDemandEvent) : M bool := allM (λ e, hasPlugin (eventId e)) events.

(** The events of each plugin, in the order of [eventMap]. *)
Definition addByPlugin (events : list OnDemandEvent) (ids : list Z) : M Z :=
  whileOk (λ id, pluginAddCollectEvent id (filter (λ e, eventId e = id) events)) ids.

Definition AddCollectEvents (events : list OnDemandEvent) : M Z :=
  ok ← allSupported events;
  if negb ok then mret ERR_INVALID_VALUE
  else addByPlugin events (sorted_set Z.le (list_to_set (eventId <$> events))).

(** The first profile of an SA. *)
Definition findProfile (said : Z) (l : list CollMgrSaProfile) : option CollMgrSaProfile :=
  snd <$> list_find (λ p, cm_saId p = said) l.
Fixpoint updateProfile (said : Z) (f : CollMgrSaProfile → CollMgrSaProfile) (l : list CollMgrSaProfile) : list CollMgrSaProfile :=
  match l with
  | [] => []
  | p :: l' => if cm_saId p =? said then f p :: l' else p :: updateProfile said f l'
  end.

Definition eventsOf (type : Z) (p : CollMgrSaProfile) : list OnDemandEvent :=
  if type =? START_POLICY then startOnDemandEvents p else stopOnDemandEvents p.
Definition setEvents (type : Z) (events : list OnDemandEvent) (p : CollMgrSaProfile) : CollMgrSaProfile :=
  if type =? START_POLICY then p <| startOnDemandEvents := events |> else p <| stopOnDemandEvents := events |>.
Definition isPolicy (type : Z) : bool := (type =? START_POLICY) || (type =? STOP_POLICY).

Definition GetOnDemandEvents (said type : Z) : M (Z * list OnDemandEvent) :=
  profiles ← getC onDemandSaProfiles_;
  mret (match findProfile said profiles with
        | None => (ERR_INVALID_VALUE, [])
        | Some p => if negb (isPolicy type) then (ERR_INVALID_VALUE, []) else (ERR_OK, eventsOf type p)
        end).

Definition CheckEventUsedLocked (event : OnDemandEvent) (profiles : list CollMgrSaProfile) : bool :=
  existsb (λ p, existsb (IsSameEventName event) (startOnDemandEvents p)
                || existsb (IsSameEventName event) (stopOnDemandEvents p)) profiles.

Definition RemoveUnusedEventsLocked (events : list OnDemandEvent) : M Z :=
  forM events (λ event,
    b ← hasPlugin (eventId event);
    profiles ← getC onDemandSaProfiles_;
    when (b && negb (CheckEventUsedLocked event profiles)) (_ ← pluginRemoveUnusedEvent (eventId event) event; mret tt));;
  mret ERR_OK.

Definition NeedPersistOnDemandEvent (event : OnDemandEvent) : bool :=
  (eventId event =? TIMED_EVENT) && bool_decide (ev_name event = "timedevent") && persistence event.

Definition persistOne (said type : Z) (u : PreferencesUtil) (event : OnDemandEvent) : M PreferencesUtil :=
  if negb (NeedPersistOnDemandEvent event) then mret u
  else
    let strEvent := event_ToString event in
    let strTypeAndSaid := TypeAndSaidToString type said in
    '(b, u) ← IsExist strEvent u;
    if (b : bool) then
      '(org, u) ← ObtainString strEvent "" u;
      '(_, u) ← SaveString strEvent (org +:+ "+" +:+ strTypeAndSaid) u; mret u
    else '(_, u) ← SaveString strEvent strTypeAndSaid u; mret u.

Definition PersistOnDemandEvent (said type : Z) (events : list OnDemandEvent) : M unit :=
  when PREFERENCES_ENABLE (
    u ← CreatePreferencesUtil;
    match u with
    | None => mret tt
    | Some u => _ ← foldM events u (persistOne said type); mret tt
    end).

Definition UpdateOnDemandEvents (said type : Z) (events : list OnDemandEvent) : M Z :=
  profiles ← getC onDemandSaProfiles_;
  match findProfile said profiles with
  | None => mret ERR_INVALID_VALUE
  | Some p =>
      added ← AddCollectEvents events;
      if negb (added =? ERR_OK) then mret ERR_INVALID_VALUE
      else if negb (isPolicy type) then mret ERR_INVALID_VALUE
      else
        updC onDemandSaProfiles_ (updateProfile said (setEvents type events));;
        PersistOnDemandEvent said type events;;
        _ ← RemoveUnusedEventsLocked (eventsOf type p);
        mret ERR_OK
  end.
End collect.
