(* ===== verification/CollectFrame.v ===== *)
(** The collect manager and its plugins write their own members, queues and timers:
    no member of the manager or of its scheduler. *)
From S2P Require Import Prelude Types World ParseUtil Ffrt Util TimeHandler CommonEvent TimedCollect DevicePlugins.
From S2P Require Import CollectManager.

Section frames.
Context `{E : Env}.

Lemma dropHandler_rest h : respects frame (dropHandler h).
Proof. by intros w. Qed.
Lemma newCollectManager_rest : respects frame newCollectManager.
Proof. by intros w. Qed.
Hint Resolve dropHandler_rest newCollectManager_rest : respects.

(** ** What the plugins share *)

Lemma ReportEvent_rest e : respects frame (ReportEvent e).
Proof. solve_deep. Qed.
Lemma CollectPostTask_rest t : respects frame (CollectPostTask t).
Proof. solve_deep. Qed.
Lemma PostDelayTask_rest t d : respects frame (PostDelayTask t d).
Proof. solve_deep. Qed.
Hint Resolve ReportEvent_rest CollectPostTask_rest PostDelayTask_rest : respects.

(** ** The plugins *)

Lemma postTimer_rest t d : respects frame (postTimer t d).
Proof. solve_deep. Qed.
Lemma onPreferences_rest {A} (d : A) m : (∀ u, respects frame (m u)) → respects frame (onPreferences d m).
Proof. intros H. unfold onPreferences. solve_deep. Qed.
Hint Resolve postTimer_rest : respects.
Hint Extern 2 (respects frame (onPreferences _ _)) => apply onPreferences_rest; intros ?; solve_deep : respects.
Lemma PostNonPersistenceLoopTaskLocked_rest i : respects frame (PostNonPersistenceLoopTaskLocked i).
Proof. solve_deep. Qed.
Lemma PostPersistenceLoopTaskLocked_rest i : respects frame (PostPersistenceLoopTaskLocked i).
Proof. solve_deep. Qed.
Hint Resolve PostNonPersistenceLoopTaskLocked_rest PostPersistenceLoopTaskLocked_rest : respects.
Lemma CommonAddCollectEvent_rest l : respects frame (CommonAddCollectEvent l).
Proof. solve_deep. Qed.
Hint Resolve CommonAddCollectEvent_rest : respects.
Lemma pluginAddCollectEvent_rest k l : respects frame (pluginAddCollectEvent k l).
Proof. solve_deep. Qed.
Lemma pluginRemoveUnusedEvent_rest k e : respects frame (pluginRemoveUnusedEvent k e).
Proof. solve_deep. Qed.
Lemma pluginCheckCondition_rest c : respects frame (pluginCheckCondition c).
Proof. solve_deep. Qed.
Lemma pluginOnStart_rest k : respects frame (pluginOnStart k).
Proof. solve_deep. Qed.
Lemma pluginOnStop_rest k : respects frame (pluginOnStop k).
Proof. solve_deep. Qed.
Hint Resolve pluginAddCollectEvent_rest pluginRemoveUnusedEvent_rest pluginCheckCondition_rest pluginOnStart_rest
  pluginOnStop_rest : respects.

(** ** The collect manager *)

Lemma startPlugins_rest : respects frame startPlugins.
Proof. solve_deep. Qed.
Lemma CollectInit_rest l : respects frame (CollectInit l).
Proof. solve_deep. Qed.
Lemma CollectUnInit_rest : respects frame CollectUnInit.
Proof. solve_deep. Qed.
Lemma CollectCleanFfrt_rest : respects frame CollectCleanFfrt.
Proof. solve_deep. Qed.
Lemma CollectSetFfrt_rest : respects frame CollectSetFfrt.
Proof. solve_deep. Qed.
Lemma reportTask_rest e : respects frame (reportTask e).
Proof. solve_deep. Qed.
Lemma CollectRemoveWhiteCommonEvent_rest : respects frame CollectRemoveWhiteCommonEvent.
Proof. solve_deep. Qed.
Lemma CollectGetReasonExtraData_rest i : respects frame (CollectGetReasonExtraData i).
Proof. solve_deep. Qed.
Lemma CollectClearSaExtraDataId_rest said : respects frame (CollectClearSaExtraDataId said).
Proof. solve_deep. Qed.
Lemma CollectSaveExtraId_rest e l : respects frame (CollectSaveExtraId e l).
Proof. solve_deep. Qed.
Lemma CollectGetSaExtraDataIdList_rest said n : respects frame (CollectGetSaExtraDataIdList said n).
Proof. solve_deep. Qed.
Lemma GetLowMemPrepareList_rest : respects frame GetLowMemPrepareList.
Proof. solve_deep. Qed.
Lemma GetOnDemandEvents_rest said type : respects frame (GetOnDemandEvents said type).
Proof. solve_deep. Qed.
Lemma UpdateOnDemandEvents_rest said type l : respects frame (UpdateOnDemandEvents said type l).
Proof. solve_deep. Qed.
End frames.

#[export] Hint Resolve dropHandler_rest newCollectManager_rest ReportEvent_rest CollectPostTask_rest PostDelayTask_rest
  postTimer_rest PostNonPersistenceLoopTaskLocked_rest PostPersistenceLoopTaskLocked_rest startPlugins_rest
  CollectInit_rest CollectUnInit_rest CollectCleanFfrt_rest CollectSetFfrt_rest reportTask_rest
  CollectRemoveWhiteCommonEvent_rest CollectGetReasonExtraData_rest CollectClearSaExtraDataId_rest
  CollectSaveExtraId_rest CollectGetSaExtraDataIdList_rest GetLowMemPrepareList_rest GetOnDemandEvents_rest
  UpdateOnDemandEvents_rest : respects.
#[export] Hint Extern 2 (respects frame (onPreferences _ _)) => apply onPreferences_rest; intros ?; solve_deep : respects.
