(* ===== verification/Contexts.v ===== *)
(** The scheduler's context maps and the queries on them that the manager also
    calls (services/samgr/native/source/schedule/system_ability_state_scheduler.cpp). *)
From S2P Require Import Prelude Types World Ffrt Util.

Section contexts.
Context `{E : Env}.

(** [GetSystemAbilityContext]: the id is the address of the context it returns. *)
Definition GetSystemAbilityContext (said : Z) : M (option Z) :=
  s ← gets w_sched;
  mret (match abilityContextMap_ s !! said with
        | None => None
        | Some a =>
            match ownProcessContext a with
            | None => None
            | Some pn => if bool_decide (is_Some (processContextMap_ s !! pn)) then Some said else None
            end
        end).

(** [abilityContext->ownProcessContext]. *)
Definition ownProcess (said : Z) : M u16string :=
  a ← derefA said; mret (default [] (ownProcessContext a)).

(** [GetSystemProcessContext]. *)
Definition GetSystemProcessContext (pn : u16string) : M (option u16string) :=
  m ← getS processContextMap_;
  mret (if bool_decide (is_Some (m !! pn)) then Some pn else None).

(** [IsSystemProcessNeverStartedLocked]. *)
Definition IsSystemProcessNeverStartedLocked (pn : u16string) : M bool :=
  o ← GetSystemProcessContext pn;
  match o with
  | None => mret true
  | Some p => c ← derefP p; mret (pid c <? 0)
  end.

(** [GetRunningSystemProcess(processName, systemProcessInfo)]. *)
Definition GetRunningSystemProcessByName (pn : u16string) : M SystemProcessInfo :=
  l ← getS runningProcessList_;
  let name := Str16ToStr8 pn in
  mret (match list_find (λ i, spi_processName i = name) l with
        | Some (_, i) => MkSystemProcessInfo name (spi_pid i) (spi_uid i)
        | None => MkSystemProcessInfo name (-1) (-1)
        end).

Lemma GetSystemAbilityContext_rest said : respects frame (GetSystemAbilityContext said).
Proof. unfold GetSystemAbilityContext. solve_respects. Qed.
Lemma ownProcess_rest said : respects frame (ownProcess said).
Proof. unfold ownProcess. solve_respects. Qed.
Lemma GetSystemProcessContext_rest pn : respects frame (GetSystemProcessContext pn).
Proof. unfold GetSystemProcessContext. solve_respects. Qed.
Hint Resolve GetSystemProcessContext_rest : respects.
Lemma IsSystemProcessNeverStartedLocked_rest pn : respects frame (IsSystemProcessNeverStartedLocked pn).
Proof. unfold IsSystemProcessNeverStartedLocked. solve_respects. Qed.
Lemma GetRunningSystemProcessByName_rest pn : respects frame (GetRunningSystemProcessByName pn).
Proof. unfold GetRunningSystemProcessByName. solve_respects. Qed.
End contexts.

#[export] Hint Resolve GetSystemAbilityContext_rest ownProcess_rest GetSystemProcessContext_rest
  IsSystemProcessNeverStartedLocked_rest GetRunningSystemProcessByName_rest : respects.
