(* ===== verification/Interfaces.v ===== *)
(** What one component promises to another: the manager operations the scheduler
    calls through [manager_], and the listener the state machine notifies. *)
From S2P Require Import Prelude Types World Ffrt Util Contexts.

(** [BaseSystemAbilityManager] as the scheduler sees it. *)
Class ManagerIface := {
  mi_DoLoadOnDemandAbility : Z → M (bool * bool);
  mi_DoLoadSystemAbility : Z → u16string → option LoadCallback → Z → OnDemandEvent → M Z;
  mi_DoLoadSystemAbilityFromRpc : string → Z → u16string → option LoadCallback → OnDemandEvent → M Z;
  mi_DoUnloadSystemAbility : Z → u16string → OnDemandEvent → M Z;
  mi_IdleSystemAbility : Z → u16string → OnDemandEvent → M (bool * Z);
  mi_ActiveSystemAbility : Z → u16string → OnDemandEvent → M bool;
  mi_CheckSaIsImmediatelyRecycle : Z → M bool;
  mi_RemoveDiedSystemAbility : Z → M Z;
  mi_RemoveOnDemandSaInDiedProc : u16string → M unit;
  mi_RemoveWhiteCommonEvent : M unit;
}.

(** What the scheduler relies on: a manager operation it calls with its process
    lock held does not write any member of the scheduler. *)
Class ManagerLaws (MI : ManagerIface) : Prop := {
  ml_DoLoadOnDemandAbility said : respects (same w_sched) (mi_DoLoadOnDemandAbility said);
  ml_DoLoadSystemAbility said pn cb p e : respects (same w_sched) (mi_DoLoadSystemAbility said pn cb p e);
  ml_DoLoadSystemAbilityFromRpc d said pn cb e :
    respects (same w_sched) (mi_DoLoadSystemAbilityFromRpc d said pn cb e);
  ml_DoUnloadSystemAbility said pn e : respects (same w_sched) (mi_DoUnloadSystemAbility said pn e);
  ml_IdleSystemAbility said pn e : respects (same w_sched) (mi_IdleSystemAbility said pn e);
  ml_ActiveSystemAbility said pn e : respects (same w_sched) (mi_ActiveSystemAbility said pn e);
  ml_CheckSaIsImmediatelyRecycle said : respects frame (mi_CheckSaIsImmediatelyRecycle said);
  ml_RemoveDiedSystemAbility said : respects (same w_sched) (mi_RemoveDiedSystemAbility said);
  ml_RemoveOnDemandSaInDiedProc pn : respects (same w_sched) (mi_RemoveOnDemandSaInDiedProc pn);
  ml_RemoveWhiteCommonEvent : respects frame mi_RemoveWhiteCommonEvent;
}.

(** Relations that only constrain the scheduler are respected by whatever leaves
    the scheduler alone. *)
#[export] Hint Extern 6 (respects ?R _) =>
  lazymatch R with
  | frame => fail
  | same w_sched => fail
  | _ => apply (respects_sub (same w_sched) R); [typeclasses eauto|]
  end : respects.

#[export] Hint Resolve ml_DoLoadOnDemandAbility ml_DoLoadSystemAbility ml_DoLoadSystemAbilityFromRpc
  ml_DoUnloadSystemAbility ml_IdleSystemAbility ml_ActiveSystemAbility ml_CheckSaIsImmediatelyRecycle
  ml_RemoveDiedSystemAbility ml_RemoveOnDemandSaInDiedProc ml_RemoveWhiteCommonEvent : respects.

(** [SystemAbilityStateListener]: the callbacks of the state machine. *)
Record StateListener := MkStateListener {
  OnAbilityNotLoaded : Z → M unit;
  OnAbilityLoading : Z → M unit;
  OnAbilityLoaded : Z → M unit;
  OnAbilityUnloadable : Z → M unit;
  OnAbilityUnloading : Z → M unit;
  OnProcessNotStarted : u16string → M unit;
  OnProcessStarted : u16string → M unit;
  OnProcessStopping : u16string → M unit;
}.

(** The default methods of the base class only log. *)
Definition defaultListener : StateListener :=
  MkStateListener (λ _, mret tt) (λ _, mret tt) (λ _, mret tt) (λ _, mret tt) (λ _, mret tt)
    (λ _, mret tt) (λ _, mret tt) (λ _, mret tt).

(** Every callback respects [R]. *)
Record listener_respects (R : relation World) (L : StateListener) : Prop := {
  lr_NotLoaded said : respects R (OnAbilityNotLoaded L said);
  lr_Loading said : respects R (OnAbilityLoading L said);
  lr_Loaded said : respects R (OnAbilityLoaded L said);
  lr_Unloadable said : respects R (OnAbilityUnloadable L said);
  lr_Unloading said : respects R (OnAbilityUnloading L said);
  lr_NotStarted pn : respects R (OnProcessNotStarted L pn);
  lr_Started pn : respects R (OnProcessStarted L pn);
  lr_Stopping pn : respects R (OnProcessStopping L pn);
}.

Lemma defaultListener_respects R `{!PreOrder R} : listener_respects R defaultListener.
Proof. split; intros; apply respects_ret. Qed.

#[export] Hint Resolve lr_NotLoaded lr_Loading lr_Loaded lr_Unloadable lr_Unloading lr_NotStarted
  lr_Started lr_Stopping : respects.
