(* ===== verification/Hoare.v ===== *)
(** A weakest-precondition calculus for the state monad, and the tactics that
    execute an operation symbolically with it. *)
From S2P Require Import Prelude Types World Ffrt Util Contexts Interfaces.

Definition wp {A} (m : M A) (Q : A → World → Prop) (w : World) : Prop := Q (m w).1 (m w).2.

Section wp.
Context {A B : Type}.

Lemma wp_ret (a : A) Q w : Q a w → wp (mret a) Q w.
Proof. done. Qed.
Lemma wp_gets (f : World → A) Q w : Q (f w) w → wp (gets f) Q w.
Proof. done. Qed.
Lemma wp_modify f Q w : Q tt (f w) → wp (modify f) Q w.
Proof. done. Qed.
Lemma wp_bind (m : M A) (k : A → M B) Q w : wp m (λ a, wp (k a) Q) w → wp (m ≫= k) Q w.
Proof. unfold wp, mbind, M_bind. by destruct (m w). Qed.
Lemma wp_mono (m : M A) (Q Q' : A → World → Prop) w : wp m Q w → (∀ a w', Q a w' → Q' a w') → wp m Q' w.
Proof. unfold wp. auto. Qed.
Lemma wp_assoc {C} (m : M A) (k : A → M B) (k' : B → M C) Q w :
  wp ((m ≫= k) ≫= k') Q w → wp (m ≫= λ a, k a ≫= k') Q w.
Proof. unfold wp, mbind, M_bind. by destruct (m w). Qed.
(** An operation that keeps a projection of the world. *)
Lemma wp_same {T} (π : World → T) (m : M A) Q w :
  respects (same π) m → (∀ a w', π w' = π w → Q a w') → wp m Q w.
Proof. intros H HQ. apply HQ. symmetry. apply H. Qed.
End wp.

Lemma wp_when b m Q w : (b = true → wp m Q w) → (b = false → Q tt w) → wp (when b m) Q w.
Proof. intros H1 H2. destruct b; [by apply H1|by apply H2]. Qed.

(** A loop: an invariant of the world, the elements taken in order. *)
Lemma wp_forM {A} (I : World → Prop) (l : list A) (f : A → M unit) w :
  I w → (∀ x w, x ∈ l → I w → wp (f x) (λ _, I) w) → wp (forM l f) (λ _, I) w.
Proof.
  revert w. induction l as [|x l IH]; intros w Hw Hf; [done|].
  apply wp_bind. eapply wp_mono; [apply Hf; [set_solver|done]|].
  intros ? w' Hw'. apply IH; [done|]. intros; apply Hf; [set_solver|done].
Qed.

Lemma wp_foldM_acc {A B} (I : B → World → Prop) (l : list A) (b : B) (f : B → A → M B) w :
  I b w → (∀ b x w, x ∈ l → I b w → wp (f b x) I w) → wp (foldM l b f) I w.
Proof.
  revert b w. induction l as [|x l IH]; intros b w Hw Hf; [done|].
  apply wp_bind. eapply wp_mono; [apply Hf; [set_solver|done]|].
  intros b' w' Hw'. apply IH; [done|]. intros; apply Hf; [set_solver|done].
Qed.

Lemma wp_foldM {A B} (I : World → Prop) (l : list A) (b : B) (f : B → A → M B) w :
  I w → (∀ b x w, x ∈ l → I w → wp (f b x) (λ _, I) w) → wp (foldM l b f) (λ _, I) w.
Proof. apply (wp_foldM_acc (λ _, I)). Qed.

(** Preservation of a predicate on the scheduler's state. *)
Definition keeps (I : Sched → Prop) : relation World := λ w w', I (w_sched w) → I (w_sched w').

#[export] Instance keeps_preorder I : PreOrder (keeps I).
Proof. split; [by intros w H|]. intros x y z H1 H2 H. auto. Qed.
#[export] Instance keeps_sub_sched I : subrelation (same w_sched) (keeps I).
Proof. intros w w' H Hw. by rewrite <- H. Qed.
#[export] Instance keeps_sub_rest I : subrelation frame (keeps I).
Proof. intros w w' H Hw. apply rest_sched in H. by rewrite <- H. Qed.

Lemma wp_keeps {A} I (m : M A) w : respects (keeps I) m → I (w_sched w) → wp m (λ _ w', I (w_sched w')) w.
Proof. intros H Hw. by apply H. Qed.

Lemma keeps_wp {A} I (m : M A) :
  (∀ w, I (w_sched w) → wp m (λ _ w', I (w_sched w')) w) → respects (keeps I) m.
Proof. intros H w Hw. by apply H. Qed.

(** One step of straight-line symbolic execution; calls are left to the caller. *)
Ltac wp_seq_step :=
  lazymatch goal with
  | |- wp (_ ≫= _) _ _ => apply wp_bind
  | |- wp (mret _) _ _ => apply wp_ret
  | |- wp (gets _) _ _ => apply wp_gets
  | |- wp (getS _) _ _ => apply wp_gets
  | |- wp (getM _) _ _ => apply wp_gets
  | |- wp (derefA _) _ _ => apply wp_gets
  | |- wp (derefP _) _ _ => apply wp_gets
  | |- wp lockManager _ _ => apply wp_gets
  | |- wp GetCallingPid _ _ => apply wp_gets
  | |- wp GetCallingUid _ _ => apply wp_gets
  | |- wp (modify _) _ _ => apply wp_modify
  | |- wp (updS _ _) _ _ => apply wp_modify
  | |- wp (updM _ _) _ _ => apply wp_modify
  | |- wp (emit _) _ _ => apply wp_modify
  | |- wp (storeA _ _) _ _ => apply wp_modify
  | |- wp (storeP _ _) _ _ => apply wp_modify
  | |- wp (ownProcess _) _ _ => unfold ownProcess
  | |- wp (let _ := _ in _) _ _ => cbv zeta
  end; cbv beta.
Ltac wp_seq := repeat wp_seq_step.

(** A case distinction. *)
Ltac wp_case :=
  lazymatch goal with
  | |- wp (when _ _) _ _ => apply wp_when; intros ?
  | |- wp (match ?x with _ => _ end) _ _ => destruct x eqn:?
  end; cbv beta.
Ltac wp_steps := repeat first [wp_seq_step | wp_case].

(** Execute a call of which only the frame is known: the scheduler's state is
    that of the new world, in the goal and in the hypotheses. *)
Ltac wp_frame :=
  lazymatch goal with
  | |- wp _ _ ?w =>
      let r := fresh "r" in let w' := fresh "w" in let Hs := fresh "Hs" in
      apply (wp_same w_sched); [solve [auto with respects]|]; cbv beta; intros r w' Hs;
      repeat match goal with
        | H : context [w_sched w] |- _ =>
            lazymatch H with Hs => fail | _ => rewrite <- Hs in H end
        end; try (rewrite <- Hs); clear Hs; try clear w
  end.
