(* ===== verification/ManagerBase.v ===== *)
(** The part of [BaseSystemAbilityManager] the scheduler calls: the SA registry,
    the profile table, the on-demand and starting maps and the calls to the SA
    host processes (services/samgr/native/source/base_system_ability_manager.cpp). *)
From S2P Require Import Prelude Types World Ffrt Util Contexts Interfaces CollectManager CollectFrame.

Definition MAX_SERVICES : Z := 1000.
Definition MAX_SUBSCRIBE_COUNT : Z := 256.
Definition MAX_SA_FREQUENCY_COUNT : Z := INT32_MAX - 1000000.
Definition CHECK_LOADED_DELAY_TIME `{E : Env} : Z :=
  if SAMGR_ENABLE_EXTEND_LOAD_TIMEOUT then 12 * 1000 else 4 * 1000.

(** [CheckInputSysAbilityId]. *)
Definition CheckInputSysAbilityId (said : Z) : bool := (0 <=? said) && (said <=? 0x00ffffff).

Section manager.
Context `{E : Env}.

(** ** Profiles *)

Definition GetSaProfile (said : Z) : M (option CommonSaProfile) :=
  m ← getM saProfileMap_; mret (m !! said).

Definition IsDistributedSystemAbility (said : Z) : M bool :=
  p ← GetSaProfile said; mret (match p with Some p => c_distributed p | None => false end).

Definition CheckSaIsImmediatelyRecycle (said : Z) : M bool :=
  p ← GetSaProfile said;
  mret (match p with Some p => c_recycleStrategy p =? IMMEDIATELY | None => true end).

Definition IsCacheCommonEvent (said : Z) : M bool :=
  p ← GetSaProfile said; mret (match p with Some p => c_cacheCommonEvent p | None => false end).

(** ** The registry *)

Definition UpdateSaFreMap (uid said : Z) : M Z :=
  if uid <? 0 then mret (-1)
  else
    let key := GenerateFreKey uid said in
    m ← getM saFrequencyMap_;
    let count := default 0 (m !! key) in
    let count' := if count <? MAX_SA_FREQUENCY_COUNT then count + 1 else count in
    updM saFrequencyMap_ <[key := count']>;;
    mret count'.

(** [CheckSystemAbility(systemAbilityId)]. *)
Definition CheckSystemAbility (said : Z) : M (option RemoteObject) :=
  if negb (CheckInputSysAbilityId said) then mret None
  else
    u ← GetCallingUid;
    _ ← UpdateSaFreMap u said;
    m ← getM abilityMap_;
    mret (m !! said ≫= remoteObj).

(** [GetSystemAbility]. *)
Definition GetSystemAbility (said : Z) : M (option RemoteObject) := CheckSystemAbility said.

Definition GetSystemProcess (pn : u16string) : M (option RemoteObject) :=
  if bool_decide (pn = []) then mret None
  else m ← getM systemProcessMap_; mret (m !! pn).

(** [iface_cast<ILocalAbilityManager>(GetSystemProcess(procName))]. *)
Definition GetLocalAbilityManager (pn : u16string) : M (option RemoteObject) :=
  o ← GetSystemProcess pn;
  mret (o ≫= λ obj, if env_iface_cast obj then Some obj else None).

(** ** Messages posted to the work queue *)

Definition SendSystemAbilityAddedMsg (said : Z) (obj : RemoteObject) : M unit :=
  _ ← PostTask workHandler (TNotifyAdded said obj); mret tt.

Definition SendSystemAbilityRemovedMsg (said : Z) : M unit :=
  _ ← PostTask workHandler (TNotifyRemoved said); mret tt.

Definition SendCheckLoadedMsg (said : Z) (pn : u16string) (dev : string) (cb : LoadCallback) : M unit :=
  _ ← PostTaskNamed workHandler (TCheckLoaded said pn dev cb) (to_string said) CHECK_LOADED_DELAY_TIME;
  mret tt.

Definition RemoveCheckLoadedMsg (said : Z) : M unit := RemoveTask workHandler (to_string said).

Definition SendLoadedSystemAbilityMsg (said : Z) (obj : RemoteObject) (cb : option LoadCallback) : M unit :=
  _ ← PostTask workHandler (TNotifyLoaded said obj cb); mret tt.

(** ** Starting abilities on demand *)

(** [StartOnDemandAbilityInner(procName, systemAbilityId, abilityItem)]: the item
    is the entry of [startingAbilityMap_] for the id. *)
Definition StartOnDemandAbilityInner (pn : u16string) (said : Z) : M Z :=
  m ← getM startingAbilityMap_;
  let item := default newAbilityItem (m !! said) in
  if negb (bool_decide (ai_state item = AS_INIT)) then mret ERR_INVALID_VALUE
  else
    proc ← GetLocalAbilityManager pn;
    match proc with
    | None => mret ERR_INVALID_VALUE
    | Some p =>
        _ ← ask env_StartAbility (EvStartAbility p said (EventToStr (ai_event item)));
        updM startingAbilityMap_ (alter (λ i, i <| ai_state := AS_STARTING |>) said);;
        mret ERR_OK
    end.

Definition StopOnDemandAbilityInner (pn : u16string) (said : Z) (event : OnDemandEvent) : M bool :=
  proc ← GetLocalAbilityManager pn;
  match proc with
  | None => mret false
  | Some p => ask env_StopAbility (EvStopAbility p said (EventToStr event))
  end.

(** [StartOnDemandAbilityLocked(procName, systemAbilityId)]. *)
Definition StartOnDemandAbilityLockedByName (pn : u16string) (said : Z) : M unit :=
  m ← getM startingAbilityMap_;
  match m !! said with
  | None => mret tt
  | Some _ => _ ← StartOnDemandAbilityInner pn said; mret tt
  end.

(** [StartOnDemandAbilityLocked(systemAbilityId, isExist)]: result and [isExist]. *)
Definition StartOnDemandAbilityLocked (said : Z) : M (Z * bool) :=
  m ← getM onDemandAbilityMap_;
  match m !! said with
  | None => mret (ERR_INVALID_VALUE, false)
  | Some pn =>
      updM startingAbilityMap_ (map_touch said newAbilityItem);;
      r ← StartOnDemandAbilityInner pn said;
      mret (r, true)
  end.

(** [StartOnDemandAbility(systemAbilityId, isExist)]. *)
Definition StartOnDemandAbility (said : Z) : M (Z * bool) := StartOnDemandAbilityLocked said.
(** [StartOnDemandAbility(name, systemAbilityId)]. *)
Definition StartOnDemandAbilityByName (pn : u16string) (said : Z) : M unit :=
  StartOnDemandAbilityLockedByName pn said.
(** [StopOnDemandAbility]. *)
Definition StopOnDemandAbility (pn : u16string) (said : Z) (event : OnDemandEvent) : M bool :=
  StopOnDemandAbilityInner pn said event.

(** [RemoveOnDemandSaInDiedProc]. *)
Definition RemoveOnDemandSaInDiedProc (pn : u16string) : M unit :=
  p ← derefP pn;
  forM (saList p) (λ said, updM onDemandAbilityMap_ (delete said)).

(** [DoLoadOnDemandAbility]: result and [isExist]. *)
Definition DoLoadOnDemandAbility (said : Z) : M (bool * bool) :=
  proxy ← CheckSystemAbility said;
  match proxy with
  | Some _ => mret (true, true)
  | None =>
      sm ← getM startingAbilityMap_;
      if match sm !! said with Some i => bool_decide (ai_state i = AS_STARTING) | None => false end
      then mret (true, true)
      else
        om ← getM onDemandAbilityMap_;
        match om !! said with
        | None => mret (false, false)
        | Some _ =>
            updM startingAbilityMap_ (λ m,
              alter (λ i, i <| ai_event := mkEvent INTERFACE_CALL "get" "" |>) said
                (map_touch said newAbilityItem m));;
            '(r, isExist) ← StartOnDemandAbilityLocked said;
            mret (r =? ERR_OK, isExist)
        end
  end.

(** [RemoveDiedSystemAbility]. *)
Definition RemoveDiedSystemAbility (said : Z) : M Z :=
  m ← getM abilityMap_;
  match m !! said with
  | None => mret ERR_OK
  | Some info =>
      dr ← getM abilityDeath_;
      match remoteObj info with
      | Some obj => when dr (RemoveDeathRecipient AbilityDeath obj)
      | None => mret tt
      end;;
      updM abilityMap_ (delete said);;
      emit (EvReport (ReportSaCrash said));;
      SendSystemAbilityRemovedMsg said;;
      mret ERR_OK
  end.

(** ** Starting host processes *)

Definition GetUserId : M Z := getM userId_.

(** [IsInitBootFinished]. *)
Definition IsInitBootFinished : M bool :=
  tr ← gets w_trace; mret (negb (bool_decide (env_GetParameter tr "ohos.boot.time.init" "0" = "0"))).

Definition WaitForProcessStopped (pn : u16string) (said : Z) : M unit :=
  sch ← getM abilityStateScheduler_;
  never ← IsSystemProcessNeverStartedLocked pn;
  if negb sch || never then mret tt
  else emit (EvServiceWait (Str16ToStr8 pn)).

(** The argument of a starting process. *)
Definition startExtra (said : Z) (event : OnDemandEvent) : string :=
  to_string said +:+ "#" +:+ to_string (eventId event) +:+ "#" +:+ ev_name event +:+ "#"
    +:+ ev_value event +:+ "#" +:+ to_string (extraDataId event) +:+ "#".

(** [MultiSystemAbilityManager::StartDynamicSystemProcess]. *)
Definition MultiStartDynamicSystemProcess (pn : u16string) (said : Z) (event : OnDemandEvent) : M Z :=
  let name := Str16ToStr8 pn in
  userId ← getM userId_;
  sch ← getM abilityStateScheduler_;
  never ← IsSystemProcessNeverStartedLocked pn;
  when (sch && negb never) (_ ← ask env_ServiceWaitUser (EvServiceWaitUser name userId); mret tt);;
  _ ← GetTickCount;
  result ← ServiceControlWithExtra name SA_START userId (Some (startExtra said event));
  _ ← GetTickCount;
  when (negb (result =? ERR_OK)) (emit (EvReport (ReportProcessStartFail name result)));;
  mret result.

Definition StartDynamicSystemProcess (pn : u16string) (said : Z) (event : OnDemandEvent) : M Z :=
  let eventStr := startExtra said event in
  let name := Str16ToStr8 pn in
  _ ← GetTickCount;
  result ←
    (if bool_decide (ev_name event = "restart") then
       r ← ServiceControlWithExtra name SA_START_ONDEMAND BASE_USER (Some eventStr);
       if r =? 0 then mret r
       else WaitForProcessStopped pn said;; ServiceControlWithExtra name SA_START BASE_USER (Some eventStr)
     else WaitForProcessStopped pn said;; ServiceControlWithExtra name SA_START BASE_USER (Some eventStr));
  _ ← GetTickCount;
  when (negb (result =? 0)) (emit (EvReport (ReportProcessStartFail name result)));;
  mret result.

(** The second half of [StartingSystemProcess] and [StartingSystemProcessLocked]:
    the process is not registered, ask init to start it. *)
Definition StartingSystemProcessInit (pn : u16string) (said : Z) (event : OnDemandEvent) : M Z :=
  sm ← getM startingProcessMap_;
  match sm !! pn with
  | Some _ => mret ERR_OK
  | None =>
      callPid ← GetCallingPid;
      callUid ← GetCallingUid;
      tr ← gets w_trace;
      begin ← GetTickCount;
      updM startingProcessMap_ <[pn := MkStartingProcessInfo pn callPid callUid
                                         (GetProcessNameFromCmdline tr callPid) said begin]>;;
      k ← getM dynamicClass;
      result ← match k with
               | KMultiSystemAbilityManager => MultiStartDynamicSystemProcess pn said event
               | _ => StartDynamicSystemProcess pn said event
               end;
      when (negb (result =? ERR_OK)) (updM startingProcessMap_ (delete pn));;
      mret result
  end.

Definition StartingSystemProcessLocked (pn : u16string) (said : Z) (event : OnDemandEvent) : M Z :=
  m ← getM systemProcessMap_;
  match m !! pn with
  | Some _ => _ ← StartOnDemandAbilityLocked said; mret ERR_OK
  | None => StartingSystemProcessInit pn said event
  end.

Definition StartingSystemProcess (pn : u16string) (said : Z) (event : OnDemandEvent) : M Z :=
  m ← getM systemProcessMap_;
  match m !! pn with
  | Some _ => _ ← StartOnDemandAbility said; mret ERR_OK
  | None => StartingSystemProcessInit pn said event
  end.

(** ** Loading and unloading *)

(** Callbacks already waiting for an SA on behalf of a device. *)
Definition callbacksOf (m : gmap Z AbilityItem) (said : Z) (dev : string) : CallbackList :=
  match m !! said with Some i => default [] (callbackMap i !! dev) | None => [] end.

Definition addCallback (dev : string) (c : LoadCallback * Z) (i : AbilityItem) : AbilityItem :=
  i <| callbackMap ::= λ m, <[dev := default [] (m !! dev) ++ [c]]> m |>.

Definition DoLoadSystemAbility (said : Z) (pn : u16string) (callback : option LoadCallback) (callPid : Z)
    (event : OnDemandEvent) : M Z :=
  target ← CheckSystemAbility said;
  match target with
  | Some obj =>
      if negb (eventId event =? INTERFACE_CALL) then mret ERR_OK
      else SendLoadedSystemAbilityMsg said obj callback;; mret ERR_OK
  | None =>
      updM startingAbilityMap_ (λ m,
        alter (λ i, i <| callbackMap ::= map_touch LOCAL_DEVICE [] |>) said (map_touch said newAbilityItem m));;
      m ← getM startingAbilityMap_;
      match callback with
      | None => emit EvNullDeref;; mret ERR_INVALID_VALUE
      | Some cb =>
          if existsb (λ c, bool_decide (cb_AsObject cb = cb_AsObject c.1)) (callbacksOf m said LOCAL_DEVICE)
          then mret ERR_OK
          else
            updM callbackCountMap_ (map_touch callPid 0);;
            cm ← getM callbackCountMap_;
            let count := default 0 (cm !! callPid) in
            if MAX_SUBSCRIBE_COUNT <=? count then mret CALLBACK_MAP_SIZE_LIMIT
            else
              updM callbackCountMap_ <[callPid := count + 1]>;;
              updM startingAbilityMap_
                (alter (λ i, addCallback LOCAL_DEVICE (cb, callPid) i <| ai_event := event |>) said);;
              dr ← getM abilityCallbackDeath_;
              when dr (AddDeathRecipient AbilityCallbackDeath (cb_AsObject cb));;
              info ← GetRunningSystemProcessByName pn;
              emit (EvReport (ReportSamgrSaLoad said info));;
              result ← StartingSystemProcess pn said event;
              SendCheckLoadedMsg said pn LOCAL_DEVICE cb;;
              mret result
      end
  end.

(** [DoLoadSystemAbilityFromRpc]: [BaseSystemAbilityManager] refuses,
    [SystemAbilityManager] loads on behalf of a remote device. *)
Definition DoLoadSystemAbilityFromRpc (dev : string) (said : Z) (pn : u16string) (callback : option LoadCallback)
    (event : OnDemandEvent) : M Z :=
  k ← getM dynamicClass;
  match k with
  | KBaseSystemAbilityManager | KMultiSystemAbilityManager => mret ERR_INVALID_VALUE
  | KSystemAbilityManager =>
      target ← CheckSystemAbility said;
      match target with
      | Some obj => SendLoadedSystemAbilityMsg said obj callback;; mret ERR_OK
      | None =>
          match callback with
          | None => emit EvNullDeref;; mret ERR_OK
          | Some cb =>
              updM startingAbilityMap_ (λ m, alter (addCallback dev (cb, 0)) said (map_touch said newAbilityItem m));;
              _ ← StartingSystemProcessLocked pn said event;
              SendCheckLoadedMsg said pn dev cb;;
              mret ERR_OK
          end
      end
  end.

Definition DoUnloadSystemAbility (said : Z) (pn : u16string) (event : OnDemandEvent) : M Z :=
  target ← CheckSystemAbility said;
  match target with
  | None => mret ERR_OK
  | Some _ =>
      result ← StopOnDemandAbilityInner pn said event;
      if negb result then mret ERR_INVALID_VALUE
      else
        emit (EvReport (ReportSamgrSaUnload said));;
        SendUpdateSaState said "unload";;
        mret ERR_OK
  end.

(** [IdleSystemAbility]: result and the delay the SA asks for. *)
Definition IdleSystemAbility (said : Z) (pn : u16string) (idleReason : OnDemandEvent) : M (bool * Z) :=
  target ← CheckSystemAbility said;
  match target with
  | None => mret (false, 0)
  | Some _ =>
      proc ← GetLocalAbilityManager pn;
      match proc with
      | None => mret (false, 0)
      | Some p => ask env_IdleAbility (EvIdleAbility p said idleReason)
      end
  end.

Definition ActiveSystemAbility (said : Z) (pn : u16string) (activeReason : OnDemandEvent) : M bool :=
  target ← CheckSystemAbility said;
  match target with
  | None => mret false
  | Some _ =>
      proc ← GetLocalAbilityManager pn;
      match proc with
      | None => mret false
      | Some p => ask env_ActiveAbility (EvActiveAbility p said activeReason)
      end
  end.

Definition RemoveWhiteCommonEvent : M unit :=
  c ← getM collectManager_; when c CollectRemoveWhiteCommonEvent.

(** ** Frames: none of these operations writes a scheduler member *)

Lemma updM_sched {T} (proj : Mgr → T) `{!Setter proj} f : respects (same w_sched) (updM proj f).
Proof. intros w. reflexivity. Qed.
Hint Resolve updM_sched : respects.

Lemma GetSaProfile_rest said : respects frame (GetSaProfile said).
Proof. unfold GetSaProfile. solve_respects. Qed.
Hint Resolve GetSaProfile_rest : respects.
Lemma IsDistributedSystemAbility_rest said : respects frame (IsDistributedSystemAbility said).
Proof. unfold IsDistributedSystemAbility. solve_respects. Qed.
Lemma CheckSaIsImmediatelyRecycle_rest said : respects frame (CheckSaIsImmediatelyRecycle said).
Proof. unfold CheckSaIsImmediatelyRecycle. solve_respects. Qed.
Lemma IsCacheCommonEvent_rest said : respects frame (IsCacheCommonEvent said).
Proof. unfold IsCacheCommonEvent. solve_respects. Qed.
Lemma UpdateSaFreMap_sched uid said : respects (same w_sched) (UpdateSaFreMap uid said).
Proof. unfold UpdateSaFreMap. solve_respects. Qed.
Hint Resolve UpdateSaFreMap_sched : respects.
Lemma CheckSystemAbility_sched said : respects (same w_sched) (CheckSystemAbility said).
Proof. unfold CheckSystemAbility. solve_respects. Qed.
Lemma GetSystemProcess_rest pn : respects frame (GetSystemProcess pn).
Proof. unfold GetSystemProcess. solve_respects. Qed.
Hint Resolve GetSystemProcess_rest CheckSystemAbility_sched : respects.
Lemma GetLocalAbilityManager_rest pn : respects frame (GetLocalAbilityManager pn).
Proof. unfold GetLocalAbilityManager. solve_respects. Qed.
Hint Resolve GetLocalAbilityManager_rest : respects.
Lemma SendSystemAbilityAddedMsg_rest said o : respects frame (SendSystemAbilityAddedMsg said o).
Proof. unfold SendSystemAbilityAddedMsg. solve_respects. Qed.
Lemma SendSystemAbilityRemovedMsg_rest said : respects frame (SendSystemAbilityRemovedMsg said).
Proof. unfold SendSystemAbilityRemovedMsg. solve_respects. Qed.
Lemma SendCheckLoadedMsg_rest said pn d c : respects frame (SendCheckLoadedMsg said pn d c).
Proof. unfold SendCheckLoadedMsg. solve_respects. Qed.
Lemma RemoveCheckLoadedMsg_rest said : respects frame (RemoveCheckLoadedMsg said).
Proof. unfold RemoveCheckLoadedMsg. solve_respects. Qed.
Lemma SendLoadedSystemAbilityMsg_rest said o c : respects frame (SendLoadedSystemAbilityMsg said o c).
Proof. unfold SendLoadedSystemAbilityMsg. solve_respects. Qed.
Hint Resolve SendSystemAbilityRemovedMsg_rest SendCheckLoadedMsg_rest SendLoadedSystemAbilityMsg_rest : respects.
Lemma StartOnDemandAbilityInner_sched pn said : respects (same w_sched) (StartOnDemandAbilityInner pn said).
Proof. unfold StartOnDemandAbilityInner. solve_respects. Qed.
Lemma StopOnDemandAbilityInner_rest pn said e : respects frame (StopOnDemandAbilityInner pn said e).
Proof. unfold StopOnDemandAbilityInner. solve_respects. Qed.
Hint Resolve StartOnDemandAbilityInner_sched StopOnDemandAbilityInner_rest : respects.
Lemma StartOnDemandAbilityLockedByName_sched pn said :
  respects (same w_sched) (StartOnDemandAbilityLockedByName pn said).
Proof. unfold StartOnDemandAbilityLockedByName. solve_respects. Qed.
Lemma StartOnDemandAbilityLocked_sched said : respects (same w_sched) (StartOnDemandAbilityLocked said).
Proof. unfold StartOnDemandAbilityLocked. solve_respects. Qed.
Hint Resolve StartOnDemandAbilityLocked_sched : respects.
Lemma RemoveOnDemandSaInDiedProc_sched pn : respects (same w_sched) (RemoveOnDemandSaInDiedProc pn).
Proof. unfold RemoveOnDemandSaInDiedProc. solve_respects. Qed.
Lemma DoLoadOnDemandAbility_sched said : respects (same w_sched) (DoLoadOnDemandAbility said).
Proof. unfold DoLoadOnDemandAbility. solve_respects. Qed.
Lemma RemoveDiedSystemAbility_sched said : respects (same w_sched) (RemoveDiedSystemAbility said).
Proof. unfold RemoveDiedSystemAbility. solve_respects. Qed.
Lemma WaitForProcessStopped_rest pn said : respects frame (WaitForProcessStopped pn said).
Proof. unfold WaitForProcessStopped. solve_respects. Qed.
Hint Resolve WaitForProcessStopped_rest : respects.
Lemma StartDynamicSystemProcess_rest pn said e : respects frame (StartDynamicSystemProcess pn said e).
Proof. unfold StartDynamicSystemProcess. solve_respects. Qed.
Lemma MultiStartDynamicSystemProcess_rest pn said e : respects frame (MultiStartDynamicSystemProcess pn said e).
Proof. unfold MultiStartDynamicSystemProcess. solve_respects. Qed.
Hint Resolve StartDynamicSystemProcess_rest MultiStartDynamicSystemProcess_rest : respects.
Lemma StartingSystemProcessInit_sched pn said e : respects (same w_sched) (StartingSystemProcessInit pn said e).
Proof. unfold StartingSystemProcessInit. solve_respects. Qed.
Hint Resolve StartingSystemProcessInit_sched : respects.
Lemma StartingSystemProcessLocked_sched pn said e : respects (same w_sched) (StartingSystemProcessLocked pn said e).
Proof. unfold StartingSystemProcessLocked. solve_respects. Qed.
Lemma StartingSystemProcess_sched pn said e : respects (same w_sched) (StartingSystemProcess pn said e).
Proof. unfold StartingSystemProcess, StartOnDemandAbility. solve_respects. Qed.
Hint Resolve StartingSystemProcessLocked_sched StartingSystemProcess_sched : respects.
Lemma DoLoadSystemAbility_sched said pn cb p e : respects (same w_sched) (DoLoadSystemAbility said pn cb p e).
Proof. unfold DoLoadSystemAbility. solve_respects. Qed.
Lemma DoLoadSystemAbilityFromRpc_sched d said pn cb e :
  respects (same w_sched) (DoLoadSystemAbilityFromRpc d said pn cb e).
Proof. unfold DoLoadSystemAbilityFromRpc. solve_respects. Qed.
Lemma DoUnloadSystemAbility_sched said pn e : respects (same w_sched) (DoUnloadSystemAbility said pn e).
Proof. unfold DoUnloadSystemAbility. solve_respects. Qed.
Lemma IdleSystemAbility_sched said pn e : respects (same w_sched) (IdleSystemAbility said pn e).
Proof. unfold IdleSystemAbility. solve_respects. Qed.
Lemma ActiveSystemAbility_sched said pn e : respects (same w_sched) (ActiveSystemAbility said pn e).
Proof. unfold ActiveSystemAbility. solve_respects. Qed.
Lemma RemoveWhiteCommonEvent_rest : respects frame RemoveWhiteCommonEvent.
Proof. unfold RemoveWhiteCommonEvent. solve_respects. Qed.

(** ** The manager implements the interface the scheduler is written against *)

#[export] Instance baseManager : ManagerIface := {|
  mi_DoLoadOnDemandAbility := DoLoadOnDemandAbility;
  mi_DoLoadSystemAbility := DoLoadSystemAbility;
  mi_DoLoadSystemAbilityFromRpc := DoLoadSystemAbilityFromRpc;
  mi_DoUnloadSystemAbility := DoUnloadSystemAbility;
  mi_IdleSystemAbility := IdleSystemAbility;
  mi_ActiveSystemAbility := ActiveSystemAbility;
  mi_CheckSaIsImmediatelyRecycle := CheckSaIsImmediatelyRecycle;
  mi_RemoveDiedSystemAbility := RemoveDiedSystemAbility;
  mi_RemoveOnDemandSaInDiedProc := RemoveOnDemandSaInDiedProc;
  mi_RemoveWhiteCommonEvent := RemoveWhiteCommonEvent;
|}.

#[export] Instance baseManager_laws : ManagerLaws baseManager.
Proof.
  split; intros; simpl; auto using DoLoadOnDemandAbility_sched, DoLoadSystemAbility_sched,
    DoLoadSystemAbilityFromRpc_sched, DoUnloadSystemAbility_sched, IdleSystemAbility_sched,
    ActiveSystemAbility_sched, CheckSaIsImmediatelyRecycle_rest, RemoveDiedSystemAbility_sched,
    RemoveOnDemandSaInDiedProc_sched, RemoveWhiteCommonEvent_rest.
Qed.
End manager.

#[export] Hint Resolve updM_sched GetSaProfile_rest IsDistributedSystemAbility_rest IsCacheCommonEvent_rest
  CheckSystemAbility_sched GetSystemProcess_rest GetLocalAbilityManager_rest SendSystemAbilityAddedMsg_rest
  SendSystemAbilityRemovedMsg_rest SendCheckLoadedMsg_rest RemoveCheckLoadedMsg_rest
  SendLoadedSystemAbilityMsg_rest StartOnDemandAbilityInner_sched StopOnDemandAbilityInner_rest
  StartOnDemandAbilityLockedByName_sched StartOnDemandAbilityLocked_sched RemoveOnDemandSaInDiedProc_sched
  DoLoadOnDemandAbility_sched RemoveDiedSystemAbility_sched
  WaitForProcessStopped_rest StartDynamicSystemProcess_rest MultiStartDynamicSystemProcess_rest StartingSystemProcess_sched
  DoLoadSystemAbility_sched DoLoadSystemAbilityFromRpc_sched DoUnloadSystemAbility_sched
  IdleSystemAbility_sched ActiveSystemAbility_sched RemoveWhiteCommonEvent_rest : respects.
#[export] Hint Extern 1 (respects _ GetUserId) => apply respects_gets : respects.
