(* ===== verification/DBinder.v ===== *)
(** The distributed binder service as [SystemAbilityManager] uses it
    (services/samgr/native/source/system_ability_manager.cpp): the SAs of this device that
    other devices may ask for, and the start of the service.  With
    [SAMGR_ENABLE_DELAY_DBINDER] the service is created when the first device comes online,
    and the SAs registered before wait in [distributedSaList_].

    And what the watchdog of a call to a hosting process does when the call takes too long
    ([killPeerTask] of [IdleSystemAbility] and [ActiveSystemAbility],
    services/samgr/native/source/base_system_ability_manager.cpp): find the process the calling
    thread waits for in the kernel's list of transactions, and stop it
    ([SamgrUtil::KillProcessByPid], system_ability_manager_util.cpp). *)
From S2P Require Import Prelude Types World Ffrt Util CommonEvent TimedCollect CollectFrame Contexts Interfaces Hoare ManagerBase.

Definition SOFTBUS_SERVER_SA_ID : Z := 4700.

Section dbinder.
Context `{E : Env}.

(** [dBinderService_->StartDBinderService(rpcCallbackImp_)] where both are set. *)
Definition startDBinder : M unit :=
  service ← getD dBinderService_;
  callback ← getD rpcCallbackImp_;
  when (service && callback) (emit (EvDBinder StartDBinderService)).

Definition RegisterDistribute (said : Z) (isDistributed : bool) : M unit :=
  service ← getD dBinderService_;
  when isDistributed (
    if (service : bool) then emit (EvDBinder (RegisterRemoteProxy said))
    else if SAMGR_ENABLE_DELAY_DBINDER then
      init ← getD isDbinderServiceInit_;
      when (negb init) (updD distributedSaList_ (λ l, l ++ [said]))
    else mret tt);;
  when (said =? SOFTBUS_SERVER_SA_ID) startDBinder.

(** The manager of a user inherits an empty body. *)
Definition InitDbinderService : M unit :=
  k ← getM dynamicClass;
  match k with
  | KSystemAbilityManager =>
      init ← getD isDbinderServiceInit_;
      when (negb init) (
        tr ← gets w_trace;
        updD dBinderService_ (λ _, env_dBinderService tr);;
        updD rpcCallbackImp_ (λ _, true);;
        service ← getD dBinderService_;
        when service (
          l ← getD distributedSaList_;
          forM l (λ said, emit (EvDBinder (RegisterRemoteProxy said)));;
          updD distributedSaList_ (λ _, []));;
        updD isDbinderServiceInit_ (λ _, true));;
      softbus ← CheckSystemAbility SOFTBUS_SERVER_SA_ID;
      when (bool_decide (is_Some softbus)) startDBinder
  | _ => mret tt
  end.

(** [NotifyRpcLoadCompleted] and the task it submits. *)
Definition NotifyRpcLoadCompleted (dev : string) (said : Z) (obj : option RemoteObject) : M unit :=
  b ← isHandler workHandler;
  when b (emit (EvThread (TRpcLoadCompleted dev said obj))).
Definition rpcLoadCompletedTask (dev : string) (said : Z) (obj : option RemoteObject) : M unit :=
  service ← getD dBinderService_;
  when service (emit (EvDBinder (LoadSystemAbilityComplete dev said obj))).

Lemma startDBinder_rest : respects frame startDBinder.
Proof. unfold startDBinder. solve_respects. Qed.
Hint Resolve startDBinder_rest : respects.
Lemma RegisterDistribute_rest said d : respects frame (RegisterDistribute said d).
Proof. unfold RegisterDistribute. solve_respects. Qed.
Lemma rpcLoadCompletedTask_rest d said o : respects frame (rpcLoadCompletedTask d said o).
Proof. unfold rpcLoadCompletedTask. solve_respects. Qed.
Lemma NotifyRpcLoadCompleted_rest d said o : respects frame (NotifyRpcLoadCompleted d said o).
Proof. unfold NotifyRpcLoadCompleted, isHandler. solve_respects. Qed.
End dbinder.

#[export] Hint Resolve startDBinder_rest RegisterDistribute_rest rpcLoadCompletedTask_rest NotifyRpcLoadCompleted_rest : respects.

(** ** The process a call waits for *)

Definition MIN_WAIT_NUM : Z := 60.
Definition INIT_PID : Z := 1.
Definition MAX_STRLIST_SIZE : nat := 7.

(** [while (lineStream >> tmpstr)]: the words between blanks. *)
Fixpoint wordsFrom (s cur : string) : list string :=
  match s with
  | EmptyString => if bool_decide (cur = "") then [] else [cur]
  | String c s' =>
      if isBlank c then (if bool_decide (cur = "") then [] else [cur]) ++ wordsFrom s' ""
      else wordsFrom s' (cur +:+ String c "")
  end.
Definition words (s : string) : list string := wordsFrom s "".

Definition ASYNC : string := "async" +:+ String (Ascii.ascii_of_nat 9) "".

Section peer.
Context `{E : Env}.

Definition splitPhase (str : string) (index : nat) : string := default "" (SplitStr str ":" !! index).

(** One line: the peer it names, or whether the search goes on. *)
Definition peerOf (pid tid : Z) (line : string) : option Z :=
  let strList := words line in
  if contains ASYNC line || negb (bool_decide (MAX_STRLIST_SIZE ≤ length strList)%nat) then None
  else
    let client := splitPhase (nth 0 strList "") 0 in
    let clientTid := splitPhase (nth 0 strList "") 1 in
    let server := splitPhase (nth 2 strList "") 0 in
    let wait := splitPhase (nth 5 strList "") 1 in
    if bool_decide (server = "") || bool_decide (client = "") || bool_decide (wait = "") then None
    else if negb (atoi client =? pid) || negb (atoi clientTid =? tid) || (atoi wait <? MIN_WAIT_NUM) then None
    else Some (atoi server).

(** A line ends the search when it is too short for a transaction and names a context. *)
Definition endsSearch (line : string) : bool :=
  negb (contains ASYNC line) && negb (bool_decide (MAX_STRLIST_SIZE ≤ length (words line))%nat) && contains "context" line.

Fixpoint ParsePeerBinderPid (fin : list string) (pid tid : Z) : Z :=
  match fin with
  | [] => -1
  | line :: fin' =>
      match peerOf pid tid line with
      | Some server => server
      | None => if endsSearch line then -1 else ParsePeerBinderPid fin' pid tid
      end
  end.

Definition KillProcessByPid (pid tid : Z) : M bool :=
  tr ← gets w_trace;
  match env_transaction_proc tr with
  | None => mret false
  | Some fin =>
      let peerBinderPid := ParsePeerBinderPid fin pid tid in
      if (peerBinderPid <=? INIT_PID) || (peerBinderPid =? pid) then mret false
      else
        ret ← ServiceControlWithExtra (GetProcessNameFromCmdline tr peerBinderPid) SA_STOP BASE_USER None;
        mret (ret =? 0)
  end.

Definition killPeerTask (userId tid said : Z) (procName : u16string) (reason : string) : M unit :=
  (if userId =? BASE_USER then _ ← KillProcessByPid env_getpid tid; mret tt else mret tt);;
  let procNameStr := Str16ToStr8 procName +:+ if userId =? BASE_USER then "" else to_string userId in
  emit (EvReport (ReportSaAbnormallyFrozen said procNameStr reason)).

Lemma killPeerTask_rest u tid said pn r : respects frame (killPeerTask u tid said pn r).
Proof. unfold killPeerTask, KillProcessByPid. solve_respects. Qed.
End peer.

#[export] Hint Resolve killPeerTask_rest : respects.
