(* ===== verification/CollectTasks.v ===== *)
(** What the collect plugins ask of the manager that owns them, the tasks of their
    queues, and what reaches them from outside: common events, devices, parameters,
    timers and the notices of the SAs they wait for
    (services/samgr/native/source/collect/). *)
From S2P Require Import Prelude Types World ParseUtil Ffrt Util TimeHandler CommonEvent TimedCollect DevicePlugins.
From S2P Require Import CollectManager CollectFrame Contexts Interfaces Hoare ManagerBase DBinder.

Definition DISTRIBUTED_HARDWARE_DEVICEMANAGER_SA_ID : Z := 4802.

(** What the system tells the plugins. *)
Inductive CollectInput :=
  | CiCommonEvent (data : CommonEventData)
  | CiSwitchEvent (data : CommonEventData)
  | CiDeviceOnline (networkId : string)
  | CiDeviceOffline (networkId : string)
  | CiDeviceReady
  | CiDeviceManagerDied
  | CiParameter (key value : string)
  | CiUnrefTimer
  | CiReclaimThread (timeUp : bool)
  | CiMonitorThread
  | CiSystemAbilityAdded (l : CollectListener) (said : Z).

Section tasks.
Context `{E : Env}.

(** ** DeviceNetworkingCollect *)

Definition IsDmReady : M bool :=
  alive ← lockManager;
  dmProxy ← (if (alive : bool) then CheckSystemAbility DISTRIBUTED_HARDWARE_DEVICEMANAGER_SA_ID else mret None);
  match dmProxy with
  | None => mret false
  | Some proxy => tr ← gets w_trace; mret (negb (env_ProxyIsDead tr proxy))
  end.

Definition AddDeviceChangeListener : M bool :=
  ready ← IsDmReady;
  if negb ready then mret false
  else
    ret ← DeviceManagerCall InitDeviceManager;
    if negb (ret =? ERR_OK) then mret false
    else
      reported ← ReportMissedEvents;
      if negb reported then mret false
      else
        ret ← DeviceManagerCall RegisterDevStateCallback;
        if negb (ret =? ERR_OK) then emit (EvDevice UnRegisterDevStateCallback);; mret false
        else mret true.

(** [DeviceStateCallback::OnDeviceOnline]. *)
Definition OnDeviceOnline (networkId : string) : M unit :=
  s ← getN stateCallback_;
  match s with
  | None => mret tt
  | Some _ =>
      alive ← lockManager;
      when (SAMGR_ENABLE_DELAY_DBINDER && alive) InitDbinderService;;
      UpdateDeviceOnlineSet networkId;;
      ReportEvent (onlineEvent "on")
  end.

(** [WorkHandler::ProcessEvent]: the handler lives until the plugin stops. *)
Definition NetworkingProcessEvent (eventId : Z) : M unit :=
  if negb (eventId =? INIT_EVENT) && negb (eventId =? DM_DIED_EVENT) then mret tt
  else
    b ← isHandler networkingHandler;
    if negb b then mret tt
    else
      ok ← AddDeviceChangeListener;
      when (negb ok) (_ ← NetworkingSendEventDelay INIT_EVENT DELAY_TIME; mret tt).

(** ** RefCountCollect *)

Definition unreferenced (said : Z) : M bool :=
  alive ← lockManager;
  object ← (if (alive : bool) then CheckSystemAbility said else mret None);
  match object with
  | None => mret false
  | Some saProxy => tr ← gets w_trace; mret (env_StrongRefCount tr saProxy =? 1)
  end.

Definition IdentifyUnrefOndemand : M unit :=
  l ← getR unrefUnloadSaList_;
  saControlList ← foldM l [] (λ acc said,
    b ← unreferenced said;
    mret (if (b : bool) then acc ++ [MkSaControl STOP_ON_DEMAND said false LOW_PRIORITY false] else acc));
  if bool_decide (saControlList = []) then mret tt
  else alive ← lockManager; when alive (CollectPostTask (CtUnref saControlList)).

(** ** The tasks

    The last thing a task may do is [ProcessOnDemandEvent] of the manager: it
    returns what it asks, which the manager that owns the queue runs. *)
Definition runCollectTask (t : CollectTask) : M (option (OnDemandEvent * list SaControlInfo)) :=
  match t with
  | CtStart => startPlugins;; mret None
  | CtReport event =>
      l ← reportTask event;
      if bool_decide (l = []) then mret None
      else alive ← lockManager; mret (if (alive : bool) then Some (event, l) else None)
  | CtUnref l => alive ← lockManager; mret (if (alive : bool) then Some (mkEvent UNREF_EVENT "" "", l) else None)
  | CtWatchParameters => WatchParameters;; mret None
  | CtSubscribeSwitch => _ ← SubscribeSwitchEvent; mret None
  | CtTimed time persistence => runTimed time persistence;; mret None
  | CtLoop interval persistence => runLoop interval persistence;; mret None
  | CtCommonEvent eventId extraDataId => CommonProcessEvent eventId extraDataId;; mret None
  | CtNetworking eventId => NetworkingProcessEvent eventId;; mret None
  | CtEmptyFunction => emit EvNullDeref;; mret None
  end.

Definition runCollectInput (i : CollectInput) : M unit :=
  match i with
  | CiCommonEvent data => CommonOnReceiveEvent data
  | CiSwitchEvent data => SwitchOnReceiveEvent data
  | CiDeviceOnline networkId => OnDeviceOnline networkId
  | CiDeviceOffline networkId => OnDeviceOffline networkId
  | CiDeviceReady => OnDeviceReady
  | CiDeviceManagerDied => NetworkingOnRemoteDied
  | CiParameter key value => DeviceParamCallback key value
  | CiUnrefTimer => IdentifyUnrefOndemand
  | CiReclaimThread timeUp => reclaimThread timeUp
  | CiMonitorThread => MonitorCpuUsageThread
  | CiSystemAbilityAdded CommonEventListener said => CommonOnAddSystemAbility said
  | CiSystemAbilityAdded ParamListener said => ParamOnAddSystemAbility said
  | CiSystemAbilityAdded CesStateListener said => SwitchOnAddSystemAbility said
  end.

(** ** Frames: [CheckSystemAbility] counts the calls, nothing else of the manager changes *)

Section frame.
Context (R : relation World) `{!PreOrder R} `{!subrelation frame R}.
Context (HCheck : ∀ said, respects R (CheckSystemAbility said)).
Hint Resolve HCheck : respects.

Lemma runCollectTask_frame t : respects R (runCollectTask t).
Proof. destruct t; solve_deep. Qed.
Lemma runCollectInput_frame i : respects R (runCollectInput i).
Proof. destruct i as [| | | | | | | | | |[]]; solve_deep. Qed.
End frame.

(** A task that runs after the manager is gone asks nothing and writes none of its members. *)
Definition silent (w : World) (r : option (OnDemandEvent * list SaControlInfo)) (w' : World) : Prop :=
  r = None ∧ rest w' = rest w.
Lemma wp_rest {A} (m : M A) Q w : respects frame m → (∀ a w', rest w' = rest w → Q a w') → wp m Q w.
Proof. intros Hm. apply (wp_same rest). intros w0. apply Hm. Qed.
Lemma rest_alive w w' : rest w' = rest w → selfPtr_ (w_mgr w') = selfPtr_ (w_mgr w).
Proof. unfold rest. intros H. injection H as _ -> _ _ _. done. Qed.

Lemma dead_collect t w : selfPtr_ (w_mgr w) = false → wp (runCollectTask t) (silent w) w.
Proof.
  intros Hd. assert (Hpure : ∀ m : M unit, respects frame m → wp (m;; mret None) (silent w) w).
  { intros m Hm. apply wp_bind, (wp_rest m); [done|]. intros _ w' H. by split. }
  destruct t as [|ev|l| | | | | |id|]; cbn [runCollectTask]; try (apply Hpure; solve [solve_deep]).
  - apply wp_bind, wp_rest; [solve_deep|]. intros l w' H. case_bool_decide; [by split|]. wp_seq.
    rewrite (rest_alive _ _ H), Hd. by split.
  - wp_seq. by rewrite Hd.
  - apply wp_bind, wp_rest; [solve_deep|]. intros ? w' H. by split.
  - unfold NetworkingProcessEvent. apply wp_bind. wp_case; [by split|]. apply wp_bind, wp_rest; [solve_deep|].
    intros b w1 H. wp_case; [by split|]. unfold AddDeviceChangeListener, IsDmReady. wp_seq.
    rewrite (rest_alive _ _ H), Hd. do 4 (cbv beta iota; cbn [negb when]; wp_seq). apply wp_rest; [solve_deep|]. intros _ w2 H2. split; [done|exact (eq_trans H2 H)].
Qed.
End tasks.

#[export] Hint Extern 4 (respects _ (runCollectTask _)) => apply runCollectTask_frame; [typeclasses eauto|typeclasses eauto|] : respects.
#[export] Hint Extern 4 (respects _ (runCollectInput _)) => apply runCollectInput_frame; [typeclasses eauto|typeclasses eauto|] : respects.
