(* ===== verification/IpcInterface.v ===== *)
(** The IPC interface of the service: [ISystemAbilityManager]
    (interfaces/innerkits/samgr_proxy/include/if_system_ability_manager.h), the
    transaction codes (samgr_ipc_interface_code.h), the marshalling of on-demand
    events (frameworks/native/source/system_ability_on_demand_event.cpp), and what
    the IPC layer asks of the framework, of SELinux and of the access tokens. *)
From S2P Require Import Prelude Types World Parcel Ffrt Util ManagerBase.

(** ** Transaction codes ([enum class SamgrInterfaceCode]) *)

Module Code.
Definition GET_SYSTEM_ABILITY_TRANSACTION : Z := 1.
Definition CHECK_SYSTEM_ABILITY_TRANSACTION : Z := 2.
Definition ADD_SYSTEM_ABILITY_TRANSACTION : Z := 3.
Definition REMOVE_SYSTEM_ABILITY_TRANSACTION : Z := 4.
Definition LIST_SYSTEM_ABILITY_TRANSACTION : Z := 5.
Definition SUBSCRIBE_SYSTEM_ABILITY_TRANSACTION : Z := 6.
Definition LOAD_SYSTEM_ABILITY_TRANSACTION : Z := 7.
Definition LOAD_REMOTE_SYSTEM_ABILITY_TRANSACTION : Z := 8.
Definition CHECK_REMOTE_SYSTEM_ABILITY_TRANSACTION : Z := 9.
Definition ADD_ONDEMAND_SYSTEM_ABILITY_TRANSACTION : Z := 10.
Definition CHECK_SYSTEM_ABILITY_IMMEDIATELY_TRANSACTION : Z := 12.
Definition UNSUBSCRIBE_SYSTEM_ABILITY_TRANSACTION : Z := 18.
Definition ADD_SYSTEM_PROCESS_TRANSACTION : Z := 20.
Definition UNLOAD_SYSTEM_ABILITY_TRANSACTION : Z := 21.
Definition CANCEL_UNLOAD_SYSTEM_ABILITY_TRANSACTION : Z := 22.
Definition GET_RUNNING_SYSTEM_PROCESS_TRANSACTION : Z := 23.
Definition SUBSCRIBE_SYSTEM_PROCESS_TRANSACTION : Z := 24.
Definition UNSUBSCRIBE_SYSTEM_PROCESS_TRANSACTION : Z := 25.
Definition GET_ONDEMAND_REASON_EXTRA_DATA_TRANSACTION : Z := 26.
Definition GET_ONDEAMND_POLICY_TRANSACTION : Z := 27.
Definition UPDATE_ONDEAMND_POLICY_TRANSACTION : Z := 28.
Definition GET_SYSTEM_PROCESS_INFO_TRANSACTION : Z := 29.
Definition GET_ONDEMAND_SYSTEM_ABILITY_IDS_TRANSACTION : Z := 30.
Definition SEND_STRATEGY_TRANASACTION : Z := 31.
Definition UNLOAD_ALL_IDLE_SYSTEM_ABILITY_TRANSACTION : Z := 32.
Definition GET_EXTENSION_SA_IDS_TRANSCATION : Z := 33.
Definition GET_EXTERNSION_SA_LIST_TRANSCATION : Z := 34.
Definition GET_SA_EXTENSION_INFO_TRANSCATION : Z := 35.
Definition GET_COMMON_EVENT_EXTRA_ID_LIST_TRANSCATION : Z := 36.
Definition GET_LOCAL_ABILITY_MANAGER_PROXY_TRANSCATION : Z := 37.
Definition UNLOAD_IDLE_PROCESS_BYLIST : Z := 38.
Definition GET_LRU_IDLE_SYSTEM_ABILITY_PROCESS_TRANSACTION : Z := 39.
Definition SET_SAMGR_IPC_PRIOR_TRANSACTION : Z := 40.
Definition SUBSCRIBE_LOWMEM_SYSTEM_PROCESS_TRANSACTION : Z := 41.
Definition UNSUBSCRIBE_LOWMEM_SYSTEM_PROCESS_TRANSACTION : Z := 42.
Definition ONSTART_SYSTEM_ABILITY_FAIL_TRANSACTION : Z := 43.
Definition ON_USER_STATE_CHANGED_TRANSACTION : Z := 44.
Definition GET_SYSTEM_ABILITY_WITH_USERID_TRANSACTION : Z := 45.
Definition CHECK_SYSTEM_ABILITY_WITH_USERID_TRANSACTION : Z := 46.
Definition CHECK_SYSTEM_ABILITY_BY_USERID_TRANSACTION : Z := 47.
Definition GET_SYSTEM_PROCESS_INFO_WITH_USERID_TRANSACTION : Z := 48.
Definition GET_LOCAL_ABILITY_MANAGER_PROXY_WITH_USERID_TRANSACTION : Z := 49.
Definition LOAD_SYSTEM_ABILITY_WITH_USERID_TRANSACTION : Z := 50.
Definition SUBSCRIBE_SYSTEM_ABILITY_WITH_USERID_TRANSACTION : Z := 51.
Definition UNSUBSCRIBE_SYSTEM_ABILITY_WITH_USERID_TRANSACTION : Z := 52.
Definition SUBSCRIBE_SYSTEM_PROCESS_WITH_USERID_TRANSACTION : Z := 53.
Definition UNSUBSCRIBE_SYSTEM_PROCESS_WITH_USERID_TRANSACTION : Z := 54.
End Code.

Definition LAST_SYS_ABILITY_ID : Z := 0x00ffffff.
Definition USER_STATE_ACTIVATING : Z := 0.
Definition USER_STATE_SWITCHING : Z := 1.
Definition USER_STATE_STOPPING : Z := 2.

Definition ERR_NONE : Z := 0.
(** [u"ohos.samgr.accessToken"]. *)
Definition SAMANAGER_INTERFACE_TOKEN : u16string :=
  [111; 104; 111; 115; 46; 115; 97; 109; 103; 114; 46; 97; 99; 99; 101; 115; 115; 84; 111; 107; 101; 110].
Definition EXT_TRANSACTION_PERMISSION : string := "ohos.permission.ACCESS_EXT_SYSTEM_ABILITY".
Definition PERMISSION_SVC : string := "ohos.permission.CONTROL_SVC_CMD".

(** ** On-demand events as clients see them (system_ability_on_demand_event.h) *)

Record SystemAbilityOnDemandCondition := MkSACondition {
  sac_eventId : Z;
  sac_name : string;
  sac_value : string;
}.

Record SystemAbilityOnDemandEvent := MkSAEvent {
  sae_eventId : Z;
  sae_name : string;
  sae_value : string;
  sae_persistence : bool;
  sae_conditions : list SystemAbilityOnDemandCondition;
  sae_enableOnce : bool;
}.

(** ** The environment of the IPC layer *)

(** The checks [ServiceChecker] offers. *)
Inductive SelinuxCheck := GetServiceCheck | AddServiceCheck | GetRemoteServiceCheck | AddRemoteServiceCheck | ListServiceCheck.

(** Error codes of the IPC framework; delivery of a request, 0 when it reaches the
    stub; the framework's answer to an unknown code; token and SELinux checks; the
    plugin of the penglai mode; [iface_cast]; threads; the wait for a load; the
    distributed binder service. *)
Class IpcEnv `{E : Env} := {
  ERR_NULL_OBJECT : Z;
  ERR_FLATTEN_OBJECT : Z;
  ERR_INVALID_OPERATION : Z;
  ERR_NULL_OBJECT_nz : ERR_NULL_OBJECT ≠ 0;
  ERR_FLATTEN_OBJECT_nz : ERR_FLATTEN_OBJECT ≠ 0;
  ERR_INVALID_OPERATION_nz : ERR_INVALID_OPERATION ≠ 0;
  ERR_INVALID_VALUE_i32 : is_i32 ERR_INVALID_VALUE;
  env_SendRequest : Trace → Z → Z;
  env_OnRemoteRequest : Z → Z;
  env_TokenIsNative : Trace → Z → bool;
  env_VerifyAccessToken : Trace → Z → string → bool;
  WITH_SELINUX : bool;
  env_GetCallingSid : Trace → Caller → string;
  env_ServiceCheck : SelinuxCheck → string → string → Z;
  SUPPORT_PENGLAI_MODE : bool;
  penglaiFunc_ : option (Z → Z → bool);
  env_gettid : Trace → Z;
  cast_StatusChange : RemoteObject → option StatusChange;
  cast_LoadCallback : RemoteObject → option LoadCallback;
  cast_ProcessStatusChange : RemoteObject → option ProcessStatusChange;
  env_waitLoaded : Trace → option RemoteObject;
  env_IsObjectDead : Trace → RemoteObject → bool;
  env_MakeRemoteBinder : Trace → option RemoteObject;
}.

(** ** The interface

    One member per virtual function; an overload has a suffix ([Remote] for a
    device id, [Exist] for [isExist], [User] for a user id).  A reference
    parameter that the call fills is part of the result.  [extraDataParcel] is a
    parcel the implementation writes to. *)
Class ISystemAbilityManager `{P : Parcels} (S : Type) := {
  iListSystemAbilities : Z → ST S (list u16string);
  iGetSystemAbility : Z → ST S (option RemoteObject);
  iCheckSystemAbility : Z → ST S (option RemoteObject);
  iRemoveSystemAbility : Z → ST S Z;
  iSubscribeSystemAbility : Z → option StatusChange → ST S Z;
  iUnSubscribeSystemAbility : Z → option StatusChange → ST S Z;
  iGetSystemAbilityRemote : Z → string → ST S (option RemoteObject);
  iAddOnDemandSystemAbilityInfo : Z → u16string → ST S Z;
  iCheckSystemAbilityExist : Z → bool → ST S (option RemoteObject * bool);
  iAddSystemAbility : Z → option RemoteObject → SAExtraProp → ST S Z;
  iAddSystemProcess : u16string → option RemoteObject → ST S Z;
  iLoadSystemAbility : Z → option LoadCallback → ST S Z;
  iLoadSystemAbilityRemote : Z → string → option LoadCallback → ST S Z;
  iUnloadSystemAbility : Z → ST S Z;
  iCancelUnloadSystemAbility : Z → ST S Z;
  iUnloadAllIdleSystemAbility : ST S Z;
  iUnloadProcess : list u16string → ST S Z;
  iGetLruIdleSystemAbilityProc : ST S (Z * list IdleProcessInfo);
  iOnStartSystemAbilityFail : Z → Z → ST S Z;
  iGetSystemProcessInfo : Z → SystemProcessInfo → ST S (Z * SystemProcessInfo);
  iGetRunningSystemProcess : ST S (Z * list SystemProcessInfo);
  iSubscribeSystemProcess : option ProcessStatusChange → ST S Z;
  iUnSubscribeSystemProcess : option ProcessStatusChange → ST S Z;
  iSubscribeLowMemSystemProcess : option ProcessStatusChange → ST S Z;
  iUnSubscribeLowMemSystemProcess : option ProcessStatusChange → ST S Z;
  iSendStrategy : Z → list Z → Z → string → ST S Z;
  iGetExtensionSaIds : string → ST S (Z * list Z);
  iGetExtensionRunningSaList : string → ST S (Z * list RemoteObject);
  iGetRunningSaExtensionInfoList : string → ST S (Z * list (Z * RemoteObject));
  iGetLocalAbilityManagerProxy : Z → ST S (option RemoteObject);
  iSetSamgrIpcPrior : bool → ST S Z;
  iGetCommonEventExtraDataIdlist : Z → string → ST S (Z * list Z);
  iGetOnDemandReasonExtraData : Z → Parcel → ST S (Z * Parcel);
  iGetOnDemandPolicy : Z → Z → ST S (Z * list SystemAbilityOnDemandEvent);
  iUpdateOnDemandPolicy : Z → Z → list SystemAbilityOnDemandEvent → ST S Z;
  iGetOnDemandSystemAbilityIds : ST S (Z * list Z);
  iOnUserStateChanged : Z → Z → ST S Z;
  iGetSystemAbilityUser : Z → Z → ST S (option RemoteObject);
  iCheckSystemAbilityUser : Z → Z → ST S (option RemoteObject);
  iCheckSystemAbilityByUserId : Z → bool → Z → ST S (option RemoteObject * bool);
  iGetSystemProcessInfoUser : Z → SystemProcessInfo → Z → ST S (Z * SystemProcessInfo);
  iGetLocalAbilityManagerProxyUser : Z → Z → ST S (option RemoteObject);
  iLoadSystemAbilityUser : Z → option LoadCallback → Z → ST S Z;
  iSubscribeSystemAbilityUser : Z → option StatusChange → Z → ST S Z;
  iUnSubscribeSystemAbilityUser : Z → option StatusChange → Z → ST S Z;
  iSubscribeSystemProcessUser : option ProcessStatusChange → Z → ST S Z;
  iUnSubscribeSystemProcessUser : option ProcessStatusChange → Z → ST S Z;
}.

(** ** [OnDemandEventToParcel] *)

Section events.
Context `{P : Parcels} {S : Type}.

(** A size is sent as [WriteInt32(size_t)]. *)
Definition sizeOf {A} (l : list A) : Z := i32 (Z.of_nat (length l)).

Definition WriteOnDemandConditionToParcel {R} (c : SystemAbilityOnDemandCondition) (e : R) : X (S := S) R unit :=
  put KInt32 (sac_eventId c) e;; put KString (sac_name c) e;; put KString (sac_value c) e.

Definition WriteOnDemandEventToParcel {R} (ev : SystemAbilityOnDemandEvent) (e : R) : X (S := S) R unit :=
  put KInt32 (sae_eventId ev) e;; put KString (sae_name ev) e;; put KString (sae_value ev) e.

(** Writes the events; [e] is what the caller returns when it fails. *)
Definition WriteOnDemandEventsToParcel {R} (l : list SystemAbilityOnDemandEvent) (e : R) : X (S := S) R unit :=
  put KInt32 (sizeOf l) e;;
  each l (λ ev,
    WriteOnDemandEventToParcel ev e;;
    put KBool (sae_persistence ev) e;;
    put KInt32 (sizeOf (sae_conditions ev)) e;;
    each (sae_conditions ev) (λ c, WriteOnDemandConditionToParcel c e);;
    put KBool (sae_enableOnce ev) e).

Definition ReadOnDemandConditionFromParcel {R} (e : R) : X (S := S) R SystemAbilityOnDemandCondition :=
  i ← get KInt32 e; n ← get KString e; v ← get KString e; mret (MkSACondition i n v).

(** [static_cast<size_t>(size) > parcel.GetReadableBytes() || size < 0]. *)
Definition checkSize {R} (size : Z) (e : R) : X (S := S) R unit :=
  b ← readableBytes; require (negb ((b <? u64 size) || (size <? 0))) e.

(** One turn of the loop of [ReadOnDemandEventsFromParcel], with
    [ReadOnDemandEventFromParcel] as its first part. *)
Definition ReadOnDemandEventFromParcel {R} (e : R) : X (S := S) R SystemAbilityOnDemandEvent :=
  i ← get KInt32 e; n ← get KString e; v ← get KString e;
  p ← get KBool e;
  size ← get KInt32 e;
  checkSize size e;;
  cs ← times (Z.to_nat size) (ReadOnDemandConditionFromParcel e);
  o ← get KBool e;
  mret (MkSAEvent i n v p cs o).

Definition ReadOnDemandEventsFromParcel {R} (e : R) : X (S := S) R (list SystemAbilityOnDemandEvent) :=
  size ← get KInt32 e;
  checkSize size e;;
  times (Z.to_nat size) (ReadOnDemandEventFromParcel e).
End events.
