(* ===== verification/Stub.v ===== *)
(** [SystemAbilityManagerStub]
    (services/samgr/native/source/system_ability_manager_stub.cpp): decodes the
    requests of clients, checks what the caller may do, calls the implementation
    of [ISystemAbilityManager] and encodes the reply.  A handler reads the request
    from [ip_in] and writes the reply to [ip_out]; its early return and its result
    are the status of the transaction. *)
From S2P Require Import Prelude Types World Parcel Ffrt Util ManagerBase IpcInterface.

Section stub.
Context `{E : Env} `{IE : IpcEnv} `{P : Parcels} {S : Type} `{HS : HasWorld S}.

Abbreviation Handler := (X (S := S) Z Z).

(** ** Permission checks *)

(** The five [Check...Permission] functions: allowed without SELinux. *)
Definition selinuxAllows (op : SelinuxCheck) (said : Z) : M bool :=
  if negb WITH_SELINUX then mret true
  else
    tr ← gets w_trace; c ← gets w_caller;
    mret (env_ServiceCheck op (env_GetCallingSid tr c) (to_string said) =? 0).
Definition CheckGetSAPermission (said : Z) : M bool := selinuxAllows GetServiceCheck said.
Definition CheckAddOrRemovePermission (said : Z) : M bool := selinuxAllows AddServiceCheck said.
Definition CheckGetRemoteSAPermission (said : Z) : M bool := selinuxAllows GetRemoteServiceCheck said.
Definition CheckAddRemoteSAPermission (said : Z) : M bool := selinuxAllows AddRemoteServiceCheck said.
Definition CheckListSAPermission : M bool :=
  if negb WITH_SELINUX then mret true
  else
    tr ← gets w_trace; c ← gets w_caller;
    mret (env_ServiceCheck ListServiceCheck (env_GetCallingSid tr c) "" =? 0).

(** Only native processes may ask. *)
Definition CanRequest : M bool :=
  tr ← gets w_trace; tid ← gets (λ w, callingTokenID (w_caller w)); mret (env_TokenIsNative tr tid).

Definition CheckPermission (perm : string) : M bool :=
  tr ← gets w_trace; tid ← gets (λ w, callingTokenID (w_caller w)); mret (env_VerifyAccessToken tr tid perm).

(** [SamgrUtil::CheckPengLaiPermission]. *)
Definition CheckPengLaiPermission (said : Z) : M bool :=
  uid ← GetCallingUid;
  mret (match penglaiFunc_ with None => true | Some f => f uid said end).

(** [!(isPengLai_ && !CheckPengLaiPermission(systemAbilityId))] where the mode is built in. *)
Definition penglaiAllows (said : Z) : M bool :=
  if negb SUPPORT_PENGLAI_MODE then mret true
  else
    isPengLai ← gets (λ w, isPengLai_ (w_stub w));
    if negb isPengLai then mret true else CheckPengLaiPermission said.

(** ** Priority of the IPC threads *)

Definition updStub (f : StubState → StubState) : M unit := modify (λ w, w <| w_stub ::= f |>).

Definition SetIpcPrior : M unit :=
  st ← gets w_stub;
  when (isSupportSetPrior_ st && priorEnable_ st) (
    tr ← gets w_trace;
    let tid := env_gettid tr in
    when (bool_decide (tid ∉ highPrioTidSet_ st)) (
      updStub (λ s, s <| highPrioTidSet_ ::= λ t, {[tid]} ∪ t |>);;
      emit (EvQos SetThreadQos))).

Definition ResetIpcPrior : M unit :=
  emit (EvQos SetThreadQos);;
  tids ← gets (λ w, highPrioTidSet_ (w_stub w));
  forM (merge_sort Z.le (elements tids)) (λ tid, emit (EvQos (ResetQosForOtherThread tid)));;
  updStub (λ s, s <| highPrioTidSet_ := ∅ |>);;
  emit (EvQos ResetThreadQos).

(** The constructor: the modes the parameters ask for. *)
Definition newStub : M unit :=
  tr ← gets w_trace;
  let penglai := bool_decide (env_GetParameter tr "ohos.boot.minisys.mode" "" = "penglai") in
  updStub (λ s, s <| isPengLai_ := SUPPORT_PENGLAI_MODE && penglai |>
                  <| isSupportSetPrior_ := env_GetBoolParameter tr "const.samgr.setprior.support" false |>).

(** ** The handlers *)

Context {I : ISystemAbilityManager S}.

(** [int32_t systemAbilityId = -1; if (!data.ReadInt32(...)) return e; if (!CheckInputSysAbilityId(...)) return e;]. *)
Definition readSaId (e : Z) : X (S := S) Z Z :=
  said ← get KInt32 e; require (CheckInputSysAbilityId said) e;; mret said.

(** [sptr<IRemoteObject> remoteObject = data.ReadRemoteObject(); iface_cast<...>(remoteObject)]. *)
Definition readInterface {A} (cast : RemoteObject → option A) (e : Z) : X (S := S) Z A :=
  o ← get KObject e; match cast o with Some a => mret a | None => stop e end.

(** [reply.WriteInt32(result)] and the result as status. *)
Definition replyResult (result : Z) : Handler := put KInt32 result ERR_FLATTEN_OBJECT;; mret result.

(** An object as the reply, or an error. *)
Definition replyObject (o : option RemoteObject) : Handler :=
  match o with
  | None => stop ERR_NULL_OBJECT
  | Some o => put KObject o ERR_FLATTEN_OBJECT;; mret ERR_NONE
  end.

Definition ListSystemAbilityInner : Handler :=
  check CanRequest ERR_PERMISSION_DENIED;;
  check CheckListSAPermission ERR_PERMISSION_DENIED;;
  dumpFlag ← get KInt32 ERR_FLATTEN_OBJECT;
  names ← liftS (iListSystemAbilities (u32 dumpFlag));
  match names with
  | [] => put KInt32 ERR_INVALID_VALUE ERR_FLATTEN_OBJECT
  | _ => put KInt32 ERR_NONE ERR_FLATTEN_OBJECT;; put KString16Vector names ERR_FLATTEN_OBJECT
  end;;
  mret ERR_NONE.

Definition SubsSystemAbilityInner : Handler :=
  said ← readSaId ERR_NULL_OBJECT;
  listener ← readInterface cast_StatusChange ERR_NULL_OBJECT;
  result ← int32 (iSubscribeSystemAbility said (Some listener));
  replyResult result.

Definition UnSubsSystemAbilityInner : Handler :=
  said ← readSaId ERR_NULL_OBJECT;
  listener ← readInterface cast_StatusChange ERR_NULL_OBJECT;
  result ← int32 (iUnSubscribeSystemAbility said (Some listener));
  replyResult result.

(** [SamgrUtil::TransformDeviceId(deviceId, UUID, false)] is [deviceId]. *)
Definition TransformDeviceId (deviceId : string) (isPrivate : bool) : string :=
  if isPrivate then "" else deviceId.

Definition CheckRemtSystemAbilityInner : Handler :=
  check CanRequest ERR_PERMISSION_DENIED;;
  said ← readSaId ERR_NULL_OBJECT;
  check (penglaiAllows said) ERR_PERMISSION_DENIED;;
  check (CheckGetRemoteSAPermission said) ERR_PERMISSION_DENIED;;
  deviceId ← get KString ERR_FLATTEN_OBJECT;
  obj ← liftS (iGetSystemAbilityRemote said (TransformDeviceId deviceId false));
  replyObject obj.

Definition AddOndemandSystemAbilityInner : Handler :=
  check CanRequest ERR_PERMISSION_DENIED;;
  said ← readSaId ERR_NULL_OBJECT;
  check (CheckAddOrRemovePermission said) ERR_PERMISSION_DENIED;;
  name ← read KString16;
  let localManagerName := default [] name in
  require (negb (bool_decide (localManagerName = []))) ERR_NULL_OBJECT;;
  result ← int32 (iAddOnDemandSystemAbilityInfo said localManagerName);
  replyResult result.

Definition CheckSystemAbilityImmeInner : Handler :=
  said ← readSaId ERR_NULL_OBJECT;
  check (penglaiAllows said) ERR_PERMISSION_DENIED;;
  check (CheckGetSAPermission said) ERR_PERMISSION_DENIED;;
  isExist ← get KBool ERR_FLATTEN_OBJECT;
  '(obj, isExist) ← liftS (iCheckSystemAbilityExist said isExist);
  _ ← replyObject obj;
  put KBool isExist ERR_FLATTEN_OBJECT;;
  mret ERR_NONE.

(** The members of the property, with a negative [dumpFlags] refused. *)
Definition UnmarshalingSaExtraProp : X (S := S) Z SAExtraProp :=
  isDistributed ← get KBool ERR_FLATTEN_OBJECT;
  flags ← get KInt32 ERR_FLATTEN_OBJECT;
  require (negb (flags <? 0)) ERR_FLATTEN_OBJECT;;
  capability ← read KString16;
  permission ← read KString16;
  mret (MkSAExtraProp isDistributed (u32 flags) (default [] capability) (default [] permission)).

Definition AddSystemAbilityInner : Handler :=
  check CanRequest ERR_PERMISSION_DENIED;;
  said ← readSaId ERR_NULL_OBJECT;
  check (CheckAddOrRemovePermission said) ERR_PERMISSION_DENIED;;
  object ← get KObject ERR_NULL_OBJECT;
  extraProp ← UnmarshalingSaExtraProp;
  (if isDistributed extraProp then check (CheckAddRemoteSAPermission said) ERR_PERMISSION_DENIED else mret tt);;
  result ← int32 (iAddSystemAbility said (Some object) extraProp);
  replyResult result.

Definition GetSystemAbilityInner : Handler :=
  said ← readSaId ERR_NULL_OBJECT;
  check (penglaiAllows said) ERR_PERMISSION_DENIED;;
  check (CheckGetSAPermission said) ERR_PERMISSION_DENIED;;
  obj ← liftS (iGetSystemAbility said);
  replyObject obj.

Definition CheckSystemAbilityInner : Handler :=
  said ← readSaId ERR_NULL_OBJECT;
  check (penglaiAllows said) ERR_PERMISSION_DENIED;;
  check (CheckGetSAPermission said) ERR_PERMISSION_DENIED;;
  obj ← liftS (iCheckSystemAbility said);
  replyObject obj.

Definition RemoveSystemAbilityInner : Handler :=
  check CanRequest ERR_PERMISSION_DENIED;;
  said ← readSaId ERR_NULL_OBJECT;
  check (CheckAddOrRemovePermission said) ERR_PERMISSION_DENIED;;
  result ← int32 (iRemoveSystemAbility said);
  replyResult result.

Definition AddSystemProcessInner : Handler :=
  check CanRequest ERR_PERMISSION_DENIED;;
  name ← read KString16;
  let procName := default [] name in
  require (negb (bool_decide (procName = []))) ERR_NULL_OBJECT;;
  procObject ← get KObject ERR_NULL_OBJECT;
  result ← int32 (iAddSystemProcess procName (Some procObject));
  replyResult result.

(** [LoadSACheck] and [LoadRemoteSACheck], returned when not [ERR_OK]. *)
Definition LoadSACheck (said : Z) : X (S := S) Z unit :=
  require (CheckInputSysAbilityId said) ERR_INVALID_VALUE;;
  check (penglaiAllows said) ERR_PERMISSION_DENIED;;
  check (CheckGetSAPermission said) ERR_PERMISSION_DENIED.
Definition LoadRemoteSACheck (said : Z) : X (S := S) Z unit :=
  require (CheckInputSysAbilityId said) ERR_INVALID_VALUE;;
  check (penglaiAllows said) ERR_PERMISSION_DENIED;;
  check (CheckGetRemoteSAPermission said) ERR_PERMISSION_DENIED.

(** [if (result != ERR_OK) { Report...(systemAbilityId, pid, uid, prefix + result); }]. *)
Definition reportFailure (mk : Z → Z → string → Report) (prefix : string) (result : Z) : M unit :=
  when (negb (result =? ERR_OK)) (
    callPid ← GetCallingPid; callUid ← GetCallingUid;
    emit (EvReport (mk callPid callUid (prefix +:+ to_string result)))).

Definition LoadSystemAbilityInner : Handler :=
  said ← get KInt32 ERR_INVALID_VALUE;
  LoadSACheck said;;
  callback ← readInterface cast_LoadCallback ERR_INVALID_VALUE;
  result ← int32 (iLoadSystemAbility said (Some callback));
  liftM (reportFailure (ReportSamgrSaLoadFail said) "interface load err:" result);;
  replyResult result.

Definition LoadRemoteSystemAbilityInner : Handler :=
  said ← get KInt32 ERR_INVALID_VALUE;
  LoadRemoteSACheck said;;
  dev ← read KString;
  let deviceId := default "" dev in
  require (negb (bool_decide (deviceId = ""))) ERR_INVALID_VALUE;;
  callback ← readInterface cast_LoadCallback ERR_INVALID_VALUE;
  result ← int32 (iLoadSystemAbilityRemote said deviceId (Some callback));
  replyResult result.

Definition UnloadSystemAbilityInner : Handler :=
  said ← readSaId ERR_INVALID_VALUE;
  result ← int32 (iUnloadSystemAbility said);
  liftM (reportFailure (ReportSaUnLoadFail said) "interface unload err:" result);;
  replyResult result.

Definition UnloadAllIdleSystemAbilityInner : Handler := int32 iUnloadAllIdleSystemAbility.

Definition UnloadProcessInner : Handler :=
  check (CheckCallerProcessName "memmgrservice") ERR_PERMISSION_DENIED;;
  processList ← get KString16Vector ERR_NULL_OBJECT;
  int32 (iUnloadProcess processList).

Definition GetLruIdleSystemAbilityProcInner : Handler :=
  check (CheckCallerProcessName "memmgrservice") ERR_PERMISSION_DENIED;;
  '(r, infos) ← liftS iGetLruIdleSystemAbilityProc;
  let result := i32 r in
  put KInt32 result ERR_FLATTEN_OBJECT;;
  if negb (result =? ERR_OK) then mret result
  else
    put KInt32 (sizeOf infos) ERR_FLATTEN_OBJECT;;
    each infos (λ i,
      put KInt32 (ipi_pid i) ERR_FLATTEN_OBJECT;;
      put KString16 (ipi_processName i) ERR_FLATTEN_OBJECT;;
      put KInt64 (ipi_lastIdleTime i) ERR_FLATTEN_OBJECT);;
    mret ERR_OK.

Definition OnStartSystemAbilityFailInner : Handler :=
  check CanRequest ERR_PERMISSION_DENIED;;
  said ← get KInt32 ERR_INVALID_VALUE;
  errCode ← get KInt32 ERR_INVALID_VALUE;
  require (CheckInputSysAbilityId said) ERR_NULL_OBJECT;;
  result ← int32 (iOnStartSystemAbilityFail said errCode);
  replyResult result.

Definition writeProcessInfo (i : SystemProcessInfo) : X (S := S) Z unit :=
  put KString (spi_processName i) ERR_FLATTEN_OBJECT;;
  put KInt32 (spi_pid i) ERR_FLATTEN_OBJECT;;
  put KInt32 (spi_uid i) ERR_FLATTEN_OBJECT.

Definition newSystemProcessInfo : SystemProcessInfo := MkSystemProcessInfo "" (-1) (-1).

Definition GetSystemProcessInfoInner : Handler :=
  check CanRequest ERR_PERMISSION_DENIED;;
  said ← readSaId ERR_NULL_OBJECT;
  '(r, info) ← liftS (iGetSystemProcessInfo said newSystemProcessInfo);
  let result := i32 r in
  put KInt32 result ERR_FLATTEN_OBJECT;;
  (if negb (result =? ERR_OK) then mret tt else writeProcessInfo info);;
  mret ERR_OK.

Definition GetRunningSystemProcessInner : Handler :=
  check CanRequest ERR_PERMISSION_DENIED;;
  '(r, infos) ← liftS iGetRunningSystemProcess;
  let result := i32 r in
  put KInt32 result ERR_FLATTEN_OBJECT;;
  (if negb (result =? ERR_OK) then mret tt
   else put KInt32 (sizeOf infos) ERR_FLATTEN_OBJECT;; each infos writeProcessInfo);;
  mret ERR_OK.

(** The four subscriptions to processes differ in the operation they call. *)
Definition processListenerInner (op : option ProcessStatusChange → ST S Z) : Handler :=
  check CanRequest ERR_PERMISSION_DENIED;;
  listener ← readInterface cast_ProcessStatusChange ERR_NULL_OBJECT;
  result ← int32 (op (Some listener));
  replyResult result.
Definition SubscribeSystemProcessInner : Handler := processListenerInner iSubscribeSystemProcess.
Definition UnSubscribeSystemProcessInner : Handler := processListenerInner iUnSubscribeSystemProcess.
Definition SubscribeLowMemSystemProcessInner : Handler := processListenerInner iSubscribeLowMemSystemProcess.
Definition UnSubscribeLowMemSystemProcessInner : Handler := processListenerInner iUnSubscribeLowMemSystemProcess.

Definition CancelUnloadSystemAbilityInner : Handler :=
  said ← readSaId ERR_INVALID_VALUE;
  result ← int32 (iCancelUnloadSystemAbility said);
  replyResult result.

(** The implementation writes the data to a parcel of its own, from which it is
    read again and passed on. *)
Definition GetOnDemandReasonExtraDataInner : Handler :=
  check CanRequest ERR_PERMISSION_DENIED;;
  extraDataId ← get KInt64 ERR_FLATTEN_OBJECT;
  '(r, extraDataParcel) ← liftS (iGetOnDemandReasonExtraData extraDataId emptyParcel);
  put KInt32 (i32 r) ERR_FLATTEN_OBJECT;;
  match (Read KExtraData extraDataParcel).1 with
  | None => stop ERR_FLATTEN_OBJECT
  | Some extraData => put KExtraData extraData ERR_FLATTEN_OBJECT;; mret ERR_OK
  end.

Definition GetOnDemandPolicyInner : Handler :=
  check CanRequest ERR_PERMISSION_DENIED;;
  said ← get KInt32 ERR_FLATTEN_OBJECT;
  type ← get KInt32 ERR_FLATTEN_OBJECT;
  '(r, events) ← liftS (iGetOnDemandPolicy said type);
  put KInt32 (i32 r) ERR_FLATTEN_OBJECT;;
  WriteOnDemandEventsToParcel events ERR_FLATTEN_OBJECT;;
  mret ERR_OK.

Definition UpdateOnDemandPolicyInner : Handler :=
  check CanRequest ERR_PERMISSION_DENIED;;
  said ← get KInt32 ERR_FLATTEN_OBJECT;
  type ← get KInt32 ERR_FLATTEN_OBJECT;
  events ← ReadOnDemandEventsFromParcel ERR_FLATTEN_OBJECT;
  result ← int32 (iUpdateOnDemandPolicy said type events);
  put KInt32 result ERR_FLATTEN_OBJECT;;
  mret ERR_OK.

Definition SendStrategyInner : Handler :=
  check CanRequest ERR_PERMISSION_DENIED;;
  type ← get KInt32 ERR_FLATTEN_OBJECT;
  ids ← get KInt32Vector ERR_FLATTEN_OBJECT;
  level ← get KInt32 ERR_FLATTEN_OBJECT;
  action ← get KString ERR_FLATTEN_OBJECT;
  result ← int32 (iSendStrategy type ids level action);
  put KInt32 result ERR_FLATTEN_OBJECT;;
  mret ERR_OK.

Definition GetOnDemandSystemAbilityIdsInner : Handler :=
  '(r, ids) ← liftS iGetOnDemandSystemAbilityIds;
  let result := i32 r in
  require (result =? ERR_OK) result;;
  put KInt32 result ERR_FLATTEN_OBJECT;;
  put KInt32Vector ids ERR_FLATTEN_OBJECT;;
  mret ERR_OK.

Definition GetExtensionSaIdsInner : Handler :=
  check CanRequest ERR_PERMISSION_DENIED;;
  extension ← get KString ERR_FLATTEN_OBJECT;
  '(r, ids) ← liftS (iGetExtensionSaIds extension);
  let result := i32 r in
  require (result =? ERR_OK) result;;
  put KInt32 result ERR_FLATTEN_OBJECT;;
  put KInt32Vector ids ERR_FLATTEN_OBJECT;;
  mret ERR_NONE.

Definition GetExtensionRunningSaListInner : Handler :=
  check CanRequest ERR_PERMISSION_DENIED;;
  extension ← get KString ERR_FLATTEN_OBJECT;
  '(r, saList) ← liftS (iGetExtensionRunningSaList extension);
  let result := i32 r in
  require (result =? ERR_OK) result;;
  put KInt32 result ERR_FLATTEN_OBJECT;;
  put KInt32 (sizeOf saList) ERR_FLATTEN_OBJECT;;
  each saList (λ o, put KObject o ERR_FLATTEN_OBJECT);;
  mret ERR_NONE.

Definition GetRunningSaExtensionInfoListInner : Handler :=
  check (CheckPermission EXT_TRANSACTION_PERMISSION) ERR_PERMISSION_DENIED;;
  extension ← get KString ERR_FLATTEN_OBJECT;
  '(r, infoList) ← liftS (iGetRunningSaExtensionInfoList extension);
  let result := i32 r in
  put KInt32 result ERR_FLATTEN_OBJECT;;
  require (result =? ERR_OK) result;;
  put KInt32 (sizeOf infoList) ERR_FLATTEN_OBJECT;;
  each infoList (λ i, put KInt32 i.1 ERR_FLATTEN_OBJECT;; put KObject i.2 ERR_FLATTEN_OBJECT);;
  mret ERR_NONE.

Definition GetCommonEventExtraDataIdlistInner : Handler :=
  check CanRequest ERR_PERMISSION_DENIED;;
  said ← readSaId ERR_NULL_OBJECT;
  eventName ← get KString ERR_FLATTEN_OBJECT;
  '(r, ids) ← liftS (iGetCommonEventExtraDataIdlist said eventName);
  let result := i32 r in
  put KInt32 result ERR_FLATTEN_OBJECT;;
  require (result =? ERR_OK) result;;
  put KInt64Vector ids ERR_FLATTEN_OBJECT;;
  mret ERR_NONE.

Definition GetLocalAbilityManagerProxyInner : Handler :=
  check (CheckPermission PERMISSION_SVC) ERR_PERMISSION_DENIED;;
  said ← readSaId ERR_NULL_OBJECT;
  obj ← liftS (iGetLocalAbilityManagerProxy said);
  replyObject obj.

Definition SetSamgrIpcPriorInner : Handler :=
  check (CheckCallerProcessName "resource_schedule_service") ERR_PERMISSION_DENIED;;
  enable ← get KBool ERR_FLATTEN_OBJECT;
  result ← int32 (iSetSamgrIpcPrior enable);
  put KInt32 result ERR_FLATTEN_OBJECT;;
  mret ERR_OK.

(** ** Handlers with a user id *)

Definition OnUserStateChangedInner : Handler :=
  check (CheckCallerProcessName "accountmgr") ERR_PERMISSION_DENIED;;
  userId ← get KInt32 ERR_FLATTEN_OBJECT;
  userState ← get KInt32 ERR_FLATTEN_OBJECT;
  require (negb ((userState <? USER_STATE_ACTIVATING) || (USER_STATE_STOPPING <? userState))) ERR_INVALID_VALUE;;
  result ← int32 (iOnUserStateChanged userId userState);
  put KInt32 result ERR_FLATTEN_OBJECT;;
  mret ERR_OK.

Definition GetSystemAbilityWithUserIdInner : Handler :=
  said ← readSaId ERR_NULL_OBJECT;
  check (penglaiAllows said) ERR_PERMISSION_DENIED;;
  check (CheckGetSAPermission said) ERR_PERMISSION_DENIED;;
  userId ← get KInt32 ERR_NULL_OBJECT;
  obj ← liftS (iGetSystemAbilityUser said userId);
  replyObject obj.

Definition CheckSystemAbilityWithUserIdInner : Handler :=
  said ← readSaId ERR_NULL_OBJECT;
  check (penglaiAllows said) ERR_PERMISSION_DENIED;;
  check (CheckGetSAPermission said) ERR_PERMISSION_DENIED;;
  userId ← get KInt32 ERR_NULL_OBJECT;
  obj ← liftS (iCheckSystemAbilityUser said userId);
  replyObject obj.

Definition CheckSystemAbilityByUserIdInner : Handler :=
  said ← readSaId ERR_NULL_OBJECT;
  check (penglaiAllows said) ERR_PERMISSION_DENIED;;
  check (CheckGetSAPermission said) ERR_PERMISSION_DENIED;;
  isExist ← get KBool ERR_FLATTEN_OBJECT;
  userId ← get KInt32 ERR_NULL_OBJECT;
  '(obj, isExist) ← liftS (iCheckSystemAbilityByUserId said isExist userId);
  _ ← replyObject obj;
  put KBool isExist ERR_FLATTEN_OBJECT;;
  mret ERR_NONE.

Definition GetSystemProcessInfoWithUserIdInner : Handler :=
  check CanRequest ERR_PERMISSION_DENIED;;
  said ← readSaId ERR_NULL_OBJECT;
  userId ← get KInt32 ERR_NULL_OBJECT;
  '(r, info) ← liftS (iGetSystemProcessInfoUser said newSystemProcessInfo userId);
  let result := i32 r in
  put KInt32 result ERR_FLATTEN_OBJECT;;
  (if negb (result =? ERR_OK) then mret tt else writeProcessInfo info);;
  mret ERR_OK.

Definition GetLocalAbilityManagerProxyWithUserIdInner : Handler :=
  check (CheckPermission PERMISSION_SVC) ERR_PERMISSION_DENIED;;
  said ← readSaId ERR_NULL_OBJECT;
  userId ← get KInt32 ERR_NULL_OBJECT;
  obj ← liftS (iGetLocalAbilityManagerProxyUser said userId);
  replyObject obj.

Definition LoadSystemAbilityWithUserIdInner : Handler :=
  said ← get KInt32 ERR_INVALID_VALUE;
  LoadSACheck said;;
  callback ← readInterface cast_LoadCallback ERR_INVALID_VALUE;
  userId ← get KInt32 ERR_INVALID_VALUE;
  result ← int32 (iLoadSystemAbilityUser said (Some callback) userId);
  liftM (reportFailure (ReportSamgrSaLoadFail said) "interface load err:" result);;
  replyResult result.

Definition SubsSystemAbilityWithUserIdInner : Handler :=
  said ← readSaId ERR_NULL_OBJECT;
  listener ← readInterface cast_StatusChange ERR_NULL_OBJECT;
  userId ← get KInt32 ERR_NULL_OBJECT;
  result ← int32 (iSubscribeSystemAbilityUser said (Some listener) userId);
  replyResult result.

Definition UnSubsSystemAbilityWithUserIdInner : Handler :=
  said ← readSaId ERR_NULL_OBJECT;
  listener ← readInterface cast_StatusChange ERR_NULL_OBJECT;
  userId ← get KInt32 ERR_NULL_OBJECT;
  result ← int32 (iUnSubscribeSystemAbilityUser said (Some listener) userId);
  replyResult result.

Definition processListenerUserInner (op : option ProcessStatusChange → Z → ST S Z) : Handler :=
  check CanRequest ERR_PERMISSION_DENIED;;
  listener ← readInterface cast_ProcessStatusChange ERR_NULL_OBJECT;
  userId ← get KInt32 ERR_NULL_OBJECT;
  result ← int32 (op (Some listener) userId);
  replyResult result.
Definition SubscribeSystemProcessWithUserIdInner : Handler := processListenerUserInner iSubscribeSystemProcessUser.
Definition UnSubscribeSystemProcessWithUserIdInner : Handler := processListenerUserInner iUnSubscribeSystemProcessUser.

(** ** Dispatch *)

Abbreviation FuncMap := (gmap Z Handler).
(** [memberFuncMap_[code] = handler;], one after the other. *)
Definition assign (l : list (Z * Handler)) (m : FuncMap) : FuncMap := foldl (λ m p, <[p.1 := p.2]> m) m l.

Definition SetAbilityFuncMap : FuncMap → FuncMap := assign [
  (Code.GET_SYSTEM_ABILITY_TRANSACTION, GetSystemAbilityInner);
  (Code.CHECK_SYSTEM_ABILITY_TRANSACTION, CheckSystemAbilityInner);
  (Code.ADD_SYSTEM_ABILITY_TRANSACTION, AddSystemAbilityInner);
  (Code.REMOVE_SYSTEM_ABILITY_TRANSACTION, RemoveSystemAbilityInner);
  (Code.LIST_SYSTEM_ABILITY_TRANSACTION, ListSystemAbilityInner);
  (Code.SUBSCRIBE_SYSTEM_ABILITY_TRANSACTION, SubsSystemAbilityInner);
  (Code.CHECK_REMOTE_SYSTEM_ABILITY_TRANSACTION, CheckRemtSystemAbilityInner);
  (Code.ADD_ONDEMAND_SYSTEM_ABILITY_TRANSACTION, AddOndemandSystemAbilityInner);
  (Code.CHECK_SYSTEM_ABILITY_IMMEDIATELY_TRANSACTION, CheckSystemAbilityImmeInner);
  (Code.UNSUBSCRIBE_SYSTEM_ABILITY_TRANSACTION, UnSubsSystemAbilityInner);
  (Code.LOAD_SYSTEM_ABILITY_TRANSACTION, LoadSystemAbilityInner);
  (Code.LOAD_REMOTE_SYSTEM_ABILITY_TRANSACTION, LoadRemoteSystemAbilityInner);
  (Code.UNLOAD_SYSTEM_ABILITY_TRANSACTION, UnloadSystemAbilityInner);
  (Code.CANCEL_UNLOAD_SYSTEM_ABILITY_TRANSACTION, CancelUnloadSystemAbilityInner)].

Definition SetProcessFuncMap : FuncMap → FuncMap := assign [
  (Code.ADD_SYSTEM_PROCESS_TRANSACTION, AddSystemProcessInner);
  (Code.GET_SYSTEM_PROCESS_INFO_TRANSACTION, GetSystemProcessInfoInner);
  (Code.GET_RUNNING_SYSTEM_PROCESS_TRANSACTION, GetRunningSystemProcessInner);
  (Code.SUBSCRIBE_SYSTEM_PROCESS_TRANSACTION, SubscribeSystemProcessInner);
  (Code.UNSUBSCRIBE_SYSTEM_PROCESS_TRANSACTION, UnSubscribeSystemProcessInner);
  (Code.SUBSCRIBE_LOWMEM_SYSTEM_PROCESS_TRANSACTION, SubscribeLowMemSystemProcessInner);
  (Code.UNSUBSCRIBE_LOWMEM_SYSTEM_PROCESS_TRANSACTION, UnSubscribeLowMemSystemProcessInner)].

Definition SetMultiInstanceFuncMap : FuncMap → FuncMap := assign [
  (Code.GET_SYSTEM_ABILITY_WITH_USERID_TRANSACTION, GetSystemAbilityWithUserIdInner);
  (Code.CHECK_SYSTEM_ABILITY_WITH_USERID_TRANSACTION, CheckSystemAbilityWithUserIdInner);
  (Code.CHECK_SYSTEM_ABILITY_BY_USERID_TRANSACTION, CheckSystemAbilityByUserIdInner);
  (Code.GET_SYSTEM_PROCESS_INFO_WITH_USERID_TRANSACTION, GetSystemProcessInfoWithUserIdInner);
  (Code.GET_LOCAL_ABILITY_MANAGER_PROXY_WITH_USERID_TRANSACTION, GetLocalAbilityManagerProxyWithUserIdInner);
  (Code.LOAD_SYSTEM_ABILITY_WITH_USERID_TRANSACTION, LoadSystemAbilityWithUserIdInner);
  (Code.SUBSCRIBE_SYSTEM_ABILITY_WITH_USERID_TRANSACTION, SubsSystemAbilityWithUserIdInner);
  (Code.UNSUBSCRIBE_SYSTEM_ABILITY_WITH_USERID_TRANSACTION, UnSubsSystemAbilityWithUserIdInner);
  (Code.SUBSCRIBE_SYSTEM_PROCESS_WITH_USERID_TRANSACTION, SubscribeSystemProcessWithUserIdInner);
  (Code.UNSUBSCRIBE_SYSTEM_PROCESS_WITH_USERID_TRANSACTION, UnSubscribeSystemProcessWithUserIdInner)].

(** The function map the constructor fills. *)
Definition memberFuncMap_ : FuncMap :=
  let m := assign [
    (Code.GET_ONDEMAND_REASON_EXTRA_DATA_TRANSACTION, GetOnDemandReasonExtraDataInner);
    (Code.GET_ONDEAMND_POLICY_TRANSACTION, GetOnDemandPolicyInner);
    (Code.UPDATE_ONDEAMND_POLICY_TRANSACTION, UpdateOnDemandPolicyInner);
    (Code.GET_ONDEMAND_SYSTEM_ABILITY_IDS_TRANSACTION, GetOnDemandSystemAbilityIdsInner);
    (Code.SEND_STRATEGY_TRANASACTION, SendStrategyInner);
    (Code.UNLOAD_ALL_IDLE_SYSTEM_ABILITY_TRANSACTION, UnloadAllIdleSystemAbilityInner);
    (Code.GET_EXTENSION_SA_IDS_TRANSCATION, GetExtensionSaIdsInner);
    (Code.GET_EXTERNSION_SA_LIST_TRANSCATION, GetExtensionRunningSaListInner);
    (Code.GET_SA_EXTENSION_INFO_TRANSCATION, GetRunningSaExtensionInfoListInner);
    (Code.GET_COMMON_EVENT_EXTRA_ID_LIST_TRANSCATION, GetCommonEventExtraDataIdlistInner);
    (Code.GET_LOCAL_ABILITY_MANAGER_PROXY_TRANSCATION, GetLocalAbilityManagerProxyInner);
    (Code.UNLOAD_IDLE_PROCESS_BYLIST, UnloadProcessInner);
    (Code.GET_LRU_IDLE_SYSTEM_ABILITY_PROCESS_TRANSACTION, GetLruIdleSystemAbilityProcInner);
    (Code.SET_SAMGR_IPC_PRIOR_TRANSACTION, SetSamgrIpcPriorInner);
    (Code.ONSTART_SYSTEM_ABILITY_FAIL_TRANSACTION, OnStartSystemAbilityFailInner)]
    (SetProcessFuncMap (SetAbilityFuncMap ∅)) in
  if SUPPORT_MULTI_INSTANCE
  then SetMultiInstanceFuncMap (assign [(Code.ON_USER_STATE_CHANGED_TRANSACTION, OnUserStateChangedInner)] m)
  else m.

(** [EnforceInterceToken(data)], then the handler of the code. *)
Definition dispatch (code : Z) : Handler :=
  token ← read KToken;
  require (bool_decide (token = Some SAMANAGER_INTERFACE_TOKEN)) ERR_PERMISSION_DENIED;;
  liftM SetIpcPrior;;
  match memberFuncMap_ !! code with
  | Some handler => handler
  | None => mret (env_OnRemoteRequest code)
  end.

(** [OnRemoteRequest(code, data, reply)]: the status and the reply. *)
Definition OnRemoteRequest (code : Z) (data : Parcel) : ST S (Z * Parcel) :=
  '(r, p) ← dispatch code (MkIpc data emptyParcel);
  mret (ended r, ip_out p).
End stub.
