(* ===== verification/StubFrame.v ===== *)
(** Relations on the states of the service that a request leaves related: what
    the operations of the interface respect, the whole stub respects, whatever
    transaction code and parcel it is given. *)
From S2P Require Import Prelude Types World Parcel Ffrt Util ManagerBase IpcInterface Stub.

Definition keepsS {S A} (R : relation S) (m : ST S A) : Prop := ∀ s, R s (m s).2.
Definition keepsX `{P : Parcels} {S Q A} (R : relation S) (h : X (S := S) Q A) : Prop := ∀ p, keepsS R (h p).

Create HintDb keeps.

(** ** Sequencing *)

Section keepsS.
Context {S : Type} (R : relation S) `{!PreOrder R}.

Lemma keepsS_ret {A} (a : A) : keepsS R (mret a).
Proof. intros s. simpl. reflexivity. Qed.
Lemma keepsS_bind {A B} (m : ST S A) (k : A → ST S B) :
  keepsS R m → (∀ a, keepsS R (k a)) → keepsS R (m ≫= k).
Proof.
  intros Hm Hk s. specialize (Hm s). unfold mbind, ST_bind. destruct (m s) as [a s'] eqn:E. simpl in *.
  etrans; [exact Hm|apply Hk].
Qed.
End keepsS.

Ltac keeps_step :=
  lazymatch goal with
  | |- keepsS ?R (_ ≫= _) => apply (keepsS_bind R); [|intros ?]
  | |- keepsS ?R (mret _) => apply (keepsS_ret R)
  | |- keepsS _ (match ?x with _ => _ end) => destruct x eqn:?
  | |- keepsS _ (let _ := _ in _) => cbv zeta
  end.
Ltac solve_keeps := repeat (first [ keeps_step | solve [auto with keeps] ]).

(** ** The stub *)

Section keepsX.
Context `{E : Env} `{IE : !IpcEnv} `{P : Parcels} {S : Type} `{HS : HasWorld S}.
Context (R : relation S) `{!PreOrder R}.
(** What only writes the trace and the stub's set of threads. *)
Context (HR : ∀ A (m : M A), respects frame m → keepsS R (liftW m)).

Lemma keepsX_ret {Q A} (a : A) : keepsX R (mret a : X (S := S) Q A).
Proof. intros p s. simpl. reflexivity. Qed.
Lemma keepsX_stop {Q A} (e : Q) : keepsX R (stop e : X (S := S) Q A).
Proof. intros p s. simpl. reflexivity. Qed.
Lemma keepsX_bind {Q A B} (m : X (S := S) Q A) (k : A → X (S := S) Q B) :
  keepsX R m → (∀ a, keepsX R (k a)) → keepsX R (m ≫= k).
Proof.
  intros Hm Hk p. apply keepsS_bind; [done|apply Hm|]. intros [[e|a] p']; [apply keepsS_ret, _|apply Hk].
Qed.
Lemma keepsX_liftS {Q A} (m : ST S A) : keepsS R m → keepsX R (liftS m : X (S := S) Q A).
Proof. intros Hm p. apply keepsS_bind; [done|exact Hm|]. intros a. apply keepsS_ret, _. Qed.
Lemma keepsX_liftM {Q A} (m : M A) : respects frame m → keepsX R (liftM m : X (S := S) Q A).
Proof. intros Hm. by apply keepsX_liftS, HR. Qed.
Lemma keepsX_read {Q} k : keepsX R (read k : X (S := S) Q _).
Proof. intros p s. unfold read. destruct (Read k (ip_in p)). simpl. reflexivity. Qed.
Lemma keepsX_write {Q} k v : keepsX R (write k v : X (S := S) Q _).
Proof. intros p s. unfold write. destruct (Write k v (ip_out p)). simpl. reflexivity. Qed.
Lemma keepsX_readable {Q} : keepsX R (readableBytes : X (S := S) Q _).
Proof. intros p s. simpl. reflexivity. Qed.
Lemma keepsX_each {Q A} (l : list A) (f : A → X (S := S) Q unit) : (∀ a, keepsX R (f a)) → keepsX R (each l f).
Proof. intros Hf. induction l; simpl; [apply keepsX_ret|]. apply keepsX_bind; auto. Qed.
Lemma keepsX_times {Q A} n (f : X (S := S) Q A) : keepsX R f → keepsX R (times n f).
Proof.
  intros Hf. induction n; simpl; [apply keepsX_ret|]. apply keepsX_bind; [done|]. intros a.
  apply keepsX_bind; [done|]. intros l. apply keepsX_ret.
Qed.
Lemma keepsX_int32 {Q} (m : ST S Z) : keepsS R m → keepsX R (int32 m : X (S := S) Q Z).
Proof. intros Hm. apply keepsX_bind; [by apply keepsX_liftS|]. intros r. apply keepsX_ret. Qed.
End keepsX.

(** The calls of the implementation are left to the [keeps] database. *)
Ltac keepsX_step :=
  lazymatch goal with
  | |- keepsX ?R (_ ≫= _) => apply (keepsX_bind R); [|intros ?]
  | |- keepsX ?R (mret _) => apply (keepsX_ret R)
  | |- keepsX ?R (stop _) => apply (keepsX_stop R)
  | |- keepsX ?R (liftM _) => apply (keepsX_liftM R); [assumption|solve_deep]
  | |- keepsX ?R (liftS _) => apply (keepsX_liftS R); [solve [auto with keeps]]
  | |- keepsX ?R (int32 _) => apply (keepsX_int32 R); [solve [auto with keeps]]
  | |- keepsX ?R (read ?k) => apply (keepsX_read R k)
  | |- keepsX ?R (write ?k ?v) => apply (keepsX_write R k v)
  | |- keepsX ?R readableBytes => apply (keepsX_readable R)
  | |- keepsX ?R (each _ _) => apply (keepsX_each R); intros ?
  | |- keepsX ?R (times _ _) => apply (keepsX_times R)
  | |- keepsX _ (match ?x with _ => _ end) => destruct x eqn:?
  | |- keepsX _ (let _ := _ in _) => cbv zeta
  | |- keepsX _ ?h => let f := op_head h in unfold f
  end.
Ltac solve_keepsX := repeat keepsX_step.

(** ** Every transaction *)

Section dispatch.
Context `{E : Env} `{IE : !IpcEnv} `{P : Parcels} {S : Type} `{HS : HasWorld S} {I : ISystemAbilityManager S}.

(** What holds of the entries holds of the table they fill. *)
Lemma assign_Forall (Q : Z → X (S := S) Z Z → Prop) l m :
  Forall (λ p, Q p.1 p.2) l → map_Forall Q m → map_Forall Q (assign l m).
Proof.
  intros Hl. revert m. induction Hl as [|[c h] l Hh _ IH]; intros m Hm; simpl; [done|].
  apply IH. by apply map_Forall_insert_2.
Qed.

Lemma SetIpcPrior_frame : respects frame SetIpcPrior.
Proof. unfold SetIpcPrior, updStub. solve_respects. by intros w. Qed.

Context (R : relation S) `{!PreOrder R}.
Context (HR : ∀ A (m : M A), respects frame m → keepsS R (liftW m)).

Lemma dispatch_keeps code : (∀ h, memberFuncMap_ !! code = Some h → keepsX R h) → keepsX R (dispatch code).
Proof.
  intros Hh. unfold dispatch. repeat (apply (keepsX_bind R); [|intros ?]).
  - apply (keepsX_read R KToken).
  - unfold require. case_bool_decide; [apply (keepsX_ret R)|apply (keepsX_stop R)].
  - apply (keepsX_liftM R); [done|apply SetIpcPrior_frame].
  - destruct (memberFuncMap_ !! code) eqn:Hc; [by apply Hh|apply (keepsX_ret R)].
Qed.

Lemma request_keeps code data :
  (∀ h, memberFuncMap_ !! code = Some h → keepsX R h) → keepsS R (OnRemoteRequest code data).
Proof.
  intros Hh. unfold OnRemoteRequest. apply (keepsS_bind R); [by apply dispatch_keeps|].
  intros [r p]. apply (keepsS_ret R).
Qed.
End dispatch.

(** Reduce a property of every handler to its entries. *)
Ltac each_handler :=
  unfold memberFuncMap_, SetMultiInstanceFuncMap, SetProcessFuncMap, SetAbilityFuncMap;
  repeat match goal with |- context [if SUPPORT_MULTI_INSTANCE then _ else _] => destruct SUPPORT_MULTI_INSTANCE end;
  repeat apply assign_Forall; try apply map_Forall_empty;
  repeat apply Forall_cons_2; try apply Forall_nil_2; cbn [fst snd].
