(* ===== verification/Proxy.v ===== *)
(** [SystemAbilityManagerProxy]
    (frameworks/native/source/system_ability_manager_proxy.cpp): the client's end
    of the interface.  A transaction writes the request to [ip_out], sends it and
    reads the reply from [ip_in]; its early return and its result are what the
    caller gets.  The client's own state is the table of its local SAs
    ([LocalAbilitys]), the set of on-demand ids and the cache of the last query
    ([DynamicCache], interfaces/innerkits/dynamic_cache). *)
From S2P Require Import Prelude Types World Parcel Ffrt Util ManagerBase IpcInterface.

Definition MIN_TIMEOUT : Z := 0.
Definition RETRY_TIME_OUT_NUMBER : nat := 6.
Definition SLEEP_INTERVAL_TIME : Z := 200.
Definition SLEEP_ONE_MILLI_SECOND_TIME : Z := 1000.
Definition GET_SYSTEM_ABILITY_CODE : Z := 1.
Definition CHECK_SYSTEM_ABILITY_CODE : Z := 2.
Definition MAX_TIMEOUT `{E : Env} : Z := if SAMGR_ENABLE_EXTEND_LOAD_TIMEOUT then 12 else 4.

(** The state of a client process. *)
Record Client := MkClient {
  localSAMap_ : gmap Z (option RemoteObject);
  onDemandSystemAbilityIdsSet_ : gset Z;
  localPara_ : gmap string string;
  lastQuerySaId_ : Z;
  lastQuerySaProxy_ : option RemoteObject;
}.
#[export] Instance Client_eta : Eta Client := λ r,
  MkClient (localSAMap_ r) (onDemandSystemAbilityIdsSet_ r) (localPara_ r) (lastQuerySaId_ r) (lastQuerySaProxy_ r).

Section proxy.
Context `{E : Env} `{IE : IpcEnv} `{P : Parcels} {S : Type} `{HS : HasWorld S}.
(** [Remote()] is not null, and the stub at the other end. *)
Context (Remote : bool) (remoteEnd : Z → Parcel → ST S (Z * Parcel)).

(** ** Transactions *)

(** [remote->SendRequest(code, data, reply, option)]: an asynchronous request has
    no reply and its status is only that of the delivery. *)
Definition SendRequest {R} (async : bool) (code : Z) : X (S := S) R Z := λ p,
  tr ← liftW (gets w_trace);
  let err := env_SendRequest tr code in
  if negb (err =? ERR_NONE) then mret (inr err, MkIpc emptyParcel (ip_out p))
  else
    '(status, reply) ← remoteEnd code (ip_out p);
    if async then mret (inr ERR_NONE, MkIpc emptyParcel (ip_out p))
    else mret (inr status, MkIpc reply (ip_out p)).

(** A transaction starts with new parcels. *)
Definition transact {R} (m : X (S := S) R R) : ST S R :=
  '(r, _) ← m (MkIpc emptyParcel emptyParcel); mret (ended r).

Definition writeToken {R} (e : R) : X (S := S) R unit := put KToken SAMANAGER_INTERFACE_TOKEN e.

(** The request is sent, and its error returned. *)
Definition sendOr {R} (code : Z) (e : Z → R) : X (S := S) R unit :=
  err ← SendRequest false code; require (err =? ERR_NONE) (e err).
(** ... and then the result read from the reply. *)
Definition sendResult (code : Z) : X (S := S) Z Z :=
  sendOr code (λ err, err);; get KInt32 ERR_FLATTEN_OBJECT.
Definition sendAsync (code : Z) : X (S := S) Z Z :=
  err ← SendRequest true code; require (err =? ERR_NONE) err;; mret ERR_OK.

(** [CheckSystemAbilityWrapper(code, data, errCode)]: the object and [errCode]. *)
Definition CheckSystemAbilityWrapper (code errCode : Z) : X (S := S) (option RemoteObject * Z) (option RemoteObject * Z) :=
  require Remote (None, errCode);;
  sendOr code (λ err, (None, err));;
  obj ← read KObject;
  mret (obj, errCode).

Definition CheckSystemAbilityTransaction (said : Z) : ST S (option RemoteObject) :=
  r ← transact (
    let e := (None, ERR_NONE) in
    writeToken e;; put KInt32 said e;;
    CheckSystemAbilityWrapper Code.CHECK_SYSTEM_ABILITY_TRANSACTION ERR_NONE);
  mret r.1.

(** [CheckSystemAbility(systemAbilityId, deviceId, errCode)]. *)
Definition CheckSystemAbilityRemote (said : Z) (deviceId : string) (errCode : Z) : ST S (option RemoteObject * Z) :=
  transact (
    let e := (None, errCode) in
    require (CheckInputSysAbilityId said && negb (bool_decide (deviceId = ""))) e;;
    require Remote e;;
    writeToken e;; put KInt32 said e;; put KString deviceId e;;
    CheckSystemAbilityWrapper Code.CHECK_REMOTE_SYSTEM_ABILITY_TRANSACTION errCode).

(** The transaction of [CheckSystemAbility(systemAbilityId, isExist, errCode)]:
    the object, [isExist] and [errCode]. *)
Definition CheckSystemAbilityImmediately (said : Z) (isExist : bool) (errCode : Z) :
    ST S (option RemoteObject * bool * Z) :=
  transact (
    let e := (None, isExist, errCode) in
    require Remote e;;
    writeToken e;; put KInt32 said e;; put KBool isExist e;;
    sendOr Code.CHECK_SYSTEM_ABILITY_IMMEDIATELY_TRANSACTION (λ err, (None, isExist, err));;
    irsp ← get KObject e;
    isExist ← get KBool e;
    mret (Some irsp, isExist, errCode)).

Definition AddOnDemandSystemAbilityInfo (said : Z) (name : u16string) : ST S Z :=
  transact (
    require (CheckInputSysAbilityId said && negb (bool_decide (name = []))) ERR_INVALID_VALUE;;
    require Remote ERR_INVALID_OPERATION;;
    writeToken ERR_FLATTEN_OBJECT;; put KInt32 said ERR_FLATTEN_OBJECT;; put KString16 name ERR_FLATTEN_OBJECT;;
    sendResult Code.ADD_ONDEMAND_SYSTEM_ABILITY_TRANSACTION).

Definition RemoveSystemAbilityWrapper (code : Z) : X (S := S) Z Z :=
  require Remote ERR_INVALID_OPERATION;; sendResult code.
Definition AddSystemAbilityWrapper (code : Z) : X (S := S) Z Z :=
  require Remote ERR_INVALID_OPERATION;; sendResult code.

(** The transaction of [RemoveSystemAbility]. *)
Definition RemoveSystemAbilityTransaction (said : Z) : ST S Z :=
  transact (
    require (CheckInputSysAbilityId said) ERR_INVALID_VALUE;;
    writeToken ERR_FLATTEN_OBJECT;; put KInt32 said ERR_FLATTEN_OBJECT;;
    RemoveSystemAbilityWrapper Code.REMOVE_SYSTEM_ABILITY_TRANSACTION).

Definition ListSystemAbilities (flags : Z) : ST S (list u16string) :=
  transact (
    require Remote [];;
    writeToken [];; put KInt32 flags [];;
    sendOr Code.LIST_SYSTEM_ABILITY_TRANSACTION (λ _, []);;
    r ← read KInt32;
    require (default 0 r =? ERR_NONE) [];;
    get KString16Vector []).

(** [SubscribeSystemAbility] and [SubscribeSystemAbilityInImage] differ in an option of the message. *)
Definition SubscribeSystemAbilityInner (said : Z) (listener : option StatusChange) : ST S Z :=
  transact (
    require (CheckInputSysAbilityId said && bool_decide (is_Some listener)) ERR_INVALID_VALUE;;
    require Remote ERR_INVALID_OPERATION;;
    writeToken ERR_FLATTEN_OBJECT;; put KInt32 said ERR_FLATTEN_OBJECT;;
    putObject (sc_AsObject <$> listener) ERR_FLATTEN_OBJECT;;
    sendResult Code.SUBSCRIBE_SYSTEM_ABILITY_TRANSACTION).

Definition UnSubscribeSystemAbility (said : Z) (listener : option StatusChange) : ST S Z :=
  transact (
    require (CheckInputSysAbilityId said && bool_decide (is_Some listener)) ERR_INVALID_VALUE;;
    require Remote ERR_INVALID_OPERATION;;
    writeToken ERR_FLATTEN_OBJECT;; put KInt32 said ERR_FLATTEN_OBJECT;;
    putObject (sc_AsObject <$> listener) ERR_FLATTEN_OBJECT;;
    sendResult Code.UNSUBSCRIBE_SYSTEM_ABILITY_TRANSACTION).

Definition LoadSystemAbility (said : Z) (callback : option LoadCallback) : ST S Z :=
  transact (
    require (CheckInputSysAbilityId said && bool_decide (is_Some callback)) ERR_INVALID_VALUE;;
    require Remote ERR_INVALID_OPERATION;;
    writeToken ERR_FLATTEN_OBJECT;; put KInt32 said ERR_FLATTEN_OBJECT;;
    putObject (cb_AsObject <$> callback) ERR_FLATTEN_OBJECT;;
    sendResult Code.LOAD_SYSTEM_ABILITY_TRANSACTION).

Definition LoadSystemAbilityRemote (said : Z) (deviceId : string) (callback : option LoadCallback) : ST S Z :=
  transact (
    require (CheckInputSysAbilityId said && negb (bool_decide (deviceId = "")) && bool_decide (is_Some callback))
      ERR_INVALID_VALUE;;
    require Remote ERR_INVALID_OPERATION;;
    writeToken ERR_FLATTEN_OBJECT;; put KInt32 said ERR_FLATTEN_OBJECT;; put KString deviceId ERR_FLATTEN_OBJECT;;
    putObject (cb_AsObject <$> callback) ERR_FLATTEN_OBJECT;;
    sendResult Code.LOAD_REMOTE_SYSTEM_ABILITY_TRANSACTION).

Definition UnloadSystemAbility (said : Z) : ST S Z :=
  transact (
    require (CheckInputSysAbilityId said) ERR_INVALID_VALUE;;
    require Remote ERR_INVALID_OPERATION;;
    writeToken ERR_FLATTEN_OBJECT;; put KInt32 said ERR_FLATTEN_OBJECT;;
    sendResult Code.UNLOAD_SYSTEM_ABILITY_TRANSACTION).

Definition CancelUnloadSystemAbility (said : Z) : ST S Z :=
  transact (
    require (CheckInputSysAbilityId said) ERR_INVALID_VALUE;;
    require Remote ERR_INVALID_OPERATION;;
    writeToken ERR_FLATTEN_OBJECT;; put KInt32 said ERR_FLATTEN_OBJECT;;
    sendResult Code.CANCEL_UNLOAD_SYSTEM_ABILITY_TRANSACTION).

Definition UnloadAllIdleSystemAbility : ST S Z :=
  transact (
    require Remote ERR_INVALID_OPERATION;;
    writeToken ERR_FLATTEN_OBJECT;;
    sendAsync Code.UNLOAD_ALL_IDLE_SYSTEM_ABILITY_TRANSACTION).

Definition UnloadProcess (processList : list u16string) : ST S Z :=
  transact (
    require Remote ERR_INVALID_OPERATION;;
    writeToken ERR_FLATTEN_OBJECT;; put KString16Vector processList ERR_FLATTEN_OBJECT;;
    sendAsync Code.UNLOAD_IDLE_PROCESS_BYLIST).

(** Reads [size] elements after the check of the size; [procInfos] is cleared first. *)
Definition ReadIdleProcessInfoFromParcel : X (S := S) (Z * list IdleProcessInfo) (Z * list IdleProcessInfo) :=
  let e := (ERR_FLATTEN_OBJECT, []) in
  size ← get KInt32 e;
  if size =? 0 then mret (ERR_OK, [])
  else
    checkSize size e;;
    infos ← times (Z.to_nat size) (
      pid ← get KInt32 e; name ← get KString16 e; t ← get KInt64 e; mret (MkIdleProcessInfo pid name t));
    mret (ERR_OK, infos).

Definition GetLruIdleSystemAbilityProc : ST S (Z * list IdleProcessInfo) :=
  transact (
    let e := (ERR_FLATTEN_OBJECT, []) in
    require Remote (ERR_INVALID_OPERATION, []);;
    writeToken e;;
    sendOr Code.GET_LRU_IDLE_SYSTEM_ABILITY_PROCESS_TRANSACTION (λ err, (err, []));;
    result ← get KInt32 e;
    require (result =? ERR_OK) (result, []);;
    ReadIdleProcessInfoFromParcel).

Definition OnStartSystemAbilityFail (said errCode : Z) : ST S Z :=
  transact (
    require (CheckInputSysAbilityId said) ERR_INVALID_VALUE;;
    require Remote ERR_INVALID_OPERATION;;
    writeToken ERR_FLATTEN_OBJECT;; put KInt32 said ERR_FLATTEN_OBJECT;; put KInt32 errCode ERR_FLATTEN_OBJECT;;
    sendResult Code.ONSTART_SYSTEM_ABILITY_FAIL_TRANSACTION).

Definition MarshalSAExtraProp (p : SAExtraProp) : X (S := S) Z unit :=
  put KBool (isDistributed p) ERR_FLATTEN_OBJECT;;
  put KInt32 (dumpFlags p) ERR_FLATTEN_OBJECT;;
  put KString16 (capability p) ERR_FLATTEN_OBJECT;;
  put KString16 (permission p) ERR_FLATTEN_OBJECT.

(** The transaction of [AddSystemAbility]. *)
Definition AddSystemAbilityTransaction (said : Z) (ability : option RemoteObject) (p : SAExtraProp) : ST S Z :=
  transact (
    require (CheckInputSysAbilityId said) ERR_INVALID_VALUE;;
    writeToken ERR_FLATTEN_OBJECT;; put KInt32 said ERR_FLATTEN_OBJECT;; putObject ability ERR_FLATTEN_OBJECT;;
    MarshalSAExtraProp p;;
    AddSystemAbilityWrapper Code.ADD_SYSTEM_ABILITY_TRANSACTION).

Definition AddSystemProcess (procName : u16string) (procObject : option RemoteObject) : ST S Z :=
  transact (
    require (negb (bool_decide (procName = []))) ERR_INVALID_VALUE;;
    writeToken ERR_FLATTEN_OBJECT;; put KString16 procName ERR_FLATTEN_OBJECT;; putObject procObject ERR_FLATTEN_OBJECT;;
    AddSystemAbilityWrapper Code.ADD_SYSTEM_PROCESS_TRANSACTION).

(** [ReadProcessInfoFromParcel]; on an error the caller's struct is as given. *)
Definition ReadProcessInfoFromParcel {R} (e : R) : X (S := S) R SystemProcessInfo :=
  name ← get KString e; pid ← get KInt32 e; uid ← get KInt32 e; mret (MkSystemProcessInfo name pid uid).

Definition GetSystemProcessInfo (said : Z) (out : SystemProcessInfo) : ST S (Z * SystemProcessInfo) :=
  transact (
    let e := (ERR_FLATTEN_OBJECT, out) in
    require Remote (ERR_INVALID_OPERATION, out);;
    writeToken e;; put KInt32 said e;;
    sendOr Code.GET_SYSTEM_PROCESS_INFO_TRANSACTION (λ err, (err, out));;
    result ← get KInt32 e;
    require (result =? ERR_OK) (result, out);;
    info ← ReadProcessInfoFromParcel e;
    mret (ERR_OK, info)).

Definition ReadSystemProcessFromParcel : X (S := S) (Z * list SystemProcessInfo) (Z * list SystemProcessInfo) :=
  let e := (ERR_FLATTEN_OBJECT, []) in
  size ← get KInt32 e;
  if size =? 0 then mret (ERR_OK, [])
  else
    checkSize size e;;
    infos ← times (Z.to_nat size) (ReadProcessInfoFromParcel e);
    mret (ERR_OK, infos).

Definition GetRunningSystemProcess : ST S (Z * list SystemProcessInfo) :=
  transact (
    let e := (ERR_FLATTEN_OBJECT, []) in
    require Remote (ERR_INVALID_OPERATION, []);;
    writeToken e;;
    sendOr Code.GET_RUNNING_SYSTEM_PROCESS_TRANSACTION (λ err, (err, []));;
    result ← get KInt32 e;
    require (result =? ERR_OK) (result, []);;
    ReadSystemProcessFromParcel).

(** The four subscriptions to processes differ in the code they send. *)
Definition processListenerCall (code : Z) (listener : option ProcessStatusChange) : ST S Z :=
  transact (
    require (bool_decide (is_Some listener)) ERR_INVALID_VALUE;;
    require Remote ERR_INVALID_OPERATION;;
    writeToken ERR_FLATTEN_OBJECT;;
    putObject (listener ≫= psc_AsObject) ERR_FLATTEN_OBJECT;;
    sendResult code).
Definition SubscribeSystemProcess := processListenerCall Code.SUBSCRIBE_SYSTEM_PROCESS_TRANSACTION.
Definition UnSubscribeSystemProcess := processListenerCall Code.UNSUBSCRIBE_SYSTEM_PROCESS_TRANSACTION.
Definition SubscribeLowMemSystemProcess := processListenerCall Code.SUBSCRIBE_LOWMEM_SYSTEM_PROCESS_TRANSACTION.
Definition UnSubscribeLowMemSystemProcess := processListenerCall Code.UNSUBSCRIBE_LOWMEM_SYSTEM_PROCESS_TRANSACTION.

(** The reply itself is the caller's parcel: what is left of it is the data. *)
Definition GetOnDemandReasonExtraData (extraDataId : Z) : ST S (Z * Parcel) :=
  '(r, p) ← (
    require Remote ERR_INVALID_OPERATION;;
    writeToken ERR_FLATTEN_OBJECT;; put KInt64 extraDataId ERR_FLATTEN_OBJECT;;
    sendResult Code.GET_ONDEMAND_REASON_EXTRA_DATA_TRANSACTION) (MkIpc emptyParcel emptyParcel);
  mret (ended r, ip_in p).

Definition GetOnDemandPolicy (said type : Z) : ST S (Z * list SystemAbilityOnDemandEvent) :=
  transact (
    let e := (ERR_FLATTEN_OBJECT, []) in
    require Remote (ERR_INVALID_OPERATION, []);;
    writeToken e;; put KInt32 said e;; put KInt32 type e;;
    sendOr Code.GET_ONDEAMND_POLICY_TRANSACTION (λ err, (err, []));;
    result ← get KInt32 e;
    require (result =? ERR_OK) (result, []);;
    events ← ReadOnDemandEventsFromParcel e;
    mret (ERR_OK, events)).

Definition GetOnDemandSystemAbilityIds : ST S (Z * list Z) :=
  transact (
    let e := (ERR_FLATTEN_OBJECT, []) in
    require Remote (ERR_INVALID_OPERATION, []);;
    writeToken e;;
    sendOr Code.GET_ONDEMAND_SYSTEM_ABILITY_IDS_TRANSACTION (λ err, (err, []));;
    result ← get KInt32 e;
    require (result =? ERR_OK) (result, []);;
    ids ← get KInt32Vector e;
    mret (ERR_OK, ids)).

Definition UpdateOnDemandPolicy (said type : Z) (events : list SystemAbilityOnDemandEvent) : ST S Z :=
  transact (
    require Remote ERR_INVALID_OPERATION;;
    writeToken ERR_FLATTEN_OBJECT;; put KInt32 said ERR_FLATTEN_OBJECT;; put KInt32 type ERR_FLATTEN_OBJECT;;
    WriteOnDemandEventsToParcel events ERR_FLATTEN_OBJECT;;
    sendResult Code.UPDATE_ONDEAMND_POLICY_TRANSACTION).

Definition SendStrategy (type : Z) (ids : list Z) (level : Z) (action : string) : ST S Z :=
  transact (
    require Remote ERR_INVALID_OPERATION;;
    writeToken ERR_FLATTEN_OBJECT;; put KInt32 type ERR_FLATTEN_OBJECT;; put KInt32Vector ids ERR_FLATTEN_OBJECT;;
    put KInt32 level ERR_FLATTEN_OBJECT;; put KString action ERR_FLATTEN_OBJECT;;
    sendResult Code.SEND_STRATEGY_TRANASACTION).

(** [ListExtensionSendReq]; its result is returned when not [ERR_OK]. *)
Definition ListExtensionSendReq {A} (extension : string) (cmd : Z) : X (S := S) (Z * list A) unit :=
  let e := (ERR_FLATTEN_OBJECT, []) in
  require Remote (ERR_INVALID_OPERATION, []);;
  writeToken e;; put KString extension e;;
  sendOr cmd (λ err, (err, []));;
  result ← get KInt32 e;
  require (result =? ERR_OK) (result, []).

Definition GetExtensionSaIds (extension : string) : ST S (Z * list Z) :=
  transact (
    ListExtensionSendReq extension Code.GET_EXTENSION_SA_IDS_TRANSCATION;;
    ids ← get KInt32Vector (ERR_FLATTEN_OBJECT, []);
    mret (ERR_OK, ids)).

(** The list at the end of the two replies below; its size is compared with the largest SA id. *)
Definition readBounded {A} (f : X (S := S) (Z * list A) A) : X (S := S) (Z * list A) (Z * list A) :=
  let e := (ERR_FLATTEN_OBJECT, []) in
  size ← get KInt32 e;
  require (negb (LAST_SYS_ABILITY_ID <? size)) e;;
  l ← times (Z.to_nat size) f;
  mret (ERR_OK, l).

Definition GetExtensionRunningSaList (extension : string) : ST S (Z * list RemoteObject) :=
  transact (
    let e := (ERR_FLATTEN_OBJECT, []) in
    ListExtensionSendReq extension Code.GET_EXTERNSION_SA_LIST_TRANSCATION;;
    readBounded (get KObject e)).

Definition GetRunningSaExtensionInfoList (extension : string) : ST S (Z * list (Z * RemoteObject)) :=
  transact (
    let e := (ERR_FLATTEN_OBJECT, []) in
    ListExtensionSendReq extension Code.GET_SA_EXTENSION_INFO_TRANSCATION;;
    readBounded (said ← get KInt32 e; o ← get KObject e; mret (said, o))).

Definition GetCommonEventExtraDataIdlist (said : Z) (eventName : string) : ST S (Z * list Z) :=
  transact (
    let e := (ERR_FLATTEN_OBJECT, []) in
    require Remote (ERR_INVALID_OPERATION, []);;
    writeToken e;; put KInt32 said e;; put KString eventName e;;
    sendOr Code.GET_COMMON_EVENT_EXTRA_ID_LIST_TRANSCATION (λ err, (err, []));;
    result ← get KInt32 e;
    require (result =? ERR_OK) (result, []);;
    ids ← get KInt64Vector e;
    mret (ERR_OK, ids)).

Definition GetLocalAbilityManagerProxy (said : Z) : ST S (option RemoteObject) :=
  transact (
    require (CheckInputSysAbilityId said) None;;
    writeToken None;; put KInt32 said None;;
    require Remote None;;
    sendOr Code.GET_LOCAL_ABILITY_MANAGER_PROXY_TRANSCATION (λ _, None);;
    read KObject).

Definition SetSamgrIpcPrior (enable : bool) : ST S Z :=
  transact (
    require Remote ERR_INVALID_OPERATION;;
    writeToken ERR_FLATTEN_OBJECT;; put KBool enable ERR_FLATTEN_OBJECT;;
    sendAsync Code.SET_SAMGR_IPC_PRIOR_TRANSACTION).

(** ** Transactions with a user id *)

Definition OnUserStateChanged (userId userState : Z) : ST S Z :=
  if negb SUPPORT_MULTI_INSTANCE then mret ERR_OK
  else transact (
    require Remote ERR_INVALID_OPERATION;;
    writeToken ERR_FLATTEN_OBJECT;; put KInt32 userId ERR_FLATTEN_OBJECT;; put KInt32 userState ERR_FLATTEN_OBJECT;;
    sendAsync Code.ON_USER_STATE_CHANGED_TRANSACTION).

(** [GetSystemAbility], [CheckSystemAbility] and [GetLocalAbilityManagerProxy] of a user differ in the code. *)
Definition objectOfUser (code said userId : Z) : ST S (option RemoteObject) :=
  transact (
    require (CheckInputSysAbilityId said) None;;
    require Remote None;;
    writeToken None;; put KInt32 said None;; put KInt32 userId None;;
    sendOr code (λ _, None);;
    read KObject).
Definition GetSystemAbilityUser := objectOfUser Code.GET_SYSTEM_ABILITY_WITH_USERID_TRANSACTION.
Definition CheckSystemAbilityUser := objectOfUser Code.CHECK_SYSTEM_ABILITY_WITH_USERID_TRANSACTION.
Definition GetLocalAbilityManagerProxyUser := objectOfUser Code.GET_LOCAL_ABILITY_MANAGER_PROXY_WITH_USERID_TRANSACTION.

Definition CheckSystemAbilityByUserId (said : Z) (isExist : bool) (userId : Z) : ST S (option RemoteObject * bool) :=
  transact (
    let e := (None, isExist) in
    require (CheckInputSysAbilityId said) e;;
    require Remote e;;
    writeToken e;; put KInt32 said e;; put KBool isExist e;; put KInt32 userId e;;
    sendOr Code.CHECK_SYSTEM_ABILITY_BY_USERID_TRANSACTION (λ _, e);;
    obj ← get KObject e;
    isExist ← get KBool e;
    mret (Some obj, isExist)).

Definition GetSystemProcessInfoUser (said : Z) (out : SystemProcessInfo) (userId : Z) : ST S (Z * SystemProcessInfo) :=
  transact (
    let e := (ERR_FLATTEN_OBJECT, out) in
    require (CheckInputSysAbilityId said) (ERR_INVALID_VALUE, out);;
    require Remote (ERR_INVALID_OPERATION, out);;
    writeToken e;; put KInt32 said e;; put KInt32 userId e;;
    sendOr Code.GET_SYSTEM_PROCESS_INFO_WITH_USERID_TRANSACTION (λ err, (err, out));;
    result ← get KInt32 e;
    require (result =? ERR_OK) (result, out);;
    info ← ReadProcessInfoFromParcel e;
    mret (ERR_OK, info)).

Definition LoadSystemAbilityUser (said : Z) (callback : option LoadCallback) (userId : Z) : ST S Z :=
  transact (
    require (CheckInputSysAbilityId said && bool_decide (is_Some callback)) ERR_INVALID_VALUE;;
    require Remote ERR_INVALID_OPERATION;;
    writeToken ERR_FLATTEN_OBJECT;; put KInt32 said ERR_FLATTEN_OBJECT;;
    putObject (cb_AsObject <$> callback) ERR_FLATTEN_OBJECT;; put KInt32 userId ERR_FLATTEN_OBJECT;;
    sendResult Code.LOAD_SYSTEM_ABILITY_WITH_USERID_TRANSACTION).

(** [SubscribeSystemAbility] and [UnSubscribeSystemAbility] of a user. *)
Definition listenerOfUser (code said : Z) (listener : option StatusChange) (userId : Z) : ST S Z :=
  transact (
    require (CheckInputSysAbilityId said && bool_decide (is_Some listener)) ERR_INVALID_VALUE;;
    require Remote ERR_INVALID_OPERATION;;
    writeToken ERR_FLATTEN_OBJECT;; put KInt32 said ERR_FLATTEN_OBJECT;;
    putObject (sc_AsObject <$> listener) ERR_FLATTEN_OBJECT;; put KInt32 userId ERR_FLATTEN_OBJECT;;
    sendResult code).
Definition SubscribeSystemAbilityUser := listenerOfUser Code.SUBSCRIBE_SYSTEM_ABILITY_WITH_USERID_TRANSACTION.
Definition UnSubscribeSystemAbilityUser := listenerOfUser Code.UNSUBSCRIBE_SYSTEM_ABILITY_WITH_USERID_TRANSACTION.

(** [SubscribeSystemProcess] and [UnSubscribeSystemProcess] of a user. *)
Definition processListenerOfUser (code : Z) (listener : option ProcessStatusChange) (userId : Z) : ST S Z :=
  transact (
    require (bool_decide (is_Some listener)) ERR_INVALID_VALUE;;
    require Remote ERR_INVALID_OPERATION;;
    writeToken ERR_FLATTEN_OBJECT;;
    putObject (listener ≫= psc_AsObject) ERR_FLATTEN_OBJECT;; put KInt32 userId ERR_FLATTEN_OBJECT;;
    sendResult code).
Definition SubscribeSystemProcessUser := processListenerOfUser Code.SUBSCRIBE_SYSTEM_PROCESS_WITH_USERID_TRANSACTION.
Definition UnSubscribeSystemProcessUser := processListenerOfUser Code.UNSUBSCRIBE_SYSTEM_PROCESS_WITH_USERID_TRANSACTION.

(** ** The client's tables and caches *)

(** An operation of the proxy object: it may change the client's state. *)
Definition CM (A : Type) : Type := Client → ST S (A * Client).
#[local] Instance CM_ret : MRet CM := λ A a c, mret (a, c).
#[local] Instance CM_bind : MBind CM := λ A B k m c, '(a, c') ← m c; k a c'.
Definition liftC {A} (m : ST S A) : CM A := λ c, a ← m; mret (a, c).
Definition getC {A} (f : Client → A) : CM A := λ c, mret (f c, c).
Definition updC (f : Client → Client) : CM unit := λ c, mret (tt, f c).

(** [LocalAbilitys]. *)
Definition AddAbility (said : Z) (ability : option RemoteObject) : CM unit :=
  updC (λ c, c <| localSAMap_ ::= <[said := ability]> |>).
Definition GetAbility (said : Z) : CM (option RemoteObject) :=
  m ← getC localSAMap_; mret (default None (m !! said)).
Definition RemoveAbility (said : Z) : CM unit :=
  updC (λ c, c <| localSAMap_ ::= delete said |>).

Definition AddSystemAbility (said : Z) (ability : option RemoteObject) (p : SAExtraProp) : CM Z :=
  result ← liftC (AddSystemAbilityTransaction said ability p);
  (if result =? ERR_OK then AddAbility said ability else mret tt);;
  mret result.

Definition RemoveSystemAbility (said : Z) : CM Z :=
  result ← liftC (RemoveSystemAbilityTransaction said);
  (if result =? ERR_OK then RemoveAbility said else mret tt);;
  mret result.

(** [CheckSystemAbility(systemAbilityId, isExist, errCode)]. *)
Definition CheckSystemAbilityExist (said : Z) (isExist : bool) (errCode : Z) : CM (option RemoteObject * bool * Z) :=
  if negb (CheckInputSysAbilityId said) then mret (None, isExist, errCode)
  else
    proxy ← GetAbility said;
    match proxy with
    | Some o => mret (Some o, true, errCode)
    | None => liftC (CheckSystemAbilityImmediately said isExist errCode)
    end.

(** The loop of [GetSystemAbilityWrapper]: [timeout] counts down to 0. *)
Fixpoint GetSystemAbilityLoop (timeout : nat) (said : Z) (deviceId : string) (isExist : bool) : CM (option RemoteObject) :=
  '(svc, isExist, errCode) ← (
    if bool_decide (deviceId = "") then CheckSystemAbilityExist said isExist ERR_NONE
    else '(o, errCode) ← liftC (CheckSystemAbilityRemote said deviceId ERR_NONE); mret (o, isExist, errCode));
  if errCode =? ERR_PERMISSION_DENIED then mret None
  else
    match svc, timeout with
    | Some o, _ => mret (Some o)
    | None, O => mret None
    | None, Datatypes.S n =>
        liftC (liftW (emit (EvUsleep (SLEEP_ONE_MILLI_SECOND_TIME * SLEEP_INTERVAL_TIME))));;
        GetSystemAbilityLoop n said deviceId isExist
    end.

Definition GetSystemAbilityWrapper (said : Z) (deviceId : string) : CM (option RemoteObject) :=
  if negb (CheckInputSysAbilityId said) then mret None
  else GetSystemAbilityLoop RETRY_TIME_OUT_NUMBER said deviceId false.

Definition GetSystemAbilityRemote (said : Z) (deviceId : string) : CM (option RemoteObject) :=
  GetSystemAbilityWrapper said deviceId.

Definition IsOnDemandSystemAbility (said : Z) : CM bool :=
  ids ← getC onDemandSystemAbilityIdsSet_;
  if negb (bool_decide (ids = ∅)) then mret (bool_decide (said ∈ ids))
  else
    '(_, l) ← liftC GetOnDemandSystemAbilityIds;
    updC (λ c, c <| onDemandSystemAbilityIdsSet_ ::= λ s, list_to_set l ∪ s |>);;
    ids ← getC onDemandSystemAbilityIdsSet_;
    mret (bool_decide (said ∈ ids)).

(** [DynamicCache]. *)
Definition cacheKey : string := "samgr.cache.sa".
Definition ClearCache : CM unit :=
  last ← getC lastQuerySaProxy_;
  match last with Some o => liftC (liftW (emit (EvCacheDeath false o))) | None => mret tt end;;
  updC (λ c, c <| lastQuerySaId_ := -1 |> <| lastQuerySaProxy_ := None |>).

Definition CanUseCache (querySaId : Z) (waterLine defaultValue : string) : CM bool :=
  c ← getC (λ c, c);
  tr ← liftC (liftW (gets w_trace));
  mret (bool_decide (is_Some (localPara_ c !! cacheKey)) && (lastQuerySaId_ c =? querySaId)
    && negb (bool_decide (defaultValue = waterLine)) && bool_decide (localPara_ c !! cacheKey = Some waterLine)
    && match lastQuerySaProxy_ c with Some o => negb (env_IsObjectDead tr o) | None => false end).

Definition Recompute (said code : Z) : CM (option RemoteObject) :=
  ClearCache;;
  if code =? GET_SYSTEM_ABILITY_CODE then GetSystemAbilityWrapper said ""
  else liftC (CheckSystemAbilityTransaction said).

Definition QueryResult (querySaId code : Z) : CM (option RemoteObject) :=
  tr ← liftC (liftW (gets w_trace));
  let waterLine := env_GetParameter tr cacheKey "default" in
  hit ← CanUseCache querySaId waterLine "default";
  if (hit : bool) then getC lastQuerySaProxy_
  else
    res ← Recompute querySaId code;
    match res with
    | None => mret None
    | Some o =>
        updC (λ c, c <| localPara_ ::= <[cacheKey := waterLine]> |>);;
        last ← getC lastQuerySaProxy_;
        match last with Some o' => liftC (liftW (emit (EvCacheDeath false o'))) | None => mret tt end;;
        updC (λ c, c <| lastQuerySaId_ := querySaId |> <| lastQuerySaProxy_ := Some o |>);;
        liftC (liftW (emit (EvCacheDeath true o)));;
        mret (Some o)
    end.

Definition GetSystemAbility (said : Z) : CM (option RemoteObject) :=
  onDemand ← IsOnDemandSystemAbility said;
  if (onDemand : bool) then GetSystemAbilityWrapper said ""
  else QueryResult said GET_SYSTEM_ABILITY_CODE.

Definition CheckSystemAbility (said : Z) : CM (option RemoteObject) :=
  if negb (CheckInputSysAbilityId said) then mret None
  else
    onDemand ← IsOnDemandSystemAbility said;
    if (onDemand : bool) then liftC (CheckSystemAbilityTransaction said)
    else QueryResult said CHECK_SYSTEM_ABILITY_CODE.

(** [LoadSystemAbility(systemAbilityId, timeout)]: a callback of its own, then the
    wait on its condition variable for the clamped time. *)
Definition clampTimeout (timeout : Z) : Z :=
  if timeout <? MIN_TIMEOUT then MIN_TIMEOUT else if MAX_TIMEOUT <? timeout then MAX_TIMEOUT else timeout.

Definition waitLoaded (load : option LoadCallback → ST S Z) (timeout : Z) : ST S (option RemoteObject) :=
  callback ← liftW (ask env_newCallback EvNewCallback);
  ret ← load (Some callback);
  if negb (ret =? ERR_OK) then mret None
  else liftW (ask env_waitLoaded (EvWaitLoaded (clampTimeout timeout))).

Definition LoadSystemAbilityTimeout (said timeout : Z) : ST S (option RemoteObject) :=
  waitLoaded (LoadSystemAbility said) timeout.
Definition LoadSystemAbilityTimeoutUser (said timeout userId : Z) : ST S (option RemoteObject) :=
  waitLoaded (λ cb, LoadSystemAbilityUser said cb userId) timeout.
End proxy.
