(* ===== verification/Notices.v ===== *)
(** Notices from the service to its clients: the proxies of load callbacks, SA
    listeners and process listeners
    (services/samgr/native/source/system_ability_load_callback_proxy.cpp,
    system_ability_status_change_proxy.cpp, system_process_status_change_proxy.cpp) and
    the stubs that receive them (frameworks/native/source/
    system_ability_load_callback_stub.cpp, system_ability_status_change_stub.cpp,
    system_process_status_change_stub.cpp). *)
From S2P Require Import Prelude Types World Parcel Ffrt Util ManagerBase IpcInterface Proxy.

(** ** The interfaces of the objects that are notified *)

Class ISystemAbilityLoadCallback (S : Type) := {
  cOnLoadSystemAbilitySuccess : Z → option RemoteObject → ST S unit;
  cOnLoadSystemAbilityFail : Z → ST S unit;
  cOnLoadSystemAbilityFailWithCode : Z → Z → ST S unit;
  cOnLoadSACompleteForRemote : string → Z → option RemoteObject → ST S unit;
}.
Class ISystemAbilityStatusChange (S : Type) := {
  cOnAddSystemAbility : Z → string → ST S unit;
  cOnRemoveSystemAbility : Z → string → ST S unit;
}.
Class ISystemProcessStatusChange (S : Type) := {
  cOnSystemProcessStarted : SystemProcessInfo → ST S unit;
  cOnSystemProcessStopped : SystemProcessInfo → ST S unit;
  cOnSystemProcessActivated : SystemProcessInfo → ST S unit;
  cOnSystemProcessIdled : SystemProcessInfo → ST S unit;
}.

Definition ON_LOAD_SYSTEM_ABILITY_SUCCESS : Z := 1.
Definition ON_LOAD_SYSTEM_ABILITY_FAIL : Z := 2.
Definition ON_LOAD_SYSTEM_ABILITY_COMPLETE_FOR_REMOTE : Z := 3.
Definition ON_LOAD_SYSTEM_ABILITY_FAIL_WITH_CODE : Z := 4.
Definition ON_ADD_SYSTEM_ABILITY : Z := 1.
Definition ON_REMOVE_SYSTEM_ABILITY : Z := 2.
Definition ON_SYSTEM_PROCESS_STARTED : Z := 1.
Definition ON_SYSTEM_PROCESS_STOPPED : Z := 2.
Definition ON_SYSTEM_PROCESS_ACTIVATED : Z := 3.
Definition ON_SYSTEM_PROCESS_IDLED : Z := 4.

(** A string literal of 16-bit characters. *)
Definition u16 (s : string) : u16string := (λ c, Z.of_N (Ascii.N_of_ascii c)) <$> String.list_ascii_of_string s.
Definition LOAD_CALLBACK_DESCRIPTOR : u16string := u16 "OHOS.ISystemAbilityLoadCallback".
Definition STATUS_CHANGE_DESCRIPTOR : u16string := u16 "OHOS.ISystemAbilityStatusChange".
Definition PROCESS_STATUS_CHANGE_DESCRIPTOR : u16string := u16 "OHOS.ISystemProcessStatusChange".

(** ** The proxies *)

Section proxies.
Context `{E : Env} `{IE : IpcEnv} `{P : Parcels} {S : Type} `{HS : HasWorld S}.
Context (Remote : bool) (remoteEnd : Z → Parcel → ST S (Z * Parcel)).

(** An asynchronous request; a failure is only logged, or returned. *)
Definition sendNotice {R} (code : Z) (fail ok : R) : X (S := S) R R :=
  status ← SendRequest remoteEnd true code; require (status =? ERR_NONE) fail;; mret ok.

(** *** SystemAbilityLoadCallbackProxy *)

Definition OnLoadSystemAbilitySuccess (said : Z) (remoteObject : option RemoteObject) : ST S unit :=
  transact (
    require (negb (said <=? 0)) tt;;
    require Remote tt;;
    put KToken LOAD_CALLBACK_DESCRIPTOR tt;; put KInt32 said tt;;
    putObject remoteObject tt;;
    sendNotice ON_LOAD_SYSTEM_ABILITY_SUCCESS tt tt).

Definition OnLoadSystemAbilityFail (said : Z) : ST S unit :=
  transact (
    require (negb (said <=? 0)) tt;;
    require Remote tt;;
    put KToken LOAD_CALLBACK_DESCRIPTOR tt;; put KInt32 said tt;;
    sendNotice ON_LOAD_SYSTEM_ABILITY_FAIL tt tt).

Definition OnLoadSystemAbilityFailWithCode (said errCode : Z) : ST S unit :=
  transact (
    require (negb (said <=? 0)) tt;;
    require Remote tt;;
    put KToken LOAD_CALLBACK_DESCRIPTOR tt;; put KInt32 said tt;; put KInt32 errCode tt;;
    sendNotice ON_LOAD_SYSTEM_ABILITY_FAIL_WITH_CODE tt tt).

Definition OnLoadSACompleteForRemote (deviceId : string) (said : Z) (remoteObject : option RemoteObject) : ST S unit :=
  transact (
    require (negb (said <=? 0)) tt;;
    require Remote tt;;
    put KToken LOAD_CALLBACK_DESCRIPTOR tt;; put KString deviceId tt;; put KInt32 said tt;;
    match remoteObject with
    | None => put KBool false tt
    | Some o => _ ← write KBool true; put KObject o tt
    end;;
    sendNotice ON_LOAD_SYSTEM_ABILITY_COMPLETE_FOR_REMOTE tt tt).

(** *** SystemAbilityStatusChangeProxy *)

Definition StatusSendRequestInner (code said : Z) (deviceId : string) : ST S bool :=
  transact (
    require (negb (said <=? 0)) false;;
    require Remote false;;
    put KToken STATUS_CHANGE_DESCRIPTOR false;; put KInt32 said false;; put KString deviceId false;;
    sendNotice code false true).
Definition OnAddSystemAbility (said : Z) (deviceId : string) : ST S unit :=
  _ ← StatusSendRequestInner ON_ADD_SYSTEM_ABILITY said deviceId; mret tt.
Definition OnRemoveSystemAbility (said : Z) (deviceId : string) : ST S unit :=
  _ ← StatusSendRequestInner ON_REMOVE_SYSTEM_ABILITY said deviceId; mret tt.

(** *** SystemProcessStatusChangeProxy *)

Definition ProcessSendRequestInner (code : Z) (info : SystemProcessInfo) : ST S bool :=
  transact (
    require (negb (bool_decide (spi_processName info = ""))) false;;
    require Remote false;;
    put KToken PROCESS_STATUS_CHANGE_DESCRIPTOR false;;
    put KString (spi_processName info) false;; put KInt32 (spi_pid info) false;; put KInt32 (spi_uid info) false;;
    sendNotice code false true).
Definition OnSystemProcessStarted (info : SystemProcessInfo) : ST S unit :=
  _ ← ProcessSendRequestInner ON_SYSTEM_PROCESS_STARTED info; mret tt.
Definition OnSystemProcessStopped (info : SystemProcessInfo) : ST S unit :=
  _ ← ProcessSendRequestInner ON_SYSTEM_PROCESS_STOPPED info; mret tt.
Definition OnSystemProcessActivated (info : SystemProcessInfo) : ST S unit :=
  _ ← ProcessSendRequestInner ON_SYSTEM_PROCESS_ACTIVATED info; mret tt.
Definition OnSystemProcessIdled (info : SystemProcessInfo) : ST S unit :=
  _ ← ProcessSendRequestInner ON_SYSTEM_PROCESS_IDLED info; mret tt.
End proxies.

(** ** The stubs *)

Section stubs.
Context `{E : Env} `{IE : IpcEnv} `{P : Parcels} {S : Type} `{HS : HasWorld S}.
Abbreviation Handler := (X (S := S) Z Z).

(** [EnforceInterceToken(data)], then the handler of the code; the base class
    answers other codes. *)
Definition enforced (descriptor : u16string) (handler : option Handler) (code : Z) : Handler :=
  token ← read KToken;
  require (bool_decide (token = Some descriptor)) ERR_PERMISSION_DENIED;;
  match handler with Some h => h | None => mret (env_OnRemoteRequest code) end.
Definition received (descriptor : u16string) (table : Z → option Handler) (code : Z) (data : Parcel) : ST S (Z * Parcel) :=
  '(r, p) ← enforced descriptor (table code) code (MkIpc data emptyParcel); mret (ended r, ip_out p).

Definition CheckInputSystemAbilityId (said : Z) : bool := (0 <=? said) && (said <=? LAST_SYS_ABILITY_ID).

(** *** SystemAbilityLoadCallbackStub *)

Context {L : ISystemAbilityLoadCallback S}.

Definition OnLoadSystemAbilitySuccessInner : Handler :=
  said ← get KInt32 ERR_INVALID_VALUE;
  require (CheckInputSystemAbilityId said) ERR_INVALID_VALUE;;
  remoteObject ← read KObject;
  liftS (cOnLoadSystemAbilitySuccess said remoteObject);;
  mret ERR_NONE.

Definition OnLoadSystemAbilityFailInner : Handler :=
  said ← get KInt32 ERR_INVALID_VALUE;
  require (CheckInputSystemAbilityId said) ERR_INVALID_VALUE;;
  liftS (cOnLoadSystemAbilityFail said);;
  mret ERR_NONE.

Definition OnLoadSystemAbilityFailWithCodeInner : Handler :=
  said ← get KInt32 ERR_INVALID_VALUE;
  errCode ← get KInt32 ERR_INVALID_VALUE;
  require (CheckInputSystemAbilityId said) ERR_INVALID_VALUE;;
  liftS (cOnLoadSystemAbilityFailWithCode said errCode);;
  mret ERR_NONE.

Definition OnLoadSACompleteForRemoteInner : Handler :=
  deviceId ← read KString;
  said ← get KInt32 ERR_INVALID_VALUE;
  require (CheckInputSystemAbilityId said) ERR_INVALID_VALUE;;
  ret ← read KBool;
  remoteObject ← (if default false ret then read KObject else mret None);
  liftS (cOnLoadSACompleteForRemote (default "" deviceId) said remoteObject);;
  mret ERR_NONE.

Definition LoadCallbackOnRemoteRequest : Z → Parcel → ST S (Z * Parcel) :=
  received LOAD_CALLBACK_DESCRIPTOR (λ code,
    if code =? ON_LOAD_SYSTEM_ABILITY_SUCCESS then Some OnLoadSystemAbilitySuccessInner
    else if code =? ON_LOAD_SYSTEM_ABILITY_FAIL then Some OnLoadSystemAbilityFailInner
    else if code =? ON_LOAD_SYSTEM_ABILITY_COMPLETE_FOR_REMOTE then Some OnLoadSACompleteForRemoteInner
    else if code =? ON_LOAD_SYSTEM_ABILITY_FAIL_WITH_CODE then Some OnLoadSystemAbilityFailWithCodeInner
    else None).

(** *** SystemAbilityStatusChangeStub *)

Context {C : ISystemAbilityStatusChange S}.

Definition OnAddSystemAbilityInner : Handler :=
  said ← get KInt32 ERR_NULL_OBJECT;
  require (CheckInputSystemAbilityId said) ERR_NULL_OBJECT;;
  deviceId ← read KString;
  liftS (cOnAddSystemAbility said (default "" deviceId));;
  mret ERR_NONE.

Definition OnRemoveSystemAbilityInner : Handler :=
  said ← get KInt32 ERR_NULL_OBJECT;
  require (CheckInputSystemAbilityId said) ERR_NULL_OBJECT;;
  deviceId ← read KString;
  liftS (cOnRemoveSystemAbility said (default "" deviceId));;
  mret ERR_NONE.

Definition StatusChangeOnRemoteRequest : Z → Parcel → ST S (Z * Parcel) :=
  received STATUS_CHANGE_DESCRIPTOR (λ code,
    if code =? ON_ADD_SYSTEM_ABILITY then Some OnAddSystemAbilityInner
    else if code =? ON_REMOVE_SYSTEM_ABILITY then Some OnRemoveSystemAbilityInner
    else None).

(** *** SystemProcessStatusChangeStub *)

Context {PC : ISystemProcessStatusChange S}.

Definition ReadProcessInfo (e : Z) : X (S := S) Z SystemProcessInfo :=
  name ← get KString e; pid ← get KInt32 e; uid ← get KInt32 e; mret (MkSystemProcessInfo name pid uid).

Definition OnSystemProcessStartedInner : Handler :=
  info ← ReadProcessInfo ERR_NULL_OBJECT; liftS (cOnSystemProcessStarted info);; mret ERR_NONE.
Definition OnSystemProcessStoppedInner : Handler :=
  info ← ReadProcessInfo ERR_NULL_OBJECT; liftS (cOnSystemProcessStopped info);; mret ERR_NONE.
Definition OnSystemProcessActivatedInner : Handler :=
  info ← ReadProcessInfo ERR_NULL_OBJECT; liftS (cOnSystemProcessActivated info);; mret ERR_NONE.
Definition OnSystemProcessIdledInner : Handler :=
  info ← ReadProcessInfo ERR_NULL_OBJECT; liftS (cOnSystemProcessIdled info);; mret ERR_NONE.

Definition ProcessStatusChangeOnRemoteRequest : Z → Parcel → ST S (Z * Parcel) :=
  received PROCESS_STATUS_CHANGE_DESCRIPTOR (λ code,
    if code =? ON_SYSTEM_PROCESS_STARTED then Some OnSystemProcessStartedInner
    else if code =? ON_SYSTEM_PROCESS_STOPPED then Some OnSystemProcessStoppedInner
    else if code =? ON_SYSTEM_PROCESS_ACTIVATED then Some OnSystemProcessActivatedInner
    else if code =? ON_SYSTEM_PROCESS_IDLED then Some OnSystemProcessIdledInner
    else None).
End stubs.
