(* ===== verification/IpcLaws.v ===== *)
(** Symbolic execution of IPC programs: how a program of [X] runs when what is
    unread in its parcels is known.  Both ends of a call are executed with these
    lemmas in IpcSpec.v. *)
From S2P Require Import Prelude Types World Parcel Ffrt Util ManagerBase IpcInterface Stub Proxy.

(** ** Options *)

Lemma isSome_Some {A} (a : A) : bool_decide (is_Some (Some a)) = true.
Proof. by apply bool_decide_eq_true_2. Qed.
Lemma isSome_None {A} : bool_decide (is_Some (None : option A)) = false.
Proof. by apply bool_decide_eq_false_2, is_Some_None. Qed.
Lemma fmap_Some_run {A B} (f : A → B) a : f <$> Some a = Some (f a).
Proof. reflexivity. Qed.
Lemma bind_Some_run {A B} (f : A → option B) a : Some a ≫= f = f a.
Proof. reflexivity. Qed.
Lemma bind_None_run {A B} (f : A → option B) : None ≫= f = None.
Proof. reflexivity. Qed.

(** ** Programs that need no parcel laws *)

Section run.
Context `{P : Parcels} {S : Type} `{HS : HasWorld S}.

Ltac unX := unfold mbind, X_bind, mret, X_ret, mbind, ST_bind, mret, ST_ret; simpl.

Lemma ST_bind_eq {A B} (m : ST S A) (f : A → ST S B) s : (m ≫= f) s = let '(a, s') := m s in f a s'.
Proof. reflexivity. Qed.

Lemma X_bind_eq {R A B} (m : X (S := S) R A) (f : A → X R B) p s :
  (m ≫= f) p s = let '(r, p', s') := m p s in match r with inl e => (inl e, p', s') | inr a => f a p' s' end.
Proof. unX. by destruct (m p s) as [[[] ?] ?]. Qed.

Lemma X_bind_assoc {R A B C} (m : X (S := S) R A) (f : A → X R B) (g : B → X R C) p s :
  ((m ≫= f) ≫= g) p s = (m ≫= (λ a, f a ≫= g)) p s.
Proof. rewrite !X_bind_eq. destruct (m p s) as [[[?|?] ?] ?]; [done|]. by rewrite X_bind_eq. Qed.

Lemma X_ret_run {R A} (a : A) p s : (mret a : X (S := S) R A) p s = (inr a, p, s).
Proof. reflexivity. Qed.
Lemma ST_ret_run {A} (a : A) (s : S) : (mret a : ST S A) s = (a, s).
Proof. reflexivity. Qed.
Lemma bind_ret {R A B} (a : A) (f : A → X (S := S) R B) p s : (mret a ≫= f) p s = f a p s.
Proof. reflexivity. Qed.
Lemma bind_stop {R A B} (e : R) (f : A → X (S := S) R B) p s : (stop e ≫= f) p s = (inl e, p, s).
Proof. reflexivity. Qed.
Lemma stop_run {R A} (e : R) p s : (stop e : X (S := S) R A) p s = (inl e, p, s).
Proof. reflexivity. Qed.
Lemma bind_require {R A} (b : bool) (e : R) (f : unit → X (S := S) R A) p s :
  (require b e ≫= f) p s = if b then f tt p s else (inl e, p, s).
Proof. by destruct b. Qed.
Lemma bind_liftS {R A B} (m : ST S A) (f : A → X (S := S) R B) p s :
  (liftS m ≫= f) p s = let '(a, s') := m s in f a p s'.
Proof. unfold liftS. unX. by destruct (m s). Qed.
Lemma bind_liftM {R A B} (m : M A) (f : A → X (S := S) R B) p s :
  (liftM m ≫= f) p s = let '(a, s') := liftW m s in f a p s'.
Proof. apply bind_liftS. Qed.
Lemma bind_readable {R A} (f : Z → X (S := S) R A) p s : (readableBytes ≫= f) p s = f (GetReadableBytes (ip_in p)) p s.
Proof. reflexivity. Qed.
Lemma bind_check {R A} (b : M bool) (e : R) (f : unit → X (S := S) R A) p s :
  (check b e ≫= f) p s = let '(r, s') := liftW b s in if r then f tt p s' else (inl e, p, s').
Proof. unfold check. rewrite X_bind_assoc, bind_liftM. destruct (liftW b s) as [[] ?]; reflexivity. Qed.
Lemma check_end {R} (b : M bool) (e : R) p s :
  check b e p s = let '(r, s') := liftW b s in ((if r then inr tt else inl e), p, s').
Proof. unfold check. rewrite bind_liftM. by destruct (liftW b s) as [[] ?]. Qed.
Lemma bind_int32 {R A} (m : ST S Z) (f : Z → X (S := S) R A) p s :
  (int32 m ≫= f) p s = let '(a, s') := m s in f (i32 a) p s'.
Proof. unfold int32. rewrite X_bind_assoc, bind_liftS. by destruct (m s). Qed.
Lemma int32_end {R} (m : ST S Z) p s : int32 (R := R) m p s = let '(a, s') := m s in (inr (i32 a), p, s').
Proof. unfold int32. rewrite bind_liftS. by destruct (m s). Qed.
Lemma bind_match {R A B C} (o : option A) (f : A → X (S := S) R B) (g : X R B) (k : B → X R C) p s :
  ((match o with Some a => f a | None => g end) ≫= k) p s =
  match o with Some a => (f a ≫= k) p s | None => (g ≫= k) p s end.
Proof. by destruct o. Qed.
Lemma bind_if {R A B} (b : bool) (f g : X (S := S) R A) (k : A → X R B) p s :
  ((if b then f else g) ≫= k) p s = if b then (f ≫= k) p s else (g ≫= k) p s.
Proof. by destruct b. Qed.

Lemma putObject_Some {R} o (e : R) : putObject (S := S) (Some o) e = put KObject o e.
Proof. reflexivity. Qed.
Lemma putObject_None {R} (e : R) : putObject (S := S) None e = stop e.
Proof. reflexivity. Qed.

Lemma transact_eq {R} (m : X (S := S) R R) s :
  transact m s = let '(r, _, s') := m (MkIpc emptyParcel emptyParcel) s in (ended r, s').
Proof. unfold transact. rewrite ST_bind_eq. by destruct (m _ s) as [[? ?] ?]. Qed.
End run.

(** ** Reads and writes of parcels that obey the laws and have room *)

Section laws.
Context `{P : Parcels} `{PL : !ParcelLaws P} `{RP : !RoomyParcels P} {S : Type} `{HS : HasWorld S}.

Lemma put_run {R} k v (e : R) inp out l :
  unread out = l →
  ∃ out', unread out' = l ++ [item k v] ∧ ∀ s : S, put k v e (MkIpc inp out) s = (inr tt, MkIpc inp out', s).
Proof.
  intros <-. exists (Write k v out).2. split; [apply Write_unread, Write_room|]. intros s.
  unfold put, write. pose proof (Write_room k v out) as Hr. rewrite X_bind_eq. simpl.
  destruct (Write k v out) as [b o]. simpl in *. by subst b.
Qed.

Lemma bind_put {R A} k v (e : R) (f : unit → X (S := S) R A) inp out l :
  unread out = l →
  ∃ out', unread out' = l ++ [item k v] ∧ ∀ s, (put k v e ≫= f) (MkIpc inp out) s = f tt (MkIpc inp out') s.
Proof.
  intros H. destruct (put_run k v e inp out l H) as (out' & Ho & Hr). exists out'. split; [done|].
  intros s. by rewrite X_bind_eq, Hr.
Qed.

Lemma read_run {R} k v inp out l :
  unread inp = item k v :: l →
  ∃ inp', unread inp' = l ∧ ∀ s : S, read (R := R) k (MkIpc inp out) s = (inr (Some (conv k v)), MkIpc inp' out, s).
Proof.
  intros H. apply Read_unread in H as [E1 E2]. exists (Read k inp).2. split; [done|]. intros s.
  unfold read. cbn [ip_in ip_out]. destruct (Read k inp) as [o q]. simpl in E1. by rewrite E1.
Qed.

Lemma bind_read {R A} k v (f : option (denote k) → X (S := S) R A) inp out l :
  unread inp = item k v :: l →
  ∃ inp', unread inp' = l ∧ ∀ s, (read k ≫= f) (MkIpc inp out) s = f (Some (conv k v)) (MkIpc inp' out) s.
Proof.
  intros H. destruct (read_run (R := R) k v inp out l H) as (q & Hq & Hr). exists q. split; [done|].
  intros s. by rewrite X_bind_eq, Hr.
Qed.

Lemma bind_get {R A} k v (e : R) (f : denote k → X (S := S) R A) inp out l :
  unread inp = item k v :: l →
  ∃ inp', unread inp' = l ∧ ∀ s, (get k e ≫= f) (MkIpc inp out) s = f (conv k v) (MkIpc inp' out) s.
Proof.
  intros H. destruct (bind_read (R := R) k v (λ v, match v with Some v => mret v | None => stop e end ≫= f)
    inp out l H) as (q & Hq & Hr).
  exists q. split; [done|]. intros s. unfold get. by rewrite X_bind_assoc, Hr.
Qed.

Lemma get_run {R} k v (e : R) inp out l :
  unread inp = item k v :: l →
  ∃ inp', unread inp' = l ∧ ∀ s : S, get k e (MkIpc inp out) s = (inr (conv k v), MkIpc inp' out, s).
Proof.
  intros H. destruct (bind_get k v e mret inp out l H) as (q & Hq & Hr). exists q. split; [done|].
  intros s. specialize (Hr s). rewrite X_bind_eq in Hr.
  destruct (get k e _ s) as [[[] ?] ?]; done.
Qed.
End laws.

(** ** Segments that only write, and segments that only read *)

Section segments.
Context `{P : Parcels} `{PL : !ParcelLaws P} `{RP : !RoomyParcels P} {S : Type} `{HS : HasWorld S}.

(** [m] appends [items] to the parcel it writes and does nothing else. *)
Definition writes {R} (m : X (S := S) R unit) (items : list Item) : Prop :=
  ∀ inp out, ∃ out', unread out' = unread out ++ items ∧ ∀ s, m (MkIpc inp out) s = (inr tt, MkIpc inp out', s).

(** [m] takes [items] from the parcel it reads, makes [a] of them and does nothing else. *)
Definition reads {R A} (m : X (S := S) R A) (items : list Item) (a : A) : Prop :=
  ∀ inp out l, unread inp = items ++ l →
    ∃ inp', unread inp' = l ∧ ∀ s, m (MkIpc inp out) s = (inr a, MkIpc inp' out, s).

Lemma writes_put {R} k v (e : R) : writes (put k v e) [item k v].
Proof. intros inp out. by apply put_run. Qed.

Lemma writes_ret {R} : writes (R := R) (mret tt) [].
Proof. intros inp out. exists out. by rewrite app_nil_r. Qed.

Lemma writes_bind {R} (m : X (S := S) R unit) (n : unit → X R unit) l k :
  writes m l → writes (n tt) k → writes (m ≫= n) (l ++ k).
Proof.
  intros Hm Hn inp out. destruct (Hm inp out) as (o1 & E1 & H1). destruct (Hn inp o1) as (o2 & E2 & H2).
  exists o2. split; [by rewrite E2, E1, app_assoc|]. intros s. by rewrite X_bind_eq, H1.
Qed.

Lemma writes_each {R A} (l : list A) (f : A → X (S := S) R unit) (enc : A → list Item) :
  (∀ a, a ∈ l → writes (f a) (enc a)) → writes (each l f) (l ≫= enc).
Proof.
  induction l as [|a l IH]; intros H; [apply writes_ret|]. simpl.
  apply (writes_bind (f a) (λ _, each l f)); [apply H|apply IH; intros; apply H]; set_solver.
Qed.

Lemma reads_ret {R A} (a : A) : reads (R := R) (mret a) [] a.
Proof. intros inp out l H. by exists inp. Qed.

Lemma reads_get {R} k v (e : R) : reads (get k e) [item k v] (conv k v).
Proof. intros inp out l H. by apply (get_run k v e inp out l). Qed.

Lemma reads_bind {R A B} (m : X (S := S) R A) (n : A → X R B) l k a b :
  reads m l a → reads (n a) k b → reads (m ≫= n) (l ++ k) b.
Proof.
  intros Hm Hn inp out r E. rewrite <- app_assoc in E.
  destruct (Hm inp out _ E) as (i1 & E1 & H1). destruct (Hn i1 out _ E1) as (i2 & E2 & H2).
  exists i2. split; [done|]. intros s. by rewrite X_bind_eq, H1.
Qed.

Lemma reads_times {R A B} (l : list A) (f : X (S := S) R B) (enc : A → list Item) (dec : A → B) :
  (∀ a, a ∈ l → reads f (enc a) (dec a)) → reads (times (length l) f) (l ≫= enc) (dec <$> l).
Proof.
  induction l as [|a l IH]; intros H; [apply reads_ret|]. simpl length. unfold times; fold (times (length l) f).
  change ((a :: l) ≫= enc) with (enc a ++ (l ≫= enc)). eapply reads_bind; [apply H; set_solver|].
  rewrite <- (app_nil_r (l ≫= enc)). eapply reads_bind; [apply IH; intros; apply H; set_solver|].
  apply reads_ret.
Qed.

Lemma bind_writes {R A} (m : X (S := S) R unit) (f : unit → X R A) inp out l items :
  writes m items → unread out = l →
  ∃ out', unread out' = l ++ items ∧ ∀ s, (m ≫= f) (MkIpc inp out) s = f tt (MkIpc inp out') s.
Proof.
  intros Hm <-. destruct (Hm inp out) as (o & Ho & Hr). exists o. split; [done|].
  intros s. by rewrite X_bind_eq, Hr.
Qed.

Lemma bind_reads {R A B} (m : X (S := S) R A) (f : A → X R B) inp out l items a :
  reads m items a → unread inp = items ++ l →
  ∃ inp', unread inp' = l ∧ ∀ s, (m ≫= f) (MkIpc inp out) s = f a (MkIpc inp' out) s.
Proof.
  intros Hm Hi. destruct (Hm inp out l Hi) as (i & Hl & Hr). exists i. split; [done|].
  intros s. by rewrite X_bind_eq, Hr.
Qed.

Lemma reads_fmap {R A B} (m : X (S := S) R A) (g : A → B) items a :
  reads m items a → reads (x ← m; mret (g x)) items (g a).
Proof. intros H. rewrite <- (app_nil_r items). eapply reads_bind; [done|apply reads_ret]. Qed.

(** The size check passes when the announced elements are there, each with one item at least. *)
Lemma reads_sized {R A B} (l : list A) (enc : A → list Item) (e : R) (n : unit → X (S := S) R B) r b :
  (∀ a, enc a ≠ []) → Z.of_nat (length l) < 2 ^ 31 → reads (n tt) ((l ≫= enc) ++ r) b →
  reads (checkSize (sizeOf l) e ≫= n) ((l ≫= enc) ++ r) b.
Proof.
  intros He Hl Hn inp out k Hu. destruct (Hn inp out k Hu) as (i & Hi & Hr). exists i. split; [done|].
  intros s. unfold checkSize. rewrite X_bind_assoc, bind_readable, bind_require. simpl ip_in.
  assert (length l <= length (unread inp))%nat as Hlen.
  { rewrite Hu, !length_app. clear Hu Hl Hn. induction l as [|a l IH]; [simpl; lia|].
    change ((a :: l) ≫= enc) with (enc a ++ (l ≫= enc)). rewrite length_app.
    specialize (He a). destruct (enc a); [done|]. simpl in *. lia. }
  pose proof (readable_unread inp) as Hb. unfold sizeOf. rewrite i32_id by (unfold is_i32; lia).
  unfold u64. rewrite Z.mod_small by lia.
  rewrite (proj2 (Z.ltb_ge _ _)), (proj2 (Z.ltb_ge (Z.of_nat _) 0)) by lia. apply Hr.
Qed.
End segments.
