(* ===== verification/IpcSpec.v ===== *)
(** What a remote call does, without parcels: the specification of the IPC layer.

    [specCall r] is the call [r] of a client as an access-control policy around the
    implementation of the interface: the client's own checks, the delivery, the
    checks of the service, the operation, and the result.  IpcRefines.v shows that
    the proxy at one end and the stub at the other do exactly this. *)
From S2P Require Import Prelude Types World Parcel Ffrt Util ManagerBase IpcInterface Stub Proxy.

(** ** Requests and replies *)

(** Calls of the proxy that reach the service. *)
Inductive Request :=
  | RqListSystemAbilities (flags : Z)
  | RqCheckSystemAbilityTransaction (said : Z)
  | RqCheckSystemAbilityRemote (said : Z) (deviceId : string)
  | RqCheckSystemAbilityExist (said : Z) (isExist : bool)
  | RqRemoveSystemAbility (said : Z)
  | RqSubscribeSystemAbility (said : Z) (l : option StatusChange)
  | RqUnSubscribeSystemAbility (said : Z) (l : option StatusChange)
  | RqAddOnDemandSystemAbilityInfo (said : Z) (name : u16string)
  | RqAddSystemAbility (said : Z) (ability : option RemoteObject) (p : SAExtraProp)
  | RqAddSystemProcess (name : u16string) (o : option RemoteObject)
  | RqLoadSystemAbility (said : Z) (cb : option LoadCallback)
  | RqLoadSystemAbilityRemote (said : Z) (deviceId : string) (cb : option LoadCallback)
  | RqUnloadSystemAbility (said : Z)
  | RqCancelUnloadSystemAbility (said : Z)
  | RqUnloadAllIdleSystemAbility
  | RqUnloadProcess (l : list u16string)
  | RqGetLruIdleSystemAbilityProc
  | RqOnStartSystemAbilityFail (said err : Z)
  | RqGetSystemProcessInfo (said : Z) (out : SystemProcessInfo)
  | RqGetRunningSystemProcess
  | RqSubscribeSystemProcess (l : option ProcessStatusChange)
  | RqUnSubscribeSystemProcess (l : option ProcessStatusChange)
  | RqSubscribeLowMemSystemProcess (l : option ProcessStatusChange)
  | RqUnSubscribeLowMemSystemProcess (l : option ProcessStatusChange)
  | RqGetOnDemandReasonExtraData (id : Z)
  | RqGetOnDemandPolicy (said type : Z)
  | RqGetOnDemandSystemAbilityIds
  | RqUpdateOnDemandPolicy (said type : Z) (events : list SystemAbilityOnDemandEvent)
  | RqSendStrategy (type : Z) (ids : list Z) (level : Z) (action : string)
  | RqGetExtensionSaIds (extension : string)
  | RqGetExtensionRunningSaList (extension : string)
  | RqGetRunningSaExtensionInfoList (extension : string)
  | RqGetCommonEventExtraDataIdlist (said : Z) (eventName : string)
  | RqGetLocalAbilityManagerProxy (said : Z)
  | RqSetSamgrIpcPrior (enable : bool)
  | RqOnUserStateChanged (userId userState : Z)
  | RqGetSystemAbilityUser (said userId : Z)
  | RqCheckSystemAbilityUser (said userId : Z)
  | RqGetLocalAbilityManagerProxyUser (said userId : Z)
  | RqCheckSystemAbilityByUserId (said : Z) (isExist : bool) (userId : Z)
  | RqGetSystemProcessInfoUser (said : Z) (out : SystemProcessInfo) (userId : Z)
  | RqLoadSystemAbilityUser (said : Z) (cb : option LoadCallback) (userId : Z)
  | RqSubscribeSystemAbilityUser (said : Z) (l : option StatusChange) (userId : Z)
  | RqUnSubscribeSystemAbilityUser (said : Z) (l : option StatusChange) (userId : Z)
  | RqSubscribeSystemProcessUser (l : option ProcessStatusChange) (userId : Z)
  | RqUnSubscribeSystemProcessUser (l : option ProcessStatusChange) (userId : Z).

Inductive Reply :=
  | RpInt (r : Z)
  | RpObject (o : option RemoteObject)
  | RpObjectErr (o : option RemoteObject) (err : Z)
  | RpExist (o : option RemoteObject) (isExist : bool) (err : Z)
  | RpNames (l : list u16string)
  | RpIds (r : Z) (l : list Z)
  | RpObjects (r : Z) (l : list RemoteObject)
  | RpExtensions (r : Z) (l : list (Z * RemoteObject))
  | RpIdle (r : Z) (l : list IdleProcessInfo)
  | RpProcess (r : Z) (i : SystemProcessInfo)
  | RpProcesses (r : Z) (l : list SystemProcessInfo)
  | RpEvents (r : Z) (l : list SystemAbilityOnDemandEvent)
  | RpExtraData (r : Z) (d : option OnDemandReasonExtraData).

(** Integers travel as [int32_t] and [int64_t]. *)
Definition sentIdle (i : IdleProcessInfo) : IdleProcessInfo :=
  MkIdleProcessInfo (i32 (ipi_pid i)) (ipi_processName i) (i64 (ipi_lastIdleTime i)).
Definition sentProcess (i : SystemProcessInfo) : SystemProcessInfo :=
  MkSystemProcessInfo (spi_processName i) (i32 (spi_pid i)) (i32 (spi_uid i)).
Definition sentCondition (c : SystemAbilityOnDemandCondition) : SystemAbilityOnDemandCondition :=
  MkSACondition (i32 (sac_eventId c)) (sac_name c) (sac_value c).
Definition sentEvent (e : SystemAbilityOnDemandEvent) : SystemAbilityOnDemandEvent :=
  MkSAEvent (i32 (sae_eventId e)) (sae_name e) (sae_value e) (sae_persistence e)
    (sentCondition <$> sae_conditions e) (sae_enableOnce e).
Definition sentProp (p : SAExtraProp) : SAExtraProp :=
  MkSAExtraProp (isDistributed p) (u32 (i32 (dumpFlags p))) (capability p) (permission p).

Section spec.
Context `{E : Env} `{IE : IpcEnv} `{P : Parcels} {S : Type} `{HS : HasWorld S} {I : ISystemAbilityManager S}.
Context (Remote : bool).

(** ** The vocabulary of the specification *)

(** The call goes on if [b], and returns [e] otherwise. *)
Definition guard {A} (b : bool) (e : A) (m : ST S A) : ST S A := if b then m else mret e.
(** The same for a check of the service. *)
Definition allowed {A} (b : M bool) (e : A) (m : ST S A) : ST S A := r ← liftW b; guard r e m.

(** The request reaches the service, or its delivery fails. *)
Definition delivered {A} (code : Z) (failed : Z → A) (m : ST S A) : ST S A :=
  tr ← liftW (gets w_trace);
  let err := env_SendRequest tr code in
  if negb (err =? ERR_NONE) then mret (failed err) else liftW SetIpcPrior;; m.

(** The object seen through an interface of the service. *)
Definition viewed {A B} (cast : RemoteObject → option A) (o : option RemoteObject) (e : B) (m : A → ST S B) : ST S B :=
  match o ≫= cast with Some a => m a | None => mret e end.

Definition sentResult (m : ST S Z) : ST S Z := r ← m; mret (i32 r).
(** A result with data: the data only when the result is [ERR_OK]. *)
Definition sentWith {A B} (m : ST S (Z * A)) (none : B) (f : A → B) : ST S (Z * B) :=
  '(r, a) ← m; mret (i32 r, if i32 r =? ERR_OK then f a else none).

(** ** Calls that return an error code *)

Definition intCall (client : bool) (code : Z) (m : ST S Z) : ST S Z :=
  guard client ERR_INVALID_VALUE (guard Remote ERR_INVALID_OPERATION (delivered code (λ err, err) m)).

Definition reported (mk : Z → Z → string → Report) (prefix : string) (m : ST S Z) : ST S Z :=
  r ← sentResult m; liftW (reportFailure mk prefix r);; mret r.

Definition specSubscribe (said : Z) (l : option StatusChange) (code : Z) (op : option StatusChange → ST S Z) : ST S Z :=
  intCall (CheckInputSysAbilityId said && bool_decide (is_Some l)) code
    (viewed cast_StatusChange (sc_AsObject <$> l) ERR_NULL_OBJECT (λ l, sentResult (op (Some l)))).

Definition specSubscribeProcess (l : option ProcessStatusChange) (code : Z) (op : option ProcessStatusChange → ST S Z) : ST S Z :=
  guard (bool_decide (is_Some l)) ERR_INVALID_VALUE (
  guard Remote ERR_INVALID_OPERATION (
  guard (bool_decide (is_Some (l ≫= psc_AsObject))) ERR_FLATTEN_OBJECT (
  delivered code (λ err, err) (
  allowed CanRequest ERR_PERMISSION_DENIED (
  viewed cast_ProcessStatusChange (l ≫= psc_AsObject) ERR_NULL_OBJECT (λ l, sentResult (op (Some l)))))))).

Definition specLoad (said : Z) (cb : option LoadCallback) (code : Z) (op : option LoadCallback → ST S Z) : ST S Z :=
  intCall (CheckInputSysAbilityId said && bool_decide (is_Some cb)) code (
    allowed (penglaiAllows said) ERR_PERMISSION_DENIED (
    allowed (CheckGetSAPermission said) ERR_PERMISSION_DENIED (
    viewed cast_LoadCallback (cb_AsObject <$> cb) ERR_INVALID_VALUE (λ cb,
    reported (ReportSamgrSaLoadFail said) "interface load err:" (op (Some cb)))))).

Definition specLoadRemote (said : Z) (deviceId : string) (cb : option LoadCallback) : ST S Z :=
  intCall (CheckInputSysAbilityId said && negb (bool_decide (deviceId = "")) && bool_decide (is_Some cb))
    Code.LOAD_REMOTE_SYSTEM_ABILITY_TRANSACTION (
    allowed (penglaiAllows said) ERR_PERMISSION_DENIED (
    allowed (CheckGetRemoteSAPermission said) ERR_PERMISSION_DENIED (
    viewed cast_LoadCallback (cb_AsObject <$> cb) ERR_INVALID_VALUE (λ cb,
    sentResult (iLoadSystemAbilityRemote said deviceId (Some cb)))))).

(** A distributed SA needs a second permission; negative dump flags are refused. *)
Definition specAdd (said : Z) (ability : option RemoteObject) (p : SAExtraProp) : ST S Z :=
  guard (CheckInputSysAbilityId said) ERR_INVALID_VALUE (
  match ability with
  | None => mret ERR_FLATTEN_OBJECT
  | Some o =>
      guard Remote ERR_INVALID_OPERATION (
      delivered Code.ADD_SYSTEM_ABILITY_TRANSACTION (λ err, err) (
      allowed CanRequest ERR_PERMISSION_DENIED (
      allowed (CheckAddOrRemovePermission said) ERR_PERMISSION_DENIED (
      guard (negb (i32 (dumpFlags p) <? 0)) ERR_FLATTEN_OBJECT (
      (if isDistributed p then allowed (CheckAddRemoteSAPermission said) ERR_PERMISSION_DENIED else λ m, m)
      (sentResult (iAddSystemAbility said (Some o) (sentProp p))))))))
  end).

Definition specRemove (said : Z) : ST S Z :=
  intCall (CheckInputSysAbilityId said) Code.REMOVE_SYSTEM_ABILITY_TRANSACTION (
    allowed CanRequest ERR_PERMISSION_DENIED (
    allowed (CheckAddOrRemovePermission said) ERR_PERMISSION_DENIED (
    sentResult (iRemoveSystemAbility said)))).

Definition specAddOnDemand (said : Z) (name : u16string) : ST S Z :=
  intCall (CheckInputSysAbilityId said && negb (bool_decide (name = []))) Code.ADD_ONDEMAND_SYSTEM_ABILITY_TRANSACTION (
    allowed CanRequest ERR_PERMISSION_DENIED (
    allowed (CheckAddOrRemovePermission said) ERR_PERMISSION_DENIED (
    sentResult (iAddOnDemandSystemAbilityInfo said name)))).

Definition specAddProcess (name : u16string) (o : option RemoteObject) : ST S Z :=
  guard (negb (bool_decide (name = []))) ERR_INVALID_VALUE (
  guard (bool_decide (is_Some o)) ERR_FLATTEN_OBJECT (
  guard Remote ERR_INVALID_OPERATION (
  delivered Code.ADD_SYSTEM_PROCESS_TRANSACTION (λ err, err) (
  allowed CanRequest ERR_PERMISSION_DENIED (
  sentResult (iAddSystemProcess name o)))))).

Definition specUnload (said : Z) : ST S Z :=
  intCall (CheckInputSysAbilityId said) Code.UNLOAD_SYSTEM_ABILITY_TRANSACTION (
    reported (ReportSaUnLoadFail said) "interface unload err:" (iUnloadSystemAbility said)).

Definition specCancelUnload (said : Z) : ST S Z :=
  intCall (CheckInputSysAbilityId said) Code.CANCEL_UNLOAD_SYSTEM_ABILITY_TRANSACTION (
    sentResult (iCancelUnloadSystemAbility said)).

Definition specStartFail (said err : Z) : ST S Z :=
  intCall (CheckInputSysAbilityId said) Code.ONSTART_SYSTEM_ABILITY_FAIL_TRANSACTION (
    allowed CanRequest ERR_PERMISSION_DENIED (sentResult (iOnStartSystemAbilityFail said (i32 err)))).

Definition specSendStrategy (type : Z) (ids : list Z) (level : Z) (action : string) : ST S Z :=
  intCall true Code.SEND_STRATEGY_TRANASACTION (
    allowed CanRequest ERR_PERMISSION_DENIED (
    sentResult (iSendStrategy (i32 type) (i32 <$> ids) (i32 level) action))).

Definition specUpdatePolicy (said type : Z) (events : list SystemAbilityOnDemandEvent) : ST S Z :=
  intCall true Code.UPDATE_ONDEAMND_POLICY_TRANSACTION (
    allowed CanRequest ERR_PERMISSION_DENIED (
    sentResult (iUpdateOnDemandPolicy (i32 said) (i32 type) (sentEvent <$> events)))).

(** An asynchronous request: the client learns only that it was sent. *)
Definition asyncCall (code : Z) (m : ST S Z) : ST S Z :=
  guard Remote ERR_INVALID_OPERATION (delivered code (λ err, err) (_ ← m; mret ERR_OK)).

Definition specUserState (userId userState : Z) : ST S Z :=
  if negb SUPPORT_MULTI_INSTANCE then mret ERR_OK
  else asyncCall Code.ON_USER_STATE_CHANGED_TRANSACTION (
    allowed (CheckCallerProcessName "accountmgr") ERR_PERMISSION_DENIED (
    guard (negb ((i32 userState <? USER_STATE_ACTIVATING) || (USER_STATE_STOPPING <? i32 userState))) ERR_INVALID_VALUE
    (iOnUserStateChanged (i32 userId) (i32 userState)))).

(** ** Calls that return an object *)

(** The caller of a query must pass the penglai and the SELinux check. *)
Definition mayGet {A} (said : Z) (e : A) (m : ST S A) : ST S A :=
  allowed (penglaiAllows said) e (allowed (CheckGetSAPermission said) e m).

Definition specCheck (said : Z) : ST S (option RemoteObject) :=
  guard Remote None (
  delivered Code.CHECK_SYSTEM_ABILITY_TRANSACTION (λ _, None) (
  guard (CheckInputSysAbilityId (i32 said)) None (
  mayGet (i32 said) None (iCheckSystemAbility (i32 said))))).

(** The object, or the status of the failure. *)
Definition found (o : option RemoteObject) : option RemoteObject * Z :=
  (o, match o with Some _ => ERR_NONE | None => ERR_NULL_OBJECT end).

Definition specCheckRemote (said : Z) (deviceId : string) : ST S (option RemoteObject * Z) :=
  guard (CheckInputSysAbilityId said && negb (bool_decide (deviceId = ""))) (None, ERR_NONE) (
  guard Remote (None, ERR_NONE) (
  delivered Code.CHECK_REMOTE_SYSTEM_ABILITY_TRANSACTION (λ err, (None, err)) (
  allowed CanRequest (None, ERR_PERMISSION_DENIED) (
  allowed (penglaiAllows said) (None, ERR_PERMISSION_DENIED) (
  allowed (CheckGetRemoteSAPermission said) (None, ERR_PERMISSION_DENIED) (
  o ← iGetSystemAbilityRemote said deviceId; mret (found o))))))).

Definition specCheckExist (said : Z) (isExist : bool) : ST S (option RemoteObject * bool * Z) :=
  let refused := (None, isExist, ERR_PERMISSION_DENIED) in
  guard Remote (None, isExist, ERR_NONE) (
  delivered Code.CHECK_SYSTEM_ABILITY_IMMEDIATELY_TRANSACTION (λ err, (None, isExist, err)) (
  guard (CheckInputSysAbilityId (i32 said)) (None, isExist, ERR_NULL_OBJECT) (
  mayGet (i32 said) refused (
  '(o, b) ← iCheckSystemAbilityExist (i32 said) isExist;
  mret (match o with Some o => (Some o, b, ERR_NONE) | None => (None, isExist, ERR_NULL_OBJECT) end))))).

Definition specUserObject (code : Z) (mayAsk : ST S (option RemoteObject) → ST S (option RemoteObject))
    (said : Z) (m : ST S (option RemoteObject)) : ST S (option RemoteObject) :=
  guard (CheckInputSysAbilityId said) None (guard Remote None (delivered code (λ _, None) (mayAsk m))).

Definition specCheckByUserId (said : Z) (isExist : bool) (userId : Z) : ST S (option RemoteObject * bool) :=
  guard (CheckInputSysAbilityId said) (None, isExist) (
  guard Remote (None, isExist) (
  delivered Code.CHECK_SYSTEM_ABILITY_BY_USERID_TRANSACTION (λ _, (None, isExist)) (
  mayGet said (None, isExist) (
  '(o, b) ← iCheckSystemAbilityByUserId said isExist (i32 userId);
  mret (match o with Some o => (Some o, b) | None => (None, isExist) end))))).

(** ** Calls that return data *)

Definition dataCall {A} (none : A) (code : Z) (m : ST S (Z * A)) : ST S (Z * A) :=
  guard Remote (ERR_INVALID_OPERATION, none) (delivered code (λ err, (err, none)) m).

Definition specList (flags : Z) : ST S (list u16string) :=
  guard Remote [] (
  delivered Code.LIST_SYSTEM_ABILITY_TRANSACTION (λ _, []) (
  allowed CanRequest [] (
  allowed CheckListSAPermission [] (
  iListSystemAbilities (u32 (i32 flags)))))).

Definition specExtraData (id : Z) : ST S (Z * option OnDemandReasonExtraData) :=
  dataCall None Code.GET_ONDEMAND_REASON_EXTRA_DATA_TRANSACTION (
  allowed CanRequest (ERR_PERMISSION_DENIED, None) (
  '(r, p) ← iGetOnDemandReasonExtraData (i64 id) emptyParcel;
  mret (match (Read KExtraData p).1 with
        | None => (ERR_FLATTEN_OBJECT, None)
        | Some d => (i32 r, if i32 r =? ERR_OK then Some d else None)
        end))).

Definition specLru : ST S (Z * list IdleProcessInfo) :=
  dataCall [] Code.GET_LRU_IDLE_SYSTEM_ABILITY_PROCESS_TRANSACTION
    (allowed (CheckCallerProcessName "memmgrservice") (ERR_PERMISSION_DENIED, [])
    (sentWith iGetLruIdleSystemAbilityProc [] (fmap sentIdle))).

Definition specProcessInfo (said : Z) (out : SystemProcessInfo) : ST S (Z * SystemProcessInfo) :=
  dataCall out Code.GET_SYSTEM_PROCESS_INFO_TRANSACTION
    (allowed CanRequest (ERR_PERMISSION_DENIED, out)
    (guard (CheckInputSysAbilityId (i32 said)) (ERR_NULL_OBJECT, out)
    (sentWith (iGetSystemProcessInfo (i32 said) newSystemProcessInfo) out sentProcess))).

Definition specRunning : ST S (Z * list SystemProcessInfo) :=
  dataCall [] Code.GET_RUNNING_SYSTEM_PROCESS_TRANSACTION
    (allowed CanRequest (ERR_PERMISSION_DENIED, []) (sentWith iGetRunningSystemProcess [] (fmap sentProcess))).

Definition specGetPolicy (said type : Z) : ST S (Z * list SystemAbilityOnDemandEvent) :=
  dataCall [] Code.GET_ONDEAMND_POLICY_TRANSACTION
    (allowed CanRequest (ERR_PERMISSION_DENIED, [])
    (sentWith (iGetOnDemandPolicy (i32 said) (i32 type)) [] (fmap sentEvent))).

Definition specOnDemandIds : ST S (Z * list Z) :=
  dataCall [] Code.GET_ONDEMAND_SYSTEM_ABILITY_IDS_TRANSACTION
    (sentWith iGetOnDemandSystemAbilityIds [] (fmap i32)).

Definition specExtensionIds (ext : string) : ST S (Z * list Z) :=
  dataCall [] Code.GET_EXTENSION_SA_IDS_TRANSCATION
    (allowed CanRequest (ERR_PERMISSION_DENIED, []) (sentWith (iGetExtensionSaIds ext) [] (fmap i32))).

Definition specExtensionObjects (ext : string) : ST S (Z * list RemoteObject) :=
  dataCall [] Code.GET_EXTERNSION_SA_LIST_TRANSCATION
    (allowed CanRequest (ERR_PERMISSION_DENIED, []) (sentWith (iGetExtensionRunningSaList ext) [] (λ l, l))).

Definition specExtensionInfos (ext : string) : ST S (Z * list (Z * RemoteObject)) :=
  dataCall [] Code.GET_SA_EXTENSION_INFO_TRANSCATION
    (allowed (CheckPermission EXT_TRANSACTION_PERMISSION) (ERR_PERMISSION_DENIED, [])
    (sentWith (iGetRunningSaExtensionInfoList ext) [] (fmap (λ i, (i32 i.1, i.2))))).

Definition specExtraIds (said : Z) (name : string) : ST S (Z * list Z) :=
  dataCall [] Code.GET_COMMON_EVENT_EXTRA_ID_LIST_TRANSCATION
    (allowed CanRequest (ERR_PERMISSION_DENIED, [])
    (guard (CheckInputSysAbilityId (i32 said)) (ERR_NULL_OBJECT, [])
    (sentWith (iGetCommonEventExtraDataIdlist (i32 said) name) [] (fmap i64)))).

Definition specProcessInfoUser (said : Z) (out : SystemProcessInfo) (userId : Z) : ST S (Z * SystemProcessInfo) :=
  guard (CheckInputSysAbilityId said) (ERR_INVALID_VALUE, out)
    (dataCall out Code.GET_SYSTEM_PROCESS_INFO_WITH_USERID_TRANSACTION
    (allowed CanRequest (ERR_PERMISSION_DENIED, out)
    (sentWith (iGetSystemProcessInfoUser said newSystemProcessInfo (i32 userId)) out sentProcess))).

Definition specUnloadAllIdle : ST S Z :=
  asyncCall Code.UNLOAD_ALL_IDLE_SYSTEM_ABILITY_TRANSACTION iUnloadAllIdleSystemAbility.

Definition specUnloadProcess (l : list u16string) : ST S Z :=
  asyncCall Code.UNLOAD_IDLE_PROCESS_BYLIST
    (allowed (CheckCallerProcessName "memmgrservice") ERR_PERMISSION_DENIED (iUnloadProcess l)).

Definition specSetPrior (enable : bool) : ST S Z :=
  asyncCall Code.SET_SAMGR_IPC_PRIOR_TRANSACTION
    (allowed (CheckCallerProcessName "resource_schedule_service") ERR_PERMISSION_DENIED (iSetSamgrIpcPrior enable)).

Definition specLocalManager (said : Z) : ST S (option RemoteObject) :=
  specUserObject Code.GET_LOCAL_ABILITY_MANAGER_PROXY_TRANSCATION
    (allowed (CheckPermission PERMISSION_SVC) None) said (iGetLocalAbilityManagerProxy said).

Definition specLocalManagerUser (said userId : Z) : ST S (option RemoteObject) :=
  specUserObject Code.GET_LOCAL_ABILITY_MANAGER_PROXY_WITH_USERID_TRANSACTION
    (allowed (CheckPermission PERMISSION_SVC) None) said (iGetLocalAbilityManagerProxyUser said (i32 userId)).

Definition specGetUser (said userId : Z) : ST S (option RemoteObject) :=
  specUserObject Code.GET_SYSTEM_ABILITY_WITH_USERID_TRANSACTION (mayGet said None) said
    (iGetSystemAbilityUser said (i32 userId)).

Definition specCheckUser (said userId : Z) : ST S (option RemoteObject) :=
  specUserObject Code.CHECK_SYSTEM_ABILITY_WITH_USERID_TRANSACTION (mayGet said None) said
    (iCheckSystemAbilityUser said (i32 userId)).

(** ** The call *)

Definition asInt (m : ST S Z) : ST S Reply := r ← m; mret (RpInt r).
Definition asObject (m : ST S (option RemoteObject)) : ST S Reply := o ← m; mret (RpObject o).
Definition asData {A} (mk : Z → A → Reply) (m : ST S (Z * A)) : ST S Reply := '(r, a) ← m; mret (mk r a).

Definition specRemoteCall (rq : Request) : ST S Reply :=
  match rq with
  | RqListSystemAbilities flags => l ← specList flags; mret (RpNames l)
  | RqCheckSystemAbilityTransaction said => asObject (specCheck said)
  | RqCheckSystemAbilityRemote said dev => '(o, err) ← specCheckRemote said dev; mret (RpObjectErr o err)
  | RqCheckSystemAbilityExist said b => '(o, b, err) ← specCheckExist said b; mret (RpExist o b err)
  | RqRemoveSystemAbility said => asInt (specRemove said)
  | RqSubscribeSystemAbility said l =>
      asInt (specSubscribe said l Code.SUBSCRIBE_SYSTEM_ABILITY_TRANSACTION (iSubscribeSystemAbility said))
  | RqUnSubscribeSystemAbility said l =>
      asInt (specSubscribe said l Code.UNSUBSCRIBE_SYSTEM_ABILITY_TRANSACTION (iUnSubscribeSystemAbility said))
  | RqAddOnDemandSystemAbilityInfo said name => asInt (specAddOnDemand said name)
  | RqAddSystemAbility said o p => asInt (specAdd said o p)
  | RqAddSystemProcess name o => asInt (specAddProcess name o)
  | RqLoadSystemAbility said cb =>
      asInt (specLoad said cb Code.LOAD_SYSTEM_ABILITY_TRANSACTION (iLoadSystemAbility said))
  | RqLoadSystemAbilityRemote said dev cb => asInt (specLoadRemote said dev cb)
  | RqUnloadSystemAbility said => asInt (specUnload said)
  | RqCancelUnloadSystemAbility said => asInt (specCancelUnload said)
  | RqUnloadAllIdleSystemAbility => asInt specUnloadAllIdle
  | RqUnloadProcess l => asInt (specUnloadProcess l)
  | RqGetLruIdleSystemAbilityProc => asData RpIdle specLru
  | RqOnStartSystemAbilityFail said err => asInt (specStartFail said err)
  | RqGetSystemProcessInfo said out => asData RpProcess (specProcessInfo said out)
  | RqGetRunningSystemProcess => asData RpProcesses specRunning
  | RqSubscribeSystemProcess l => asInt (specSubscribeProcess l Code.SUBSCRIBE_SYSTEM_PROCESS_TRANSACTION iSubscribeSystemProcess)
  | RqUnSubscribeSystemProcess l => asInt (specSubscribeProcess l Code.UNSUBSCRIBE_SYSTEM_PROCESS_TRANSACTION iUnSubscribeSystemProcess)
  | RqSubscribeLowMemSystemProcess l => asInt (specSubscribeProcess l Code.SUBSCRIBE_LOWMEM_SYSTEM_PROCESS_TRANSACTION iSubscribeLowMemSystemProcess)
  | RqUnSubscribeLowMemSystemProcess l => asInt (specSubscribeProcess l Code.UNSUBSCRIBE_LOWMEM_SYSTEM_PROCESS_TRANSACTION iUnSubscribeLowMemSystemProcess)
  | RqGetOnDemandReasonExtraData id => asData RpExtraData (specExtraData id)
  | RqGetOnDemandPolicy said type => asData RpEvents (specGetPolicy said type)
  | RqGetOnDemandSystemAbilityIds => asData RpIds specOnDemandIds
  | RqUpdateOnDemandPolicy said type events => asInt (specUpdatePolicy said type events)
  | RqSendStrategy type ids level action => asInt (specSendStrategy type ids level action)
  | RqGetExtensionSaIds ext => asData RpIds (specExtensionIds ext)
  | RqGetExtensionRunningSaList ext => asData RpObjects (specExtensionObjects ext)
  | RqGetRunningSaExtensionInfoList ext => asData RpExtensions (specExtensionInfos ext)
  | RqGetCommonEventExtraDataIdlist said name => asData RpIds (specExtraIds said name)
  | RqGetLocalAbilityManagerProxy said => asObject (specLocalManager said)
  | RqSetSamgrIpcPrior enable => asInt (specSetPrior enable)
  | RqOnUserStateChanged userId userState => asInt (specUserState userId userState)
  | RqGetSystemAbilityUser said userId => asObject (specGetUser said userId)
  | RqCheckSystemAbilityUser said userId => asObject (specCheckUser said userId)
  | RqGetLocalAbilityManagerProxyUser said userId => asObject (specLocalManagerUser said userId)
  | RqCheckSystemAbilityByUserId said b userId =>
      '(o, b) ← specCheckByUserId said b userId; mret (RpExist o b ERR_NONE)
  | RqGetSystemProcessInfoUser said out userId => asData RpProcess (specProcessInfoUser said out userId)
  | RqLoadSystemAbilityUser said cb userId =>
      asInt (specLoad said cb Code.LOAD_SYSTEM_ABILITY_WITH_USERID_TRANSACTION
        (λ cb, iLoadSystemAbilityUser said cb (i32 userId)))
  | RqSubscribeSystemAbilityUser said l userId =>
      asInt (specSubscribe said l Code.SUBSCRIBE_SYSTEM_ABILITY_WITH_USERID_TRANSACTION
        (λ l, iSubscribeSystemAbilityUser said l (i32 userId)))
  | RqUnSubscribeSystemAbilityUser said l userId =>
      asInt (specSubscribe said l Code.UNSUBSCRIBE_SYSTEM_ABILITY_WITH_USERID_TRANSACTION
        (λ l, iUnSubscribeSystemAbilityUser said l (i32 userId)))
  | RqSubscribeSystemProcessUser l userId =>
      asInt (specSubscribeProcess l Code.SUBSCRIBE_SYSTEM_PROCESS_WITH_USERID_TRANSACTION
        (λ l, iSubscribeSystemProcessUser l (i32 userId)))
  | RqUnSubscribeSystemProcessUser l userId =>
      asInt (specSubscribeProcess l Code.UNSUBSCRIBE_SYSTEM_PROCESS_WITH_USERID_TRANSACTION
        (λ l, iUnSubscribeSystemProcessUser l (i32 userId)))
  end.

(** ** The same call through proxy and stub *)

Definition remoteCall (rq : Request) : ST S Reply :=
  let stub := OnRemoteRequest in
  match rq with
  | RqListSystemAbilities flags => l ← ListSystemAbilities Remote stub flags; mret (RpNames l)
  | RqCheckSystemAbilityTransaction said => asObject (CheckSystemAbilityTransaction Remote stub said)
  | RqCheckSystemAbilityRemote said dev =>
      '(o, err) ← CheckSystemAbilityRemote Remote stub said dev ERR_NONE; mret (RpObjectErr o err)
  | RqCheckSystemAbilityExist said b =>
      '(o, b, err) ← CheckSystemAbilityImmediately Remote stub said b ERR_NONE; mret (RpExist o b err)
  | RqRemoveSystemAbility said => asInt (RemoveSystemAbilityTransaction Remote stub said)
  | RqSubscribeSystemAbility said l => asInt (SubscribeSystemAbilityInner Remote stub said l)
  | RqUnSubscribeSystemAbility said l => asInt (UnSubscribeSystemAbility Remote stub said l)
  | RqAddOnDemandSystemAbilityInfo said name => asInt (AddOnDemandSystemAbilityInfo Remote stub said name)
  | RqAddSystemAbility said o p => asInt (AddSystemAbilityTransaction Remote stub said o p)
  | RqAddSystemProcess name o => asInt (AddSystemProcess Remote stub name o)
  | RqLoadSystemAbility said cb => asInt (LoadSystemAbility Remote stub said cb)
  | RqLoadSystemAbilityRemote said dev cb => asInt (LoadSystemAbilityRemote Remote stub said dev cb)
  | RqUnloadSystemAbility said => asInt (UnloadSystemAbility Remote stub said)
  | RqCancelUnloadSystemAbility said => asInt (CancelUnloadSystemAbility Remote stub said)
  | RqUnloadAllIdleSystemAbility => asInt (UnloadAllIdleSystemAbility Remote stub)
  | RqUnloadProcess l => asInt (UnloadProcess Remote stub l)
  | RqGetLruIdleSystemAbilityProc => asData RpIdle (GetLruIdleSystemAbilityProc Remote stub)
  | RqOnStartSystemAbilityFail said err => asInt (OnStartSystemAbilityFail Remote stub said err)
  | RqGetSystemProcessInfo said out => asData RpProcess (GetSystemProcessInfo Remote stub said out)
  | RqGetRunningSystemProcess => asData RpProcesses (GetRunningSystemProcess Remote stub)
  | RqSubscribeSystemProcess l => asInt (SubscribeSystemProcess Remote stub l)
  | RqUnSubscribeSystemProcess l => asInt (UnSubscribeSystemProcess Remote stub l)
  | RqSubscribeLowMemSystemProcess l => asInt (SubscribeLowMemSystemProcess Remote stub l)
  | RqUnSubscribeLowMemSystemProcess l => asInt (UnSubscribeLowMemSystemProcess Remote stub l)
  | RqGetOnDemandReasonExtraData id =>
      asData (λ r p, RpExtraData r (if r =? ERR_OK then (Read KExtraData p).1 else None))
        (GetOnDemandReasonExtraData Remote stub id)
  | RqGetOnDemandPolicy said type => asData RpEvents (GetOnDemandPolicy Remote stub said type)
  | RqGetOnDemandSystemAbilityIds => asData RpIds (GetOnDemandSystemAbilityIds Remote stub)
  | RqUpdateOnDemandPolicy said type events => asInt (UpdateOnDemandPolicy Remote stub said type events)
  | RqSendStrategy type ids level action => asInt (SendStrategy Remote stub type ids level action)
  | RqGetExtensionSaIds ext => asData RpIds (GetExtensionSaIds Remote stub ext)
  | RqGetExtensionRunningSaList ext => asData RpObjects (GetExtensionRunningSaList Remote stub ext)
  | RqGetRunningSaExtensionInfoList ext => asData RpExtensions (GetRunningSaExtensionInfoList Remote stub ext)
  | RqGetCommonEventExtraDataIdlist said name => asData RpIds (GetCommonEventExtraDataIdlist Remote stub said name)
  | RqGetLocalAbilityManagerProxy said => asObject (GetLocalAbilityManagerProxy Remote stub said)
  | RqSetSamgrIpcPrior enable => asInt (SetSamgrIpcPrior Remote stub enable)
  | RqOnUserStateChanged userId userState => asInt (OnUserStateChanged Remote stub userId userState)
  | RqGetSystemAbilityUser said userId => asObject (GetSystemAbilityUser Remote stub said userId)
  | RqCheckSystemAbilityUser said userId => asObject (CheckSystemAbilityUser Remote stub said userId)
  | RqGetLocalAbilityManagerProxyUser said userId => asObject (GetLocalAbilityManagerProxyUser Remote stub said userId)
  | RqCheckSystemAbilityByUserId said b userId =>
      '(o, b) ← CheckSystemAbilityByUserId Remote stub said b userId; mret (RpExist o b ERR_NONE)
  | RqGetSystemProcessInfoUser said out userId => asData RpProcess (GetSystemProcessInfoUser Remote stub said out userId)
  | RqLoadSystemAbilityUser said cb userId => asInt (LoadSystemAbilityUser Remote stub said cb userId)
  | RqSubscribeSystemAbilityUser said l userId => asInt (SubscribeSystemAbilityUser Remote stub said l userId)
  | RqUnSubscribeSystemAbilityUser said l userId => asInt (UnSubscribeSystemAbilityUser Remote stub said l userId)
  | RqSubscribeSystemProcessUser l userId => asInt (SubscribeSystemProcessUser Remote stub l userId)
  | RqUnSubscribeSystemProcessUser l userId => asInt (UnSubscribeSystemProcessUser Remote stub l userId)
  end.

(** ** Sizes

    A list is sent with its size as an [int32_t]. *)
Definition small {A} (l : list A) : Prop := Z.of_nat (length l) ≤ LAST_SYS_ABILITY_ID.
Definition smallEvents (l : list SystemAbilityOnDemandEvent) : Prop :=
  small l ∧ ∀ e, e ∈ l → small (sae_conditions e).
Definition smallRequest (rq : Request) : Prop :=
  match rq with RqUpdateOnDemandPolicy _ _ l => smallEvents l | _ => True end.

(** The user-id calls exist only with several instances. *)
Definition userRequest (rq : Request) : bool :=
  match rq with
  | RqGetSystemAbilityUser _ _ | RqCheckSystemAbilityUser _ _ | RqGetLocalAbilityManagerProxyUser _ _
  | RqCheckSystemAbilityByUserId _ _ _ | RqGetSystemProcessInfoUser _ _ _ | RqLoadSystemAbilityUser _ _ _
  | RqSubscribeSystemAbilityUser _ _ _ | RqUnSubscribeSystemAbilityUser _ _ _ | RqSubscribeSystemProcessUser _ _
  | RqUnSubscribeSystemProcessUser _ _ => true
  | _ => false
  end.

(** The lists a reply carries are no longer than the range of SA ids. *)
Definition smallReply (rp : Reply) : Prop :=
  match rp with
  | RpObjects _ l => small l
  | RpExtensions _ l => small l
  | RpIdle _ l => small l
  | RpProcesses _ l => small l
  | RpEvents _ l => smallEvents l
  | _ => True
  end.
End spec.
