(* ===== verification/IpcExec.v ===== *)
(** Execution of a whole remote call: the delivery of a request to the handler of
    its code, and the executor that runs proxy and stub symbolically beside the
    specification. *)
From S2P Require Import Prelude Types World Parcel Ffrt Util ManagerBase IpcInterface Stub Proxy IpcLaws IpcSpec.

Section delivery.
Context `{E : Env} `{IE : !IpcEnv} `{P : Parcels} `{PL : !ParcelLaws P} `{RP : !RoomyParcels P}.
Context {S : Type} `{HS : HasWorld S} {I : ISystemAbilityManager S}.

Lemma CheckInput_i32 said : CheckInputSysAbilityId said = true → i32 said = said.
Proof. unfold CheckInputSysAbilityId. intros H. apply i32_id. unfold is_i32. lia. Qed.

Lemma eqb_nz x : x ≠ 0 → (x =? ERR_NONE) = false.
Proof. intros. by apply Z.eqb_neq. Qed.

Lemma i32_none : i32 ERR_NONE = ERR_NONE.
Proof. reflexivity. Qed.

Lemma i32_sizeOf {A} (l : list A) : i32 (sizeOf l) = sizeOf l.
Proof. apply i32_i32. Qed.

Lemma eqb_none : (ERR_NONE =? ERR_NONE) = true.
Proof. reflexivity. Qed.

(** ** Delivery *)

(** What the stub does with a request whose token is right. *)
Lemma OnRemoteRequest_handler code (h : X (S := S) Z Z) data rest :
  memberFuncMap_ !! code = Some h → unread data = item KToken SAMANAGER_INTERFACE_TOKEN :: rest →
  ∃ data', unread data' = rest ∧ ∀ s, OnRemoteRequest code data s =
    let '(_, s1) := liftW SetIpcPrior s in
    let '(r, p, s2) := h (MkIpc data' emptyParcel) s1 in ((ended r, ip_out p), s2).
Proof.
  intros Hh Hd. unfold OnRemoteRequest, dispatch. rewrite Hh.
  destruct (bind_read (R := Z) KToken SAMANAGER_INTERFACE_TOKEN
    (λ token, require (bool_decide (token = Some SAMANAGER_INTERFACE_TOKEN)) ERR_PERMISSION_DENIED;;
       liftM SetIpcPrior;; h) data emptyParcel rest Hd) as (q & Hq & Hr).
  exists q. split; [done|]. intros s. rewrite ST_bind_eq, Hr, bind_require, bind_liftM.
  rewrite bool_decide_eq_true_2 by done. destruct (liftW SetIpcPrior s) as [? s1].
  by destruct (h _ s1) as [[? ?] ?].
Qed.

Lemma SendRequest_run {R} async code (h : X (S := S) Z Z) inp out rest :
  memberFuncMap_ !! code = Some h → unread out = item KToken SAMANAGER_INTERFACE_TOKEN :: rest →
  ∃ data, unread data = rest ∧ ∀ s,
    SendRequest (R := R) OnRemoteRequest async code (MkIpc inp out) s =
    let '(tr, s0) := liftW (gets w_trace) s in
    if negb (env_SendRequest tr code =? ERR_NONE) then (inr (env_SendRequest tr code), MkIpc emptyParcel out, s0)
    else
      let '(_, s1) := liftW SetIpcPrior s0 in
      let '(r, p, s2) := h (MkIpc data emptyParcel) s1 in
      if async then (inr ERR_NONE, MkIpc emptyParcel out, s2) else (inr (ended r), MkIpc (ip_out p) out, s2).
Proof.
  intros Hh Hd. destruct (OnRemoteRequest_handler code h out rest Hh Hd) as (d & Hd' & Hr).
  exists d. split; [done|]. intros s. unfold SendRequest. rewrite ST_bind_eq. simpl ip_out.
  destruct (liftW (gets w_trace) s) as [tr s0]. destruct (negb _); [done|].
  rewrite ST_bind_eq, Hr. destruct (liftW SetIpcPrior s0) as [? s1].
  destruct (h _ s1) as [[? ?] ?]. by destruct async.
Qed.

Lemma bind_sendOr {R A} code (h : X (S := S) Z Z) (e : Z → R) (f : unit → X (S := S) R A) inp out rest :
  memberFuncMap_ !! code = Some h → unread out = item KToken SAMANAGER_INTERFACE_TOKEN :: rest →
  ∃ data, unread data = rest ∧ ∀ s,
    (sendOr OnRemoteRequest code e ≫= f) (MkIpc inp out) s =
    let '(tr, s0) := liftW (gets w_trace) s in
    if negb (env_SendRequest tr code =? ERR_NONE) then (inl (e (env_SendRequest tr code)), MkIpc emptyParcel out, s0)
    else
      let '(_, s1) := liftW SetIpcPrior s0 in
      let '(r, p, s2) := h (MkIpc data emptyParcel) s1 in
      if ended r =? ERR_NONE then f tt (MkIpc (ip_out p) out) s2 else (inl (e (ended r)), MkIpc (ip_out p) out, s2).
Proof.
  intros Hh Hd. destruct (SendRequest_run (R := R) false code h inp out rest Hh Hd) as (d & Hd' & Hr).
  exists d. split; [done|]. intros s. unfold sendOr. rewrite X_bind_assoc, X_bind_eq, Hr.
  destruct (liftW (gets w_trace) s) as [tr s0]. destruct (env_SendRequest tr code =? ERR_NONE) eqn:He; simpl.
  - destruct (liftW SetIpcPrior s0) as [? s1]. destruct (h _ s1) as [[r p] s2]. by destruct (ended r =? ERR_NONE) eqn:E1.
  - by rewrite He.
Qed.

Lemma sendAsync_run code (h : X (S := S) Z Z) inp out rest :
  memberFuncMap_ !! code = Some h → unread out = item KToken SAMANAGER_INTERFACE_TOKEN :: rest →
  ∃ data, unread data = rest ∧ ∀ s,
    sendAsync OnRemoteRequest code (MkIpc inp out) s =
    let '(tr, s0) := liftW (gets w_trace) s in
    if negb (env_SendRequest tr code =? ERR_NONE) then (inl (env_SendRequest tr code), MkIpc emptyParcel out, s0)
    else
      let '(_, s1) := liftW SetIpcPrior s0 in
      let '(r, p, s2) := h (MkIpc data emptyParcel) s1 in (inr ERR_OK, MkIpc emptyParcel out, s2).
Proof.
  intros Hh Hd. destruct (SendRequest_run (R := Z) true code h inp out rest Hh Hd) as (d & Hd' & Hr).
  exists d. split; [done|]. intros s. unfold sendAsync. rewrite X_bind_eq, Hr.
  destruct (liftW (gets w_trace) s) as [tr s0]. destruct (env_SendRequest tr code =? ERR_NONE) eqn:He; simpl.
  - destruct (liftW SetIpcPrior s0) as [? s1]. by destruct (h _ s1) as [[r p] s2].
  - by rewrite He.
Qed.
End delivery.

(** The calls that are executed (the lemmas of the next files). *)
Create HintDb remote discriminated.

(** ** The executor *)

(** The handler of a code: the function map is a concrete table. *)
Ltac find_handler :=
  unfold memberFuncMap_;
  lazymatch goal with
  | H : SUPPORT_MULTI_INSTANCE = true |- _ => rewrite H; reflexivity
  | _ => destruct SUPPORT_MULTI_INSTANCE; reflexivity
  end.

Ltac unfold_head t := lazymatch t with ?f _ => unfold_head f | _ => unfold t end.

(** One instruction of a program whose parcels are known. *)
Ltac run1 :=
  match goal with
  | Ho : unread ?o = _ |- context [(put ?k ?v ?e ≫= ?f) (MkIpc ?i ?o) ?s] =>
      let o' := fresh "o" in let Ho' := fresh "Ho" in let Er := fresh "Er" in
      destruct (bind_put k v e f i o _ Ho) as (o' & Ho' & Er); rewrite Er; clear Er; simpl app in Ho'
  | Hi : unread ?i = item ?k ?v :: _ |- context [(get ?k ?e ≫= ?f) (MkIpc ?i ?o) ?s] =>
      let i' := fresh "i" in let Hi' := fresh "Hi" in let Er := fresh "Er" in
      destruct (bind_get k v e f i o _ Hi) as (i' & Hi' & Er); rewrite Er; clear Er; cbn [conv]
  | Hi : unread ?i = item ?k ?v :: _ |- context [get ?k ?e (MkIpc ?i ?o) ?s] =>
      let i' := fresh "i" in let Hi' := fresh "Hi" in let Er := fresh "Er" in
      let T := type of s in destruct (get_run (S := T) k v e i o _ Hi) as (i' & Hi' & Er); rewrite Er; clear Er; cbn [conv]
  | Hi : unread ?i = item ?k ?v :: _ |- context [(read ?k ≫= ?f) (MkIpc ?i ?o) ?s] =>
      let i' := fresh "i" in let Hi' := fresh "Hi" in let Er := fresh "Er" in
      destruct (bind_read k v f i o _ Hi) as (i' & Hi' & Er); rewrite Er; clear Er; cbn [conv default from_option id]
  | Hi : unread ?i = item ?k ?v :: _ |- context [read (R := ?R) ?k (MkIpc ?i ?o) ?s] =>
      let i' := fresh "i" in let Hi' := fresh "Hi" in let Er := fresh "Er" in
      let T := type of s in destruct (read_run (S := T) (R := R) k v i o _ Hi) as (i' & Hi' & Er); rewrite Er; clear Er; cbn [conv default from_option id]
  | Hh : memberFuncMap_ !! ?c = Some ?h, Ho : unread ?o = _
    |- context [(sendOr OnRemoteRequest ?c ?e ≫= ?f) (MkIpc ?i ?o) ?s] =>
      let d := fresh "d" in let Hd := fresh "Hd" in let Er := fresh "Er" in
      destruct (bind_sendOr c h e f i o _ Hh Ho) as (d & Hd & Er); rewrite Er; clear Er; unfold_head h
  | Hh : memberFuncMap_ !! ?c = Some ?h, Ho : unread ?o = _ |- context [sendAsync OnRemoteRequest ?c (MkIpc ?i ?o) ?s] =>
      let d := fresh "d" in let Hd := fresh "Hd" in let Er := fresh "Er" in
      destruct (sendAsync_run c h i o _ Hh Ho) as (d & Hd & Er); rewrite Er; clear Er; unfold_head h
  end.

Ltac run_pure :=
  first [progress change ERR_OK with ERR_NONE | rewrite X_bind_assoc | rewrite bind_require | rewrite bind_check | rewrite bind_int32 | rewrite bind_liftS
        | rewrite bind_liftM | rewrite bind_ret | rewrite bind_stop | rewrite stop_run | rewrite int32_end | rewrite X_ret_run
        | rewrite ST_bind_eq | rewrite ST_ret_run
        | rewrite i32_i32 | rewrite putObject_Some | rewrite putObject_None | rewrite isSome_Some | rewrite isSome_None
        | rewrite fmap_Some_run | rewrite bind_Some_run | rewrite bind_None_run | rewrite andb_false_r
        | rewrite eqb_none | rewrite i32_none | rewrite i32_sizeOf | rewrite (i32_id _ ERR_INVALID_VALUE_i32)
        | rewrite (eqb_nz _ ERR_INVALID_VALUE_nz) | rewrite (eqb_nz _ ERR_PERMISSION_DENIED_nz)
        | rewrite (eqb_nz _ ERR_NULL_OBJECT_nz) | rewrite (eqb_nz _ ERR_FLATTEN_OBJECT_nz)
        | rewrite (eqb_nz _ ERR_INVALID_OPERATION_nz)].

(** Decide the first part of a test. *)
Ltac split_test b :=
  lazymatch b with
  | negb ?c => split_test c
  | andb ?c _ => split_test c
  | orb ?c _ => split_test c
  | _ => let H := fresh "Hb" in destruct b eqn:H
  end.

(** Branches both sides share: the tests, and what the service answers. *)
Ltac branch :=
  match goal with
  | H : CheckInputSysAbilityId ?x = true |- context [i32 ?x] => rewrite (CheckInput_i32 x H)
  | H : ?b = true |- context [if ?b then _ else _] => rewrite H
  | H : ?b = false |- context [if ?b then _ else _] => rewrite H
  | |- context [if ?b then _ else _] =>
      lazymatch b with
      | context [match _ with _ => _ end] => fail
      | _ => split_test b
      end
  | |- context [match ?o with Some _ => _ | None => _ end] =>
      lazymatch o with
      | context [match _ with _ => _ end] => fail
      | _ => let H := fresh "Hopt" in destruct o eqn:H
      end
  | |- context [let '(_, _) := ?t in _] =>
      lazymatch t with
      | context [match _ with _ => _ end] => fail
      | _ => lazymatch type of t with ((_ + _) * _ * _)%type => fail | _ => idtac end
      end;
      match goal with
      | H : t = _ |- _ => rewrite H
      | _ => let H := fresh "Ha" in destruct t as [? ?] eqn:H
      end
  end.

Ltac unfold_spec :=
  unfold intCall, asyncCall, dataCall, specUserObject, mayGet, delivered, viewed, reported, sentResult, sentWith, allowed, guard.
Ltac unfold_handler :=
  progress unfold replyResult, replyObject, readSaId, readInterface, LoadSACheck, LoadRemoteSACheck,
    UnmarshalingSaExtraProp, processListenerInner, processListenerUserInner, writeProcessInfo, CheckSystemAbilityWrapper,
    ListExtensionSendReq, ReadProcessInfoFromParcel, TransformDeviceId, writeToken, sendResult.

Ltac execute :=
  repeat (first [run_pure | run1 | unfold_handler | branch]; cbn [ended ip_out ip_in negb andb orb fst snd isDistributed psc_AsObject]).

Ltac finish :=
  intros; first [reflexivity | congruence
    | repeat match goal with H : (i32 _ =? ERR_NONE) = true |- _ => apply Z.eqb_eq in H; rewrite H end; reflexivity].

(** Execute a call with the handler of its code. *)
Tactic Notation "calls" constr(c) "with" constr(h) :=
  pose proof unread_empty as H0; assert (memberFuncMap_ !! c = Some h) as Hh by find_handler;
  unfold_spec; first [rewrite transact_eq | rewrite ST_bind_eq, transact_eq]; cbn [psc_AsObject]; execute; finish.
