(* ===== verification/IpcCalls.v ===== *)
(** Remote calls do what the specification says: those that return an error code, those that
    return an object or data, and those with a user id. *)
From S2P Require Import Prelude Types World Parcel Ffrt Util ManagerBase IpcInterface Stub Proxy IpcLaws IpcSpec IpcExec.

(** ** Calls that return an error code *)

Section intCalls.
Context `{E : Env} `{IE : !IpcEnv} `{P : Parcels} `{PL : !ParcelLaws P} `{RP : !RoomyParcels P}.
Context {S : Type} `{HS : HasWorld S} {I : ISystemAbilityManager S} (Remote : bool).
Abbreviation stub := OnRemoteRequest.

Lemma Unload_call said s : UnloadSystemAbility Remote stub said s = specUnload Remote said s.
Proof. unfold UnloadSystemAbility, specUnload. calls Code.UNLOAD_SYSTEM_ABILITY_TRANSACTION with UnloadSystemAbilityInner. Qed.
Lemma CancelUnload_call said s : CancelUnloadSystemAbility Remote stub said s = specCancelUnload Remote said s.
Proof. unfold CancelUnloadSystemAbility, specCancelUnload. calls Code.CANCEL_UNLOAD_SYSTEM_ABILITY_TRANSACTION with CancelUnloadSystemAbilityInner. Qed.
Lemma Subscribe_call said l s : SubscribeSystemAbilityInner Remote stub said l s = 
  specSubscribe Remote said l Code.SUBSCRIBE_SYSTEM_ABILITY_TRANSACTION (iSubscribeSystemAbility said) s.
Proof. unfold SubscribeSystemAbilityInner, specSubscribe. destruct l as [l|]; calls Code.SUBSCRIBE_SYSTEM_ABILITY_TRANSACTION with SubsSystemAbilityInner. Qed.
Lemma UnSubscribe_call said l s : UnSubscribeSystemAbility Remote stub said l s = 
  specSubscribe Remote said l Code.UNSUBSCRIBE_SYSTEM_ABILITY_TRANSACTION (iUnSubscribeSystemAbility said) s.
Proof. unfold UnSubscribeSystemAbility, specSubscribe. destruct l as [l|]; calls Code.UNSUBSCRIBE_SYSTEM_ABILITY_TRANSACTION with UnSubsSystemAbilityInner. Qed.
Lemma Load_call said cb s : LoadSystemAbility Remote stub said cb s = 
  specLoad Remote said cb Code.LOAD_SYSTEM_ABILITY_TRANSACTION (iLoadSystemAbility said) s.
Proof. unfold LoadSystemAbility, specLoad. destruct cb as [cb|]; calls Code.LOAD_SYSTEM_ABILITY_TRANSACTION with LoadSystemAbilityInner. Qed.
Lemma LoadRemote_call said dev cb s : LoadSystemAbilityRemote Remote stub said dev cb s = specLoadRemote Remote said dev cb s.
Proof. unfold LoadSystemAbilityRemote, specLoadRemote. destruct cb as [cb|]; calls Code.LOAD_REMOTE_SYSTEM_ABILITY_TRANSACTION with LoadRemoteSystemAbilityInner. Qed.
Lemma Add_call said o p s : AddSystemAbilityTransaction Remote stub said o p s = specAdd Remote said o p s.
Proof. unfold AddSystemAbilityTransaction, AddSystemAbilityWrapper, MarshalSAExtraProp, specAdd, sentProp.
  destruct o as [o|]; calls Code.ADD_SYSTEM_ABILITY_TRANSACTION with AddSystemAbilityInner. Qed.
Lemma Remove_call said s : RemoveSystemAbilityTransaction Remote stub said s = specRemove Remote said s.
Proof. unfold RemoveSystemAbilityTransaction, RemoveSystemAbilityWrapper, specRemove. calls Code.REMOVE_SYSTEM_ABILITY_TRANSACTION with RemoveSystemAbilityInner. Qed.
Lemma AddOnDemand_call said name s : AddOnDemandSystemAbilityInfo Remote stub said name s = specAddOnDemand Remote said name s.
Proof. unfold AddOnDemandSystemAbilityInfo, specAddOnDemand. calls Code.ADD_ONDEMAND_SYSTEM_ABILITY_TRANSACTION with AddOndemandSystemAbilityInner. Qed.
Lemma AddProcess_call name o s : AddSystemProcess Remote stub name o s = specAddProcess Remote name o s.
Proof. unfold AddSystemProcess, AddSystemAbilityWrapper, specAddProcess. destruct o as [o|]; calls Code.ADD_SYSTEM_PROCESS_TRANSACTION with AddSystemProcessInner. Qed.
Lemma StartFail_call said err s : OnStartSystemAbilityFail Remote stub said err s = specStartFail Remote said err s.
Proof. unfold OnStartSystemAbilityFail, specStartFail. calls Code.ONSTART_SYSTEM_ABILITY_FAIL_TRANSACTION with OnStartSystemAbilityFailInner. Qed.
Lemma SendStrategy_call type ids level action s : SendStrategy Remote stub type ids level action s = 
  specSendStrategy Remote type ids level action s.
Proof. unfold SendStrategy, specSendStrategy. calls Code.SEND_STRATEGY_TRANASACTION with SendStrategyInner. Qed.
Lemma SubscribeProcess_call l s : SubscribeSystemProcess Remote stub l s = 
  specSubscribeProcess Remote l Code.SUBSCRIBE_SYSTEM_PROCESS_TRANSACTION iSubscribeSystemProcess s.
Proof. unfold SubscribeSystemProcess, processListenerCall, specSubscribeProcess.
  destruct l as [[? [o|]]|]; calls Code.SUBSCRIBE_SYSTEM_PROCESS_TRANSACTION with SubscribeSystemProcessInner. Qed.
Lemma UnSubscribeProcess_call l s : UnSubscribeSystemProcess Remote stub l s = 
  specSubscribeProcess Remote l Code.UNSUBSCRIBE_SYSTEM_PROCESS_TRANSACTION iUnSubscribeSystemProcess s.
Proof. unfold UnSubscribeSystemProcess, processListenerCall, specSubscribeProcess.
  destruct l as [[? [o|]]|]; calls Code.UNSUBSCRIBE_SYSTEM_PROCESS_TRANSACTION with UnSubscribeSystemProcessInner. Qed.
Lemma SubscribeLowMem_call l s : SubscribeLowMemSystemProcess Remote stub l s = 
  specSubscribeProcess Remote l Code.SUBSCRIBE_LOWMEM_SYSTEM_PROCESS_TRANSACTION iSubscribeLowMemSystemProcess s.
Proof. unfold SubscribeLowMemSystemProcess, processListenerCall, specSubscribeProcess.
  destruct l as [[? [o|]]|]; calls Code.SUBSCRIBE_LOWMEM_SYSTEM_PROCESS_TRANSACTION with SubscribeLowMemSystemProcessInner. Qed.
Lemma UnSubscribeLowMem_call l s : UnSubscribeLowMemSystemProcess Remote stub l s = 
  specSubscribeProcess Remote l Code.UNSUBSCRIBE_LOWMEM_SYSTEM_PROCESS_TRANSACTION iUnSubscribeLowMemSystemProcess s.
Proof. unfold UnSubscribeLowMemSystemProcess, processListenerCall, specSubscribeProcess.
  destruct l as [[? [o|]]|]; calls Code.UNSUBSCRIBE_LOWMEM_SYSTEM_PROCESS_TRANSACTION with UnSubscribeLowMemSystemProcessInner. Qed.
Lemma UnloadAllIdle_call s : UnloadAllIdleSystemAbility Remote stub s = specUnloadAllIdle Remote s.
Proof. unfold UnloadAllIdleSystemAbility, specUnloadAllIdle. calls Code.UNLOAD_ALL_IDLE_SYSTEM_ABILITY_TRANSACTION with UnloadAllIdleSystemAbilityInner. Qed.
Lemma UnloadProcess_call l s : UnloadProcess Remote stub l s = specUnloadProcess Remote l s.
Proof. unfold UnloadProcess, specUnloadProcess. calls Code.UNLOAD_IDLE_PROCESS_BYLIST with UnloadProcessInner. Qed.
Lemma SetPrior_call b s : SetSamgrIpcPrior Remote stub b s = specSetPrior Remote b s.
Proof. unfold SetSamgrIpcPrior, specSetPrior. calls Code.SET_SAMGR_IPC_PRIOR_TRANSACTION with SetSamgrIpcPriorInner. Qed.
Lemma UserState_call u st s : OnUserStateChanged Remote stub u st s = specUserState Remote u st s.
Proof. unfold OnUserStateChanged, specUserState.
  destruct SUPPORT_MULTI_INSTANCE eqn:HM; [|done]. cbn [negb]. calls Code.ON_USER_STATE_CHANGED_TRANSACTION with OnUserStateChangedInner. Qed.
End intCalls.

#[export] Hint Resolve Unload_call CancelUnload_call Subscribe_call UnSubscribe_call Load_call LoadRemote_call Add_call Remove_call AddOnDemand_call AddProcess_call StartFail_call SendStrategy_call SubscribeProcess_call UnSubscribeProcess_call SubscribeLowMem_call UnSubscribeLowMem_call UnloadAllIdle_call UnloadProcess_call SetPrior_call UserState_call : remote.

(** ** Calls that return an object or data *)

Section dataCalls.
Context `{E : Env} `{IE : !IpcEnv} `{P : Parcels} `{PL : !ParcelLaws P} `{RP : !RoomyParcels P}.
Context {S : Type} `{HS : HasWorld S} {I : ISystemAbilityManager S} (Remote : bool).
Abbreviation stub := OnRemoteRequest.

(** *** Calls that return an object *)

Lemma Check_call said s : CheckSystemAbilityTransaction Remote stub said s = specCheck Remote said s.
Proof. unfold CheckSystemAbilityTransaction, specCheck. calls Code.CHECK_SYSTEM_ABILITY_TRANSACTION with CheckSystemAbilityInner. Qed.
Lemma CheckRemote_call said dev s : CheckSystemAbilityRemote Remote stub said dev ERR_NONE s = specCheckRemote Remote said dev s.
Proof. unfold CheckSystemAbilityRemote, specCheckRemote, found. calls Code.CHECK_REMOTE_SYSTEM_ABILITY_TRANSACTION with CheckRemtSystemAbilityInner. Qed.
Lemma CheckExist_call said b s : CheckSystemAbilityImmediately Remote stub said b ERR_NONE s = specCheckExist Remote said b s.
Proof. unfold CheckSystemAbilityImmediately, specCheckExist. calls Code.CHECK_SYSTEM_ABILITY_IMMEDIATELY_TRANSACTION with CheckSystemAbilityImmeInner. Qed.
Lemma LocalManager_call said s : GetLocalAbilityManagerProxy Remote stub said s = specLocalManager Remote said s.
Proof. unfold GetLocalAbilityManagerProxy, specLocalManager. calls Code.GET_LOCAL_ABILITY_MANAGER_PROXY_TRANSCATION with GetLocalAbilityManagerProxyInner. Qed.

(** *** Calls that return data *)

Lemma OnDemandIds_call s : GetOnDemandSystemAbilityIds Remote stub s = specOnDemandIds Remote s.
Proof. unfold GetOnDemandSystemAbilityIds, specOnDemandIds. calls Code.GET_ONDEMAND_SYSTEM_ABILITY_IDS_TRANSACTION with GetOnDemandSystemAbilityIdsInner. Qed.
Lemma ExtensionIds_call ext s : GetExtensionSaIds Remote stub ext s = specExtensionIds Remote ext s.
Proof. unfold GetExtensionSaIds, specExtensionIds. calls Code.GET_EXTENSION_SA_IDS_TRANSCATION with GetExtensionSaIdsInner. Qed.
Lemma ExtraIds_call said name s : GetCommonEventExtraDataIdlist Remote stub said name s = specExtraIds Remote said name s.
Proof. unfold GetCommonEventExtraDataIdlist, specExtraIds. calls Code.GET_COMMON_EVENT_EXTRA_ID_LIST_TRANSCATION with GetCommonEventExtraDataIdlistInner. Qed.
Lemma List_call flags s : ListSystemAbilities Remote stub flags s = specList Remote flags s.
Proof. unfold ListSystemAbilities, specList. calls Code.LIST_SYSTEM_ABILITY_TRANSACTION with ListSystemAbilityInner. Qed.
Lemma ProcessInfo_call said out s : GetSystemProcessInfo Remote stub said out s = specProcessInfo Remote said out s.
Proof. unfold GetSystemProcessInfo, specProcessInfo, sentProcess. calls Code.GET_SYSTEM_PROCESS_INFO_TRANSACTION with GetSystemProcessInfoInner. Qed.
End dataCalls.

#[export] Hint Resolve Check_call CheckRemote_call CheckExist_call LocalManager_call OnDemandIds_call ExtensionIds_call ExtraIds_call List_call ProcessInfo_call : remote.

(** ** Calls with a user id *)

(** They exist when the service is built for several instances. *)

Section userCalls.
Context `{E : Env} `{IE : !IpcEnv} `{P : Parcels} `{PL : !ParcelLaws P} `{RP : !RoomyParcels P}.
Context {S : Type} `{HS : HasWorld S} {I : ISystemAbilityManager S} (Remote : bool).
Hypothesis HM : SUPPORT_MULTI_INSTANCE = true.
Abbreviation stub := OnRemoteRequest.

Lemma GetUser_call said u s : GetSystemAbilityUser Remote stub said u s = specGetUser Remote said u s.
Proof. unfold GetSystemAbilityUser, objectOfUser, specGetUser.
  calls Code.GET_SYSTEM_ABILITY_WITH_USERID_TRANSACTION with GetSystemAbilityWithUserIdInner. Qed.
Lemma CheckUser_call said u s : CheckSystemAbilityUser Remote stub said u s = specCheckUser Remote said u s.
Proof. unfold CheckSystemAbilityUser, objectOfUser, specCheckUser.
  calls Code.CHECK_SYSTEM_ABILITY_WITH_USERID_TRANSACTION with CheckSystemAbilityWithUserIdInner. Qed.
Lemma LocalManagerUser_call said u s : GetLocalAbilityManagerProxyUser Remote stub said u s = specLocalManagerUser Remote said u s.
Proof. unfold GetLocalAbilityManagerProxyUser, objectOfUser, specLocalManagerUser.
  calls Code.GET_LOCAL_ABILITY_MANAGER_PROXY_WITH_USERID_TRANSACTION with GetLocalAbilityManagerProxyWithUserIdInner. Qed.
Lemma CheckByUserId_call said b u s : CheckSystemAbilityByUserId Remote stub said b u s = specCheckByUserId Remote said b u s.
Proof. unfold CheckSystemAbilityByUserId, specCheckByUserId.
  calls Code.CHECK_SYSTEM_ABILITY_BY_USERID_TRANSACTION with CheckSystemAbilityByUserIdInner. Qed.
Lemma ProcessInfoUser_call said out u s : GetSystemProcessInfoUser Remote stub said out u s = specProcessInfoUser Remote said out u s.
Proof. unfold GetSystemProcessInfoUser, specProcessInfoUser, sentProcess.
  calls Code.GET_SYSTEM_PROCESS_INFO_WITH_USERID_TRANSACTION with GetSystemProcessInfoWithUserIdInner. Qed.
Lemma LoadUser_call said cb u s : LoadSystemAbilityUser Remote stub said cb u s = 
  specLoad Remote said cb Code.LOAD_SYSTEM_ABILITY_WITH_USERID_TRANSACTION (λ cb, iLoadSystemAbilityUser said cb (i32 u)) s.
Proof. unfold LoadSystemAbilityUser, specLoad. destruct cb as [cb|]; calls Code.LOAD_SYSTEM_ABILITY_WITH_USERID_TRANSACTION with LoadSystemAbilityWithUserIdInner. Qed.
Lemma SubscribeUser_call said l u s : SubscribeSystemAbilityUser Remote stub said l u s = 
  specSubscribe Remote said l Code.SUBSCRIBE_SYSTEM_ABILITY_WITH_USERID_TRANSACTION (λ l, iSubscribeSystemAbilityUser said l (i32 u)) s.
Proof. unfold SubscribeSystemAbilityUser, listenerOfUser, specSubscribe. destruct l as [l|]; calls Code.SUBSCRIBE_SYSTEM_ABILITY_WITH_USERID_TRANSACTION with SubsSystemAbilityWithUserIdInner. Qed.
Lemma UnSubscribeUser_call said l u s : UnSubscribeSystemAbilityUser Remote stub said l u s = 
  specSubscribe Remote said l Code.UNSUBSCRIBE_SYSTEM_ABILITY_WITH_USERID_TRANSACTION (λ l, iUnSubscribeSystemAbilityUser said l (i32 u)) s.
Proof. unfold UnSubscribeSystemAbilityUser, listenerOfUser, specSubscribe. destruct l as [l|]; calls Code.UNSUBSCRIBE_SYSTEM_ABILITY_WITH_USERID_TRANSACTION with UnSubsSystemAbilityWithUserIdInner. Qed.
Lemma SubscribeProcessUser_call l u s : SubscribeSystemProcessUser Remote stub l u s = 
  specSubscribeProcess Remote l Code.SUBSCRIBE_SYSTEM_PROCESS_WITH_USERID_TRANSACTION (λ l, iSubscribeSystemProcessUser l (i32 u)) s.
Proof. unfold SubscribeSystemProcessUser, processListenerOfUser, specSubscribeProcess.
  destruct l as [[? [o|]]|]; calls Code.SUBSCRIBE_SYSTEM_PROCESS_WITH_USERID_TRANSACTION with SubscribeSystemProcessWithUserIdInner. Qed.
Lemma UnSubscribeProcessUser_call l u s : UnSubscribeSystemProcessUser Remote stub l u s = 
  specSubscribeProcess Remote l Code.UNSUBSCRIBE_SYSTEM_PROCESS_WITH_USERID_TRANSACTION (λ l, iUnSubscribeSystemProcessUser l (i32 u)) s.
Proof. unfold UnSubscribeSystemProcessUser, processListenerOfUser, specSubscribeProcess.
  destruct l as [[? [o|]]|]; calls Code.UNSUBSCRIBE_SYSTEM_PROCESS_WITH_USERID_TRANSACTION with UnSubscribeSystemProcessWithUserIdInner. Qed.
End userCalls.

#[export] Hint Resolve GetUser_call CheckUser_call LocalManagerUser_call CheckByUserId_call ProcessInfoUser_call LoadUser_call SubscribeUser_call UnSubscribeUser_call SubscribeProcessUser_call UnSubscribeProcessUser_call : remote.
