(* ===== verification/IpcListCalls.v ===== *)
(** Remote calls that carry a list: the encodings of the lists, and the calls. *)
From S2P Require Import Prelude Types World Parcel Ffrt Util ManagerBase IpcInterface Stub Proxy IpcLaws IpcSpec IpcExec.

Create HintDb parcel discriminated.

(** ** Encodings: the items each element of a list becomes *)

Definition idleItems (i : IdleProcessInfo) : list Item :=
  [item KInt32 (ipi_pid i); item KString16 (ipi_processName i); item KInt64 (ipi_lastIdleTime i)].
Definition processItems (i : SystemProcessInfo) : list Item :=
  [item KString (spi_processName i); item KInt32 (spi_pid i); item KInt32 (spi_uid i)].
Definition objectItems (o : RemoteObject) : list Item := [item KObject o].
Definition extensionItems (i : Z * RemoteObject) : list Item := [item KInt32 i.1; item KObject i.2].
Definition conditionItems (c : SystemAbilityOnDemandCondition) : list Item :=
  [item KInt32 (sac_eventId c); item KString (sac_name c); item KString (sac_value c)].
Definition eventItems (e : SystemAbilityOnDemandEvent) : list Item :=
  [item KInt32 (sae_eventId e); item KString (sae_name e); item KString (sae_value e); item KBool (sae_persistence e);
   item KInt32 (sizeOf (sae_conditions e))] ++ (sae_conditions e ≫= conditionItems) ++ [item KBool (sae_enableOnce e)].
Definition listItems {A} (l : list A) (enc : A → list Item) : list Item := item KInt32 (sizeOf l) :: (l ≫= enc).

Lemma small_length {A} (l : list A) : small l → Z.of_nat (length l) < 2 ^ 31.
Proof. unfold small, LAST_SYS_ABILITY_ID. lia. Qed.
Lemma small_fmap {A B} (f : A → B) l : small (f <$> l) ↔ small l.
Proof. unfold small. by rewrite length_fmap. Qed.
Lemma sizeOf_small {A} (l : list A) : small l → sizeOf l = Z.of_nat (length l).
Proof. intros H%small_length. apply i32_id. unfold is_i32. lia. Qed.
Lemma smallEvents_sent l : smallEvents (sentEvent <$> l) → smallEvents l.
Proof.
  intros [H1 H2]. split; [by apply small_fmap in H1|]. intros e He.
  specialize (H2 (sentEvent e) (list_elem_of_fmap_2 _ _ _ He)). by apply small_fmap in H2.
Qed.

Section lists.
Context `{E : Env} `{IE : !IpcEnv} `{P : Parcels} `{PL : !ParcelLaws P} `{RP : !RoomyParcels P} {S : Type} `{HS : HasWorld S}.

(** ** Writers *)

Ltac writes_items := repeat first [apply writes_put | apply (writes_bind _ _ [_]); [apply writes_put|]].

Lemma writes_condition {R} c (e : R) : writes (S := S) (WriteOnDemandConditionToParcel c e) (conditionItems c).
Proof. unfold WriteOnDemandConditionToParcel, conditionItems. writes_items. Qed.

Lemma writes_events {R} l (e : R) : writes (S := S) (WriteOnDemandEventsToParcel l e) (listItems l eventItems).
Proof.
  apply (writes_bind _ _ [_]); [apply writes_put|]. apply writes_each. intros ev _.
  apply (writes_bind _ _ [_; _; _]); [unfold WriteOnDemandEventToParcel; writes_items|].
  do 2 (apply (writes_bind _ _ [_]); [apply writes_put|]).
  apply writes_bind; [|apply writes_put]. apply writes_each. intros c _. apply writes_condition.
Qed.

Lemma writes_idle {R} l (e : R) : writes (S := S) (each l (λ i,
  put KInt32 (ipi_pid i) e;; put KString16 (ipi_processName i) e;; put KInt64 (ipi_lastIdleTime i) e)) (l ≫= idleItems).
Proof. apply writes_each. intros i _. unfold idleItems. writes_items. Qed.
Lemma writes_processes l : writes (S := S) (each l writeProcessInfo) (l ≫= processItems).
Proof. apply writes_each. intros i _. unfold writeProcessInfo, processItems. writes_items. Qed.
Lemma writes_objects {R} l (e : R) : writes (S := S) (each l (λ o, put KObject o e)) (l ≫= objectItems).
Proof. apply writes_each. intros i _. apply writes_put. Qed.
Lemma writes_extensions {R} (l : list (Z * RemoteObject)) (e : R) :
  writes (S := S) (each l (λ i, put KInt32 i.1 e;; put KObject i.2 e)) (l ≫= extensionItems).
Proof. apply writes_each. intros i _. unfold extensionItems. writes_items. Qed.

(** ** Readers *)

Ltac reads_items :=
  repeat first [apply reads_ret | eapply (reads_bind _ _ [_]); [apply reads_get|] | apply reads_fmap; apply reads_get].

Lemma reads_condition {R} c (e : R) :
  reads (S := S) (ReadOnDemandConditionFromParcel e) (conditionItems c) (sentCondition c).
Proof. unfold ReadOnDemandConditionFromParcel, conditionItems. reads_items. Qed.

(** A list whose size is checked, followed by [r]. *)
Lemma reads_list {R A B C} (l : list A) (f : X (S := S) R B) (enc : A → list Item) (dec : A → B) (e : R)
    (n : list B → X R C) r c :
  (∀ a, enc a ≠ []) → small l → (∀ a, a ∈ l → reads f (enc a) (dec a)) → reads (n (dec <$> l)) r c →
  reads (size ← get KInt32 e; checkSize size e;; x ← times (Z.to_nat size) f; n x) (listItems l enc ++ r) c.
Proof.
  intros He Hl Hf Hn. eapply (reads_bind _ _ [_]); [apply reads_get|]. cbn [conv]. rewrite i32_sizeOf.
  apply reads_sized; [done|by apply small_length|]. eapply reads_bind; [|exact Hn].
  rewrite sizeOf_small, Nat2Z.id by done. by apply reads_times.
Qed.

Lemma reads_event {R} ev (e : R) :
  small (sae_conditions ev) → reads (S := S) (ReadOnDemandEventFromParcel e) (eventItems ev) (sentEvent ev).
Proof.
  intros H. unfold ReadOnDemandEventFromParcel, eventItems.
  do 4 (eapply (reads_bind _ _ [_]); [apply reads_get|]).
  apply (reads_list _ _ conditionItems sentCondition); [done|done|intros; apply reads_condition|]. reads_items.
Qed.

Lemma reads_whole {R A B} (l : list A) (f : X (S := S) R B) (enc : A → list Item) (dec : A → B) (e : R) :
  (∀ a, enc a ≠ []) → small l → (∀ a, a ∈ l → reads f (enc a) (dec a)) →
  reads (size ← get KInt32 e; checkSize size e;; times (Z.to_nat size) f) (listItems l enc) (dec <$> l).
Proof.
  intros He Hl Hf. eapply (reads_bind _ _ [_]); [apply reads_get|]. cbn [conv]. rewrite i32_sizeOf.
  rewrite <- (app_nil_r (l ≫= enc)). apply reads_sized; [done|by apply small_length|].
  rewrite app_nil_r, sizeOf_small, Nat2Z.id by done. by apply reads_times.
Qed.

Lemma reads_events {R} l (e : R) :
  smallEvents l → reads (S := S) (ReadOnDemandEventsFromParcel e) (listItems l eventItems) (sentEvent <$> l).
Proof. intros [H1 H2]. apply reads_whole; [done|done|]. intros ev Hev. by apply reads_event, H2. Qed.

(** A list that may be empty, or whose size is checked and is not. *)
Lemma reads_maybe {A B} (l : list A) (f : X (S := S) (Z * list B) B) (enc : A → list Item) (dec : A → B) e :
  (∀ a, enc a ≠ []) → small l → (∀ a, a ∈ l → reads f (enc a) (dec a)) →
  reads (size ← get KInt32 e;
    if size =? 0 then mret (ERR_OK, [])
    else checkSize size e;; x ← times (Z.to_nat size) f; mret (ERR_OK, x)) (listItems l enc) (ERR_OK, dec <$> l).
Proof.
  intros He Hl Hf. destruct (decide (l = [])) as [->|Hn].
  { eapply (reads_bind _ _ [_]); [apply reads_get|apply reads_ret]. }
  eapply (reads_bind _ _ [_]); [apply reads_get|]. cbn [conv]. rewrite i32_sizeOf.
  replace (sizeOf l =? 0) with false.
  2: { symmetry. apply Z.eqb_neq. rewrite sizeOf_small by done. by destruct l. }
  rewrite <- (app_nil_r (l ≫= enc)). apply reads_sized; [done|by apply small_length|].
  rewrite app_nil_r, sizeOf_small, Nat2Z.id by done. by apply reads_fmap, reads_times.
Qed.

Lemma reads_idle l : small l →
  reads (S := S) ReadIdleProcessInfoFromParcel (listItems l idleItems) (ERR_OK, sentIdle <$> l).
Proof. intros H. apply reads_maybe; [done|done|]. intros i _. unfold idleItems. reads_items. Qed.
Lemma reads_processes l : small l →
  reads (S := S) ReadSystemProcessFromParcel (listItems l processItems) (ERR_OK, sentProcess <$> l).
Proof. intros H. apply reads_maybe; [done|done|]. intros i _. unfold ReadProcessInfoFromParcel, processItems. reads_items. Qed.

(** A list whose size is compared with the largest SA id. *)
Lemma reads_bounded {A B} (l : list A) (f : X (S := S) (Z * list B) B) (enc : A → list Item) (dec : A → B) :
  small l → (∀ a, a ∈ l → reads f (enc a) (dec a)) → reads (readBounded f) (listItems l enc) (ERR_OK, dec <$> l).
Proof.
  intros Hl Hf. eapply (reads_bind _ _ [_]); [apply reads_get|]. cbn [conv]. rewrite i32_sizeOf, sizeOf_small by done.
  rewrite (proj2 (Z.ltb_ge _ _)) by apply Hl. apply (reads_bind _ _ [] _ tt); [apply reads_ret|].
  rewrite Nat2Z.id. by apply reads_fmap, reads_times.
Qed.

Lemma reads_objects l (e : Z * list RemoteObject) : small l →
  reads (S := S) (readBounded (get KObject e)) (listItems l objectItems) (ERR_OK, l).
Proof.
  intros H. rewrite <- (list_fmap_id l) at 2. apply reads_bounded; [done|]. intros o _. apply reads_get.
Qed.
Lemma reads_extensions l (e : Z * list (Z * RemoteObject)) : small l →
  reads (S := S) (readBounded (said ← get KInt32 e; o ← get KObject e; mret (said, o)))
    (listItems l extensionItems) (ERR_OK, (λ i, (i32 i.1, i.2)) <$> l).
Proof. intros H. apply reads_bounded; [done|]. intros i _. unfold extensionItems. reads_items. Qed.
End lists.

#[export] Hint Resolve writes_events writes_idle writes_processes writes_objects writes_extensions : parcel.

(** ** The calls *)

(** Run a segment that writes. *)
Ltac run_writes :=
  match goal with
  | Ho : unread ?o = _ |- context [(?m ≫= ?f) (MkIpc ?i ?o) ?s] =>
      let Hw := fresh "Hw" in eassert (writes m _) as Hw by (solve [eauto with parcel]);
      let o' := fresh "o" in let Ho' := fresh "Ho" in let Er := fresh "Er" in
      destruct (bind_writes m f i o _ _ Hw Ho) as (o' & Ho' & Er); rewrite Er; clear Er Hw; simpl app in Ho'
  end.

(** Run the segment [m] at the end of a program with [H : reads m _ _]. *)
Ltac run_reads H :=
  lazymatch type of H with
  | reads ?m ?its ?a =>
      match goal with
      | Hi : unread ?i = _ |- context [MkIpc ?i ?o] =>
          let i' := fresh "i" in let Er := fresh "Er" in
          destruct (H i o [] (eq_trans Hi (eq_sym (app_nil_r its)))) as (i' & _ & Er); rewrite Er; clear Er
      | Hi : unread ?i = _ |- context [(m ≫= ?f) (MkIpc ?i ?o) ?s] =>
          let i' := fresh "i" in let Hi' := fresh "Hi" in let Er := fresh "Er" in
          destruct (bind_reads m f i o [] _ _ H (eq_trans Hi (eq_sym (app_nil_r its)))) as (i' & Hi' & Er); rewrite Er; clear Er
      end
  end.

(** Execute a call up to the list its reply ends with. *)
Tactic Notation "listcalls" constr(c) "with" constr(h) :=
  pose proof unread_empty as H0; assert (memberFuncMap_ !! c = Some h) as Hh by find_handler;
  unfold_spec; rewrite transact_eq; execute; try (run_writes; execute); try finish; intros Hs;
  try apply small_fmap in Hs.

Section calls.
Context `{E : Env} `{IE : !IpcEnv} `{P : Parcels} `{PL : !ParcelLaws P} `{RP : !RoomyParcels P}.
Context {S : Type} `{HS : HasWorld S} {I : ISystemAbilityManager S} (Remote : bool).
Abbreviation stub := OnRemoteRequest.

Lemma Lru_call s : small (specLru Remote s).1.2 → GetLruIdleSystemAbilityProc Remote stub s = specLru Remote s.
Proof.
  unfold GetLruIdleSystemAbilityProc, specLru.
  listcalls Code.GET_LRU_IDLE_SYSTEM_ABILITY_PROCESS_TRANSACTION with GetLruIdleSystemAbilityProcInner.
  run_reads (reads_idle (S := S) _ Hs). finish.
Qed.

Lemma Running_call s : small (specRunning Remote s).1.2 → GetRunningSystemProcess Remote stub s = specRunning Remote s.
Proof.
  unfold GetRunningSystemProcess, specRunning.
  listcalls Code.GET_RUNNING_SYSTEM_PROCESS_TRANSACTION with GetRunningSystemProcessInner.
  run_reads (reads_processes (S := S) _ Hs). finish.
Qed.

Lemma ExtensionObjects_call ext s :
  small (specExtensionObjects Remote ext s).1.2 → GetExtensionRunningSaList Remote stub ext s = specExtensionObjects Remote ext s.
Proof.
  unfold GetExtensionRunningSaList, specExtensionObjects.
  listcalls Code.GET_EXTERNSION_SA_LIST_TRANSCATION with GetExtensionRunningSaListInner.
  run_reads (reads_objects (S := S) _ (ERR_FLATTEN_OBJECT, []) Hs). finish.
Qed.

Lemma ExtensionInfos_call ext s :
  small (specExtensionInfos Remote ext s).1.2 → GetRunningSaExtensionInfoList Remote stub ext s = specExtensionInfos Remote ext s.
Proof.
  unfold GetRunningSaExtensionInfoList, specExtensionInfos.
  listcalls Code.GET_SA_EXTENSION_INFO_TRANSCATION with GetRunningSaExtensionInfoListInner.
  run_reads (reads_extensions (S := S) _ (ERR_FLATTEN_OBJECT, []) Hs). finish.
Qed.

Lemma GetPolicy_call said type s :
  smallEvents (specGetPolicy Remote said type s).1.2 → GetOnDemandPolicy Remote stub said type s = specGetPolicy Remote said type s.
Proof.
  unfold GetOnDemandPolicy, specGetPolicy.
  listcalls Code.GET_ONDEAMND_POLICY_TRANSACTION with GetOnDemandPolicyInner.
  apply smallEvents_sent in Hs.
  run_reads (reads_events (S := S) _ (ERR_FLATTEN_OBJECT, @nil SystemAbilityOnDemandEvent) Hs). execute. finish.
Qed.

Lemma UpdatePolicy_call said type events s :
  smallEvents events → UpdateOnDemandPolicy Remote stub said type events s = specUpdatePolicy Remote said type events s.
Proof.
  unfold UpdateOnDemandPolicy, specUpdatePolicy. 
  listcalls Code.UPDATE_ONDEAMND_POLICY_TRANSACTION with UpdateOnDemandPolicyInner.
  run_reads (reads_events (S := S) _ ERR_FLATTEN_OBJECT Hs). execute. finish.
Qed.

(** The reply itself is the caller's parcel: the caller reads the data from it. *)
Lemma ExtraData_call id s :
  asData (λ r p, RpExtraData r (if r =? ERR_OK then (Read KExtraData p).1 else None)) (GetOnDemandReasonExtraData Remote stub id) s =
  asData RpExtraData (specExtraData Remote id) s.
Proof.
  unfold asData, GetOnDemandReasonExtraData, specExtraData.
  pose proof unread_empty as H0.
  assert (memberFuncMap_ !! Code.GET_ONDEMAND_REASON_EXTRA_DATA_TRANSACTION = Some GetOnDemandReasonExtraDataInner) as Hh by find_handler.
  unfold_spec. execute; try finish.
  by rewrite (proj1 (Read_unread KExtraData _ _ [] Hi0)).
Qed.
End calls.

#[export] Hint Resolve Lru_call Running_call ExtensionObjects_call ExtensionInfos_call GetPolicy_call UpdatePolicy_call ExtraData_call : remote.
