(* ===== verification/IpcRefines.v ===== *)
(** Every remote call does what the specification says: proxy, parcels and stub
    together are the access-control policy around the service. *)
From S2P Require Import Prelude Types World Parcel Ffrt Util ManagerBase IpcInterface Stub Proxy IpcLaws IpcSpec IpcExec IpcCalls IpcListCalls.

Section refines.
Context `{E : Env} `{IE : !IpcEnv} `{P : Parcels} `{PL : !ParcelLaws P} `{RP : !RoomyParcels P}.
Context {S : Type} `{HS : HasWorld S} {I : ISystemAbilityManager S} (Remote : bool).

Lemma asInt_ext m n (s : S) : m s = n s → asInt m s = asInt n s.
Proof. unfold asInt. intros H. by rewrite !ST_bind_eq, H. Qed.
Lemma asObject_ext m n (s : S) : m s = n s → asObject m s = asObject n s.
Proof. unfold asObject. intros H. by rewrite !ST_bind_eq, H. Qed.
Lemma asData_ext {A} (mk : Z → A → Reply) m n (s : S) : m s = n s → asData mk m s = asData mk n s.
Proof. unfold asData. intros H. by rewrite !ST_bind_eq, H. Qed.
Lemma bind_ext {A B} (m n : ST S A) (f : A → ST S B) (s : S) : m s = n s → (m ≫= f) s = (n ≫= f) s.
Proof. intros H. by rewrite !ST_bind_eq, H. Qed.
Lemma asData_reply {A} (mk : Z → A → Reply) m (s : S) : (asData mk m s).1 = mk (m s).1.1 (m s).1.2.
Proof. unfold asData. rewrite ST_bind_eq. by destruct (m s) as [[] ?]. Qed.

(** C5: For each of the 46 remote requests, over any parcel implementation with the
    laws of Parcel.v and room for the data, and any implementation of the
    interface, the call through the proxy, the transaction and the stub has the
    result and the effect of its specification: the client's checks, delivery, the
    service's permission checks, the operation, and the result converted to the
    widths it travels with.  Nothing is lost or confused on the way, and no
    operation runs without its checks. *)
Theorem remote_call_refines rq s :
  smallRequest rq → smallReply (specRemoteCall Remote rq s).1 →
  (userRequest rq = true → SUPPORT_MULTI_INSTANCE = true) →
  remoteCall Remote rq s = specRemoteCall Remote rq s.
Proof.
  intros Hq Hp Hu.
  destruct rq; unfold remoteCall, specRemoteCall in *; try (rewrite asData_reply in Hp);
    cbn [smallRequest smallReply userRequest] in *; try specialize (Hu eq_refl);
    first [apply asInt_ext | apply asObject_ext | apply ExtraData_call | apply asData_ext | apply bind_ext].
  all: eauto with remote.
Qed.
End refines.
