(* ===== verification/NoticeSpec.v ===== *)
(** What a notice of the service does to the client that is notified.

    [Notice] lists the notices of the three callback interfaces; [announce] gives a
    notice to the proxy of its interface, connected to the client's stub.
    [notice_delivered] says that this is the call of the client's own method with
    the arguments of the notice, behind the checks of the proxy, the delivery by
    the IPC framework and the checks of the stub: nothing of a notice is lost or
    changed between the two processes. *)
From S2P Require Import Prelude Types World Parcel Ffrt Util ManagerBase IpcInterface Stub Proxy Notices IpcLaws IpcSpec IpcExec.

Inductive Notice :=
  | LoadSuccess (said : Z) (object : option RemoteObject)
  | LoadFail (said : Z)
  | LoadFailWithCode (said errCode : Z)
  | RemoteLoadComplete (deviceId : string) (said : Z) (object : option RemoteObject)
  | AbilityAdded (said : Z) (deviceId : string)
  | AbilityRemoved (said : Z) (deviceId : string)
  | ProcessStarted (info : SystemProcessInfo)
  | ProcessStopped (info : SystemProcessInfo)
  | ProcessActivated (info : SystemProcessInfo)
  | ProcessIdled (info : SystemProcessInfo).

(** The arguments are C++ [int32_t]s. *)
Definition info_typed (i : SystemProcessInfo) : Prop := is_i32 (spi_pid i) ∧ is_i32 (spi_uid i).
Definition notice_typed (n : Notice) : Prop :=
  match n with
  | LoadSuccess said _ | LoadFail said | RemoteLoadComplete _ said _ | AbilityAdded said _ | AbilityRemoved said _ => is_i32 said
  | LoadFailWithCode said e => is_i32 said ∧ is_i32 e
  | ProcessStarted i | ProcessStopped i | ProcessActivated i | ProcessIdled i => info_typed i
  end.

Definition notice_code (n : Notice) : Z :=
  match n with
  | LoadSuccess _ _ => ON_LOAD_SYSTEM_ABILITY_SUCCESS
  | LoadFail _ => ON_LOAD_SYSTEM_ABILITY_FAIL
  | LoadFailWithCode _ _ => ON_LOAD_SYSTEM_ABILITY_FAIL_WITH_CODE
  | RemoteLoadComplete _ _ _ => ON_LOAD_SYSTEM_ABILITY_COMPLETE_FOR_REMOTE
  | AbilityAdded _ _ => ON_ADD_SYSTEM_ABILITY
  | AbilityRemoved _ _ => ON_REMOVE_SYSTEM_ABILITY
  | ProcessStarted _ => ON_SYSTEM_PROCESS_STARTED
  | ProcessStopped _ => ON_SYSTEM_PROCESS_STOPPED
  | ProcessActivated _ => ON_SYSTEM_PROCESS_ACTIVATED
  | ProcessIdled _ => ON_SYSTEM_PROCESS_IDLED
  end.

(** What the proxy refuses to send: an ability id that is not positive, a load
    success without an object, a process without a name. *)
Definition sendable (n : Notice) : bool :=
  match n with
  | LoadSuccess _ None => false
  | LoadSuccess said (Some _) | LoadFail said | LoadFailWithCode said _ | RemoteLoadComplete _ said _
  | AbilityAdded said _ | AbilityRemoved said _ => 0 <? said
  | ProcessStarted i | ProcessStopped i | ProcessActivated i | ProcessIdled i => negb (bool_decide (spi_processName i = ""))
  end.

(** What the stub refuses to deliver: ability ids past the last one. *)
Definition acceptable (n : Notice) : bool :=
  match n with
  | LoadSuccess said _ | LoadFail said | LoadFailWithCode said _ | RemoteLoadComplete _ said _
  | AbilityAdded said _ | AbilityRemoved said _ => said <=? LAST_SYS_ABILITY_ID
  | _ => true
  end.

Section notices.
Context `{E : Env} `{IE : !IpcEnv} `{P : Parcels} {S : Type} `{HS : HasWorld S}.
Context {L : ISystemAbilityLoadCallback S} {C : ISystemAbilityStatusChange S} {PC : ISystemProcessStatusChange S}.
Context (Remote : bool).

(** The notice given to the proxy of its interface. *)
Definition announce (n : Notice) : ST S unit :=
  match n with
  | LoadSuccess said o => OnLoadSystemAbilitySuccess Remote LoadCallbackOnRemoteRequest said o
  | LoadFail said => OnLoadSystemAbilityFail Remote LoadCallbackOnRemoteRequest said
  | LoadFailWithCode said e => OnLoadSystemAbilityFailWithCode Remote LoadCallbackOnRemoteRequest said e
  | RemoteLoadComplete dev said o => OnLoadSACompleteForRemote Remote LoadCallbackOnRemoteRequest dev said o
  | AbilityAdded said dev => OnAddSystemAbility Remote StatusChangeOnRemoteRequest said dev
  | AbilityRemoved said dev => OnRemoveSystemAbility Remote StatusChangeOnRemoteRequest said dev
  | ProcessStarted i => OnSystemProcessStarted Remote ProcessStatusChangeOnRemoteRequest i
  | ProcessStopped i => OnSystemProcessStopped Remote ProcessStatusChangeOnRemoteRequest i
  | ProcessActivated i => OnSystemProcessActivated Remote ProcessStatusChangeOnRemoteRequest i
  | ProcessIdled i => OnSystemProcessIdled Remote ProcessStatusChangeOnRemoteRequest i
  end.

(** The client's method. *)
Definition deliver (n : Notice) : ST S unit :=
  match n with
  | LoadSuccess said o => cOnLoadSystemAbilitySuccess said o
  | LoadFail said => cOnLoadSystemAbilityFail said
  | LoadFailWithCode said e => cOnLoadSystemAbilityFailWithCode said e
  | RemoteLoadComplete dev said o => cOnLoadSACompleteForRemote dev said o
  | AbilityAdded said dev => cOnAddSystemAbility said dev
  | AbilityRemoved said dev => cOnRemoveSystemAbility said dev
  | ProcessStarted i => cOnSystemProcessStarted i
  | ProcessStopped i => cOnSystemProcessStopped i
  | ProcessActivated i => cOnSystemProcessActivated i
  | ProcessIdled i => cOnSystemProcessIdled i
  end.

(** The specification: what the client is told. *)
Definition noticed (n : Notice) : ST S unit :=
  if negb (sendable n && Remote) then mret tt
  else
    tr ← liftW (gets w_trace);
    if negb (env_SendRequest tr (notice_code n) =? ERR_NONE) then mret tt
    else if acceptable n then deliver n else mret tt.

Context `{PL : !ParcelLaws P} `{RP : !RoomyParcels P}.

(** ** Delivery to a stub *)

Lemma received_run descriptor table code (h : X (S := S) Z Z) data rest :
  table code = Some h → unread data = item KToken descriptor :: rest →
  ∃ data', unread data' = rest ∧ ∀ s, received descriptor table code data s =
    let '(r, p, s2) := h (MkIpc data' emptyParcel) s in ((ended r, ip_out p), s2).
Proof.
  intros Hh Hd. unfold received, enforced. rewrite Hh.
  destruct (bind_read (R := Z) (S := S) KToken descriptor
    (λ token, require (bool_decide (token = Some descriptor)) ERR_PERMISSION_DENIED;; h) data emptyParcel rest Hd) as (q & Hq & Hr).
  exists q. split; [done|]. intros s. rewrite ST_bind_eq, Hr, bind_require, bool_decide_eq_true_2 by done.
  by destruct (h _ s) as [[? ?] ?].
Qed.

Lemma sendNotice_run {R} descriptor table code (h : X (S := S) Z Z) (fail ok : R) inp out rest :
  table code = Some h → unread out = item KToken descriptor :: rest →
  ∃ data, unread data = rest ∧ ∀ s,
    sendNotice (received descriptor table) code fail ok (MkIpc inp out) s =
    let '(tr, s0) := liftW (gets w_trace) s in
    if negb (env_SendRequest tr code =? ERR_NONE) then (inl fail, MkIpc emptyParcel out, s0)
    else let '(r, p, s2) := h (MkIpc data emptyParcel) s0 in (inr ok, MkIpc emptyParcel out, s2).
Proof.
  intros Hh Hd. destruct (received_run descriptor table code h out rest Hh Hd) as (d & Hd' & Hr).
  exists d. split; [done|]. intros s. unfold sendNotice, SendRequest. rewrite X_bind_eq, ST_bind_eq. simpl ip_out.
  destruct (liftW (gets w_trace) s) as [tr s0]. destruct (env_SendRequest tr code =? ERR_NONE) eqn:He; simpl.
  - rewrite ST_bind_eq, Hr. by destruct (h _ s0) as [[? ?] ?].
  - by rewrite He.
Qed.

(** A write whose result is not looked at. *)
Lemma bind_write {R A} k v (f : bool → X (S := S) R A) inp out l :
  unread out = l →
  ∃ out', unread out' = l ++ [item k v] ∧ ∀ s, (write k v ≫= f) (MkIpc inp out) s = f true (MkIpc inp out') s.
Proof.
  intros <-. exists (Write k v out).2. split; [apply Write_unread, Write_room|]. intros s.
  unfold write. pose proof (Write_room k v out) as Hr. rewrite X_bind_eq. simpl.
  destruct (Write k v out) as [b o]. simpl in *. by subst b.
Qed.

Lemma sendable_id said : (0 <? said) = negb (said <=? 0).
Proof. by rewrite Z.leb_antisym, negb_involutive. Qed.
Lemma acceptable_id said : 0 < said → CheckInputSystemAbilityId said = (said <=? LAST_SYS_ABILITY_ID).
Proof. intros. unfold CheckInputSystemAbilityId. by rewrite (proj2 (Z.leb_le 0 said)) by lia. Qed.
End notices.

Ltac run_write :=
  match goal with
  | Ho : unread ?o = _ |- context [(write ?k ?v ≫= ?f) (MkIpc ?i ?o) ?s] =>
      let o' := fresh "o" in let Ho' := fresh "Ho" in let Er := fresh "Er" in
      destruct (bind_write k v f i o _ Ho) as (o' & Ho' & Er); rewrite Er; clear Er; simpl app in Ho'
  end.

(** Run the handler of the stub the proxy is connected to. *)
Ltac run_notice :=
  match goal with
  | Ho : unread ?o = _ |- context [sendNotice (received ?d ?t) ?c ?a ?b (MkIpc ?i ?o) ?s] =>
      let h := eval lazy beta iota delta [Z.eqb Pos.eqb ON_LOAD_SYSTEM_ABILITY_SUCCESS ON_LOAD_SYSTEM_ABILITY_FAIL
        ON_LOAD_SYSTEM_ABILITY_COMPLETE_FOR_REMOTE ON_LOAD_SYSTEM_ABILITY_FAIL_WITH_CODE ON_ADD_SYSTEM_ABILITY
        ON_REMOVE_SYSTEM_ABILITY ON_SYSTEM_PROCESS_STARTED ON_SYSTEM_PROCESS_STOPPED ON_SYSTEM_PROCESS_ACTIVATED
        ON_SYSTEM_PROCESS_IDLED] in (t c) in
      lazymatch h with
      | Some ?h =>
        let q := fresh "d" in let Hq := fresh "Hd" in let Er := fresh "Er" in
        destruct (sendNotice_run d t c h a b i o _ eq_refl Ho) as (q & Hq & Er); rewrite Er; clear Er; unfold_head h
      end
  end.

Ltac notify :=
  pose proof unread_empty as H0; unfold noticed; cbn [sendable acceptable notice_code deliver];
  rewrite ?sendable_id, ?ST_bind_eq, transact_eq; repeat (first [run_pure | run1 | run_write | run_notice | unfold_handler | progress unfold ReadProcessInfo | branch];
    cbn [ended ip_out ip_in negb andb orb fst snd spi_processName spi_pid spi_uid]);
  repeat match goal with
  | H : is_i32 ?x |- _ => rewrite ?(i32_id x H) in *; clear H
  | H : (?x <=? 0) = false |- _ => apply Z.leb_gt in H
  | H : 0 < ?x, H' : CheckInputSystemAbilityId ?x = _ |- _ => rewrite acceptable_id in H' by exact H
  | u : unit |- _ => destruct u
  end; first [congruence | by symmetry].

Section delivered.
Context `{E : Env} `{IE : !IpcEnv} `{P : Parcels} {S : Type} `{HS : HasWorld S}.
Context {L : ISystemAbilityLoadCallback S} {C : ISystemAbilityStatusChange S} {PC : ISystemProcessStatusChange S}.
Context (Remote : bool) `{PL : !ParcelLaws P} `{RP : !RoomyParcels P}.

Lemma LoadSuccess_notice said o (s : S) : is_i32 said → announce Remote (LoadSuccess said o) s = noticed Remote (LoadSuccess said o) s.
Proof.
  intros Ht. cbn [announce]. unfold OnLoadSystemAbilitySuccess, LoadCallbackOnRemoteRequest. destruct o as [o|]; notify.
Qed.
Lemma LoadFail_notice said (s : S) : is_i32 said → announce Remote (LoadFail said) s = noticed Remote (LoadFail said) s.
Proof. intros Ht. cbn [announce]. unfold OnLoadSystemAbilityFail, LoadCallbackOnRemoteRequest. notify. Qed.
Lemma LoadFailWithCode_notice said e (s : S) : is_i32 said → is_i32 e →
  announce Remote (LoadFailWithCode said e) s = noticed Remote (LoadFailWithCode said e) s.
Proof. intros Ht He. cbn [announce]. unfold OnLoadSystemAbilityFailWithCode, LoadCallbackOnRemoteRequest. notify. Qed.
Lemma RemoteLoadComplete_notice dev said o (s : S) : is_i32 said →
  announce Remote (RemoteLoadComplete dev said o) s = noticed Remote (RemoteLoadComplete dev said o) s.
Proof.
  intros Ht. cbn [announce]. unfold OnLoadSACompleteForRemote, LoadCallbackOnRemoteRequest. destruct o as [o|]; notify.
Qed.
Lemma AbilityAdded_notice said dev (s : S) : is_i32 said → announce Remote (AbilityAdded said dev) s = noticed Remote (AbilityAdded said dev) s.
Proof. intros Ht. cbn [announce]. unfold OnAddSystemAbility, StatusSendRequestInner, StatusChangeOnRemoteRequest. notify. Qed.
Lemma AbilityRemoved_notice said dev (s : S) : is_i32 said → announce Remote (AbilityRemoved said dev) s = noticed Remote (AbilityRemoved said dev) s.
Proof. intros Ht. cbn [announce]. unfold OnRemoveSystemAbility, StatusSendRequestInner, StatusChangeOnRemoteRequest. notify. Qed.
Lemma ProcessStarted_notice i (s : S) : info_typed i → announce Remote (ProcessStarted i) s = noticed Remote (ProcessStarted i) s.
Proof. destruct i as [name pid uid]. intros [Hp Hu]. cbn [announce spi_pid spi_uid] in *. unfold OnSystemProcessStarted, ProcessSendRequestInner, ProcessStatusChangeOnRemoteRequest. notify. Qed.
Lemma ProcessStopped_notice i (s : S) : info_typed i → announce Remote (ProcessStopped i) s = noticed Remote (ProcessStopped i) s.
Proof. destruct i as [name pid uid]. intros [Hp Hu]. cbn [announce spi_pid spi_uid] in *. unfold OnSystemProcessStopped, ProcessSendRequestInner, ProcessStatusChangeOnRemoteRequest. notify. Qed.
Lemma ProcessActivated_notice i (s : S) : info_typed i → announce Remote (ProcessActivated i) s = noticed Remote (ProcessActivated i) s.
Proof. destruct i as [name pid uid]. intros [Hp Hu]. cbn [announce spi_pid spi_uid] in *. unfold OnSystemProcessActivated, ProcessSendRequestInner, ProcessStatusChangeOnRemoteRequest. notify. Qed.
Lemma ProcessIdled_notice i (s : S) : info_typed i → announce Remote (ProcessIdled i) s = noticed Remote (ProcessIdled i) s.
Proof. destruct i as [name pid uid]. intros [Hp Hu]. cbn [announce spi_pid spi_uid] in *. unfold OnSystemProcessIdled, ProcessSendRequestInner, ProcessStatusChangeOnRemoteRequest. notify. Qed.

(** C16: a notice the service sends through its proxy is the call of the client's
    own method with the same arguments: it is dropped if the proxy refuses it or has
    no remote object, if the framework does not deliver it, or if the stub refuses
    its ability id, and nothing else happens to the client. *)
Theorem notice_delivered (n : Notice) (s : S) :
  notice_typed n → announce Remote n s = noticed Remote n s.
Proof.
  destruct n; cbn [notice_typed]; intros Ht;
    auto using LoadSuccess_notice, LoadFail_notice, RemoteLoadComplete_notice, AbilityAdded_notice, AbilityRemoved_notice,
      ProcessStarted_notice, ProcessStopped_notice, ProcessActivated_notice, ProcessIdled_notice.
  destruct Ht. by apply LoadFailWithCode_notice.
Qed.
End delivered.
