(* ===== verification/LocalProxy.v ===== *)
(** [LocalAbilityManagerProxy] (services/lsamgr/src/local_ability_manager_proxy.cpp):
    the requests the service sends to the processes that host abilities.

    The stub at the other end belongs to the SA framework and is not part of this
    repository: it is the argument [remoteEnd].  What is proved is the wire
    contract that stub relies on: which requests are refused, the code and the
    values that travel, in their order, and how the reply is read
    ([local_call_wire]). *)
From S2P Require Import Prelude Types World Parcel Ffrt Util ManagerBase IpcInterface Stub Proxy Notices IpcLaws IpcSpec IpcExec NoticeSpec.

(** [enum SafwkInterfaceCode] (safwk_ipc_interface_code.h). *)
Module SafwkCode.
Definition START_ABILITY_TRANSACTION : Z := 1.
Definition STOP_ABILITY_TRANSACTION : Z := 2.
Definition ACTIVE_ABILITY_TRANSACTION : Z := 3.
Definition IDLE_ABILITY_TRANSACTION : Z := 4.
Definition SEND_STRATEGY_TO_SA_TRANSACTION : Z := 5.
Definition IPC_STAT_CMD_TRANSACTION : Z := 6.
Definition FFRT_DUMPER_TRANSACTION : Z := 7.
Definition SYSTEM_ABILITY_EXT_TRANSACTION : Z := 8.
Definition SERVICE_CONTROL_CMD_TRANSACTION : Z := 9.
Definition FFRT_STAT_CMD_TRANSACTION : Z := 10.
End SafwkCode.

Definition LOCAL_ABILITY_MANAGER_INTERFACE_TOKEN : u16string := u16 "ohos.localabilitymanager.accessToken".

(** Error codes of the IPC framework this proxy returns. *)
Class LocalEnv := { INVALID_DATA : Z; OBJECT_NULL : Z }.

Section proxy.
Context `{E : Env} `{IE : IpcEnv} `{P : Parcels} `{LE : LocalEnv} {S : Type} `{HS : HasWorld S}.
Context {json : Type} (dump : json → string).
Context (Remote : bool) (remoteEnd : Z → Parcel → ST S (Z * Parcel)).

(** [SystemAbilityExtensionPara]: the caller's hooks that fill the request and read the reply. *)
Record SystemAbilityExtensionPara := MkExtensionPara {
  InputParaSet : Parcel → ST S (bool * Parcel);
  OutputParaGet : Parcel → ST S bool;
}.

Definition localToken {R} (e : R) : X (S := S) R unit := put KToken LOCAL_ABILITY_MANAGER_INTERFACE_TOKEN e.

Definition StartAbility (said : Z) (eventStr : string) : ST S bool :=
  transact (
    require (negb (said <=? 0)) false;;
    require (negb (bool_decide (eventStr = ""))) false;;
    require Remote false;;
    localToken false;; put KInt32 said false;; put KString eventStr false;;
    sendNotice remoteEnd SafwkCode.START_ABILITY_TRANSACTION false true).

Definition StopAbility (said : Z) (eventStr : string) : ST S bool :=
  transact (
    require (negb (said <=? 0)) false;;
    require (negb (bool_decide (eventStr = ""))) false;;
    require Remote false;;
    localToken false;; put KInt32 said false;; put KString eventStr false;;
    sendNotice remoteEnd SafwkCode.STOP_ABILITY_TRANSACTION false true).

Definition ActiveAbility (said : Z) (activeReason : json) : ST S bool :=
  transact (
    require (negb (said <=? 0)) false;;
    require Remote false;;
    localToken false;; put KInt32 said false;; put KString (dump activeReason) false;;
    sendOr remoteEnd SafwkCode.ACTIVE_ABILITY_TRANSACTION (λ _, false);;
    get KBool false).

(** The result and [delayTime]. *)
Definition IdleAbility (said : Z) (idleReason : json) (delayTime : Z) : ST S (bool * Z) :=
  transact (
    let e := (false, delayTime) in
    require (negb (said <=? 0)) e;;
    require Remote e;;
    localToken e;; put KInt32 said e;; put KString (dump idleReason) e;;
    sendOr remoteEnd SafwkCode.IDLE_ABILITY_TRANSACTION (λ _, e);;
    result ← get KBool e;
    delayTime ← get KInt32 e;
    mret (result, delayTime)).

Definition SendStrategyToSA (type said level : Z) (action : string) : ST S bool :=
  transact (
    require (negb (said <=? 0)) false;;
    require Remote false;;
    localToken false;; put KInt32 type false;; put KInt32 said false;; put KInt32 level false;; put KString action false;;
    sendNotice remoteEnd SafwkCode.SEND_STRATEGY_TO_SA_TRANSACTION false true).

Definition IpcStatCmdProc (fd cmd : Z) : ST S bool :=
  transact (
    require Remote false;;
    localToken false;; put KFileDescriptor fd false;; put KInt32 cmd false;;
    sendOr remoteEnd SafwkCode.IPC_STAT_CMD_TRANSACTION (λ _, false);;
    get KBool false).

Definition FfrtStatCmdProc (fd cmd : Z) : ST S bool :=
  transact (
    require Remote false;;
    localToken false;; put KFileDescriptor fd false;; put KInt32 cmd false;;
    sendOr remoteEnd SafwkCode.FFRT_STAT_CMD_TRANSACTION (λ _, false);;
    get KBool false).

(** The result and [ffrtDumperInfo]. *)
Definition FfrtDumperProc (ffrtDumperInfo : string) : ST S (bool * string) :=
  transact (
    let e := (false, ffrtDumperInfo) in
    require Remote e;;
    localToken e;;
    sendOr remoteEnd SafwkCode.FFRT_DUMPER_TRANSACTION (λ _, e);;
    ffrtDumperInfo ← get KString e;
    mret (true, ffrtDumperInfo)).

Definition PrepareData (said : Z) (extension : string) (e : Z) : X (S := S) Z unit :=
  localToken e;; put KInt32 said e;; put KString extension e.

(** [callback->InputParaSet(data)] and [callback->OutputParaGet(reply)]. *)
Definition inputPara (callback : option SystemAbilityExtensionPara) (e : Z) : X (S := S) Z unit := λ p,
  match callback with
  | None => mret (inr tt : Z + unit, p)
  | Some c => '(b, out) ← InputParaSet c (ip_out p); mret (if b : bool then inr tt else inl e : Z + unit, MkIpc (ip_in p) out)
  end.
Definition outputPara (callback : option SystemAbilityExtensionPara) (e : Z) : X (S := S) Z unit := λ p,
  match callback with
  | None => mret (inr tt : Z + unit, p)
  | Some c => b ← OutputParaGet c (ip_in p); mret (if b : bool then inr tt else inl e : Z + unit, p)
  end.

Definition SystemAbilityExtProc (extension : string) (said : Z) (callback : option SystemAbilityExtensionPara) (isAsync : bool) : ST S Z :=
  transact (
    require (negb (said <=? 0)) INVALID_DATA;;
    require (negb (bool_decide (extension = ""))) INVALID_DATA;;
    require Remote OBJECT_NULL;;
    PrepareData said extension INVALID_DATA;;
    inputPara callback INVALID_DATA;;
    status ← SendRequest remoteEnd isAsync SafwkCode.SYSTEM_ABILITY_EXT_TRANSACTION;
    require (status =? ERR_NONE) status;;
    (if isAsync then mret tt else outputPara callback INVALID_DATA);;
    mret ERR_NONE).

Definition ServiceControlCmd (fd said : Z) (args : list u16string) : ST S Z :=
  transact (
    require (negb (said <=? 0)) INVALID_DATA;;
    require Remote OBJECT_NULL;;
    localToken INVALID_DATA;; put KInt32 said INVALID_DATA;; put KFileDescriptor fd INVALID_DATA;;
    put KString16Vector args INVALID_DATA;;
    SendRequest remoteEnd false SafwkCode.SERVICE_CONTROL_CMD_TRANSACTION).
End proxy.
Arguments SystemAbilityExtensionPara {_} S.

(** ** The wire contract *)

(** [callback] is null or the hooks of the caller. *)
Inductive LocalRequest `{P : Parcels} {S json : Type} :=
  | LqStart (said : Z) (eventStr : string)
  | LqStop (said : Z) (eventStr : string)
  | LqActive (said : Z) (reason : json)
  | LqIdle (said : Z) (reason : json) (delayTime : Z)
  | LqStrategy (type said level : Z) (action : string)
  | LqIpcStat (fd cmd : Z)
  | LqFfrtStat (fd cmd : Z)
  | LqFfrtDump (info : string)
  | LqExtension (extension : string) (said : Z) (callback : option (SystemAbilityExtensionPara S)) (isAsync : bool)
  | LqControl (fd said : Z) (args : list u16string).
Arguments LocalRequest {_} S json.

Inductive LocalReply :=
  | LpBool (b : bool)
  | LpDelay (r : bool * Z)
  | LpDump (r : bool * string)
  | LpInt (z : Z).

Definition local_code `{P : Parcels} {S json} (q : LocalRequest S json) : Z :=
  match q with
  | LqStart _ _ => SafwkCode.START_ABILITY_TRANSACTION
  | LqStop _ _ => SafwkCode.STOP_ABILITY_TRANSACTION
  | LqActive _ _ => SafwkCode.ACTIVE_ABILITY_TRANSACTION
  | LqIdle _ _ _ => SafwkCode.IDLE_ABILITY_TRANSACTION
  | LqStrategy _ _ _ _ => SafwkCode.SEND_STRATEGY_TO_SA_TRANSACTION
  | LqIpcStat _ _ => SafwkCode.IPC_STAT_CMD_TRANSACTION
  | LqFfrtStat _ _ => SafwkCode.FFRT_STAT_CMD_TRANSACTION
  | LqFfrtDump _ => SafwkCode.FFRT_DUMPER_TRANSACTION
  | LqExtension _ _ _ _ => SafwkCode.SYSTEM_ABILITY_EXT_TRANSACTION
  | LqControl _ _ _ => SafwkCode.SERVICE_CONTROL_CMD_TRANSACTION
  end.

(** Requests whose reply is not waited for. *)
Definition local_async `{P : Parcels} {S json} (q : LocalRequest S json) : bool :=
  match q with LqStart _ _ | LqStop _ _ | LqStrategy _ _ _ _ => true | LqExtension _ _ _ a => a | _ => false end.

(** Requests that are not sent: no positive ability id, an empty text. *)
Definition local_valid `{P : Parcels} {S json} (q : LocalRequest S json) : bool :=
  match q with
  | LqStart said t | LqStop said t | LqExtension t said _ _ => (0 <? said) && negb (bool_decide (t = ""))
  | LqActive said _ | LqIdle said _ _ | LqStrategy _ said _ _ | LqControl _ said _ => 0 <? said
  | LqIpcStat _ _ | LqFfrtStat _ _ | LqFfrtDump _ => true
  end.

Section wire.
Context `{E : Env} `{IE : IpcEnv} `{P : Parcels} `{LE : LocalEnv} {S : Type} `{HS : HasWorld S}.
Context {json : Type} (dump : json → string).
Context (Remote : bool) (remoteEnd : Z → Parcel → ST S (Z * Parcel)).
Implicit Types q : LocalRequest S json.

Definition replied {A} (f : A → LocalReply) (m : ST S A) : ST S LocalReply := r ← m; mret (f r).

Definition localCall q : ST S LocalReply :=
  match q with
  | LqStart said e => replied LpBool (StartAbility Remote remoteEnd said e)
  | LqStop said e => replied LpBool (StopAbility Remote remoteEnd said e)
  | LqActive said r => replied LpBool (ActiveAbility dump Remote remoteEnd said r)
  | LqIdle said r d => replied LpDelay (IdleAbility dump Remote remoteEnd said r d)
  | LqStrategy t said l a => replied LpBool (SendStrategyToSA Remote remoteEnd t said l a)
  | LqIpcStat fd cmd => replied LpBool (IpcStatCmdProc Remote remoteEnd fd cmd)
  | LqFfrtStat fd cmd => replied LpBool (FfrtStatCmdProc Remote remoteEnd fd cmd)
  | LqFfrtDump info => replied LpDump (FfrtDumperProc Remote remoteEnd info)
  | LqExtension e said cb a => replied LpInt (SystemAbilityExtProc Remote remoteEnd e said cb a)
  | LqControl fd said args => replied LpInt (ServiceControlCmd Remote remoteEnd fd said args)
  end.

(** The values of a request after its token. *)
Definition local_items q : list Item :=
  match q with
  | LqStart said e | LqStop said e => [item KInt32 said; item KString e]
  | LqActive said r | LqIdle said r _ => [item KInt32 said; item KString (dump r)]
  | LqStrategy t said l a => [item KInt32 t; item KInt32 said; item KInt32 l; item KString a]
  | LqIpcStat fd cmd | LqFfrtStat fd cmd => [item KFileDescriptor fd; item KInt32 cmd]
  | LqFfrtDump _ => []
  | LqExtension e said _ _ => [item KInt32 said; item KString e]
  | LqControl fd said args => [item KInt32 said; item KFileDescriptor fd; item KString16Vector args]
  end.

(** The answer when the request fails with [code]; reference parameters keep their value. *)
Definition local_failed q (code : Z) : LocalReply :=
  match q with
  | LqIdle _ _ d => LpDelay (false, d)
  | LqFfrtDump info => LpDump (false, info)
  | LqExtension _ _ _ _ | LqControl _ _ _ => LpInt code
  | _ => LpBool false
  end.

(** The answer read from the reply of a request that was handled. *)
Definition local_answer q (reply : Parcel) : LocalReply :=
  match q with
  | LqStart _ _ | LqStop _ _ | LqStrategy _ _ _ _ => LpBool true
  | LqActive _ _ | LqIpcStat _ _ | LqFfrtStat _ _ => LpBool (default false (Read KBool reply).1)
  | LqIdle _ _ d =>
      LpDelay (match (Read KBool reply).1, (Read KInt32 (Read KBool reply).2).1 with
               | Some b, Some d' => (b, d')
               | _, _ => (false, d)
               end)
  | LqFfrtDump info =>
      LpDump (match (Read KString reply).1 with Some t => (true, t) | None => (false, info) end)
  | LqExtension _ _ _ _ | LqControl _ _ _ => LpInt ERR_NONE
  end.

(** What the caller's hooks do with the request before it is sent, and with the reply that was waited for. *)
Definition local_input q (data : Parcel) : ST S (bool * Parcel) :=
  match q with LqExtension _ _ (Some c) _ => InputParaSet c data | _ => mret (true, data) end.
Definition local_output q (reply : Parcel) : ST S bool :=
  match q with LqExtension _ _ (Some c) false => OutputParaGet c reply | _ => mret true end.

Definition specLocalCall (data : Parcel) q : ST S LocalReply :=
  if negb (local_valid q) then mret (local_failed q INVALID_DATA)
  else if negb Remote then mret (local_failed q OBJECT_NULL)
  else
    '(filled, data) ← local_input q data;
    if negb filled then mret (local_failed q INVALID_DATA)
    else
      tr ← liftW (gets w_trace);
      if negb (env_SendRequest tr (local_code q) =? ERR_NONE) then mret (local_failed q (env_SendRequest tr (local_code q)))
      else
        '(status, reply) ← remoteEnd (local_code q) data;
        if local_async q || (status =? ERR_NONE) then
          taken ← local_output q reply;
          mret (if taken : bool then local_answer q reply else local_failed q INVALID_DATA)
        else mret (local_failed q status).
End wire.

Section proofs.
Context `{E : Env} `{IE : !IpcEnv} `{P : Parcels} `{LE : LocalEnv} {S : Type} `{HS : HasWorld S}.
Context `{PL : !ParcelLaws P} `{RP : !RoomyParcels P}.
Context {json : Type} (dump : json → string).
Context (Remote : bool) (remoteEnd : Z → Parcel → ST S (Z * Parcel)).

Lemma bind_put_eq {R A} k v (e : R) (f : unit → X (S := S) R A) inp out s :
  (put k v e ≫= f) (MkIpc inp out) s = f tt (MkIpc inp (Write k v out).2) s.
Proof.
  unfold put, write. pose proof (Write_room k v out) as Hr. rewrite X_bind_eq, X_bind_eq. simpl.
  destruct (Write k v out) as [b o]. simpl in *. by subst b.
Qed.

Lemma bind_get_eq {R A} k (e : R) (f : denote k → X (S := S) R A) inp out s :
  (get k e ≫= f) (MkIpc inp out) s =
  match (Read k inp).1 with
  | Some v => f v (MkIpc (Read k inp).2 out) s
  | None => (inl e, MkIpc (Read k inp).2 out, s)
  end.
Proof. unfold get, read. rewrite X_bind_assoc, X_bind_eq. simpl. by destruct (Read k inp) as [[v|] i]. Qed.

Lemma get_eq {R} k (e : R) inp out (s : S) :
  get k e (MkIpc inp out) s = (match (Read k inp).1 with Some v => inr v | None => inl e end, MkIpc (Read k inp).2 out, s).
Proof. unfold get, read. rewrite X_bind_eq. simpl. by destruct (Read k inp) as [[v|] i]. Qed.

Lemma SendRequest_eq {R} async code inp out (s : S) :
  SendRequest (R := R) remoteEnd async code (MkIpc inp out) s =
  let '(tr, s0) := liftW (gets w_trace) s in
  if negb (env_SendRequest tr code =? ERR_NONE) then (inr (env_SendRequest tr code), MkIpc emptyParcel out, s0)
  else
    let '(status, reply, s1) := remoteEnd code out s0 in
    if async then (inr ERR_NONE, MkIpc emptyParcel out, s1) else (inr status, MkIpc reply out, s1).
Proof.
  unfold SendRequest. rewrite ST_bind_eq. simpl ip_out. destruct (liftW _ s) as [tr s0].
  destruct (negb _); [done|]. rewrite ST_bind_eq. cbn [ip_out].
  destruct (remoteEnd code out s0) as [[status reply] s1]. by destruct async.
Qed.

Lemma bind_SendRequest {R A} async code (f : Z → X (S := S) R A) inp out (s : S) :
  (SendRequest remoteEnd async code ≫= f) (MkIpc inp out) s =
  let '(tr, s0) := liftW (gets w_trace) s in
  if negb (env_SendRequest tr code =? ERR_NONE) then f (env_SendRequest tr code) (MkIpc emptyParcel out) s0
  else
    let '(status, reply, s1) := remoteEnd code out s0 in
    if async then f ERR_NONE (MkIpc emptyParcel out) s1 else f status (MkIpc reply out) s1.
Proof.
  rewrite X_bind_eq, SendRequest_eq. destruct (liftW _ s) as [tr s0]. destruct (negb _); [done|].
  destruct (remoteEnd code out s0) as [[status reply] s1]. by destruct async.
Qed.
End proofs.

Ltac same_parcel :=
  match goal with
  | remoteEnd : Z → Parcel → _ |- context [?r ?c ?d ?s] =>
      constr_eq r remoteEnd; is_evar d;
      match goal with |- context [r c ?o s] => assert_fails (is_evar o); unify d o end
  end.

(** Execute a request; the parcel that is sent is what the writes leave. *)
Ltac wire :=
  eexists; split;
  [ | intros s; unfold replied, specLocalCall, sendNotice, sendOr, localToken;
      cbn [local_valid local_failed local_code local_async local_input local_output]; rewrite ?sendable_id, ST_bind_eq, transact_eq;
      repeat (first [run_pure | rewrite bind_put_eq | rewrite bind_SendRequest | rewrite SendRequest_eq
                    | rewrite bind_get_eq | rewrite get_eq | same_parcel | branch];
              cbn [ended ip_out ip_in negb andb orb fst snd]);
      cbn [local_answer]; repeat match goal with H : (Read _ _).1 = _ |- _ => rewrite H; clear H end;
      repeat match goal with H : (_ =? ERR_NONE) = true |- _ => apply Z.eqb_eq in H end; first [reflexivity | congruence] ];
  [rewrite !Write_unread, unread_empty by apply Write_room; reflexivity | ..].

Section contract.
Context `{E : Env} `{IE : !IpcEnv} `{P : Parcels} `{LE : LocalEnv} {S : Type} `{HS : HasWorld S}.
Context `{PL : !ParcelLaws P} `{RP : !RoomyParcels P}.
Context {json : Type} (dump : json → string).
Context (Remote : bool) (remoteEnd : Z → Parcel → ST S (Z * Parcel)).

Definition wired (q : LocalRequest S json) : Prop :=
  ∃ data, unread data = item KToken LOCAL_ABILITY_MANAGER_INTERFACE_TOKEN :: local_items dump q ∧
    ∀ s, localCall dump Remote remoteEnd q s = specLocalCall Remote remoteEnd data q s.

Lemma Start_wired said e : wired (LqStart said e).
Proof. unfold wired. cbn [localCall]. unfold StartAbility. wire. Qed.
Lemma Stop_wired said e : wired (LqStop said e).
Proof. unfold wired. cbn [localCall]. unfold StopAbility. wire. Qed.
Lemma Active_wired said r : wired (LqActive said r).
Proof. unfold wired. cbn [localCall]. unfold ActiveAbility. wire. Qed.
Lemma Idle_wired said r d : wired (LqIdle said r d).
Proof. unfold wired. cbn [localCall]. unfold IdleAbility. wire. Qed.
Lemma Strategy_wired t said l a : wired (LqStrategy t said l a).
Proof. unfold wired. cbn [localCall]. unfold SendStrategyToSA. wire. Qed.
Lemma IpcStat_wired fd cmd : wired (LqIpcStat fd cmd).
Proof. unfold wired. cbn [localCall]. unfold IpcStatCmdProc. wire. Qed.
Lemma FfrtStat_wired fd cmd : wired (LqFfrtStat fd cmd).
Proof. unfold wired. cbn [localCall]. unfold FfrtStatCmdProc. wire. Qed.
Lemma FfrtDump_wired info : wired (LqFfrtDump info).
Proof. unfold wired. cbn [localCall]. unfold FfrtDumperProc. wire. Qed.

Lemma bind_inputPara {A} c (e : Z) (f : unit → X (S := S) Z A) inp out s :
  (inputPara (Some c) e ≫= f) (MkIpc inp out) s =
  let '(b, out', s') := InputParaSet c out s in
  if b : bool then f tt (MkIpc inp out') s' else (inl e, MkIpc inp out', s').
Proof.
  rewrite X_bind_eq. unfold inputPara. rewrite ST_bind_eq. cbn [ip_out].
  destruct (InputParaSet c out s) as [[b out'] s']. by destruct b.
Qed.
Lemma bind_outputPara {A} c (e : Z) (f : unit → X (S := S) Z A) inp out s :
  (outputPara (Some c) e ≫= f) (MkIpc inp out) s =
  let '(b, s') := OutputParaGet c inp s in
  if b : bool then f tt (MkIpc inp out) s' else (inl e, MkIpc inp out, s').
Proof.
  rewrite X_bind_eq. unfold outputPara. rewrite ST_bind_eq. cbn [ip_in].
  destruct (OutputParaGet c inp s) as [b s']. by destruct b.
Qed.

Lemma Extension_wired e said cb b : wired (LqExtension e said cb b).
Proof.
  unfold wired. cbn [localCall]. unfold SystemAbilityExtProc, PrepareData. destruct cb as [c|].
  2: { change (inputPara (S := S) None INVALID_DATA) with (mret tt : X (S := S) Z unit).
       change (outputPara (S := S) None INVALID_DATA) with (mret tt : X (S := S) Z unit). destruct b; wire. }
  exists (Write KString e (Write KInt32 said (Write KToken LOCAL_ABILITY_MANAGER_INTERFACE_TOKEN emptyParcel).2).2).2.
  split; [by rewrite !Write_unread, unread_empty by apply Write_room|].
  intros s. unfold replied, specLocalCall, localToken.
  cbn [local_valid local_failed local_code local_async local_input local_output]. rewrite ST_bind_eq, transact_eq.
  repeat (first [run_pure | rewrite bind_put_eq]; cbn [ended ip_out ip_in negb andb orb fst snd]).
  destruct (Z.leb_spec said 0), (Z.ltb_spec 0 said); try lia; cbn [negb andb]; [done|].
  destruct (bool_decide (e = "")); cbn [negb]; [done|]. destruct Remote; cbn [negb]; [|done].
  rewrite bind_inputPara, ST_bind_eq. destruct (InputParaSet c _ s) as [[[] data] s1]; cbn [negb]; [|done].
  rewrite bind_SendRequest, ST_bind_eq. destruct (liftW (gets w_trace) s1) as [tr s2].
  destruct (env_SendRequest tr SafwkCode.SYSTEM_ABILITY_EXT_TRANSACTION =? ERR_NONE) eqn:Hsend; cbn [negb].
  2: { rewrite bind_require. by rewrite ?Hsend. }
  rewrite ST_bind_eq. destruct (remoteEnd _ data s2) as [[status reply] s3]. destruct b; cbn [orb].
  - repeat (first [run_pure | rewrite X_ret_run]; cbn [ended ip_out ip_in negb andb orb fst snd]). done.
  - rewrite bind_require. destruct (status =? ERR_NONE); [|done].
    rewrite bind_outputPara, ST_bind_eq. by destruct (OutputParaGet c reply s3) as [[] s4].
Qed.
Lemma Control_wired fd said args : wired (LqControl fd said args).
Proof. unfold wired. cbn [localCall]. unfold ServiceControlCmd. wire. Qed.

(** C17: every request the service sends to a hosting process is refused when its
    ability id or text is invalid or there is no remote object; otherwise the stub
    at the other end gets the code of the request and a parcel that holds the
    token and the arguments, in order and converted to their C++ types, and the
    caller gets what the reply says, a failed delivery or status being reported
    with the reference parameters unchanged. A request to an extension of an SA
    may come with hooks of the caller: the first gets the parcel after the arguments were written and what it
    leaves is sent, or nothing is if it fails; the second gets the reply if the request
    waits for one, and the request fails if it does. This is for parcels that
    have room for the data: a write that fails is not covered. *)
Theorem local_call_wire (q : LocalRequest S json) :
  ∃ data, unread data = item KToken LOCAL_ABILITY_MANAGER_INTERFACE_TOKEN :: local_items dump q ∧
    ∀ s, localCall dump Remote remoteEnd q s = specLocalCall Remote remoteEnd data q s.
Proof.
  destruct q; [apply Start_wired | apply Stop_wired | apply Active_wired | apply Idle_wired | apply Strategy_wired
    | apply IpcStat_wired | apply FfrtStat_wired | apply FfrtDump_wired | apply Extension_wired | apply Control_wired].
Qed.
End contract.
