(* ===== verification/ServiceRegistry.v ===== *)
(** [ServiceRegistryProxy], [ServiceRegistry] and [SystemAbilityManagerClient]
    (services/samgr/native/source/service_registry.cpp): how a client process finds the service
    manager, and the older interface by which it asks for a service by name. *)
From S2P Require Import Prelude Types World Parcel Ffrt Util ManagerBase IpcInterface Proxy.

Definition MASK : Z := 0x100.
Definition INTERFACE_TOKEN : Z := 0.
Definition SLEEP_TIME : Z := 1.
Definition RETRY_TIMES : nat := 10.
Definition CHECK_SERVICE_TRANSACTION : Z := 2.
Definition ADD_SERVICE_TRANSACTION : Z := 3.
Definition SERVICE_REGISTRY_DESCRIPTOR : u16string := [].

(** [name.data()] as a text: it ends at the first zero. *)
Fixpoint name_data (name : u16string) : u16string :=
  match name with [] => [] | c :: name' => if c =? 0 then [] else c :: name_data name' end.

(** The pointers a client process holds: [registryInstance] of [ServiceRegistry::GetInstance] and
    [systemAbilityManager_] of the [SystemAbilityManagerClient]. *)
Record RegistryClient := MkRegistryClient {
  registryInstance : option RemoteObject;
  systemAbilityManager_ : option RemoteObject;
}.
#[export] Instance RegistryClient_eta : Eta RegistryClient := λ r,
  MkRegistryClient (registryInstance r) (systemAbilityManager_ r).

Section registry.
Context `{E : Env} `{IE : IpcEnv} `{P : Parcels} {S : Type} `{HS : HasWorld S}.
(** [Remote()] is not null, and the stub at the other end. *)
Context (Remote : bool) (remoteEnd : Z → Parcel → ST S (Z * Parcel)).

Definition CheckService (name : u16string) : ST S (option RemoteObject) :=
  transact (
    put KInt32 MASK None;; put KInt32 INTERFACE_TOKEN None;;
    put KString16 SERVICE_REGISTRY_DESCRIPTOR None;; put KString16 (name_data name) None;;
    require Remote None;;
    err ← SendRequest remoteEnd false CHECK_SERVICE_TRANSACTION;
    if err =? ERR_NONE then read KObject else mret None).

Definition AddService (name : u16string) (service : option RemoteObject) (allowIsolated : bool) (dumpsysPriority : Z) :
    ST S Z :=
  transact (
    put KInt32 MASK ERR_FLATTEN_OBJECT;; put KInt32 INTERFACE_TOKEN ERR_FLATTEN_OBJECT;;
    put KString16 SERVICE_REGISTRY_DESCRIPTOR ERR_FLATTEN_OBJECT;; put KString16 (name_data name) ERR_FLATTEN_OBJECT;;
    putObject service ERR_FLATTEN_OBJECT;;
    put KInt32 (if allowIsolated then 1 else 0) ERR_FLATTEN_OBJECT;; put KInt32 dumpsysPriority ERR_FLATTEN_OBJECT;;
    require Remote ERR_INVALID_OPERATION;;
    SendRequest remoteEnd false ADD_SERVICE_TRANSACTION).

(** The loop: [retry] is what [retry--] counts down. *)
Fixpoint waitService (retry : nat) (name : u16string) : ST S (option RemoteObject) :=
  match retry with
  | O => mret None
  | Datatypes.S retry =>
      liftW (emit (EvUsleep (1000000 * SLEEP_TIME)));;
      service ← CheckService name;
      match service with Some _ => mret service | None => waitService retry name end
  end.

Definition GetService (name : u16string) : ST S (option RemoteObject) :=
  service ← CheckService name;
  match service with Some _ => mret service | None => waitService RETRY_TIMES name end.

(** ** Bounded waiting *)

(** The state before attempt [k]: every attempt that fails is followed by a second of sleep. *)
Fixpoint attempt (k : nat) (name : u16string) (s : S) : S :=
  match k with
  | O => s
  | Datatypes.S k => (liftW (emit (EvUsleep (1000000 * SLEEP_TIME))) (CheckService name (attempt k name s)).2).2
  end.
Definition answer (k : nat) (name : u16string) (s : S) : option RemoteObject * S := CheckService name (attempt k name s).

Lemma attempt_shift k name s :
  attempt (Datatypes.S k) name s = attempt k name (attempt 1 name s).
Proof. induction k as [|k IH]; [done|]. cbn [attempt] in *. by rewrite IH. Qed.

Lemma answer_0 name s : answer 0 name s = CheckService name s.
Proof. done. Qed.

Lemma waitService_answers retry name s :
  let s1 := attempt 1 name s in
  (∃ k, (k < retry)%nat ∧ is_Some (answer k name s1).1 ∧ (∀ j, (j < k)%nat → (answer j name s1).1 = None) ∧
        waitService retry name (CheckService name s).2 = answer k name s1) ∨
  ((∀ j, (j < retry)%nat → (answer j name s1).1 = None) ∧ (waitService retry name (CheckService name s).2).1 = None).
Proof.
  revert s. induction retry as [|retry IH]; intros s; [right; split; [lia|done]|]. cbv zeta.
  cbn [waitService]. unfold mbind at 1 2 3 4, ST_bind. fold (attempt 1 name s).
  change (liftW (emit (EvUsleep (1000000 * SLEEP_TIME))) (CheckService name s).2)
    with (tt, attempt 1 name s). cbv beta iota.
  destruct (CheckService name (attempt 1 name s)) as [[o|] s2] eqn:Hc.
  - left. exists 0%nat. rewrite answer_0, Hc. split_and!; [lia|by eexists|lia|done].
  - specialize (IH (attempt 1 name s)). rewrite Hc in IH. cbn [snd] in IH.
    assert (H0 : (answer 0 name (attempt 1 name s)).1 = None) by by rewrite answer_0, Hc.
    assert (Hs : ∀ j, answer (Datatypes.S j) name (attempt 1 name s) = answer j name (attempt 1 name (attempt 1 name s)))
      by (intros j; unfold answer; by rewrite attempt_shift).
    destruct IH as [(k & Hk & Ha & Hn & ->)|[Hn ->]]; [left; exists (Datatypes.S k)|right]; split_and!; try lia; try done.
    + by rewrite Hs.
    + intros [|j] Hj; [done|]. rewrite Hs. apply Hn. lia.
    + intros [|j] Hj; [done|]. rewrite Hs. apply Hn. lia.
Qed.

(** [GetService] asks at most eleven times, a second apart, and returns the first answer that is not null,
    without a further request; it returns null only if all eleven are null. *)
Theorem get_service_bounded name s :
  (∃ k, (k ≤ RETRY_TIMES)%nat ∧ is_Some (answer k name s).1 ∧ (∀ j, (j < k)%nat → (answer j name s).1 = None) ∧
        GetService name s = answer k name s) ∨
  ((∀ j, (j ≤ RETRY_TIMES)%nat → (answer j name s).1 = None) ∧ (GetService name s).1 = None).
Proof.
  unfold GetService, mbind, ST_bind. pose proof (waitService_answers RETRY_TIMES name s) as Hw. cbv zeta in Hw.
  assert (Hs : ∀ j, answer j name (attempt 1 name s) = answer (Datatypes.S j) name s)
    by (intros j; unfold answer; f_equal; symmetry; apply attempt_shift).
  destruct (CheckService name s) as [[o|] s1] eqn:Hc.
  - left. exists 0%nat. rewrite answer_0, Hc. split_and!; [lia|by eexists|lia|done].
  - assert (H0 : (answer 0 name s).1 = None) by by rewrite answer_0, Hc. cbn [snd] in Hw.
    destruct Hw as [(k & Hk & Ha & Hn & ->)|[Hn ->]]; [left; exists (Datatypes.S k)|right].
    + rewrite <- Hs. split_and!; [lia|done| |done]. intros [|j] Hj; [done|]. rewrite <- Hs. apply Hn. lia.
    + split; [|done]. intros [|j] Hj; [done|]. rewrite <- Hs. apply Hn. lia.
Qed.
End registry.

(** ** The pointers of a client *)

Section client.
Context `{E : Env}.
(** [IPCSkeleton::GetContextObject], and [iface_cast] of what it returns. *)
Context (contextObject : option RemoteObject).
Definition castContext : option RemoteObject :=
  o ← contextObject; if env_iface_cast o then Some o else None.

(** [ServiceRegistry::GetInstance]. *)
Definition RegistryGetInstance (c : RegistryClient) : option RemoteObject * RegistryClient :=
  match registryInstance c with
  | Some o => (Some o, c)
  | None =>
      match contextObject with
      | None => (None, c)
      | Some _ => (castContext, c <| registryInstance := castContext |>)
      end
  end.

Definition GetSystemAbilityManager (c : RegistryClient) : option RemoteObject * RegistryClient :=
  match systemAbilityManager_ c with
  | Some o => (Some o, c)
  | None =>
      match contextObject with
      | None => (None, c)
      | Some _ => (castContext, c <| systemAbilityManager_ := castContext |>)
      end
  end.

Definition DestroySystemAbilityManagerObject (c : RegistryClient) : RegistryClient :=
  c <| systemAbilityManager_ := None |>.
End client.

(** Once found, the manager is returned whatever the context object is by then, until it is
    destroyed; destroying it leaves the registry alone. *)
Theorem manager_cached `{E : Env} (ctx ctx' : option RemoteObject) (c : RegistryClient) (o : RemoteObject) :
  (GetSystemAbilityManager ctx c).1 = Some o →
  let c' := (GetSystemAbilityManager ctx c).2 in
  GetSystemAbilityManager ctx' c' = (Some o, c') ∧
  (GetSystemAbilityManager ctx' (DestroySystemAbilityManagerObject c')).1 = castContext ctx' ∧
  registryInstance (DestroySystemAbilityManagerObject c') = registryInstance c.
Proof.
  unfold GetSystemAbilityManager. destruct (systemAbilityManager_ c) as [o'|] eqn:Hc.
  - intros [= <-]. cbn. rewrite Hc. by destruct ctx'.
  - destruct ctx as [x|]; [|done]. cbn [fst snd]. intros ->. by destruct ctx'.
Qed.
