(* ===== verification/StateMachine.v ===== *)
(** [SystemAbilityStateMachine] and its state handlers
    (services/samgr/native/source/schedule/system_ability_state_machine.cpp).

    A context is addressed by its key, [None] is a null pointer.  The machine is
    written against the listener it holds weakly ([listener_.lock()], [None] when
    it has expired); the scheduler is the listener of the program. *)
From S2P Require Import Prelude Types World Ffrt Util Contexts Interfaces.

(** ** Which states can be entered from which *)

Definition CanEnter (toState fromState : SystemAbilityState) : bool :=
  match toState with
  | NOT_LOADED => negb (bool_decide (fromState = NOT_LOADED))
  | LOADING => bool_decide (fromState = NOT_LOADED)
  | LOADED => bool_decide (fromState = NOT_LOADED) || bool_decide (fromState = LOADING)
              || bool_decide (fromState = UNLOADABLE)
  | UNLOADABLE => bool_decide (fromState = LOADED)
  | UNLOADING => bool_decide (fromState = UNLOADABLE)
  end.

Definition CanEnterProcess (toState fromState : SystemProcessState) : bool :=
  match toState with
  | NOT_STARTED => negb (bool_decide (fromState = NOT_STARTED))
  | STARTED => bool_decide (fromState = NOT_STARTED)
  | STOPPING => bool_decide (fromState = STARTED)
  end.

Section machine.
Context `{E : Env}.
Context (listener_ : option StateListener).

(** [listener_.lock()] followed by a callback. *)
Definition notify (call : StateListener → M unit) : M unit :=
  match listener_ with Some L => call L | None => mret tt end.

(** [OnEnter] of the five ability state handlers. *)
Definition OnEnter (state : SystemAbilityState) (said : Z) : M unit :=
  match state with
  | NOT_LOADED => c ← derefA said; notify (λ L, OnAbilityNotLoaded L (systemAbilityId c))
  | LOADING => c ← derefA said; notify (λ L, OnAbilityLoading L (systemAbilityId c))
  | LOADED =>
      storeA said (λ c, c <| lastIdleTime := -1 |>);;
      c ← derefA said; notify (λ L, OnAbilityLoaded L (systemAbilityId c))
  | UNLOADABLE =>
      t ← GetTickCount;
      storeA said (λ c, c <| lastIdleTime := t |>);;
      c ← derefA said; notify (λ L, OnAbilityUnloadable L (systemAbilityId c))
  | UNLOADING => c ← derefA said; notify (λ L, OnAbilityUnloading L (systemAbilityId c))
  end.

(** [OnEnter] of the three process state handlers. *)
Definition OnEnterProcess (state : SystemProcessState) (pn : u16string) : M unit :=
  match state with
  | NOT_STARTED =>
      notify (λ L,
        t ← GetTickCount;
        storeP pn (λ p, p <| lastStopTime := t |> <| pendingLoadFirstTimestamp := 0 |>);;
        p ← derefP pn; OnProcessNotStarted L (processName p))
  | STARTED => p ← derefP pn; notify (λ L, OnProcessStarted L (processName p))
  | STOPPING => p ← derefP pn; notify (λ L, OnProcessStopping L (processName p))
  end.

Definition UpdateStateCount (context : option u16string) (fromState toState : SystemAbilityState) : M bool :=
  match context with
  | None => mret false
  | Some pn =>
      p ← derefP pn;
      match abilityStateCountMap p !! fromState, abilityStateCountMap p !! toState with
      | Some n, Some _ =>
          if n <=? 0 then mret false
          else
            storeP pn (λ p, p <| abilityStateCountMap ::= alter (λ n, u32 (n - 1)) fromState |>);;
            storeP pn (λ p, p <| abilityStateCountMap ::= alter (λ n, u32 (n + 1)) toState |>);;
            mret true
      | _, _ => mret false
      end
  end.

(** Every enumerator has a handler in [abilityStateHandlerMap_], so the branches
    for a missing or null handler are not taken. *)
Definition AbilityStateTransitionLocked (context : option Z) (nextState : SystemAbilityState) : M Z :=
  match context with
  | None => mret SA_CONTEXT_NULL
  | Some said =>
      c ← derefA said;
      let currentState := a_state c in
      if bool_decide (currentState = nextState) then mret ERR_OK
      else if negb (CanEnter nextState currentState) then mret TRANSIT_SA_STATE_FAIL
      else
        ok ← UpdateStateCount (ownProcessContext c) currentState nextState;
        if negb ok then mret UPDATE_STATE_COUNT_FAIL
        else
          storeA said (λ c, c <| a_state := nextState |>);;
          OnEnter nextState said;;
          mret ERR_OK
  end.

Definition ProcessStateTransitionLocked (context : option u16string) (nextState : SystemProcessState) : M Z :=
  match context with
  | None => mret PROC_CONTEXT_NULL
  | Some pn =>
      p ← derefP pn;
      let currentState := p_state p in
      if bool_decide (currentState = nextState) then mret ERR_OK
      else if negb (CanEnterProcess nextState currentState) then mret TRANSIT_PROC_STATE_FAIL
      else
        storeP pn (λ p, p <| p_state := nextState |>);;
        OnEnterProcess nextState pn;;
        mret ERR_OK
  end.
End machine.

#[global] Arguments AbilityStateTransitionLocked : simpl never.
#[global] Arguments ProcessStateTransitionLocked : simpl never.
#[global] Arguments OnEnter : simpl never.
#[global] Arguments OnEnterProcess : simpl never.
