(* ===== verification/EventHandler.v ===== *)
(** [SystemAbilityEventHandler]
    (services/samgr/native/source/schedule/system_ability_event_handler.cpp): what
    a load or unload result and a process start or stop do to the state machine. *)
From S2P Require Import Prelude Types World Ffrt Util Contexts Interfaces StateMachine.

Section handler.
Context `{E : Env}.
Context (listener_ : option StateListener).

(** The pending unload is dropped: [pendingEvent = NO_EVENT] if it was one. *)
Definition dropPendingUnload (said : Z) : M unit :=
  c ← derefA said;
  when (bool_decide (pendingEvent c = UNLOAD_ABILITY_EVENT))
    (storeA said (λ c, c <| pendingEvent := NO_EVENT |>)).

Definition HandleAbilityLoadFailedEventLocked (said : Z) : M Z :=
  c ← derefA said;
  match a_state c with
  | LOADING =>
      dropPendingUnload said;;
      AbilityStateTransitionLocked listener_ (Some said) NOT_LOADED
  | _ => mret ERR_INVALID_VALUE
  end.

Definition HandleAbilityLoadSuccessEventLocked (said : Z) : M Z :=
  c ← derefA said;
  match a_state c with
  | NOT_LOADED | LOADING => AbilityStateTransitionLocked listener_ (Some said) LOADED
  | _ => mret ERR_INVALID_VALUE
  end.

Definition HandleAbilityUnLoadSuccessEventLocked (said : Z) : M Z :=
  c ← derefA said;
  match a_state c with
  | LOADING =>
      dropPendingUnload said;;
      AbilityStateTransitionLocked listener_ (Some said) NOT_LOADED
  | LOADED | UNLOADABLE | UNLOADING => AbilityStateTransitionLocked listener_ (Some said) NOT_LOADED
  | NOT_LOADED => mret ERR_INVALID_VALUE
  end.

Definition HandleProcessStartedEventLocked (pn : u16string) (info : ProcessInfo) : M Z :=
  storeP pn (λ p, p <| pid := pi_pid info |> <| uid := pi_uid info |>);;
  p ← derefP pn;
  match p_state p with
  | NOT_STARTED => ProcessStateTransitionLocked listener_ (Some pn) STARTED
  | _ => mret ERR_INVALID_VALUE
  end.

Definition HandleProcessStoppedEventLocked (pn : u16string) (info : ProcessInfo) : M Z :=
  p ← derefP pn;
  match p_state p with
  | STARTED | STOPPING => ProcessStateTransitionLocked listener_ (Some pn) NOT_STARTED
  | NOT_STARTED => mret ERR_INVALID_VALUE
  end.

(** The dispatch tables of [InitEventHandlerMap] have every event. *)
Definition HandleAbilityEventLocked (context : option Z) (event : AbilityStateEvent) : M Z :=
  match context with
  | None => mret ERR_INVALID_VALUE
  | Some said =>
      match event with
      | ABILITY_LOAD_FAILED_EVENT => HandleAbilityLoadFailedEventLocked said
      | ABILITY_LOAD_SUCCESS_EVENT => HandleAbilityLoadSuccessEventLocked said
      | ABILITY_UNLOAD_SUCCESS_EVENT => HandleAbilityUnLoadSuccessEventLocked said
      end
  end.

Definition HandleProcessEventLocked (context : option u16string) (info : ProcessInfo)
    (event : ProcessStateEvent) : M Z :=
  match context with
  | None => mret ERR_INVALID_VALUE
  | Some pn =>
      match event with
      | PROCESS_STARTED_EVENT => HandleProcessStartedEventLocked pn info
      | PROCESS_STOPPED_EVENT => HandleProcessStoppedEventLocked pn info
      end
  end.
End handler.
