(* ===== verification/Scheduler.v ===== *)
(** [SystemAbilityStateScheduler]
    (services/samgr/native/source/schedule/system_ability_state_scheduler.cpp):
    loading, unloading, pending requests, process stop and restart.

    Operations take the listener of the state machine, which in the program is
    the scheduler itself; [schedulerListener] ties that knot. *)
From S2P Require Import Prelude Types World Ffrt Util Contexts Interfaces StateMachine EventHandler.

Definition RESTART_TIME_INTERVAL_LIMIT : Z := 20 * 1000.
Definition RESTART_TIMES_LIMIT : Z := 4.
Definition MAX_PENDING_LOAD_COUNT : Z := 50.
Definition PENDING_LOAD_TIMEOUT_MS : Z := 60 * 1000.
Definition UNLOAD_TIMEOUT_TIME : Z := 5 * 1000.
Definition MAX_DELAY_TIME : Z := 5 * 60 * 1000.
Definition MAX_DURATION : Z := 10 * 60 * 1000.
Definition ONCE_DELAY_TIME : Z := 10 * 1000.
Definition TWO_MINUTES_MS : Z := 120 * 1000.
Definition CANCEL_UNLOAD : string := "cancelUnload".
Definition KEY_UNLOAD_TIMEOUT : string := "unloadTimeout".
Definition PARAM_LOW_MEM_PREPARE_NAME : string := "resourceschedule.memmgr.low.memory.prepare".
Definition SUBSYS_ACCOUNT_SYS_ABILITY_ID_BEGIN : Z := 200.

(** [LimitDelayUnloadTime]. *)
Definition LimitDelayUnloadTime (delayUnloadTime : Z) : Z :=
  if delayUnloadTime <? 0 then 0
  else if MAX_DELAY_TIME <? delayUnloadTime then MAX_DELAY_TIME
  else delayUnloadTime.

(** The JSON object of the four keys eventId, name, value and extraDataId. *)
Definition reasonOf (e : OnDemandEvent) : OnDemandEvent :=
  MkEvent (eventId e) (ev_name e) (ev_value e) (extraDataId e) false [] false LOW_PRIORITY ∅.

Section scheduler.
Context `{E : Env} {MI : ManagerIface}.

(** [abilityStateCountMap[state]]: reading creates an absent entry. *)
Definition stateCount (pn : u16string) (s : SystemAbilityState) : M Z :=
  storeP pn (λ p, p <| abilityStateCountMap ::= map_touch s 0 |>);;
  p ← derefP pn;
  mret (default 0 (abilityStateCountMap p !! s)).

(** ** The unload queue: [UnloadEventHandler] *)

Definition hasHandler (h : HandlerId) : M bool := o ← getH h; mret (bool_decide (is_Some o)).

(** [UnloadEventHandler::SendEvent]: [eventId] is a [uint32_t], [delayTime] a [uint64_t]. *)
Definition SendEvent (evId : Z) (delayTime : Z) : M bool :=
  PostTaskNamed unloadHandler (TProcessUnloadEvent evId) (to_string evId) delayTime.
Definition RemoveEvent (evId : Z) : M unit := RemoveTask unloadHandler (to_string evId).
Definition HasUnloadEvent (evId : Z) : M bool := HasInnerEvent unloadHandler (to_string evId).

Definition SendDelayUnloadEventLocked (said : Z) (delayTime : Z) : M Z :=
  hh ← hasHandler unloadHandler;
  if negb hh then mret UNLOAD_EVENT_HANDLER_NULL
  else
    b ← HasUnloadEvent (u32 said);
    if (b : bool) then mret ERR_OK
    else
      ret ← SendEvent (u32 said) (u64 delayTime);
      mret (if (ret : bool) then ERR_OK else SEND_EVENT_FAIL).

Definition RemoveDelayUnloadEventLocked (said : Z) : M Z :=
  hh ← hasHandler unloadHandler;
  if negb hh then mret UNLOAD_EVENT_HANDLER_NULL
  else
    b ← HasUnloadEvent (u32 said);
    if negb b then mret ERR_OK
    else RemoveEvent (u32 said);; mret ERR_OK.

(** ** Tasks of the process queue *)

Definition unloadTimeoutName (pn : u16string) : M string :=
  p ← derefP pn; mret (KEY_UNLOAD_TIMEOUT +:+ Str16ToStr8 (processName p)).

Definition PostTryUnloadAllAbilityTask (pn : u16string) : M Z :=
  r ← PostTask processHandler (TTryUnloadAll pn);
  mret (if (r : bool) then ERR_OK else ERR_INVALID_VALUE).

Definition PostUnloadTimeoutTask (pn : u16string) : M Z :=
  name ← unloadTimeoutName pn;
  r ← PostTaskNamed processHandler (TUnloadTimeout pn) name UNLOAD_TIMEOUT_TIME;
  mret (if (r : bool) then ERR_OK else ERR_INVALID_VALUE).

Definition RemoveUnloadTimeoutTask (pn : u16string) : M unit :=
  name ← unloadTimeoutName pn; RemoveTask processHandler name.

Definition PostTryKillProcessTask (pn : u16string) : M Z :=
  r ← PostTask processHandler (TTryKillProcess pn);
  mret (if (r : bool) then ERR_OK else ERR_INVALID_VALUE).

Definition UpdateLimitDelayUnloadTime (said : Z) : M unit :=
  hh ← hasHandler processHandler;
  when hh (_ ← PostTask processHandler (TUpdateDelayUnloadTime said); mret tt).

Definition UpdateLimitDelayUnloadTimeTask (said : Z) : M unit :=
  o ← GetSystemAbilityContext said;
  match o with
  | None => mret tt
  | Some a =>
      c ← derefA a;
      when (negb (lastStartTime c =? 0)) (
        end_ ← GetTickCount;
        when (end_ - lastStartTime c <=? MAX_DURATION)
          (storeA a (λ c, c <| delayUnloadTime ::= λ d, LimitDelayUnloadTime (i32 (d + ONCE_DELAY_TIME)) |>)));;
      t ← GetTickCount;
      storeA a (λ c, c <| lastStartTime := t |>)
  end.

(** ** User, init control and process status *)

(** [SystemAbilityStateScheduler::GetUserId]. *)
Definition SchedulerGetUserId : M Z :=
  alive ← lockManager; u ← getM userId_; mret (if (alive : bool) then u else SAMGR_INVALID_USER_ID).

Definition ServiceControl (name : string) (action : ServiceAction) : M Z :=
  userId ← SchedulerGetUserId;
  if SUPPORT_MULTI_INSTANCE && (userId =? SAMGR_INVALID_USER_ID) then mret ERR_INVALID_VALUE
  else if SUPPORT_MULTI_INSTANCE && negb (userId =? BASE_USER)
  then ServiceControlWithExtra name action userId None
  else ServiceControlWithExtra name action BASE_USER None.

Definition CheckProcessStarted (pn : u16string) : M bool :=
  userId ← SchedulerGetUserId;
  if userId =? SAMGR_INVALID_USER_ID then mret false else CheckSystemProcessStarted pn userId.

(** ** Counting tests *)

(** [CheckSaIsImmediatelyRecycle(processContext)]. *)
Definition CheckProcessImmediatelyRecycle (pn : u16string) : M bool :=
  alive ← lockManager;
  if negb alive then mret false
  else
    p ← derefP pn;
    foldM (saList p) false (λ (found : bool) said,
      if found then mret true else mi_CheckSaIsImmediatelyRecycle said).

Definition CanUnloadAllSystemAbilityLocked (pn : u16string) (isNeedCheckRecycleStrategy : bool) : M bool :=
  notLoad ← stateCount pn NOT_LOADED;
  unloadable ← stateCount pn UNLOADABLE;
  unloading ← stateCount pn UNLOADING;
  if (unloadable =? 0) && (unloading =? 0) then mret false
  else
    p ← derefP pn;
    if u32 (u32 (notLoad + unloadable) + unloading) =? Z.of_nat (length (saList p)) then
      if isNeedCheckRecycleStrategy then CheckProcessImmediatelyRecycle pn else mret true
    else mret false.

Definition CanUnloadAllSystemAbility (pn : u16string) : M bool := CanUnloadAllSystemAbilityLocked pn true.

Definition CanKillSystemProcessLocked (pn : u16string) : M bool :=
  notLoad ← stateCount pn NOT_LOADED;
  p ← derefP pn;
  mret (notLoad =? Z.of_nat (length (saList p))).

Definition CanKillSystemProcess (pn : u16string) : M bool := CanKillSystemProcessLocked pn.

Definition IsProcessActivatedLocked (pn : u16string) : M bool :=
  p ← derefP pn;
  m ← getS procListenerMap_;
  match m !! processName p with
  | None => mret false
  | Some _ => n ← stateCount pn LOADED; mret (n =? 1)
  end.

Definition IsProcessIdledLocked (pn : u16string) : M bool :=
  p ← derefP pn;
  m ← getS procListenerMap_;
  match m !! processName p with
  | None => mret false
  | Some _ =>
      n ← stateCount pn LOADED;
      k ← stateCount pn LOADING;
      mret ((n =? 0) && (k =? 0))
  end.

(** ** Killing and restarting a process *)

Definition KillSystemProcessLocked (pn : u16string) : M Z :=
  begin ← GetTickCount;
  p ← derefP pn;
  let name := Str16ToStr8 (processName p) in
  result ← ServiceControl name SA_STOP;
  t ← GetTickCount;
  (if negb (result =? 0) then emit (EvReport (ReportProcessStopFail name (pid p) (uid p) result))
   else emit (EvReport (ReportProcessStopDuration name (pid p) (uid p) (t - begin))));;
  mret result.

Definition TryKillSystemProcess (context : option u16string) : M Z :=
  match context with
  | None => mret ERR_INVALID_VALUE
  | Some pn =>
      b ← CanKillSystemProcessLocked pn;
      if (b : bool) then KillSystemProcessLocked pn else mret ERR_OK
  end.

Definition CanRestartProcessLocked (pn : u16string) : M bool :=
  p ← derefP pn;
  if negb (enableRestart p) then mret false
  else
    curtime ← GetTickCount;
    let n := Z.of_nat (length (restartCountsCtrl p)) in
    if n <? RESTART_TIMES_LIMIT then
      storeP pn (λ p, p <| restartCountsCtrl ::= λ l, l ++ [curtime] |>);; mret true
    else if n =? RESTART_TIMES_LIMIT then
      if curtime - default 0 (head (restartCountsCtrl p)) <? RESTART_TIME_INTERVAL_LIMIT then
        storeP pn (λ p, p <| enableRestart := false |>);; mret false
      else
        storeP pn (λ p, p <| restartCountsCtrl ::= λ l, tail (l ++ [curtime]) |>);; mret true
    else mret false.

(** ** Notifying process listeners *)

Definition processInfoOf (pn : u16string) : M SystemProcessInfo :=
  p ← derefP pn; mret (MkSystemProcessInfo (Str16ToStr8 (processName p)) (pid p) (uid p)).

(** Whether the scheduler belongs to the foreground user, always so without
    multi-instance support and for the base user. *)
Definition isForegroundUser : M bool :=
  if SUPPORT_MULTI_INSTANCE then
    userId ← SchedulerGetUserId;
    fg ← gets w_foreground;
    mret (if userId =? BASE_USER then true
          else negb (userId =? SAMGR_INVALID_USER_ID) && (userId =? fg))
  else mret true.

Definition skipListener (foreground : bool) (i : ProcessListener) : bool :=
  negb (hasDirectSubscription i) && hasForegroundSubscription i && negb foreground.

Definition notifyStartStop (n : ProcessNotification) (pn : u16string) : M unit :=
  fg ← isForegroundUser;
  l ← getS processListeners_;
  info ← processInfoOf pn;
  forM (filter (λ i, negb (skipListener fg i) && bool_decide (is_Some (psc_AsObject (pl_listener i))) = true) l)
    (λ i, emit (EvProcess n (pl_listener i) info)).

Definition NotifyProcessStarted (pn : u16string) : M unit := notifyStartStop ProcStarted pn.
Definition NotifyProcessStopped (pn : u16string) : M unit := notifyStartStop ProcStopped pn.

Definition notifyActiveIdle (n : ProcessNotification) (pn : u16string) : M unit :=
  p ← derefP pn;
  updS procListenerMap_ (map_touch (processName p) []);;
  m ← getS procListenerMap_;
  forM (default [] (m !! processName p)) (λ l,
    when (bool_decide (is_Some (psc_AsObject l))) (
      info ← processInfoOf pn; emit (EvProcess n l info))).

Definition NotifyProcessActivated (pn : u16string) : M unit := notifyActiveIdle ProcActivated pn.
Definition NotifyProcessIdled (pn : u16string) : M unit := notifyActiveIdle ProcIdled pn.

(** ** Pending requests *)

Definition HandlePendingLoadOverflow (said : Z) : M Z :=
  alive ← lockManager;
  if negb alive then mret ERR_INVALID_VALUE
  else
    pn ← ownProcess said;
    _ ← PostTask recoverHandler (TPendingLoadOverflow said pn);
    mret PEND_LOAD_EVENT_SIZE_LIMIT.

Definition cb_eqb (a b : option LoadCallback) : bool :=
  match a, b with Some a, Some b => bool_decide (cb_AsObject a = cb_AsObject b) | _, _ => false end.

Definition PendLoadEventLocked (said : Z) (req : LoadRequestInfo) : M Z :=
  match lr_callback req with
  | None => mret CALLBACK_NULL
  | Some cb =>
      pn ← ownProcess said;
      p ← derefP pn;
      when (pendingLoadFirstTimestamp p =? 0)
        (t ← GetTickCount; storeP pn (λ p, p <| pendingLoadFirstTimestamp := t |>));;
      t ← GetTickCount;
      p ← derefP pn;
      let elapsed := t - pendingLoadFirstTimestamp p in
      a ← derefA said;
      if existsb (λ i, cb_eqb (lr_callback req) (lr_callback i)) (pendingLoadEventList a) then mret ERR_OK
      else
        storeA said (λ a, a <| pendingLoadEventCountMap ::= map_touch (lr_callingPid req) 0 |>);;
        a ← derefA said;
        let count := default 0 (pendingLoadEventCountMap a !! lr_callingPid req) in
        if (MAX_PENDING_LOAD_COUNT <=? count) || (PENDING_LOAD_TIMEOUT_MS <=? elapsed)
        then HandlePendingLoadOverflow said
        else
          storeA said (λ a, a <| pendingLoadEventCountMap ::= alter Z.succ (lr_callingPid req) |>
                              <| pendingLoadEventList ::= λ l, l ++ [req] |>
                              <| pendingEvent := LOAD_ABILITY_EVENT |>);;
          mret ERR_OK
  end.

Definition PendUnloadEventLocked (said : Z) (req : option UnloadRequestInfo) : M Z :=
  storeA said (λ a, a <| pendingEvent := UNLOAD_ABILITY_EVENT |> <| pendingUnloadEvent := req |>);;
  mret ERR_OK.

Definition RemovePendingUnloadEventLocked (said : Z) : M Z :=
  dropPendingUnload said;; mret ERR_OK.

(** ** Operations that drive the state machine *)

Section machine.
Context (listener_ : option StateListener).

Definition DoLoadSystemAbilityLocked (said : Z) (req : LoadRequestInfo) : M Z :=
  alive ← lockManager;
  if negb alive then mret ERR_INVALID_VALUE
  else
    a ← derefA said;
    pn ← ownProcess said;
    p ← derefP pn;
    result ←
      (if bool_decide (deviceId req = LOCAL_DEVICE) then
         mi_DoLoadSystemAbility (systemAbilityId a) (processName p) (lr_callback req) (lr_callingPid req) (loadEvent req)
       else
         mi_DoLoadSystemAbilityFromRpc (deviceId req) (systemAbilityId a) (processName p) (lr_callback req) (loadEvent req));
    a ← derefA said;
    if (result =? ERR_OK) && bool_decide (a_state a = NOT_LOADED)
    then AbilityStateTransitionLocked listener_ (Some said) LOADING
    else mret result.

Definition ActiveSystemAbilityLocked (said : Z) (activeReason : OnDemandEvent) : M Z :=
  alive ← lockManager;
  if negb alive then mret ACTIVE_SA_FAIL
  else
    a ← derefA said;
    pn ← ownProcess said;
    p ← derefP pn;
    ok ← mi_ActiveSystemAbility (systemAbilityId a) (processName p) activeReason;
    if negb ok then mret ACTIVE_SA_FAIL
    else AbilityStateTransitionLocked listener_ (Some said) LOADED.

Definition DoUnloadSystemAbilityLocked (said : Z) : M Z :=
  a ← derefA said;
  match unloadRequest a with
  | None => mret ERR_INVALID_VALUE
  | Some req =>
      alive ← lockManager;
      if negb alive then mret ERR_INVALID_VALUE
      else
        pn ← ownProcess said;
        p ← derefP pn;
        result ← mi_DoUnloadSystemAbility (systemAbilityId a) (processName p) (unloadEvent req);
        if result =? ERR_OK then AbilityStateTransitionLocked listener_ (Some said) UNLOADING
        else mret result
  end.

(** [HandleLoadAbilityEvent(systemAbilityId, isExist)]: result and [isExist]. *)
Definition HandleLoadAbilityEventById (said : Z) (isExist : bool) : M (Z * bool) :=
  o ← GetSystemAbilityContext said;
  match o with
  | None => mret (ERR_INVALID_VALUE, false)
  | Some c =>
      a ← derefA c;
      pn ← ownProcess c;
      p ← derefP pn;
      if bool_decide (p_state p = NOT_STARTED) then mret (ERR_INVALID_VALUE, false)
      else if bool_decide (p_state p = STARTED) && bool_decide (a_state a = NOT_LOADED) then
        alive ← lockManager;
        if negb alive then mret (ERR_INVALID_VALUE, isExist)
        else
          '(result, isExist) ← mi_DoLoadOnDemandAbility said;
          if (result : bool) then
            r ← AbilityStateTransitionLocked listener_ (Some c) LOADING; mret (r, isExist)
          else mret (ERR_INVALID_VALUE, isExist)
      else mret (ERR_OK, true)
  end.

Definition HandleLoadAbilityEventLocked (said : Z) (req : LoadRequestInfo) : M Z :=
  a ← derefA said;
  pn ← ownProcess said;
  p ← derefP pn;
  if bool_decide (a_state a = UNLOADING) || bool_decide (p_state p = STOPPING)
  then PendLoadEventLocked said req
  else
    result ←
      match a_state a with
      | LOADING => RemovePendingUnloadEventLocked said
      | LOADED => RemoveDelayUnloadEventLocked (systemAbilityId a)
      | UNLOADABLE => ActiveSystemAbilityLocked said (reasonOf (loadEvent req))
      | NOT_LOADED => mret ERR_OK
      | UNLOADING => mret INVALID_SA_STATE
      end;
    if result =? ERR_OK then DoLoadSystemAbilityLocked said req else mret result.

Definition HandleLoadAbilityEvent (req : LoadRequestInfo) : M Z :=
  o ← GetSystemAbilityContext (lr_systemAbilityId req);
  match o with
  | None => mret GET_SA_CONTEXT_FAIL
  | Some a => HandleLoadAbilityEventLocked a req
  end.

Definition ProcessDelayUnloadEventLocked (said : Z) : M Z :=
  o ← GetSystemAbilityContext said;
  match o with
  | None => mret GET_SA_CONTEXT_FAIL
  | Some c =>
      a ← derefA c;
      match unloadRequest a with
      | None => mret UNLOAD_REQUEST_NULL
      | Some req =>
          if negb (bool_decide (a_state a = LOADED)) then mret ERR_OK
          else
            alive ← lockManager;
            if negb alive then mret IDLE_SA_FAIL
            else
              pn ← ownProcess c;
              p ← derefP pn;
              '(result, delayTime) ←
                mi_IdleSystemAbility (systemAbilityId a) (processName p) (reasonOf (unloadEvent req));
              if negb result then mret IDLE_SA_FAIL
              else if delayTime <? 0 then mret ERR_OK
              else if delayTime =? 0 then AbilityStateTransitionLocked listener_ (Some c) UNLOADABLE
              else SendDelayUnloadEventLocked (systemAbilityId a) (Z.min delayTime MAX_DELAY_TIME)
      end
  end.

Definition ProcessDelayUnloadEvent (said : Z) : M Z :=
  o ← GetSystemAbilityContext said;
  match o with
  | None => mret GET_SA_CONTEXT_FAIL
  | Some _ => ProcessDelayUnloadEventLocked said
  end.

(** [UnloadEventHandler::ProcessEvent]. *)
Definition ProcessEvent (evId : Z) : M unit :=
  DelTask unloadHandler (to_string evId);;
  _ ← ProcessDelayUnloadEvent (i32 evId); mret tt.

Definition HandleUnloadAbilityEventLocked (said : Z) (request : option UnloadRequestInfo) : M Z :=
  match request with
  | None => mret UNLOAD_REQUEST_NULL
  | Some req =>
      storeA said (λ a, a <| unloadRequest := Some req |>);;
      a ← derefA said;
      match a_state a with
      | LOADING => PendUnloadEventLocked said (Some req)
      | LOADED =>
          if (eventId (unloadEvent req) =? INTERFACE_CALL)
             || bool_decide (ev_name (unloadEvent req) = PARAM_LOW_MEM_PREPARE_NAME)
          then ProcessDelayUnloadEventLocked (systemAbilityId a)
          else SendDelayUnloadEventLocked (systemAbilityId a) (delayUnloadTime a)
      | _ => mret ERR_OK
      end
  end.

Definition HandleUnloadAbilityEvent (request : option UnloadRequestInfo) : M Z :=
  match request with
  | None => mret UNLOAD_REQUEST_NULL
  | Some req =>
      o ← GetSystemAbilityContext (ur_systemAbilityId req);
      match o with
      | None => mret GET_SA_CONTEXT_FAIL
      | Some a => HandleUnloadAbilityEventLocked a (Some req)
      end
  end.

Definition HandleCancelUnloadAbilityEvent (said : Z) : M Z :=
  o ← GetSystemAbilityContext said;
  match o with
  | None => mret ERR_INVALID_VALUE
  | Some c =>
      a ← derefA c;
      match a_state a with
      | UNLOADABLE => ActiveSystemAbilityLocked c (mkEvent INTERFACE_CALL CANCEL_UNLOAD "")
      | _ => mret ERR_OK
      end
  end.

(** [HandlePendingLoadEventLocked].  A request of the list that is pended again
    meets its own callback in the list, so the list does not grow in the loop. *)
Definition HandlePendingLoadEventLocked (said : Z) : M Z :=
  a ← derefA said;
  if negb (bool_decide (pendingEvent a = LOAD_ABILITY_EVENT)) then mret ERR_OK
  else
    storeA said (λ a, a <| pendingEvent := NO_EVENT |>);;
    forM (pendingLoadEventList a) (λ req, _ ← HandleLoadAbilityEventLocked said req; mret tt);;
    storeA said (λ a, a <| pendingLoadEventList := [] |> <| pendingLoadEventCountMap := ∅ |>);;
    mret ERR_OK.

Definition HandlePendingUnloadEventLocked (said : Z) : M Z :=
  a ← derefA said;
  if negb (bool_decide (pendingEvent a = UNLOAD_ABILITY_EVENT)) then mret ERR_OK
  else
    storeA said (λ a, a <| pendingEvent := NO_EVENT |>);;
    HandleUnloadAbilityEventLocked said (pendingUnloadEvent a).

(** The task [OnAbilityLoadedLocked] posts. *)
Definition pendingUnloadTask (said : Z) : M unit :=
  o ← GetSystemAbilityContext said;
  match o with
  | None => mret tt
  | Some a => _ ← HandlePendingUnloadEventLocked a; mret tt
  end.

Definition UnloadAllSystemAbilityLocked (pn : u16string) : M Z :=
  p ← derefP pn;
  forM (saList p) (λ said,
    o ← GetSystemAbilityContext said;
    match o with
    | None => mret tt
    | Some c =>
        a ← derefA c;
        when (bool_decide (a_state a = UNLOADABLE)) (_ ← DoUnloadSystemAbilityLocked c; mret tt)
    end);;
  _ ← PostUnloadTimeoutTask pn;
  ProcessStateTransitionLocked listener_ (Some pn) STOPPING.

Definition TryUnloadAllSystemAbility (context : option u16string) : M Z :=
  match context with
  | None => mret ERR_INVALID_VALUE
  | Some pn =>
      b ← CanUnloadAllSystemAbilityLocked pn true;
      if (b : bool) then UnloadAllSystemAbilityLocked pn else mret ERR_OK
  end.

(** The body of the loops of [UnloadProcess] and [UnloadAllIdleSystemAbility]. *)
Definition unloadOne (result : Z) (pn : u16string) : M Z :=
  o ← GetSystemProcessContext pn;
  match o with
  | None => mret result
  | Some pn =>
      b ← CanUnloadAllSystemAbilityLocked pn false;
      ret ← (if (b : bool) then UnloadAllSystemAbilityLocked pn else mret ERR_OK);
      mret (if ret =? ERR_OK then result else ret)
  end.

Definition UnloadProcess (processList : list u16string) : M Z := foldM processList ERR_OK unloadOne.

Definition UnloadAllIdleSystemAbility : M Z :=
  m ← getS processContextMap_;
  foldM (sorted_keys u16_le m) ERR_OK unloadOne.

(** ** A process has stopped *)

(** [GetAbnormallyDiedAbilityLocked]: the list it fills. *)
Definition GetAbnormallyDiedAbilityLocked (pn : u16string) : M (list Z) :=
  p ← derefP pn;
  foldM (saList p) [] (λ acc said,
    o ← GetSystemAbilityContext said;
    match o with
    | None => mret acc
    | Some c =>
        a ← derefA c;
        if negb (bool_decide (a_state a = LOADED)) && negb (bool_decide (a_state a = LOADING)) then mret acc
        else
          SendUpdateSaState (systemAbilityId a) "crash";;
          when (systemAbilityId a =? SUBSYS_ACCOUNT_SYS_ABILITY_ID_BEGIN)
            (alive ← lockManager; when alive mi_RemoveWhiteCommonEvent);;
          if negb (isAutoRestart a) then mret acc
          else
            tr ← gets w_trace;
            if env_GetBoolParameter tr "resourceschedule.memmgr.min.memmory.watermark" false then mret acc
            else mret (acc ++ [c])
    end).

Definition HandleAbnormallyDiedAbilityLocked (pn : u16string) (abnormallyDied : list Z) : M Z :=
  match abnormallyDied with
  | [] => mret ERR_OK
  | _ =>
      b ← CanRestartProcessLocked pn;
      if negb b then mret ERR_OK
      else
        callback ← ask env_newCallback EvNewCallback;
        forM abnormallyDied (λ c,
          a ← derefA c;
          alive ← lockManager;
          when alive (_ ← mi_RemoveDiedSystemAbility (systemAbilityId a); mret tt);;
          _ ← HandleLoadAbilityEventLocked c
                (MkLoadRequest LOCAL_DEVICE (Some callback) (systemAbilityId a) (-1)
                   (mkEvent INTERFACE_CALL "restart" ""));
          mret tt);;
        mret ERR_OK
  end.

(** ** The scheduler as listener of the state machine *)

Definition OnProcessStartedLocked (pn : u16string) : M unit :=
  o ← GetSystemProcessContext pn;
  match o with None => mret tt | Some p => NotifyProcessStarted p end.

(** The loop of [OnProcessNotStartedLocked] over the SAs of the process. *)
Definition resetAbilities (l : list Z) : M unit :=
  forM l (λ said,
    o ← GetSystemAbilityContext said;
    match o with
    | None => mret tt
    | Some c =>
        result ← AbilityStateTransitionLocked listener_ (Some c) NOT_LOADED;
        when (result =? ERR_OK) (_ ← HandlePendingLoadEventLocked c; mret tt)
    end).

Definition OnProcessNotStartedLocked (pn : u16string) : M unit :=
  o ← GetSystemProcessContext pn;
  match o with
  | None => mret tt
  | Some pn =>
      NotifyProcessStopped pn;;
      RemoveUnloadTimeoutTask pn;;
      alive ← lockManager;
      when alive (mi_RemoveOnDemandSaInDiedProc pn);;
      died ← GetAbnormallyDiedAbilityLocked pn;
      p ← derefP pn;
      resetAbilities (saList p);;
      _ ← HandleAbnormallyDiedAbilityLocked pn died;
      mret tt
  end.

Definition OnAbilityNotLoadedLocked (said : Z) : M unit :=
  o ← GetSystemAbilityContext said;
  match o with
  | None => mret tt
  | Some c =>
      a ← derefA c;
      _ ← RemoveDelayUnloadEventLocked (systemAbilityId a);
      _ ← RemovePendingUnloadEventLocked c;
      pn ← ownProcess c;
      p ← derefP pn;
      match p_state p with
      | STOPPING => _ ← PostTryKillProcessTask pn; mret tt
      | STARTED => _ ← PostTryUnloadAllAbilityTask pn; mret tt
      | NOT_STARTED => mret tt
      end
  end.

Definition OnAbilityLoadedLocked (said : Z) : M unit :=
  hh ← hasHandler processHandler;
  when hh (_ ← PostTask processHandler (TPendingUnload said); mret tt);;
  o ← GetSystemAbilityContext said;
  match o with
  | None => mret tt
  | Some c =>
      pn ← ownProcess c;
      b ← IsProcessActivatedLocked pn;
      when b (NotifyProcessActivated pn)
  end.

Definition OnAbilityUnloadableLocked (said : Z) : M unit :=
  o ← GetSystemAbilityContext said;
  match o with
  | None => mret tt
  | Some c =>
      pn ← ownProcess c;
      b ← IsProcessIdledLocked pn;
      when b (NotifyProcessIdled pn);;
      a ← derefA c;
      when (a_independentUnload a) (_ ← DoUnloadSystemAbilityLocked c; mret tt);;
      _ ← PostTryUnloadAllAbilityTask pn;
      mret tt
  end.

(** The scheduler overrides five callbacks and inherits three. *)
Definition asListener : StateListener :=
  MkStateListener OnAbilityNotLoadedLocked (λ _, mret tt) OnAbilityLoadedLocked OnAbilityUnloadableLocked
    (λ _, mret tt) OnProcessNotStartedLocked OnProcessStartedLocked (λ _, mret tt).

(** ** Events *)

Definition SendAbilityStateEvent (said : Z) (event : AbilityStateEvent) : M Z :=
  o ← GetSystemAbilityContext said;
  match o with
  | None => mret ERR_INVALID_VALUE
  | Some c => HandleAbilityEventLocked listener_ (Some c) event
  end.

Definition RemoveRunningProcessLocked (pn : u16string) : M unit :=
  p ← derefP pn;
  updS runningProcessList_ (erase_first (λ i, bool_decide (spi_processName i = Str16ToStr8 (processName p)))).

Definition AddRunningProcessLocked (pn : u16string) : M unit :=
  p ← derefP pn;
  l ← getS runningProcessList_;
  let name := Str16ToStr8 (processName p) in
  match list_find (λ i, spi_processName i = name) l with
  | None => updS runningProcessList_ (λ l, l ++ [MkSystemProcessInfo name (pid p) (uid p)])
  | Some (k, _) => updS runningProcessList_ (alter (λ i, i <| spi_pid := pid p |> <| spi_uid := uid p |>) k)
  end.

Definition SendProcessStateEvent (info : ProcessInfo) (event : ProcessStateEvent) : M Z :=
  o ← GetSystemProcessContext (pi_processName info);
  match o with
  | None => mret ERR_INVALID_VALUE
  | Some pn =>
      ret ← HandleProcessEventLocked listener_ (Some pn) info event;
      when (ret =? ERR_OK)
        (if bool_decide (event = PROCESS_STARTED_EVENT) then AddRunningProcessLocked pn
         else RemoveRunningProcessLocked pn);;
      mret ret
  end.

(** [PostUnloadTimeoutTask]'s task. *)
Definition timeoutTask (pn : u16string) : M unit :=
  name ← unloadTimeoutName pn;
  DelTask processHandler name;;
  p ← derefP pn;
  when (bool_decide (p_state p = STOPPING)) (_ ← KillSystemProcessLocked pn; mret tt).

(** ** Enable-once events *)

(** [events.remove(event)], then the entry is erased when its list is empty. *)
Definition removeOnce (said : Z) (event : OnDemandEvent) (m : gmap Z (list OnDemandEvent)) : gmap Z (list OnDemandEvent) :=
  match filter (λ e, event_eqb e event = false) (default [] (m !! said)) with
  | [] => delete said m
  | l => <[said := l]> m
  end.

Definition addOnce (said : Z) (event : OnDemandEvent) (m : gmap Z (list OnDemandEvent)) : gmap Z (list OnDemandEvent) :=
  <[said := default [] (m !! said) ++ [event]]> m.

(** [iter != end() && IsSameEvent(event, map[saId])]. *)
Definition usedOnce (said : Z) (event : OnDemandEvent) (m : gmap Z (list OnDemandEvent)) : bool :=
  match m !! said with Some l => IsSameEvent event l | None => false end.

Definition CheckStartEnableOnce (event : OnDemandEvent) (ctl : SaControlInfo) (callback : LoadCallback) : M Z :=
  m ← getS startEnableOnceMap_;
  if ctl_enableOnce ctl && usedOnce (ctl_saId ctl) event m then mret ERR_INVALID_VALUE
  else
    when (ctl_enableOnce ctl) (updS startEnableOnceMap_ (addOnce (ctl_saId ctl) event));;
    callPid ← GetCallingPid;
    result ← HandleLoadAbilityEvent (MkLoadRequest LOCAL_DEVICE (Some callback) (ctl_saId ctl) callPid event);
    when (ctl_enableOnce ctl && negb (result =? ERR_OK))
      (updS startEnableOnceMap_ (removeOnce (ctl_saId ctl) event));;
    callUid ← GetCallingUid;
    when (negb (result =? ERR_OK))
      (emit (EvReport (ReportSamgrSaLoadFail (ctl_saId ctl) callPid callUid
                         ("ondemand load err:" +:+ to_string result))));;
    mret result.

Definition CheckStopEnableOnce (event : OnDemandEvent) (ctl : SaControlInfo) : M Z :=
  m ← getS stopEnableOnceMap_;
  if ctl_enableOnce ctl && usedOnce (ctl_saId ctl) event m then mret ERR_INVALID_VALUE
  else
    when (ctl_enableOnce ctl) (updS stopEnableOnceMap_ (addOnce (ctl_saId ctl) event));;
    callPid ← GetCallingPid;
    result ← HandleUnloadAbilityEvent (Some (MkUnloadRequest event (ctl_saId ctl) callPid));
    when (ctl_enableOnce ctl && negb (result =? ERR_OK))
      (updS stopEnableOnceMap_ (removeOnce (ctl_saId ctl) event));;
    callUid ← GetCallingUid;
    when (negb (result =? ERR_OK))
      (emit (EvReport (ReportSaUnLoadFail (ctl_saId ctl) callPid callUid
                         ("Ondemand unload err:" +:+ to_string result))));;
    mret result.

Definition CheckEnableOnce (event : OnDemandEvent) (l : list SaControlInfo) : M unit :=
  callback ← ask env_newCallback EvNewCallback;
  forM l (λ ctl,
    _ ← (if ondemandId ctl =? START_ON_DEMAND then CheckStartEnableOnce event ctl callback
         else if ondemandId ctl =? STOP_ON_DEMAND then CheckStopEnableOnce event ctl
         else mret ERR_INVALID_VALUE);
    mret tt).
End machine.

(** ** The knot: the state machine's listener is the scheduler

    A callback may drive the state machine again; [n] bounds the nesting. *)
Fixpoint schedulerListener (n : nat) : option StateListener :=
  match n with
  | O => None
  | S k => Some (asListener (schedulerListener k))
  end.

(** *** Depth of the knot *)

Lemma transition_meq L L' c st :
  (∀ said, meq (OnEnter L st said) (OnEnter L' st said)) →
  meq (AbilityStateTransitionLocked L c st) (AbilityStateTransitionLocked L' c st).
Proof. intros H. unfold AbilityStateTransitionLocked. solve_meq. Qed.

(** Two listeners that agree on the callbacks reachable while a process stops. *)
Record agree (L L' : option StateListener) : Prop := {
  agree_NotLoaded said : meq (OnEnter L NOT_LOADED said) (OnEnter L' NOT_LOADED said);
  agree_Loading said : meq (OnEnter L LOADING said) (OnEnter L' LOADING said);
  agree_Loaded said : meq (OnEnter L LOADED said) (OnEnter L' LOADED said);
  agree_Unloading said : meq (OnEnter L UNLOADING said) (OnEnter L' UNLOADING said);
}.
Hint Resolve agree_NotLoaded agree_Loading agree_Loaded agree_Unloading transition_meq : meq.

Section agree.
Context (L L' : option StateListener) (HL : agree L L').
Hint Resolve HL : meq.

Lemma DoUnload_meq said : meq (DoUnloadSystemAbilityLocked L said) (DoUnloadSystemAbilityLocked L' said).
Proof. unfold DoUnloadSystemAbilityLocked. solve_meq. Qed.
Lemma DoLoad_meq said r : meq (DoLoadSystemAbilityLocked L said r) (DoLoadSystemAbilityLocked L' said r).
Proof. unfold DoLoadSystemAbilityLocked. solve_meq. Qed.
Lemma Active_meq said r : meq (ActiveSystemAbilityLocked L said r) (ActiveSystemAbilityLocked L' said r).
Proof. unfold ActiveSystemAbilityLocked. solve_meq. Qed.
Hint Resolve DoUnload_meq DoLoad_meq Active_meq : meq.
Lemma HandleLoad_meq said r : meq (HandleLoadAbilityEventLocked L said r) (HandleLoadAbilityEventLocked L' said r).
Proof. unfold HandleLoadAbilityEventLocked. solve_meq. Qed.
Hint Resolve HandleLoad_meq : meq.
Lemma HandlePendingLoad_meq said : meq (HandlePendingLoadEventLocked L said) (HandlePendingLoadEventLocked L' said).
Proof. unfold HandlePendingLoadEventLocked. solve_meq. Qed.
Hint Resolve HandlePendingLoad_meq : meq.
Lemma OnProcessNotStarted_meq pn : meq (OnProcessNotStartedLocked L pn) (OnProcessNotStartedLocked L' pn).
Proof. unfold OnProcessNotStartedLocked, resetAbilities, HandleAbnormallyDiedAbilityLocked. solve_meq. Qed.
Lemma OnAbilityUnloadable_meq said : meq (OnAbilityUnloadableLocked L said) (OnAbilityUnloadableLocked L' said).
Proof. unfold OnAbilityUnloadableLocked. solve_meq. Qed.
End agree.

Ltac reduce_listener :=
  unfold OnEnter, OnEnterProcess, notify;
  cbn [Nat.add schedulerListener asListener OnAbilityNotLoaded OnAbilityLoading
       OnAbilityLoaded OnAbilityUnloadable OnAbilityUnloading OnProcessNotStarted OnProcessStarted OnProcessStopping].

(** One level of the knot already has every callback a callback can reach. *)
Lemma schedulerListener_agree n : agree (schedulerListener (1 + n)) (schedulerListener 1).
Proof. split; intros said; reduce_listener; apply meq_refl. Qed.

(** Listeners that behave alike. *)
Definition listener_eq (L L' : option StateListener) : Prop :=
  (∀ st said, meq (OnEnter L st said) (OnEnter L' st said)) ∧
  (∀ st pn, meq (OnEnterProcess L st pn) (OnEnterProcess L' st pn)).

Lemma schedulerListener_depth n : listener_eq (schedulerListener (2 + n)) (schedulerListener 2).
Proof.
  split; intros st x; destruct st; reduce_listener;
    repeat (lazymatch goal with |- meq (_ ≫= _) _ => apply meq_bind; [apply meq_refl|intros ?] end);
    first [ simple apply OnAbilityUnloadable_meq; apply schedulerListener_agree
          | simple apply OnProcessNotStarted_meq; apply schedulerListener_agree
          | apply meq_refl ].
Qed.
End scheduler.
