(* ===== verification/SchedulerQuery.v ===== *)
(** [SystemAbilityStateScheduler], continued: initialisation from the profiles,
    process subscriptions, queries and dumps
    (services/samgr/native/source/schedule/system_ability_state_scheduler.cpp). *)
From S2P Require Import Prelude Types World Ffrt Util Contexts Interfaces StateMachine EventHandler Scheduler.

Definition MAX_PROC_SUBSCRIBE_COUNT : Z := 256.
(** [u"samgr"]. *)
Definition SAMGR_PROCESS_NAME : u16string := [115; 97; 109; 103; 114].
Definition NL : string := String (Ascii.ascii_of_nat 10) "".

Definition SA_STATE_ENUM_STR (s : SystemAbilityState) : string :=
  match s with
  | NOT_LOADED => "NOT_LOADED" | LOADING => "LOADING" | LOADED => "LOADED"
  | UNLOADABLE => "UNLOADABLE" | UNLOADING => "UNLOADING"
  end.
Definition PROCESS_STATE_ENUM_STR (s : SystemProcessState) : string :=
  match s with NOT_STARTED => "NOT_STARTED" | STARTED => "STARTED" | STOPPING => "STOPPING" end.
Definition PENDINGEVENT_ENUM_STR (e : PendingEvent) : string :=
  match e with
  | NO_EVENT => "NO_EVENT" | LOAD_ABILITY_EVENT => "LOAD_ABILITY_EVENT"
  | UNLOAD_ABILITY_EVENT => "UNLOAD_ABILITY_EVENT"
  end.

Section query.
Context `{E : Env} {MI : ManagerIface}.

(** ** Initialisation *)

(** [abilityStateCountMap] with its five entries. *)
Definition countMap (notLoaded loaded : Z) : gmap SystemAbilityState Z :=
  <[UNLOADING := 0]> (<[UNLOADABLE := 0]> (<[LOADED := loaded]> (<[LOADING := 0]> (<[NOT_LOADED := notLoaded]> ∅)))).

(** The body of the loop of [InitStateContext]. *)
Definition initOne (s : Sched) (sp : SaProfile) : Sched :=
  if bool_decide (process sp = []) then s
  else
    let fresh := newProcessContext <| processName := process sp |> <| abilityStateCountMap := countMap 0 0 |> in
    s <| processContextMap_ ::= map_touch (process sp) fresh |>
      <| processContextMap_ ::= alter (λ p,
           p <| saList ::= λ l, l ++ [saId sp] |>
             <| abilityStateCountMap ::= alter (λ n, u32 (n + 1)) NOT_LOADED |>) (process sp) |>
      <| abilityContextMap_ ::= <[saId sp :=
           newAbilityContext <| systemAbilityId := saId sp |> <| isAutoRestart := autoRestart sp |>
             <| a_independentUnload := independentUnload sp |>
             <| delayUnloadTime := LimitDelayUnloadTime (delayTime (stopOnDemand sp)) |>
             <| ownProcessContext := Some (process sp) |>]> |>.

Definition InitStateContext (saProfiles : list SaProfile) : M unit :=
  modify (λ w, w <| w_sched ::= λ s, foldl initOne s saProfiles |>).

(** The map [ProcessLowmemState] after the first loop of [InitLowMemProcessList]. *)
Definition lowmemState (m : gmap u16string bool) (sp : SaProfile) : gmap u16string bool :=
  if bool_decide (process sp = []) then m
  else if recycleStrategy sp =? IMMEDIATELY then <[process sp := false]> m
  else map_touch (process sp) true m.

Definition InitLowMemProcessList (saProfiles : list SaProfile) : M unit :=
  let m := foldl lowmemState ∅ saProfiles in
  updS lowMemoryProcessList_ (λ l, l ++ filter (λ pn, m !! pn = Some true) (sorted_keys u16_le m)).

Definition InitSamgrProcessContext : M unit :=
  updS processContextMap_ <[SAMGR_PROCESS_NAME :=
    newProcessContext <| processName := SAMGR_PROCESS_NAME |> <| abilityStateCountMap := countMap 0 1 |>
      <| pid := env_getpid |> <| uid := i32 env_getuid |> <| saList := [0] |> <| p_state := STARTED |>]>;;
  updS runningProcessList_
    (λ l, l ++ [MkSystemProcessInfo (Str16ToStr8 SAMGR_PROCESS_NAME) env_getpid (i32 env_getuid)]);;
  updS abilityContextMap_ <[0 :=
    newAbilityContext <| systemAbilityId := 0 |> <| isAutoRestart := false |>
      <| delayUnloadTime := MAX_DELAY_TIME |> <| ownProcessContext := Some SAMGR_PROCESS_NAME |>]>.

(** [SystemAbilityStateScheduler::Init]. *)
Definition SchedulerInit (saProfiles : list SaProfile) : M unit :=
  InitStateContext saProfiles;;
  InitLowMemProcessList saProfiles;;
  updS processListenerDeath_ (λ _, true);;
  newFFRTHandler unloadHandler;;
  newFFRTHandler processHandler;;
  newFFRTHandler recoverHandler.

Definition SchedulerCleanFfrt : M unit :=
  CleanFfrt processHandler;; CleanFfrt unloadHandler;; CleanFfrt recoverHandler.
Definition SchedulerSetFfrt : M unit :=
  SetFfrt processHandler;; SetFfrt unloadHandler;; SetFfrt recoverHandler.
Definition CleanResource : M unit := updS abilityContextMap_ (λ _, ∅).

(** ** Queries *)

Definition IsSystemAbilityUnloading (said : Z) : M bool :=
  o ← GetSystemAbilityContext said;
  match o with
  | None => mret false
  | Some c =>
      a ← derefA c;
      pn ← ownProcess c;
      p ← derefP pn;
      mret (bool_decide (a_state a = UNLOADING) || bool_decide (p_state p = STOPPING))
  end.

Definition HandleAbilityDiedEvent (said : Z) : M Z := mret ERR_OK.

Definition GetSystemProcessInfo (said : Z) (out : SystemProcessInfo) : M (Z * SystemProcessInfo) :=
  o ← GetSystemAbilityContext said;
  match o with
  | None => mret (ERR_INVALID_VALUE, out)
  | Some c => pn ← ownProcess c; info ← processInfoOf pn; mret (ERR_OK, info)
  end.

Definition GetRunningSystemProcess : M (Z * list SystemProcessInfo) :=
  l ← getS runningProcessList_; mret (ERR_OK, l).

Definition GetProcessNameByProcessId (wanted : Z) (out : u16string) : M (Z * u16string) :=
  m ← getS processContextMap_;
  mret (match list_find (λ k, (pid <$> m !! k) = Some wanted) (sorted_keys u16_le m) with
        | Some (_, k) => (ERR_OK, match m !! k with Some p => processName p | None => out end)
        | None => (ERR_INVALID_VALUE, out)
        end).

Definition GetIdleProcessInfo (said : Z) : M (option IdleProcessInfo) :=
  o ← GetSystemAbilityContext said;
  match o with
  | None => mret None
  | Some c =>
      a ← derefA c;
      pn ← ownProcess c;
      p ← derefP pn;
      if negb (bool_decide (a_state a = UNLOADABLE)) || bool_decide (p_state p = NOT_STARTED) then mret None
      else
        recent ← (if negb (lastStopTime p =? -1)
                  then t ← GetTickCount; mret (t - lastStopTime p <? TWO_MINUTES_MS) else mret false);
        if (recent : bool) then mret None
        else mret (Some (MkIdleProcessInfo (pid p) (processName p) (lastIdleTime a)))
  end.

Definition IsSystemProcessCanUnload (pn : u16string) : M bool :=
  o ← GetSystemProcessContext pn;
  match o with None => mret false | Some pn => CanUnloadAllSystemAbilityLocked pn false end.

(** ** Dumps *)

Definition separator : string := NL +:+ "---------------------------------------------------" +:+ NL.

Definition stateFields (said : Z) (a : SystemAbilityContext) : string :=
  "said:                           " +:+ to_string said +:+ NL +:+
  "sa_state:                       " +:+ SA_STATE_ENUM_STR (a_state a) +:+ NL +:+
  "sa_pending_event:               " +:+ PENDINGEVENT_ENUM_STR (pendingEvent a).

Definition ownerFields (p : SystemProcessContext) : string :=
  NL +:+ "process_name:                   " +:+ Str16ToStr8 (processName p) +:+
  NL +:+ "pid:                            " +:+ to_string (pid p) +:+
  NL +:+ "uid:                            " +:+ to_string (uid p).

Definition abilityEntry (s : Sched) (a : SystemAbilityContext) : string :=
  stateFields (systemAbilityId a) a +:+
  match ownProcessContext a ≫= λ pn, processContextMap_ s !! pn with
  | Some p => ownerFields p
  | None => ""
  end +:+ separator.

(** The entries of [abilityContextMap_] that pass a test, in the order of their ids. *)
Definition dumpAbilities (s : Sched) (keep : SystemAbilityContext → bool) (result : string) : string :=
  foldl (λ r k, match abilityContextMap_ s !! k with
                | Some a => if keep a then r +:+ abilityEntry s a else r
                | None => r
                end) result (sorted_keys Z.le (abilityContextMap_ s)).

Definition GetAllSystemAbilityInfo (result : string) : M string :=
  s ← gets w_sched; mret (dumpAbilities s (λ _, true) result).

Definition GetAllSystemAbilityInfoByState (state result : string) : M string :=
  s ← gets w_sched; mret (dumpAbilities s (λ a, bool_decide (SA_STATE_ENUM_STR (a_state a) = state)) result).

Definition GetSystemAbilityInfo (said : Z) (result : string) : M string :=
  o ← GetSystemAbilityContext said;
  match o with
  | None => mret (result +:+ "said is not exist")
  | Some c =>
      a ← derefA c;
      pn ← ownProcess c;
      p ← derefP pn;
      mret (result +:+ stateFields said a +:+ NL +:+
            "process_name:                   " +:+ Str16ToStr8 (processName p) +:+ NL +:+
            "process_state:                  " +:+ PROCESS_STATE_ENUM_STR (p_state p) +:+ NL +:+
            "pid:                            " +:+ to_string (pid p) +:+ NL)
  end.

(** The loop of [GetProcessInfo]: it stops at the first id without a context. *)
Fixpoint processAbilities (l : list Z) (result : string) : M string :=
  match l with
  | [] => mret result
  | said :: l' =>
      o ← GetSystemAbilityContext said;
      match o with
      | None => mret (result +:+ "process said is not exist")
      | Some c => a ← derefA c; processAbilities l' (result +:+ stateFields (systemAbilityId a) a +:+ separator)
      end
  end.

Definition GetProcessInfo (name result : string) : M string :=
  o ← GetSystemProcessContext (Str8ToStr16 name);
  match o with
  | None => mret (result +:+ "process is not exist")
  | Some pn =>
      p ← derefP pn;
      processAbilities (saList p)
        (result +:+ "process_name:                   " +:+ Str16ToStr8 (processName p) +:+ NL +:+
         "process_state:                  " +:+ PROCESS_STATE_ENUM_STR (p_state p) +:+ NL +:+
         "pid:                            " +:+ to_string (pid p) +:+ separator)
  end.

(** ** Subscriptions to all processes *)

(** [listener == nullptr || listener->AsObject() == nullptr] fails: the binder object. *)
Definition listenerObject (l : option ProcessStatusChange) : option (ProcessStatusChange * RemoteObject) :=
  match l with Some l => (λ obj, (l, obj)) <$> psc_AsObject l | None => None end.

Definition isListener (obj : RemoteObject) (i : ProcessListener) : bool :=
  bool_decide (psc_AsObject (pl_listener i) = Some obj).

Definition subscribeFlag (foregroundOnly : bool) (b : bool) (i : ProcessListener) : ProcessListener :=
  if foregroundOnly then i <| hasForegroundSubscription := b |> else i <| hasDirectSubscription := b |>.

Definition SubscribeSystemProcess (listener : option ProcessStatusChange) (foregroundOnly : bool) : M Z :=
  match listenerObject listener with
  | None => mret ERR_INVALID_VALUE
  | Some (l, obj) =>
      ls ← getS processListeners_;
      match list_find (λ i, isListener obj i = true) ls with
      | None =>
          dr ← getS processListenerDeath_;
          when dr (AddDeathRecipient ProcessListenerDeath obj);;
          updS processListeners_ (λ ls, ls ++ [newProcessListener l foregroundOnly]);;
          mret ERR_OK
      | Some (k, _) =>
          updS processListeners_ (alter (subscribeFlag foregroundOnly true) k);; mret ERR_OK
      end
  end.

Definition UnSubscribeSystemProcess (listener : option ProcessStatusChange) (foregroundOnly : bool) : M Z :=
  match listenerObject listener with
  | None => mret ERR_INVALID_VALUE
  | Some (l, obj) =>
      ls ← getS processListeners_;
      match list_find (λ i, isListener obj i = true) ls with
      | None => mret ERR_OK
      | Some (k, i) =>
          let i' := subscribeFlag foregroundOnly false i in
          if negb (hasDirectSubscription i') && negb (hasForegroundSubscription i') then
            dr ← getS processListenerDeath_;
            when dr (RemoveDeathRecipient ProcessListenerDeath obj);;
            updS processListeners_ (delete k);;
            mret ERR_OK
          else updS processListeners_ <[k := i']>;; mret ERR_OK
      end
  end.

(** [UnSubscribeSystemProcess(remoteObject)], of the death recipient. *)
Definition UnSubscribeSystemProcessRemote (obj : option RemoteObject) : M unit :=
  match obj with
  | None => mret tt
  | Some o => updS processListeners_ (filter (λ i, isListener o i = false))
  end.

(** ** Subscriptions to named processes *)

Fixpoint SubscribeSystemProcessListLoop (procNames : list u16string) (l : ProcessStatusChange) : M Z :=
  match procNames with
  | [] => mret ERR_OK
  | pn :: rest =>
      o ← GetSystemProcessContext pn;
      match o with
      | None => SubscribeSystemProcessListLoop rest l
      | Some _ =>
          callPid ← GetCallingPid;
          updS procListenerMap_ (map_touch pn []);;
          m ← getS procListenerMap_;
          if existsb (λ x, bool_decide (psc_ptr x = psc_ptr l)) (default [] (m !! pn))
          then SubscribeSystemProcessListLoop rest l
          else
            updS subscribeProcCountMap_ (map_touch callPid 0);;
            cm ← getS subscribeProcCountMap_;
            let count := default 0 (cm !! callPid) in
            if MAX_PROC_SUBSCRIBE_COUNT <=? count then mret ERR_PERMISSION_DENIED
            else
              dr ← getS processListenerDeath_;
              when dr (
                match psc_AsObject l with
                | Some obj => AddDeathRecipient ProcessListenerDeath obj
                | None => emit EvNullDeref
                end;;
                updS procListenerMap_ (alter (λ ls, ls ++ [l]) pn);;
                updS subscribeProcCountMap_ (alter Z.succ callPid));;
              SubscribeSystemProcessListLoop rest l
      end
  end.

Definition SubscribeSystemProcessList (procNames : list u16string) (listener : option ProcessStatusChange) : M Z :=
  match listener with
  | None => mret ERR_INVALID_VALUE
  | Some l => SubscribeSystemProcessListLoop procNames l
  end.

Definition SubscribeLowMemSystemProcess (listener : option ProcessStatusChange) : M Z :=
  match listener with
  | None => mret ERR_INVALID_VALUE
  | Some _ => l ← getS lowMemoryProcessList_; SubscribeSystemProcessList l listener
  end.

Definition UnSubscribeSystemProcessListLocked (pn : u16string) (obj : option RemoteObject) : M unit :=
  m ← getS procListenerMap_;
  let ls := default [] (m !! pn) in
  callPid ← GetCallingPid;
  when (existsb (λ x, bool_decide (psc_AsObject x = obj)) ls) (
    updS procListenerMap_ (alter (erase_first (λ x, bool_decide (psc_AsObject x = obj))) pn);;
    cm ← getS subscribeProcCountMap_;
    match cm !! callPid with
    | None => mret tt
    | Some n =>
        if n - 1 <=? 0 then updS subscribeProcCountMap_ (delete callPid)
        else updS subscribeProcCountMap_ <[callPid := n - 1]>
    end).

Definition UnSubscribeSystemProcessList (procNames : list u16string) (listener : option ProcessStatusChange) : M Z :=
  match listener with
  | None => mret ERR_INVALID_VALUE
  | Some l =>
      forM procNames (λ pn,
        m ← getS procListenerMap_;
        match m !! pn with
        | None => mret tt
        | Some _ =>
            UnSubscribeSystemProcessListLocked pn (psc_AsObject l);;
            dr ← getS processListenerDeath_;
            when dr (match psc_AsObject l with
                     | Some obj => RemoveDeathRecipient ProcessListenerDeath obj
                     | None => emit EvNullDeref
                     end)
        end);;
      mret ERR_OK
  end.

Definition UnSubscribeLowMemSystemProcess (listener : option ProcessStatusChange) : M Z :=
  match listener with
  | None => mret ERR_INVALID_VALUE
  | Some _ => l ← getS lowMemoryProcessList_; UnSubscribeSystemProcessList l listener
  end.

(** ** The queries of the dump change nothing *)

Lemma processAbilities_rest l r : respects frame (processAbilities l r).
Proof. revert r. induction l; intros; simpl; solve_respects. Qed.
Hint Resolve processAbilities_rest : respects.
Lemma GetProcessInfo_rest name r : respects frame (GetProcessInfo name r).
Proof. unfold GetProcessInfo. solve_deep. Qed.
Lemma GetSystemAbilityInfo_rest said r : respects frame (GetSystemAbilityInfo said r).
Proof. solve_deep. Qed.
Lemma GetAllSystemAbilityInfo_rest r : respects frame (GetAllSystemAbilityInfo r).
Proof. solve_deep. Qed.
Lemma GetAllByState_rest st r : respects frame (GetAllSystemAbilityInfoByState st r).
Proof. solve_deep. Qed.
End query.
#[export] Hint Resolve GetProcessInfo_rest GetSystemAbilityInfo_rest GetAllSystemAbilityInfo_rest GetAllByState_rest : respects.
