(* ===== verification/SchedulerInv.v ===== *)
(** The invariant of the scheduler's contexts, and the updates that preserve it.

    - every SA context belongs to the process whose [saList] names it, and back;
    - [abilityStateCountMap] counts the SAs of the process in each state;
    - an SA that is being unloaded has the request that asked for it;
    - pending load requests have distinct callbacks, are counted per caller, and
      no caller has more than [MAX_PENDING_LOAD_COUNT];
    - a stopping process has no SA that is loading;
    - unload delays and the restart history are bounded. *)
From S2P Require Import Prelude Types World Ffrt Util Contexts Interfaces Hoare StateMachine EventHandler.
From S2P Require Import Scheduler SchedulerQuery.

(** ** Statement *)

(** The SA [k] is in state [st]. *)
Definition has_state (am : gmap Z SystemAbilityContext) (st : SystemAbilityState) (k : Z) : bool :=
  match am !! k with Some a => bool_decide (a_state a = st) | None => false end.

(** Number of the SAs of a process in a state. *)
Definition count_of (am : gmap Z SystemAbilityContext) (p : SystemProcessContext) (st : SystemAbilityState) : Z :=
  countb (has_state am st) (saList p).

Definition callback_objects (l : list LoadRequestInfo) : list (option RemoteObject) :=
  (λ r, cb_AsObject <$> lr_callback r) <$> l.

Definition pending_of (l : list LoadRequestInfo) (caller : Z) : Z :=
  countb (λ r, lr_callingPid r =? caller) l.

Record pending_ok (a : SystemAbilityContext) : Prop := {
  po_callbacks : NoDup (callback_objects (pendingLoadEventList a));
  po_some : ∀ r, r ∈ pendingLoadEventList a → is_Some (lr_callback r);
  po_count caller : default 0 (pendingLoadEventCountMap a !! caller) = pending_of (pendingLoadEventList a) caller;
  po_bound caller : pending_of (pendingLoadEventList a) caller ≤ MAX_PENDING_LOAD_COUNT;
  po_unload : pendingEvent a = UNLOAD_ABILITY_EVENT → is_Some (pendingUnloadEvent a);
}.

Definition unload_ok (a : SystemAbilityContext) : Prop :=
  a_state a = UNLOADABLE ∨ a_state a = UNLOADING → is_Some (unloadRequest a).

Record ability_local (a : SystemAbilityContext) : Prop := {
  al_delay : 0 ≤ delayUnloadTime a ≤ MAX_DELAY_TIME;
  al_unload : unload_ok a;
  al_pending : pending_ok a;
}.

Record ability_ok (am : gmap Z SystemAbilityContext) (pm : gmap u16string SystemProcessContext)
    (k : Z) (a : SystemAbilityContext) : Prop := {
  ao_id : systemAbilityId a = k;
  ao_own : ∃ pn p, ownProcessContext a = Some pn ∧ pm !! pn = Some p ∧ k ∈ saList p;
  ao_local : ability_local a;
}.

(** What the counters say; the entry of samgr itself is not counted. *)
Definition counts_ok (am : gmap Z SystemAbilityContext) (pn : u16string) (p : SystemProcessContext) : Prop :=
  if decide (pn = SAMGR_PROCESS_NAME)
  then abilityStateCountMap p = countMap 0 1 ∧ ∀ k, k ∈ saList p → has_state am NOT_LOADED k = true
  else ∀ st, abilityStateCountMap p !! st = Some (count_of am p st).

Record process_ok (am : gmap Z SystemAbilityContext) (pn : u16string) (p : SystemProcessContext) : Prop := {
  pk_name : processName p = pn;
  pk_nodup : NoDup (saList p);
  pk_size : Z.of_nat (length (saList p)) < 2 ^ 32;
  pk_sas : ∀ k, k ∈ saList p → ∃ a, am !! k = Some a ∧ ownProcessContext a = Some pn;
  pk_restart : Z.of_nat (length (restartCountsCtrl p)) ≤ RESTART_TIMES_LIMIT;
  pk_counts : counts_ok am pn p;
  pk_stopping : p_state p = STOPPING → ∀ k, k ∈ saList p → has_state am LOADING k = false;
}.

Record ctx_inv (s : Sched) : Prop := {
  ci_ability : ∀ k a, abilityContextMap_ s !! k = Some a →
                      ability_ok (abilityContextMap_ s) (processContextMap_ s) k a;
  ci_process : ∀ pn p, processContextMap_ s !! pn = Some p → process_ok (abilityContextMap_ s) pn p;
}.

(** ** The owner of an SA *)

Lemma ctx_owner s k a :
  ctx_inv s → abilityContextMap_ s !! k = Some a →
  ∃ pn p, ownProcessContext a = Some pn ∧ processContextMap_ s !! pn = Some p ∧ k ∈ saList p
          ∧ process_ok (abilityContextMap_ s) pn p.
Proof.
  intros HI Ha. destruct (ao_own _ _ _ _ (ci_ability _ HI _ _ Ha)) as (pn & p & ? & Hp & ?).
  exists pn, p. do 3 (split; [done|]). by apply HI.
Qed.

Lemma has_state_lookup am st k a : am !! k = Some a → has_state am st k = bool_decide (a_state a = st).
Proof. unfold has_state. by intros ->. Qed.

(** The count of a state in a well-formed process other than samgr is positive
    when one of its SAs is in the state. *)
Lemma count_of_pos am p st k : k ∈ saList p → has_state am st k = true → 0 < count_of am p st.
Proof. intros Hk Hs. eapply countb_pos; eauto. Qed.

Lemma count_of_range am p st :
  Z.of_nat (length (saList p)) < 2 ^ 32 → is_u32 (count_of am p st).
Proof.
  intros Hp. pose proof (countb_nonneg (has_state am st) (saList p)).
  pose proof (countb_le_length (has_state am st) (saList p)). unfold is_u32, count_of. lia.
Qed.

(** ** Updates that leave states, owners and lists alone *)

Definition setA (k : Z) (f : SystemAbilityContext → SystemAbilityContext) (s : Sched) : Sched :=
  s <| abilityContextMap_ ::= alter f k |>.
Definition setP (pn : u16string) (f : SystemProcessContext → SystemProcessContext) (s : Sched) : Sched :=
  s <| processContextMap_ ::= alter f pn |>.

Record ability_frame (a a' : SystemAbilityContext) : Prop := {
  af_id : systemAbilityId a' = systemAbilityId a;
  af_own : ownProcessContext a' = ownProcessContext a;
  af_state : a_state a' = a_state a;
}.

Lemma has_state_alter am k f st k' :
  (∀ a, am !! k = Some a → a_state (f a) = a_state a) →
  has_state (alter f k am) st k' = has_state am st k'.
Proof.
  intros Hf. unfold has_state. destruct (decide (k = k')) as [->|Hne].
  - rewrite lookup_alter_eq. destruct (am !! k') as [a|] eqn:Ha; [|done]. simpl. by rewrite (Hf a).
  - by rewrite lookup_alter_ne.
Qed.

Lemma process_ok_ext am am' pn p :
  (∀ st k, k ∈ saList p → has_state am' st k = has_state am st k) →
  (∀ k a, am !! k = Some a → ∃ a', am' !! k = Some a' ∧ ownProcessContext a' = ownProcessContext a) →
  process_ok am pn p → process_ok am' pn p.
Proof.
  intros Hst Hown [Hn Hnd Hsz Hsas Hr Hc Hstop]. split; try done.
  - intros k Hk. destruct (Hsas k Hk) as (a & Ha & Hpn). destruct (Hown k a Ha) as (a' & Ha' & E).
    exists a'. by rewrite E.
  - unfold counts_ok in *. case_decide.
    + split; [tauto|]. intros k Hk. rewrite Hst by done. by apply Hc.
    + intros st. rewrite (Hc st). f_equal. apply countb_ext. intros. by rewrite Hst by done.
  - intros HS k Hk. rewrite Hst by done. by apply Hstop.
Qed.

(** An update of one SA context that keeps its id, owner, state and local part. *)
Lemma ctx_inv_setA s k f :
  ctx_inv s →
  (∀ a, abilityContextMap_ s !! k = Some a → ability_frame a (f a) ∧ (ability_local a → ability_local (f a))) →
  ctx_inv (setA k f s).
Proof.
  intros HI Hf.
  assert (Hst : ∀ st k', has_state (alter f k (abilityContextMap_ s)) st k' = has_state (abilityContextMap_ s) st k').
  { intros. apply has_state_alter. intros a Ha. apply Hf, Ha. }
  split; simpl.
  - intros k' a' Ha'. destruct (decide (k = k')) as [->|Hne].
    + rewrite lookup_alter_eq in Ha'. apply fmap_Some in Ha' as (a & Ha & ->).
      destruct (ci_ability _ HI _ _ Ha) as [Hid Hown Hloc]. destruct (Hf a Ha) as [[E1 E2 E3] Hl].
      split; [by rewrite E1| |auto]. by rewrite E2.
    + rewrite lookup_alter_ne in Ha' by done.
      destruct (ci_ability _ HI _ _ Ha') as [Hid Hown Hloc]. by split.
  - intros pn p Hp. eapply process_ok_ext; [intros; apply Hst| |by eapply ci_process].
    intros k' a Ha. destruct (decide (k = k')) as [->|Hne].
    + rewrite lookup_alter_eq, Ha. eexists; split; [done|]. apply Hf, Ha.
    + rewrite lookup_alter_ne by done. eauto.
Qed.

Record process_frame (p p' : SystemProcessContext) : Prop := {
  pf_name : processName p' = processName p;
  pf_list : saList p' = saList p;
  pf_counts : abilityStateCountMap p' = abilityStateCountMap p;
  pf_state : p_state p' = p_state p;
  pf_restart : Z.of_nat (length (restartCountsCtrl p')) ≤ RESTART_TIMES_LIMIT;
}.

Lemma process_ok_frame am pn p p' : process_frame p p' → process_ok am pn p → process_ok am pn p'.
Proof.
  intros [E1 E2 E3 E4 E5] [Hn Hnd Hsz Hsas Hr Hc Hstop].
  split; rewrite ?E1, ?E2, ?E4; try done.
  unfold counts_ok, count_of in *. by rewrite E2, E3.
Qed.

Lemma ctx_inv_setP s pn f :
  ctx_inv s →
  (∀ p, processContextMap_ s !! pn = Some p → process_ok (abilityContextMap_ s) pn p →
        saList (f p) = saList p ∧ process_ok (abilityContextMap_ s) pn (f p)) →
  ctx_inv (setP pn f s).
Proof.
  intros HI Hf. split; simpl.
  - intros k a Ha. destruct (ci_ability _ HI _ _ Ha) as [Hid (pn' & p & Hown & Hp & Hk) Hloc].
    split; [done| |done]. exists pn'. destruct (decide (pn = pn')) as [->|Hne].
    + exists (f p). rewrite lookup_alter_eq, Hp. split; [done|]. split; [done|].
      destruct (Hf p Hp) as [-> _]; [by eapply ci_process|done].
    + exists p. by rewrite lookup_alter_ne.
  - intros pn' p' Hp'. destruct (decide (pn = pn')) as [->|Hne].
    + rewrite lookup_alter_eq in Hp'. apply fmap_Some in Hp' as (p & Hp & ->).
      apply Hf; [done|]. by eapply ci_process.
    + rewrite lookup_alter_ne in Hp' by done. by eapply ci_process.
Qed.

Lemma ctx_inv_setP_frame s pn f :
  ctx_inv s →
  (∀ p, processContextMap_ s !! pn = Some p → process_ok (abilityContextMap_ s) pn p → process_frame p (f p)) →
  ctx_inv (setP pn f s).
Proof.
  intros HI Hf. apply ctx_inv_setP; [done|]. intros p Hp Hok. pose proof (Hf p Hp Hok) as HF.
  split; [apply HF|]. by eapply process_ok_frame.
Qed.

(** ** A state transition of one SA *)

Lemma has_state_set am k to st a :
  am !! k = Some a →
  has_state (alter (λ c, c <| a_state := to |>) k am) st k = bool_decide (to = st).
Proof. intros Ha. unfold has_state. by rewrite lookup_alter_eq, Ha. Qed.

Lemma has_state_set_ne am k to st k' :
  k ≠ k' → has_state (alter (λ c, c <| a_state := to |>) k am) st k' = has_state am st k'.
Proof. intros Hne. unfold has_state. by rewrite lookup_alter_ne. Qed.

(** One SA moves from a state to another: the counts of the two states move by one. *)
Lemma count_of_set am p k a to st :
  NoDup (saList p) → k ∈ saList p → am !! k = Some a →
  count_of (alter (λ c, c <| a_state := to |>) k am) p st =
  count_of am p st - (if bool_decide (a_state a = st) then 1 else 0) + (if bool_decide (to = st) then 1 else 0).
Proof.
  intros Hnd Hk Ha. unfold count_of.
  rewrite (countb_flip (has_state am st) _ (saList p) k Hnd Hk).
  - by rewrite (has_state_set _ _ _ _ a), (has_state_lookup am st k a).
  - intros y Hy. by rewrite has_state_set_ne.
Qed.

(** The counters after [UpdateStateCount]. *)
Definition moveCount (from to : SystemAbilityState) (m : gmap SystemAbilityState Z) : gmap SystemAbilityState Z :=
  alter (λ n, u32 (n + 1)) to (alter (λ n, u32 (n - 1)) from m).

Lemma moveCount_counts am p k a to :
  let from := a_state a in
  NoDup (saList p) → Z.of_nat (length (saList p)) < 2 ^ 32 → k ∈ saList p → am !! k = Some a → from ≠ to →
  (∀ st, abilityStateCountMap p !! st = Some (count_of am p st)) →
  ∀ st, moveCount from to (abilityStateCountMap p) !! st =
        Some (count_of (alter (λ c, c <| a_state := to |>) k am) p st).
Proof.
  intros from Hnd Hsz Hk Ha Hne Hc st. unfold moveCount.
  pose proof (count_of_range (alter (λ c, c <| a_state := to |>) k am) p st Hsz) as Hr.
  rewrite (count_of_set am p k a to st Hnd Hk Ha) in Hr |- *. fold from in Hr |- *.
  destruct (decide (to = st)) as [<-|Ht].
  - rewrite lookup_alter_eq, lookup_alter_ne, Hc by done. simpl.
    rewrite (bool_decide_eq_false_2 (from = to)), bool_decide_eq_true_2 in Hr |- * by done.
    rewrite u32_id; [f_equal; lia|]. unfold is_u32 in *. lia.
  - rewrite lookup_alter_ne by done. rewrite (bool_decide_eq_false_2 (to = st)) in Hr |- * by done.
    destruct (decide (from = st)) as [<-|Hf].
    + rewrite lookup_alter_eq, Hc. simpl. rewrite bool_decide_eq_true_2 in Hr |- * by done.
      rewrite u32_id; [f_equal; lia|]. unfold is_u32 in *. lia.
    + rewrite lookup_alter_ne, Hc, bool_decide_eq_false_2 by done. f_equal. lia.
Qed.

(** The scheduler's state after a transition of SA [k] of process [pn]. *)
Definition setState (k : Z) (pn : u16string) (from to : SystemAbilityState) (s : Sched) : Sched :=
  setA k (λ c, c <| a_state := to |>) (setP pn (λ p, p <| abilityStateCountMap ::= moveCount from to |>) s).

Section transition.
Context (s : Sched) (k : Z) (a : SystemAbilityContext) (pn : u16string) (p : SystemProcessContext).
Context (to : SystemAbilityState).
Context (HI : ctx_inv s) (Ha : abilityContextMap_ s !! k = Some a) (Hown : ownProcessContext a = Some pn).
Context (Hp : processContextMap_ s !! pn = Some p) (Hne : a_state a ≠ to) (Hpn : pn ≠ SAMGR_PROCESS_NAME).
Context (Hreq : to = UNLOADABLE ∨ to = UNLOADING → is_Some (unloadRequest a)).
Context (Hload : to = LOADING → p_state p ≠ STOPPING).

Lemma owner_member : k ∈ saList p.
Proof.
  destruct (ctx_owner s k a HI Ha) as (pn' & p' & Hown' & Hp' & Hk & _). congruence.
Qed.

(** Processes other than the owner do not list the SA. *)
Lemma other_process pn' p' k' :
  processContextMap_ s !! pn' = Some p' → pn' ≠ pn → k' ∈ saList p' → k ≠ k'.
Proof.
  intros Hp' Hpn' Hk' <-. destruct (pk_sas _ _ _ (ci_process _ HI _ _ Hp') _ Hk') as (a' & Ha' & Hown').
  congruence.
Qed.

Lemma ability_local_set : ability_local (a <| a_state := to |>).
Proof.
  destruct (ao_local _ _ _ _ (ci_ability _ HI _ _ Ha)) as [Hd Hu Hpend]. split; [done| |].
  - intros H. by apply Hreq.
  - destruct Hpend. by split.
Qed.

Lemma process_ok_set :
  process_ok (alter (λ c, c <| a_state := to |>) k (abilityContextMap_ s)) pn
    (p <| abilityStateCountMap ::= moveCount (a_state a) to |>).
Proof.
  pose proof owner_member as Hk. destruct (ci_process _ HI _ _ Hp) as [Hn Hnd Hsz Hsas Hr Hc Hstop].
  split; try done; simpl.
  - intros k' Hk'. destruct (Hsas k' Hk') as (a' & Ha' & Hown').
    destruct (decide (k = k')) as [->|Hkk].
    + rewrite lookup_alter_eq, Ha'. eexists; split; [done|]. done.
    + rewrite lookup_alter_ne by done. eauto.
  - unfold counts_ok in *. rewrite decide_False in Hc |- * by done. simpl.
    change (count_of ?m (_ <| abilityStateCountMap ::= _ |>)) with (count_of m p).
    by apply moveCount_counts.
  - intros HS k' Hk'. destruct (decide (k = k')) as [->|Hkk].
    + rewrite (has_state_set _ _ _ _ a) by done. apply bool_decide_eq_false_2. intros ->. by apply Hload.
    + rewrite has_state_set_ne by done. by apply Hstop.
Qed.

Lemma ctx_inv_setState : ctx_inv (setState k pn (a_state a) to s).
Proof.
  split; simpl.
  - intros k' a' Ha'.
    assert (∃ a0, abilityContextMap_ s !! k' = Some a0 ∧ systemAbilityId a' = systemAbilityId a0
                  ∧ ownProcessContext a' = ownProcessContext a0 ∧ ability_local a') as (a0 & Ha0 & E1 & E2 & Hl).
    { destruct (decide (k = k')) as [<-|Hkk].
      - rewrite lookup_alter_eq, Ha in Ha'. injection Ha' as <-. exists a. auto using ability_local_set.
      - rewrite lookup_alter_ne in Ha' by done. exists a'. do 3 (split; [done|]). by apply (ci_ability _ HI _ _ Ha'). }
    destruct (ci_ability _ HI _ _ Ha0) as [Hid (pn' & p' & Hown' & Hp' & Hk') _].
    split; [congruence| |done]. exists pn'. destruct (decide (pn = pn')) as [<-|Hq].
    + assert (p' = p) as -> by congruence. rewrite lookup_alter_eq, Hp.
      eexists. split; [congruence|]. split; [done|]. done.
    + exists p'. rewrite lookup_alter_ne by done. split; [congruence|done].
  - intros pn' p' Hp'. destruct (decide (pn = pn')) as [<-|Hq].
    + rewrite lookup_alter_eq, Hp in Hp'. injection Hp' as <-. apply process_ok_set.
    + rewrite lookup_alter_ne in Hp' by done.
      eapply process_ok_ext; [| |by eapply ci_process].
      * intros st k' Hk'. apply has_state_set_ne. eapply other_process; eauto.
      * intros k' a' Ha'. destruct (decide (k = k')) as [<-|Hkk].
        -- rewrite lookup_alter_eq, Ha'. by eexists.
        -- rewrite lookup_alter_ne by done. eauto.
Qed.
End transition.

(** A process transition; one may only become STOPPING with no SA loading. *)
Lemma ctx_inv_setProcess s pn st :
  ctx_inv s →
  (st = STOPPING → ∀ p k, processContextMap_ s !! pn = Some p → k ∈ saList p →
                   has_state (abilityContextMap_ s) LOADING k = false) →
  ctx_inv (setP pn (λ p, p <| p_state := st |>) s).
Proof.
  intros HI Hst. apply ctx_inv_setP; [done|]. intros p Hp [Hn Hnd Hsz Hsas Hr Hc Hstop].
  split; [done|]. split; try done. simpl. intros HS k Hk. by eapply Hst.
Qed.
