(* ===== verification/SchedulerProofs.v ===== *)
(** Every operation of the scheduler preserves the invariant of the contexts.

    The state machine is verified against [listener_ok], what it relies on its
    listener for; the scheduler's callbacks are shown to provide it, at every
    depth of the knot. *)
From S2P Require Import Prelude Types World Ffrt Util Contexts Interfaces Hoare StateMachine EventHandler.
From S2P Require Import Scheduler SchedulerQuery SchedulerInv.

(** ** Relations on worlds that imply preservation of the invariant *)

Definition ctxs (w : World) := (abilityContextMap_ (w_sched w), processContextMap_ (w_sched w)).
Definition keeps_ctx : relation World := keeps ctx_inv.
(** Under the invariant, only the queues and the trace change. *)
Definition quiet : relation World := λ w w', ctx_inv (w_sched w) → rest w' = rest w.

#[export] Instance keeps_ctx_preorder : PreOrder keeps_ctx := keeps_preorder _.
#[export] Instance quiet_preorder : PreOrder quiet.
Proof.
  split; [by intros w H|]. intros x y z H1 H2 HI. specialize (H1 HI).
  rewrite H2; [done|]. injection H1 as -> _ _. done.
Qed.

Lemma ctx_inv_ctxs s s' :
  abilityContextMap_ s' = abilityContextMap_ s → processContextMap_ s' = processContextMap_ s →
  ctx_inv s → ctx_inv s'.
Proof. intros E1 E2 [H1 H2]. split; rewrite E1, ?E2; done. Qed.

Lemma wp_keeps_ctx {A} (m : M A) w :
  respects keeps_ctx m → ctx_inv (w_sched w) → wp m (λ _ w', ctx_inv (w_sched w')) w.
Proof. apply wp_keeps. Qed.
Lemma keeps_ctx_wp {A} (m : M A) :
  (∀ w, ctx_inv (w_sched w) → wp m (λ _ w', ctx_inv (w_sched w')) w) → respects keeps_ctx m.
Proof. apply keeps_wp. Qed.

#[export] Instance same_rest_quiet : subrelation frame quiet.
Proof. by intros w w' [H _] _. Qed.
#[export] Instance same_ctxs_keeps : subrelation (same ctxs) keeps_ctx.
Proof. intros w w' H. injection H as E1 E2. intros HI. by apply (ctx_inv_ctxs (w_sched w)). Qed.
#[export] Instance same_sched_keeps : subrelation (same w_sched) keeps_ctx := keeps_sub_sched _.
#[export] Instance same_rest_keeps : subrelation frame keeps_ctx := keeps_sub_rest _.
#[export] Instance quiet_keeps : subrelation quiet keeps_ctx.
Proof. intros w w' H HI. specialize (H HI). unfold rest in H. injection H as -> _ _ _ _. done. Qed.
#[export] Instance same_rest_ctxs : subrelation frame (same ctxs).
Proof. intros w w' H. apply rest_sched in H. unfold same, ctxs. by rewrite H. Qed.
#[export] Instance same_sched_ctxs : subrelation (same w_sched) (same ctxs).
Proof. intros w w' H. unfold same, ctxs. by rewrite H. Qed.

#[export] Hint Extern 7 (respects keeps_ctx _) =>
  apply (respects_sub quiet keeps_ctx); [typeclasses eauto|] : respects.
#[export] Hint Extern 8 (respects keeps_ctx _) =>
  apply (respects_sub (same ctxs) keeps_ctx); [typeclasses eauto|] : respects.

Section frames.
Context `{E : Env} {MI : ManagerIface} {ML : ManagerLaws MI}.

(** ** Operations that leave the contexts alone *)

Lemma hasHandler_rest h : respects frame (hasHandler h).
Proof. unfold hasHandler. solve_respects. Qed.
Hint Resolve hasHandler_rest : respects.
Lemma SendDelayUnload_rest said d : respects frame (SendDelayUnloadEventLocked said d).
Proof. unfold SendDelayUnloadEventLocked, HasUnloadEvent, SendEvent. solve_respects. Qed.
Lemma RemoveDelayUnload_rest said : respects frame (RemoveDelayUnloadEventLocked said).
Proof. unfold RemoveDelayUnloadEventLocked, HasUnloadEvent, RemoveEvent. solve_respects. Qed.
Lemma unloadTimeoutName_rest pn : respects frame (unloadTimeoutName pn).
Proof. unfold unloadTimeoutName. solve_respects. Qed.
Hint Resolve unloadTimeoutName_rest : respects.
Lemma PostTryUnloadAll_rest pn : respects frame (PostTryUnloadAllAbilityTask pn).
Proof. unfold PostTryUnloadAllAbilityTask. solve_respects. Qed.
Lemma PostUnloadTimeout_rest pn : respects frame (PostUnloadTimeoutTask pn).
Proof. unfold PostUnloadTimeoutTask. solve_respects. Qed.
Lemma RemoveUnloadTimeout_rest pn : respects frame (RemoveUnloadTimeoutTask pn).
Proof. unfold RemoveUnloadTimeoutTask. solve_respects. Qed.
Lemma PostTryKill_rest pn : respects frame (PostTryKillProcessTask pn).
Proof. unfold PostTryKillProcessTask. solve_respects. Qed.
Lemma UpdateLimitDelay_rest said : respects frame (UpdateLimitDelayUnloadTime said).
Proof. unfold UpdateLimitDelayUnloadTime. solve_respects. Qed.
Lemma SchedulerGetUserId_rest : respects frame SchedulerGetUserId.
Proof. unfold SchedulerGetUserId. solve_respects. Qed.
Hint Resolve SchedulerGetUserId_rest : respects.
Lemma ServiceControl_rest n a : respects frame (ServiceControl n a).
Proof. unfold ServiceControl. solve_respects. Qed.
Lemma CheckProcessStarted_rest pn : respects frame (CheckProcessStarted pn).
Proof. unfold CheckProcessStarted. solve_respects. Qed.
Hint Resolve ServiceControl_rest : respects.
Lemma CheckRecycle_rest pn : respects frame (CheckProcessImmediatelyRecycle pn).
Proof. unfold CheckProcessImmediatelyRecycle. solve_respects. Qed.
Lemma KillSystemProcess_rest pn : respects frame (KillSystemProcessLocked pn).
Proof. unfold KillSystemProcessLocked. solve_respects. Qed.
Lemma processInfoOf_rest pn : respects frame (processInfoOf pn).
Proof. unfold processInfoOf. solve_respects. Qed.
Lemma isForegroundUser_rest : respects frame isForegroundUser.
Proof. unfold isForegroundUser. solve_respects. Qed.
Hint Resolve processInfoOf_rest isForegroundUser_rest : respects.
Lemma notifyStartStop_rest n pn : respects frame (notifyStartStop n pn).
Proof. unfold notifyStartStop. solve_respects. Qed.
Lemma HandlePendingLoadOverflow_rest said : respects frame (HandlePendingLoadOverflow said).
Proof. unfold HandlePendingLoadOverflow. solve_respects. Qed.
Lemma GetAbnormallyDied_rest pn : respects frame (GetAbnormallyDiedAbilityLocked pn).
Proof. unfold GetAbnormallyDiedAbilityLocked. solve_respects. Qed.

Lemma notifyActiveIdle_ctxs n pn : respects (same ctxs) (notifyActiveIdle n pn).
Proof. unfold notifyActiveIdle. solve_respects. Qed.
End frames.

#[export] Hint Resolve hasHandler_rest SendDelayUnload_rest RemoveDelayUnload_rest unloadTimeoutName_rest
  PostTryUnloadAll_rest PostUnloadTimeout_rest RemoveUnloadTimeout_rest PostTryKill_rest UpdateLimitDelay_rest
  SchedulerGetUserId_rest ServiceControl_rest CheckProcessStarted_rest CheckRecycle_rest KillSystemProcess_rest
  processInfoOf_rest isForegroundUser_rest notifyStartStop_rest HandlePendingLoadOverflow_rest
  GetAbnormallyDied_rest notifyActiveIdle_ctxs : respects.

(** ** Counters *)

Section counters.
Context `{E : Env} {MI : ManagerIface} {ML : ManagerLaws MI}.

Lemma world_setP_id w pn f :
  (∀ p, processContextMap_ (w_sched w) !! pn = Some p → f p = p) →
  w <| w_sched ::= set_with processContextMap_ (alter f pn) |> = w.
Proof.
  intros Hf. destruct w as [[am pm] m h c t]. unfold set_with. cbn -[alter] in *. by rewrite alter_id.
Qed.

(** The counters have an entry for every state. *)
Lemma counts_total s pn p st :
  ctx_inv s → processContextMap_ s !! pn = Some p → is_Some (abilityStateCountMap p !! st).
Proof.
  intros HI Hp. pose proof (pk_counts _ _ _ (ci_process _ HI _ _ Hp)) as Hc. unfold counts_ok in Hc.
  case_decide; [|by rewrite Hc]. destruct Hc as [-> _]. destruct st; by eexists.
Qed.

(** Under the invariant, reading a counter changes nothing. *)
Lemma stateCount_eq pn st w :
  ctx_inv (w_sched w) →
  stateCount pn st w =
  (default 0 (abilityStateCountMap (default newProcessContext (processContextMap_ (w_sched w) !! pn)) !! st), w).
Proof.
  intros HI. unfold stateCount, storeP, updS, modify, mbind, M_bind, derefP, gets, mret, M_ret.
  rewrite world_setP_id; [done|]. intros p Hp.
  destruct (counts_total _ _ _ st HI Hp) as [n Hn]. destruct p. unfold set_with. cbn in *. f_equal.
  unfold map_touch. by rewrite Hn.
Qed.

(** *** What the counting tests decide *)

Definition can_unload (s : Sched) (pn : u16string) : bool :=
  match processContextMap_ s !! pn with
  | None => false
  | Some p =>
      let am := abilityContextMap_ s in
      negb (bool_decide (pn = SAMGR_PROCESS_NAME)) &&
      existsb (λ k, has_state am UNLOADABLE k || has_state am UNLOADING k) (saList p) &&
      forallb (λ k, has_state am NOT_LOADED k || (has_state am UNLOADABLE k || has_state am UNLOADING k)) (saList p)
  end.

Definition can_kill (s : Sched) (pn : u16string) : bool :=
  match processContextMap_ s !! pn with
  | None => true
  | Some p => negb (bool_decide (pn = SAMGR_PROCESS_NAME)
                    && negb (bool_decide (saList p = [])))
              && forallb (has_state (abilityContextMap_ s) NOT_LOADED) (saList p)
  end.

Lemma has_state_excl am st st' k : st ≠ st' → has_state am st k && has_state am st' k = false.
Proof.
  intros Hne. unfold has_state. destruct (am !! k) as [a|]; [|done].
  case_bool_decide; [|done]. case_bool_decide; [congruence|done].
Qed.

Lemma countb_idle am l :
  countb (λ k, has_state am UNLOADABLE k || has_state am UNLOADING k) l =
  countb (has_state am UNLOADABLE) l + countb (has_state am UNLOADING) l.
Proof. apply countb_or. intros k _. by apply has_state_excl. Qed.

Lemma countb_stopped am l :
  countb (λ k, has_state am NOT_LOADED k || (has_state am UNLOADABLE k || has_state am UNLOADING k)) l =
  countb (has_state am NOT_LOADED) l + countb (has_state am UNLOADABLE) l + countb (has_state am UNLOADING) l.
Proof.
  rewrite (countb_or (has_state am NOT_LOADED)), countb_idle; [lia|]. intros k _.
  rewrite andb_orb_distrib_r, !has_state_excl; done.
Qed.

(** [CanUnloadAllSystemAbilityLocked] decides [can_unload], then asks for the
    recycle strategy of the process. *)
Lemma CanUnloadAll_eq pn chk w :
  ctx_inv (w_sched w) →
  CanUnloadAllSystemAbilityLocked pn chk w =
  if can_unload (w_sched w) pn then (if chk then CheckProcessImmediatelyRecycle pn w else (true, w)) else (false, w).
Proof.
  intros HI. unfold CanUnloadAllSystemAbilityLocked, mbind, M_bind.
  do 3 (rewrite stateCount_eq by done; cbv beta iota). unfold can_unload.
  destruct (processContextMap_ (w_sched w) !! pn) as [p|] eqn:Hp; [|done].
  change (default newProcessContext (Some p)) with p.
  destruct (ci_process _ HI _ _ Hp) as [Hn Hnd Hsz Hsas Hr Hc Hstop]. unfold counts_ok in Hc.
  case_decide as Hpn.
  { destruct Hc as [-> _]. rewrite bool_decide_eq_true_2 by done. done. }
  rewrite !Hc, bool_decide_eq_false_2 by done. cbn [negb andb from_option].
  assert (Hd : derefP pn w = (p, w)) by (unfold derefP, gets; by rewrite Hp).
  rewrite existsb_countb, forallb_countb, countb_idle, countb_stopped. unfold count_of, id.
  set (am := abilityContextMap_ (w_sched w)).
  pose proof (countb_le_length
    (λ k, has_state am NOT_LOADED k || (has_state am UNLOADABLE k || has_state am UNLOADING k)) (saList p)) as Hle.
  rewrite countb_stopped in Hle.
  pose proof (countb_nonneg (has_state am NOT_LOADED) (saList p)).
  pose proof (countb_nonneg (has_state am UNLOADABLE) (saList p)).
  pose proof (countb_nonneg (has_state am UNLOADING) (saList p)).
  destruct (_ && _) eqn:Hz.
  - apply andb_true_iff in Hz as [->%Z.eqb_eq ->%Z.eqb_eq]. done.
  - rewrite Hd. cbv beta iota. rewrite (u32_id (_ + countb (has_state am UNLOADABLE) _)) by (unfold is_u32; lia).
    rewrite u32_id by (unfold is_u32; lia).
    replace (countb (has_state am UNLOADABLE) (saList p) + countb (has_state am UNLOADING) (saList p) =? 0) with false.
    + cbn [negb andb]. destruct (_ + _ =? _); [by destruct chk|reflexivity].
    + symmetry. apply Z.eqb_neq. apply andb_false_iff in Hz as [Hz%Z.eqb_neq|Hz%Z.eqb_neq]; lia.
Qed.

(** [CanKillSystemProcessLocked] decides whether every SA is NOT_LOADED. *)
Lemma CanKill_eq pn w :
  ctx_inv (w_sched w) → CanKillSystemProcessLocked pn w = (can_kill (w_sched w) pn, w).
Proof.
  intros HI. unfold CanKillSystemProcessLocked, mbind, M_bind. rewrite stateCount_eq by done.
  unfold derefP, gets, mret, M_ret, can_kill.
  destruct (processContextMap_ (w_sched w) !! pn) as [p|] eqn:Hp; [|done].
  change (default newProcessContext (Some p)) with p. f_equal.
  pose proof (pk_counts _ _ _ (ci_process _ HI _ _ Hp)) as Hc. unfold counts_ok in Hc. case_decide as Hpn.
  - destruct Hc as [-> Hall]. rewrite bool_decide_eq_true_2 by done. cbn [andb].
    replace (default 0 (countMap 0 1 !! NOT_LOADED)) with 0 by done.
    destruct (saList p) as [|k l] eqn:El; [done|].
    rewrite bool_decide_eq_false_2 by done. done.
  - rewrite Hc, bool_decide_eq_false_2 by done. cbn [negb andb]. by rewrite forallb_countb.
Qed.

Lemma stateCount_quiet pn st : respects quiet (stateCount pn st).
Proof. intros w HI. by rewrite stateCount_eq. Qed.
Hint Resolve stateCount_quiet : respects.

Lemma CanUnloadAll_quiet pn b : respects quiet (CanUnloadAllSystemAbilityLocked pn b).
Proof. unfold CanUnloadAllSystemAbilityLocked. solve_respects. Qed.
Lemma CanKill_quiet pn : respects quiet (CanKillSystemProcessLocked pn).
Proof. unfold CanKillSystemProcessLocked. solve_respects. Qed.
Lemma IsProcessActivated_quiet pn : respects quiet (IsProcessActivatedLocked pn).
Proof. unfold IsProcessActivatedLocked. solve_respects. Qed.
Lemma IsProcessIdled_quiet pn : respects quiet (IsProcessIdledLocked pn).
Proof. unfold IsProcessIdledLocked. solve_respects. Qed.
Hint Resolve CanKill_quiet : respects.
Lemma TryKill_quiet c : respects quiet (TryKillSystemProcess c).
Proof. unfold TryKillSystemProcess. solve_respects. Qed.
End counters.

#[export] Hint Resolve stateCount_quiet CanUnloadAll_quiet CanKill_quiet IsProcessActivated_quiet
  IsProcessIdled_quiet TryKill_quiet : respects.

(** ** What the operations see of the contexts *)

Definition viewA (a : SystemAbilityContext) := (systemAbilityId a, a_state a, ownProcessContext a, unloadRequest a).
Definition viewP (p : SystemProcessContext) := (processName p, saList p, p_state p).
Definition view (s : Sched) := (viewA <$> abilityContextMap_ s, viewP <$> processContextMap_ s).

(** The invariant is kept and the view unchanged. *)
Definition mild : relation World := λ w w',
  ctx_inv (w_sched w) → ctx_inv (w_sched w') ∧ view (w_sched w') = view (w_sched w).

#[export] Instance mild_preorder : PreOrder mild.
Proof.
  split; [by intros w H|]. intros x y z H1 H2 H. destruct (H1 H) as [Hy Ey].
  destruct (H2 Hy) as [Hz Ez]. split; congruence.
Qed.
#[export] Instance same_ctxs_mild : subrelation (same ctxs) mild.
Proof.
  intros w w' H HI. injection H as E1 E2. split; [by apply (ctx_inv_ctxs (w_sched w))|].
  unfold view. by rewrite E1, E2.
Qed.
#[export] Instance same_sched_mild : subrelation (same w_sched) mild.
Proof. intros w w' H. by apply same_ctxs_mild, same_sched_ctxs. Qed.
#[export] Instance same_rest_mild : subrelation frame mild.
Proof. intros w w' H. by apply same_ctxs_mild, same_rest_ctxs. Qed.
#[export] Instance quiet_mild : subrelation quiet mild.
Proof. intros w w' H HI. specialize (H HI). unfold rest in H. injection H as -> _ _ _ _. done. Qed.
#[export] Instance mild_keeps : subrelation mild keeps_ctx.
Proof. intros w w' H HI. by apply H. Qed.

#[export] Hint Extern 7 (respects mild _) =>
  apply (respects_sub quiet mild); [typeclasses eauto|] : respects.
#[export] Hint Extern 8 (respects mild _) =>
  apply (respects_sub (same ctxs) mild); [typeclasses eauto|] : respects.
#[export] Hint Extern 9 (respects keeps_ctx _) =>
  apply (respects_sub mild keeps_ctx); [typeclasses eauto|] : respects.

Lemma view_ability s s' k a' :
  view s' = view s → abilityContextMap_ s' !! k = Some a' →
  ∃ a, abilityContextMap_ s !! k = Some a ∧ viewA a' = viewA a.
Proof.
  intros Hv Ha'. injection Hv as Hv _. apply (f_equal (lookup k)) in Hv.
  rewrite !lookup_fmap, Ha' in Hv. symmetry in Hv. apply fmap_Some in Hv as (a & Ha & E). eauto.
Qed.
Lemma view_process s s' pn p' :
  view s' = view s → processContextMap_ s' !! pn = Some p' →
  ∃ p, processContextMap_ s !! pn = Some p ∧ viewP p' = viewP p.
Proof.
  intros Hv Hp'. injection Hv as _ Hv. apply (f_equal (lookup pn)) in Hv.
  rewrite !lookup_fmap, Hp' in Hv. symmetry in Hv. apply fmap_Some in Hv as (p & Hp & E). eauto.
Qed.

(** The owner of SA [k] is not stopping; SA [k] has an unload request. *)
Definition load_pre (s : Sched) (k : Z) : Prop := ∀ a pn p,
  abilityContextMap_ s !! k = Some a → ownProcessContext a = Some pn → processContextMap_ s !! pn = Some p →
  p_state p ≠ STOPPING.
Definition unload_pre (s : Sched) (k : Z) : Prop := ∀ a,
  abilityContextMap_ s !! k = Some a → is_Some (unloadRequest a).
(** No SA of process [pn] is loading. *)
Definition no_loading (s : Sched) (pn : u16string) : Prop := ∀ p k,
  processContextMap_ s !! pn = Some p → k ∈ saList p → has_state (abilityContextMap_ s) LOADING k = false.

Lemma load_pre_view s s' k : view s' = view s → load_pre s k → load_pre s' k.
Proof.
  intros Hv H a' pn p' Ha' Hown' Hp'.
  destruct (view_ability _ _ _ _ Hv Ha') as (a & Ha & Ea). destruct (view_process _ _ _ _ Hv Hp') as (p & Hp & Ep).
  injection Ea as _ _ Eo _. injection Ep as _ _ ->. eapply H; eauto. congruence.
Qed.
Lemma unload_pre_view s s' k : view s' = view s → unload_pre s k → unload_pre s' k.
Proof.
  intros Hv H a' Ha'. destruct (view_ability _ _ _ _ Hv Ha') as (a & Ha & Ea). injection Ea as _ _ _ ->. eauto.
Qed.
Lemma has_state_view s s' st k :
  view s' = view s → has_state (abilityContextMap_ s') st k = has_state (abilityContextMap_ s) st k.
Proof.
  intros Hv. injection Hv as Hv _. apply (f_equal (lookup k)) in Hv. rewrite !lookup_fmap in Hv.
  unfold has_state. destruct (abilityContextMap_ s' !! k), (abilityContextMap_ s !! k); try done.
  injection Hv as _ E _ _. by rewrite E.
Qed.
Lemma no_loading_view s s' pn : view s' = view s → no_loading s pn → no_loading s' pn.
Proof.
  intros Hv H p' k Hp' Hk. destruct (view_process _ _ _ _ Hv Hp') as (p & Hp & Ep). injection Ep as _ El _.
  rewrite (has_state_view _ _ _ _ Hv). eapply H; [done|]. congruence.
Qed.

Lemma wp_mild {A} (m : M A) Q w :
  respects mild m → ctx_inv (w_sched w) →
  (∀ a w', ctx_inv (w_sched w') → view (w_sched w') = view (w_sched w) → Q a w') → wp m Q w.
Proof. intros Hm HI HQ. destruct (Hm w HI). by apply HQ. Qed.

Lemma wp_GetSystemAbilityContext said (Q : option Z → World → Prop) w :
  ctx_inv (w_sched w) →
  (∀ a, abilityContextMap_ (w_sched w) !! said = Some a → Q (Some said) w) →
  (abilityContextMap_ (w_sched w) !! said = None → Q None w) →
  wp (GetSystemAbilityContext said) Q w.
Proof.
  intros HI H1 H2. unfold GetSystemAbilityContext. unfold wp, mbind, M_bind, gets, mret, M_ret. simpl.
  destruct (abilityContextMap_ (w_sched w) !! said) as [a|] eqn:Heqo; [|eauto].
  destruct (ctx_owner _ _ _ HI Heqo) as (pn & p & -> & Hp & _). rewrite Hp.
  rewrite bool_decide_eq_true_2 by done. eauto.
Qed.

Lemma wp_GetSystemProcessContext pn (Q : option u16string → World → Prop) w :
  (∀ p, processContextMap_ (w_sched w) !! pn = Some p → Q (Some pn) w) →
  (processContextMap_ (w_sched w) !! pn = None → Q None w) →
  wp (GetSystemProcessContext pn) Q w.
Proof.
  intros H1 H2. unfold GetSystemProcessContext, wp, mbind, M_bind, getS, gets, mret, M_ret. simpl.
  destruct (processContextMap_ (w_sched w) !! pn) eqn:Hp; eauto.
Qed.

(** ** The state machine *)

(** What the machine relies on its listener for. *)
Record listener_ok (L : option StateListener) : Prop := {
  lo_NotLoaded said : respects mild (notify L (λ l, OnAbilityNotLoaded l said));
  lo_Loading said : respects mild (notify L (λ l, OnAbilityLoading l said));
  lo_Loaded said : respects mild (notify L (λ l, OnAbilityLoaded l said));
  lo_Unloadable said : respects keeps_ctx (notify L (λ l, OnAbilityUnloadable l said));
  lo_Unloading said : respects mild (notify L (λ l, OnAbilityUnloading l said));
  lo_NotStarted pn : respects keeps_ctx (notify L (λ l, OnProcessNotStarted l pn));
  lo_Started pn : respects mild (notify L (λ l, OnProcessStarted l pn));
  lo_Stopping pn : respects mild (notify L (λ l, OnProcessStopping l pn));
}.

(** Updates of one context that the view does not notice. *)
Lemma storeA_mild_at w k f :
  (∀ a, abilityContextMap_ (w_sched w) !! k = Some a →
        viewA (f a) = viewA a ∧ (ability_local a → ability_local (f a))) →
  mild w (storeA k f w).2.
Proof.
  intros Hf HI. simpl. split.
  - apply ctx_inv_setA; [done|]. intros a Ha. destruct (Hf a Ha) as [Hv Hl].
    injection Hv as E1 E2 E3 _. by split.
  - unfold view. simpl. f_equal. apply map_eq. intros k'. rewrite !lookup_fmap.
    destruct (decide (k = k')) as [<-|Hne]; [rewrite lookup_alter_eq|by rewrite lookup_alter_ne].
    destruct (_ !! k) as [a|] eqn:Ha; simpl; [|done]. by destruct (Hf a eq_refl) as [-> _].
Qed.

Lemma storeA_mild k f :
  (∀ a, viewA (f a) = viewA a) → (∀ a, ability_local a → ability_local (f a)) → respects mild (storeA k f).
Proof. intros Hv Hl w. apply storeA_mild_at. auto. Qed.

Lemma storeP_mild_at w pn f :
  (∀ p, processContextMap_ (w_sched w) !! pn = Some p →
        viewP (f p) = viewP p ∧ abilityStateCountMap (f p) = abilityStateCountMap p ∧
        (Z.of_nat (length (restartCountsCtrl p)) ≤ RESTART_TIMES_LIMIT →
         Z.of_nat (length (restartCountsCtrl (f p))) ≤ RESTART_TIMES_LIMIT)) →
  mild w (storeP pn f w).2.
Proof.
  intros Hf HI. simpl. split.
  - apply ctx_inv_setP_frame; [done|]. intros p Hp Hok. destruct (Hf p Hp) as (Hv & Hc & Hr).
    injection Hv as E1 E2 E3. split; try done. apply Hr, Hok.
  - unfold view. simpl. f_equal. apply map_eq. intros k'. rewrite !lookup_fmap.
    destruct (decide (pn = k')) as [<-|Hne]; [rewrite lookup_alter_eq|by rewrite lookup_alter_ne].
    destruct (_ !! pn) as [p|] eqn:Hp; simpl; [|done]. by destruct (Hf p eq_refl) as [-> _].
Qed.

Lemma storeP_mild pn f :
  (∀ p, viewP (f p) = viewP p) → (∀ p, abilityStateCountMap (f p) = abilityStateCountMap p) →
  (∀ p, restartCountsCtrl (f p) = restartCountsCtrl p) →
  respects mild (storeP pn f).
Proof. intros Hv Hc Hr w. apply storeP_mild_at. intros p _. by rewrite Hr. Qed.

(** An update of the members that [ability_local] does not read. *)
Lemma ability_local_same a a' :
  delayUnloadTime a' = delayUnloadTime a → a_state a' = a_state a → unloadRequest a' = unloadRequest a →
  pendingLoadEventList a' = pendingLoadEventList a → pendingLoadEventCountMap a' = pendingLoadEventCountMap a →
  (pendingEvent a' = UNLOAD_ABILITY_EVENT → pendingEvent a = UNLOAD_ABILITY_EVENT) →
  pendingUnloadEvent a' = pendingUnloadEvent a →
  ability_local a → ability_local a'.
Proof.
  intros E1 E2 E3 E4 E5 E6 E7 [Hd Hu [P1 P2 P3 P4 P5]]. split; unfold unload_ok in *; rewrite ?E1, ?E2, ?E3; try done.
  split; rewrite ?E4, ?E5, ?E7; auto.
Qed.

Ltac solve_local := intros ?; apply ability_local_same; try done.

Section machine.
Context `{E : Env} {MI : ManagerIface} {ML : ManagerLaws MI}.
Context (L : option StateListener) (HL : listener_ok L).

Lemma OnEnter_mild st k : st ≠ UNLOADABLE → respects mild (OnEnter L st k).
Proof.
  intros Hst. destruct st; try done; unfold OnEnter; repeat respects_step; try apply HL.
  apply storeA_mild; [done|]. solve_local.
Qed.

Lemma OnEnter_keeps st k : respects keeps_ctx (OnEnter L st k).
Proof.
  destruct (decide (st = UNLOADABLE)) as [->|Hst].
  - unfold OnEnter. repeat respects_step; [auto with respects| |apply HL].
    apply (respects_sub mild); [apply _|]. apply storeA_mild; [done|]. solve_local.
  - apply (respects_sub mild); [apply _|]. by apply OnEnter_mild.
Qed.

Lemma UpdateStateCount_eq w k a pn p to :
  let s := w_sched w in
  ctx_inv s → abilityContextMap_ s !! k = Some a → ownProcessContext a = Some pn →
  processContextMap_ s !! pn = Some p → k ∈ saList p →
  UpdateStateCount (ownProcessContext a) (a_state a) to w =
  if decide (pn = SAMGR_PROCESS_NAME) then (false, w)
  else (true, w <| w_sched ::= setP pn (λ p, p <| abilityStateCountMap ::= moveCount (a_state a) to |>) |>).
Proof.
  intros s HI Ha Hown Hp Hk. unfold UpdateStateCount. rewrite Hown.
  unfold mbind, M_bind, derefP, gets. fold s. rewrite Hp. simpl.
  pose proof (pk_counts _ _ _ (ci_process _ HI _ _ Hp)) as Hc. unfold counts_ok in Hc.
  case_decide as Hpn.
  - destruct Hc as [-> Hnl]. specialize (Hnl k Hk). rewrite (has_state_lookup _ _ _ _ Ha), bool_decide_eq_true in Hnl.
    rewrite Hnl. by destruct to.
  - rewrite !Hc.
    assert (0 < count_of (abilityContextMap_ s) p (a_state a)).
    { eapply count_of_pos; [exact Hk|]. rewrite (has_state_lookup _ _ _ _ Ha). by apply bool_decide_eq_true. }
    destruct (Z.leb_spec (count_of (abilityContextMap_ s) p (a_state a)) 0); [lia|].
    unfold storeP, updS, modify, mret, M_ret. f_equal. destruct w as [[] ? ? ? ?].
    unfold set_with. cbn -[alter]. unfold setP, set_with. cbn -[alter].
    by rewrite alter_alter_eq.
Qed.

(** The whole behaviour of a transition of an SA that has a context. *)
Lemma AbilityStateTransition_eq w k a pn p to :
  let s := w_sched w in
  ctx_inv s → abilityContextMap_ s !! k = Some a → ownProcessContext a = Some pn →
  processContextMap_ s !! pn = Some p →
  AbilityStateTransitionLocked L (Some k) to w =
  if decide (a_state a = to) then (ERR_OK, w)
  else if negb (CanEnter to (a_state a)) then (TRANSIT_SA_STATE_FAIL, w)
  else if decide (pn = SAMGR_PROCESS_NAME) then (UPDATE_STATE_COUNT_FAIL, w)
  else (ERR_OK, (OnEnter L to k (w <| w_sched ::= setState k pn (a_state a) to |>)).2).
Proof.
  intros s HI Ha Hown Hp.
  assert (Hk : k ∈ saList p) by (destruct (ctx_owner s k a HI Ha) as (? & ? & ? & ? & ? & _); congruence).
  unfold AbilityStateTransitionLocked, derefA, gets. unfold mbind at 1, M_bind at 1. fold s. rewrite Ha. simpl.
  destruct (decide (a_state a = to)) as [Heq|Hne]; [by rewrite bool_decide_eq_true_2|].
  rewrite bool_decide_eq_false_2 by done. destruct (CanEnter to (a_state a)) eqn:HC; simpl; [|done].
  unfold mbind at 1, M_bind at 1. rewrite (UpdateStateCount_eq w k a pn p to) by done.
  case_decide as Hpn; [done|]. simpl.
  unfold mbind, M_bind, storeA, updS, modify.
  change (_ <| w_sched ::= set_with abilityContextMap_ _ |>)
    with (w <| w_sched ::= setState k pn (a_state a) to |>).
  by destruct (OnEnter L to k _).
Qed.

(** A transition preserves the invariant, given what entering the state needs. *)
Lemma AbilityStateTransition_wp w k to :
  ctx_inv (w_sched w) →
  (to = UNLOADABLE ∨ to = UNLOADING → unload_pre (w_sched w) k) →
  (to = LOADING → load_pre (w_sched w) k) →
  wp (AbilityStateTransitionLocked L (Some k) to) (λ _ w', ctx_inv (w_sched w')) w.
Proof.
  intros HI Hun Hlo. destruct (abilityContextMap_ (w_sched w) !! k) as [a|] eqn:Ha.
  - destruct (ctx_owner _ _ _ HI Ha) as (pn & p & Hown & Hp & Hk & _).
    unfold wp. rewrite (AbilityStateTransition_eq w k a pn p to) by done.
    repeat case_decide; try done; [destruct (negb _); done|]. destruct (negb _); [done|].
    apply OnEnter_keeps. simpl. eapply ctx_inv_setState; eauto.
    + intros H'. by apply Hun.
    + intros ->. by eapply Hlo.
  - unfold AbilityStateTransitionLocked. wp_steps; try done. rewrite Ha in *. simpl in *. done.
Qed.

Lemma AbilityStateTransition_keeps k to :
  to = NOT_LOADED ∨ to = LOADED → respects keeps_ctx (AbilityStateTransitionLocked L (Some k) to).
Proof.
  intros [-> | ->] w HI; apply AbilityStateTransition_wp; [done| |done|done| |done]; by intros [|].
Qed.

Lemma ProcessStateTransition_wp w pn to :
  ctx_inv (w_sched w) → (to = STOPPING → no_loading (w_sched w) pn) →
  wp (ProcessStateTransitionLocked L (Some pn) to) (λ _ w', ctx_inv (w_sched w')) w.
Proof.
  intros HI Hst. unfold ProcessStateTransitionLocked. wp_steps; try done.
  assert (ctx_inv (setP pn (λ p, p <| p_state := to |>) (w_sched w))) as HI'.
  { apply ctx_inv_setProcess; [done|]. intros H p k. by apply Hst. }
  apply wp_keeps; [|exact HI'].
  assert (∀ st, respects keeps_ctx (OnEnterProcess L st pn)) as HO; [|apply HO].
  intros []; unfold OnEnterProcess.
  - destruct L as [l|] eqn:EL; [|apply respects_ret]. simpl.
    apply respects_bind; [auto with respects|intros t]. apply respects_bind.
    { apply (respects_sub mild); [apply _|]. by apply storeP_mild. }
    intros _. apply respects_bind; [apply respects_gets|intros p]. rewrite <- EL in *. subst. apply (lo_NotStarted _ HL).
  - apply respects_bind; [apply respects_gets|intros p]. apply (respects_sub mild); [apply _|]. apply (lo_Started _ HL).
  - apply respects_bind; [apply respects_gets|intros p]. apply (respects_sub mild); [apply _|]. apply (lo_Stopping _ HL).
Qed.
End machine.

(** ** Operations that the view does not notice *)

Section mild_ops.
Context `{E : Env} {MI : ManagerIface} {ML : ManagerLaws MI}.

Lemma dropPendingUnload_mild k : respects mild (dropPendingUnload k).
Proof. unfold dropPendingUnload. repeat respects_step. apply storeA_mild; [done|]. solve_local. Qed.
Hint Resolve dropPendingUnload_mild : respects.
Lemma RemovePendingUnload_mild k : respects mild (RemovePendingUnloadEventLocked k).
Proof. unfold RemovePendingUnloadEventLocked. solve_respects. Qed.

Lemma PendUnload_mild k r : respects mild (PendUnloadEventLocked k (Some r)).
Proof.
  unfold PendUnloadEventLocked. repeat respects_step. apply storeA_mild; [done|].
  intros a [Hd Hu [P1 P2 P3 P4 P5]]. split; [done|done|]. by split.
Qed.

Lemma LimitDelay_range d : 0 ≤ LimitDelayUnloadTime d ≤ MAX_DELAY_TIME.
Proof.
  unfold LimitDelayUnloadTime, MAX_DELAY_TIME.
  destruct (Z.ltb_spec d 0); [lia|]. destruct (Z.ltb_spec (5 * 60 * 1000) d); lia.
Qed.

Lemma UpdateDelayTask_mild k : respects mild (UpdateLimitDelayUnloadTimeTask k).
Proof.
  unfold UpdateLimitDelayUnloadTimeTask.
  repeat first [respects_step | solve [auto with respects]]; apply storeA_mild; try done.
  - intros c [Hd Hu [P1 P2 P3 P4 P5]]. split; [apply LimitDelay_range|done|by split].
  - by solve_local.
Qed.

(** The restart history keeps at most [RESTART_TIMES_LIMIT] entries. *)
Lemma CanRestart_mild pn : respects mild (CanRestartProcessLocked pn).
Proof.
  intros w. unfold CanRestartProcessLocked, mbind, M_bind, derefP, gets. simpl.
  destruct (negb _) eqn:Hen; [reflexivity|].
  set (w1 := w <| w_trace ::= cons EvTick |>).
  assert (Hw1 : mild w w1) by apply same_rest_mild, (emit_rest EvTick w).
  set (p := default newProcessContext (processContextMap_ (w_sched w) !! pn)) in *.
  assert (Hpp : ∀ p', processContextMap_ (w_sched w1) !! pn = Some p' → p' = p).
  { intros p' Hp'. unfold p. change (w_sched w1) with (w_sched w) in Hp'. by rewrite Hp'. }
  unfold RESTART_TIMES_LIMIT in *.
  destruct (Z.ltb_spec (Z.of_nat (length (restartCountsCtrl p))) 4) as [Hlt|Hge].
  - etrans; [exact Hw1|]. apply storeP_mild_at. intros p' ->%Hpp. split_and!; [done..|]. intros _. cbn.
    rewrite length_app. simpl. unfold RESTART_TIMES_LIMIT. lia.
  - destruct (Z.eqb_spec (Z.of_nat (length (restartCountsCtrl p))) 4) as [Heq|Hne]; [|exact Hw1].
    destruct (_ <? _); (etrans; [exact Hw1|]); apply storeP_mild_at; intros p' ->%Hpp; split_and!; try done.
    intros _. cbn. unfold RESTART_TIMES_LIMIT.
    destruct (restartCountsCtrl p); simpl in *; [lia|]. rewrite length_app. simpl. lia.
Qed.
End mild_ops.

#[export] Hint Resolve dropPendingUnload_mild RemovePendingUnload_mild PendUnload_mild UpdateDelayTask_mild
  CanRestart_mild : respects.

(** ** Pending load requests *)

Lemma map_touch_is_Some {K V} `{Countable K} (k : K) (d : V) m : is_Some (map_touch k d m !! k).
Proof. unfold map_touch. destruct (m !! k) eqn:Hk; [by rewrite Hk|]. by rewrite lookup_insert_eq. Qed.

Lemma pending_ok_touch a caller :
  pending_ok a → pending_ok (a <| pendingLoadEventCountMap ::= map_touch caller 0 |>).
Proof.
  intros [P1 P2 P3 P4 P5]. split; try done. intros c. simpl. rewrite <- (P3 c). unfold map_touch.
  destruct (_ !! caller) eqn:Hc; [done|]. destruct (decide (caller = c)) as [<-|Hne].
  - by rewrite lookup_insert_eq, Hc.
  - by rewrite lookup_insert_ne.
Qed.

Lemma pending_of_snoc l r c :
  pending_of (l ++ [r]) c = pending_of l c + (if lr_callingPid r =? c then 1 else 0).
Proof. apply (countb_snoc (λ r, lr_callingPid r =? c)). Qed.

(** A request with a new callback from a caller below the limit is appended. *)
Lemma pending_ok_push a req cb :
  let caller := lr_callingPid req in
  lr_callback req = Some cb →
  existsb (λ i, cb_eqb (lr_callback req) (lr_callback i)) (pendingLoadEventList a) = false →
  is_Some (pendingLoadEventCountMap a !! caller) →
  default 0 (pendingLoadEventCountMap a !! caller) < MAX_PENDING_LOAD_COUNT →
  pending_ok a →
  pending_ok (a <| pendingLoadEventCountMap ::= alter Z.succ caller |>
                <| pendingLoadEventList ::= λ l, l ++ [req] |> <| pendingEvent := LOAD_ABILITY_EVENT |>).
Proof.
  intros caller Hcb Hnew [n Hn] Hlt [P1 P2 P3 P4 P5]. split; try done; simpl.
  - unfold callback_objects. rewrite fmap_app. apply NoDup_app. split; [done|]. split.
    2: { simpl. apply NoDup_singleton. }
    intros o Ho Ho'. simpl in Ho'. apply list_elem_of_singleton in Ho' as ->.
    apply list_elem_of_fmap in Ho as (i & Ei & Hi). rewrite Hcb in Ei. simpl in Ei.
    assert (existsb (λ i, cb_eqb (lr_callback req) (lr_callback i)) (pendingLoadEventList a) = true); [|congruence].
    apply existsb_exists. exists i. split; [by apply list_elem_of_In|]. rewrite Hcb.
    destruct (lr_callback i); simpl in *; [|done]. apply bool_decide_eq_true. congruence.
  - intros r [Hr|Hr]%elem_of_app; [by apply P2|]. apply list_elem_of_singleton in Hr as ->. by rewrite Hcb.
  - intros c. rewrite pending_of_snoc, <- P3. fold caller. destruct (Z.eqb_spec caller c) as [<-|Hne].
    + rewrite lookup_alter_eq, Hn. simpl. lia.
    + rewrite lookup_alter_ne by done. lia.
  - intros c. rewrite pending_of_snoc. fold caller.
    pose proof (P4 c). destruct (Z.eqb_spec caller c) as [<-|Hne]; [|lia]. rewrite <- P3. lia.
Qed.

Section pend.
Context `{E : Env} {MI : ManagerIface} {ML : ManagerLaws MI}.

Lemma PendLoad_mild k req : respects mild (PendLoadEventLocked k req).
Proof.
  unfold PendLoadEventLocked. destruct (lr_callback req) as [cb|] eqn:Hcb; [|apply respects_ret].
  apply respects_bind; [auto with respects|intros pn].
  apply respects_bind; [apply respects_gets|intros p].
  apply respects_bind.
  { apply respects_when, respects_bind; [auto with respects|]. intros t. by apply storeP_mild. }
  intros _. apply respects_bind; [auto with respects|intros t].
  apply respects_bind; [apply respects_gets|intros p']. cbv zeta.
  intros w. unfold mbind at 1, M_bind at 1. simpl.
  set (a := default newAbilityContext (abilityContextMap_ (w_sched w) !! k)).
  destruct (existsb _ _) eqn:Hex; [reflexivity|].
  unfold mbind at 1, M_bind at 1, storeA at 1, updS at 1, modify at 1.
  set (touch := λ a, a <| pendingLoadEventCountMap ::= map_touch (lr_callingPid req) 0 |>).
  set (w1 := w <| w_sched ::= _ |>).
  assert (Hw1 : mild w w1).
  { apply (storeA_mild_at w k touch). intros a0 _. split; [done|].
    intros [Hd Hu HP]. split; [done|done|]. by apply pending_ok_touch. }
  etrans; [exact Hw1|]. unfold mbind at 1, M_bind at 1. simpl.
  assert (Hlk : ∀ a1, abilityContextMap_ (w_sched w1) !! k = Some a1 → a1 = touch a).
  { intros a1 Ha1. change (abilityContextMap_ (w_sched w1)) with (alter touch k (abilityContextMap_ (w_sched w))) in Ha1.
    rewrite lookup_alter_eq in Ha1. unfold a. destruct (_ !! k); simpl in *; congruence. }
  destruct (abilityContextMap_ (w_sched w1) !! k) as [a1|] eqn:Ha1; simpl.
  2: { destruct (_ || _); [apply (respects_sub frame mild _ _ (HandlePendingLoadOverflow_rest k))|].
       unfold mbind, M_bind. apply storeA_mild_at. intros a2 Ha2. congruence. }
  rewrite (Hlk a1 eq_refl) in *. clear Hlk. 
  destruct (_ || _) eqn:Hov.
  { apply (respects_sub frame mild _ _ (HandlePendingLoadOverflow_rest k)). }
  apply orb_false_iff in Hov as [Hcount _]. apply Z.leb_gt in Hcount.
  change (alter touch k _ !! k) with (abilityContextMap_ (w_sched w1) !! k) in Hcount. rewrite Ha1 in Hcount.
  unfold mbind, M_bind. apply storeA_mild_at. intros a2 Ha2. rewrite Ha1 in Ha2. injection Ha2 as <-.
  split; [done|]. intros [Hd Hu HP]. split; [done|done|].
  apply (pending_ok_push (touch a) req cb Hcb); [by rewrite Hcb| |exact Hcount|exact HP].
  apply map_touch_is_Some.
Qed.
End pend.
#[export] Hint Resolve PendLoad_mild : respects.
