(* ===== verification/SchedulerKeeps.v ===== *)
(** The operations that drive the state machine preserve the invariant, against
    any listener that is [listener_ok]; the scheduler is such a listener. *)
From S2P Require Import Prelude Types World Ffrt Util Contexts Interfaces Hoare StateMachine EventHandler.
From S2P Require Import Scheduler SchedulerQuery SchedulerInv SchedulerProofs.

Lemma load_pre_setState s k k' pn from to : load_pre s k' → load_pre (setState k pn from to s) k'.
Proof.
  intros H a' pn' p' Ha' Hown' Hp'. simpl in *.
  assert (∃ a, abilityContextMap_ s !! k' = Some a ∧ ownProcessContext a = Some pn') as (a & Ha & Hown).
  { destruct (decide (k = k')) as [<-|Hne].
    - rewrite lookup_alter_eq in Ha'. apply fmap_Some in Ha' as (a & Ha & ->). eauto.
    - rewrite lookup_alter_ne in Ha' by done. eauto. }
  destruct (decide (pn = pn')) as [<-|Hne].
  - rewrite lookup_alter_eq in Hp'. apply fmap_Some in Hp' as (p & Hp & ->). by apply (H a pn p).
  - rewrite lookup_alter_ne in Hp' by done. by apply (H a pn' p').
Qed.

Lemma no_loading_setState s k pn from to pn' :
  to ≠ LOADING → no_loading s pn' → no_loading (setState k pn from to s) pn'.
Proof.
  intros Hto H p' k' Hp' Hk'. simpl in *.
  assert (∃ p, processContextMap_ s !! pn' = Some p ∧ saList p = saList p') as (p & Hp & Hl).
  { destruct (decide (pn = pn')) as [<-|Hne].
    - rewrite lookup_alter_eq in Hp'. apply fmap_Some in Hp' as (p & Hp & ->). eauto.
    - rewrite lookup_alter_ne in Hp' by done. eauto. }
  specialize (H p k' Hp ltac:(congruence)). destruct (decide (k = k')) as [<-|Hne].
  - destruct (abilityContextMap_ s !! k) as [a|] eqn:Ha.
    + rewrite (has_state_set _ _ _ _ a) by done. by apply bool_decide_eq_false_2.
    + unfold has_state. by rewrite lookup_alter_eq, Ha.
  - by rewrite has_state_set_ne.
Qed.

Section keeps.
Context `{E : Env} {MI : ManagerIface} {ML : ManagerLaws MI}.
Context (L : option StateListener) (HL : listener_ok L).
Implicit Types w : World.

(** What a transition into a state other than UNLOADABLE does to the view. *)
Lemma AbilityStateTransition_view w k to :
  to ≠ UNLOADABLE → ctx_inv (w_sched w) →
  (to = UNLOADING → unload_pre (w_sched w) k) → (to = LOADING → load_pre (w_sched w) k) →
  wp (AbilityStateTransitionLocked L (Some k) to) (λ _ w', ctx_inv (w_sched w') ∧
    (view (w_sched w') = view (w_sched w) ∨
     ∃ a pn, abilityContextMap_ (w_sched w) !! k = Some a ∧ ownProcessContext a = Some pn ∧
             view (w_sched w') = view (setState k pn (a_state a) to (w_sched w)))) w.
Proof.
  intros Hto HI Hun Hlo.
  assert (HI' : wp (AbilityStateTransitionLocked L (Some k) to) (λ _ w', ctx_inv (w_sched w')) w).
  { apply AbilityStateTransition_wp; try done. intros [|]; [done|auto]. }
  unfold wp in *. split; [exact HI'|]. clear HI'.
  destruct (abilityContextMap_ (w_sched w) !! k) as [a|] eqn:Ha.
  - destruct (ctx_owner _ _ _ HI Ha) as (pn & p & Hown & Hp & Hk & _).
    rewrite (AbilityStateTransition_eq L w k a pn p to) by done.
    repeat case_decide; [by left| |]; (destruct (negb _); [by left|]); [by left|]. right. exists a, pn.
    split_and!; [done|done|]. simpl. apply OnEnter_mild; [done|done|]. simpl.
    eapply ctx_inv_setState; eauto.
    + intros [?|?]; [done|]. by apply Hun.
    + intros ->. by eapply Hlo.
  - left. unfold AbilityStateTransitionLocked, derefA, gets, mbind, M_bind. rewrite Ha. by destruct to.
Qed.

Lemma DoLoad_wp w k r :
  ctx_inv (w_sched w) → load_pre (w_sched w) k →
  wp (DoLoadSystemAbilityLocked L k r) (λ _ w', ctx_inv (w_sched w')) w.
Proof.
  intros HI Hlo. unfold DoLoadSystemAbilityLocked. wp_steps; try done; wp_frame; wp_steps; try done;
    (apply AbilityStateTransition_wp; [done|done|by intros [|]|done]).
Qed.

Lemma Active_wp w k r :
  ctx_inv (w_sched w) →
  wp (ActiveSystemAbilityLocked L k r)
     (λ _ w', ctx_inv (w_sched w') ∧ (load_pre (w_sched w) k → load_pre (w_sched w') k)) w.
Proof.
  intros HI. unfold ActiveSystemAbilityLocked. wp_steps; try done. wp_frame. wp_steps; try done.
  eapply wp_mono; [apply AbilityStateTransition_view; done|]. cbv beta.
  intros _ w'' [HI'' Hv]. split; [done|]. intros Hlo.
  destruct Hv as [Hv|(a & pn & Ha & Hown & Hv)]; eapply load_pre_view; eauto using load_pre_setState.
Qed.

Lemma HandleLoadLocked_keeps k r : respects keeps_ctx (HandleLoadAbilityEventLocked L k r).
Proof.
  apply keeps_ctx_wp. intros w HI. unfold HandleLoadAbilityEventLocked. wp_seq.
  wp_case; [apply wp_keeps_ctx; [auto with respects|done]|].
  assert (Hlo : load_pre (w_sched w) k).
  { intros a pn p Ha Hown Hp. apply orb_false_iff in Heqb as [_ Hb]. rewrite Ha in Hb. simpl in Hb.
    rewrite Hown in Hb. simpl in Hb. rewrite Hp in Hb. simpl in Hb. by apply bool_decide_eq_false in Hb. }
  clear Heqb. wp_seq. wp_case; wp_seq; try done.
  - by apply DoLoad_wp.
  - apply wp_mild; [auto with respects|done|]. intros x w' HI' Hv. wp_steps; [|done].
    apply DoLoad_wp; [done|]. by eapply load_pre_view.
  - apply wp_mild; [auto with respects|done|]. intros x w' HI' Hv. wp_steps; [|done].
    apply DoLoad_wp; [done|]. by eapply load_pre_view.
  - eapply wp_mono; [by apply Active_wp|]. cbv beta. intros x w' [HI' Hlo']. wp_steps; [|done].
    apply DoLoad_wp; auto.
Qed.
Hint Resolve HandleLoadLocked_keeps : respects.

Lemma HandleLoad_keeps r : respects keeps_ctx (HandleLoadAbilityEvent L r).
Proof. unfold HandleLoadAbilityEvent. solve_respects. Qed.

Lemma HandleLoadById_keeps k b : respects keeps_ctx (HandleLoadAbilityEventById L k b).
Proof.
  apply keeps_ctx_wp. intros w HI. unfold HandleLoadAbilityEventById. wp_seq.
  apply wp_GetSystemAbilityContext; [done| |done]. intros a Ha. wp_seq. rewrite Ha. simpl.
  destruct (ctx_owner _ _ _ HI Ha) as (pn & p & Hown & Hp & _). rewrite Hown. simpl. rewrite Hp. simpl.
  wp_case; [done|]. wp_case; [|done]. wp_seq. wp_case; [done|]. wp_seq. wp_frame. destruct r as [[] ?]; [|done].
  cbv beta iota. wp_seq. eapply wp_mono; [apply AbilityStateTransition_wp; [done|done|by intros [|]|]|by intros].
  intros _ a' pn' p' Ha' Hown' Hp'. apply andb_true_iff in Heqb1 as [Hst%bool_decide_eq_true _]. congruence.
Qed.

(** Unloading one SA keeps the other SAs of its process from loading. *)
Lemma DoUnload_wp w k :
  ctx_inv (w_sched w) →
  wp (DoUnloadSystemAbilityLocked L k)
     (λ _ w', ctx_inv (w_sched w') ∧ ∀ pn, no_loading (w_sched w) pn → no_loading (w_sched w') pn) w.
Proof.
  intros HI. unfold DoUnloadSystemAbilityLocked. wp_seq. wp_case; [|by wp_seq]. wp_seq. wp_case; [by wp_seq|].
  wp_seq. wp_frame. wp_case; [|by wp_seq].
  eapply wp_mono.
  { apply AbilityStateTransition_view; [done|done| |done]. intros _ a Ha. rewrite Ha in *. simpl in *. by rewrite Heqo. }
  cbv beta. intros _ w'' [HI'' Hv]. split; [done|]. intros pn Hnl.
  destruct Hv as [Hv|(a & pn' & Ha & Hown & Hv)]; eapply no_loading_view; eauto using no_loading_setState.
Qed.

Lemma DoUnload_keeps k : respects keeps_ctx (DoUnloadSystemAbilityLocked L k).
Proof. apply keeps_ctx_wp. intros w HI. eapply wp_mono; [by apply DoUnload_wp|]. by intros ? ? []. Qed.

Lemma ProcessDelayUnloadLocked_keeps k : respects keeps_ctx (ProcessDelayUnloadEventLocked L k).
Proof.
  apply keeps_ctx_wp. intros w HI. unfold ProcessDelayUnloadEventLocked. wp_seq.
  apply wp_GetSystemAbilityContext; [done| |done]. intros a Ha. wp_seq. rewrite Ha. simpl.
  wp_case; [|done]. wp_case; [done|]. wp_seq. wp_case; [done|]. wp_seq.
  wp_frame. destruct r as [[] d]; [|done]. cbv beta iota delta [negb]. wp_case; [done|]. wp_case.
  - apply AbilityStateTransition_wp; [done|done| |done]. intros _ a' Ha'. assert (a' = a) as -> by congruence. by eexists.
  - apply wp_keeps_ctx; [auto with respects|done].
Qed.
Hint Resolve DoUnload_keeps ProcessDelayUnloadLocked_keeps : respects.

Lemma ProcessDelayUnload_keeps k : respects keeps_ctx (ProcessDelayUnloadEvent L k).
Proof. unfold ProcessDelayUnloadEvent. solve_respects. Qed.
Lemma ProcessEvent_keeps e : respects keeps_ctx (ProcessEvent L e).
Proof. pose proof ProcessDelayUnload_keeps. unfold ProcessEvent. solve_respects. Qed.

Lemma setUnloadRequest_keeps k r : respects keeps_ctx (storeA k (λ a, a <| unloadRequest := Some r |>)).
Proof.
  intros w HI. apply ctx_inv_setA; [done|]. intros a Ha. split; [done|].
  intros [Hd Hu [P1 P2 P3 P4 P5]]. split; [done|by eexists|by split].
Qed.
Hint Resolve setUnloadRequest_keeps : respects.

Lemma HandleUnloadLocked_keeps k r : respects keeps_ctx (HandleUnloadAbilityEventLocked L k r).
Proof. unfold HandleUnloadAbilityEventLocked. solve_respects. Qed.
Hint Resolve HandleUnloadLocked_keeps : respects.
Lemma HandleUnload_keeps r : respects keeps_ctx (HandleUnloadAbilityEvent L r).
Proof. unfold HandleUnloadAbilityEvent. solve_respects. Qed.

Lemma Active_keeps k r : respects keeps_ctx (ActiveSystemAbilityLocked L k r).
Proof. apply keeps_ctx_wp. intros w HI. eapply wp_mono; [by apply Active_wp|]. by intros ? ? []. Qed.
Hint Resolve Active_keeps : respects.
Lemma HandleCancel_keeps k : respects keeps_ctx (HandleCancelUnloadAbilityEvent L k).
Proof. unfold HandleCancelUnloadAbilityEvent. solve_respects. Qed.

Lemma setPendingEvent_keeps k : respects mild (storeA k (λ a, a <| pendingEvent := NO_EVENT |>)).
Proof. apply storeA_mild; [done|]. solve_local. Qed.
Lemma clearPending_keeps k :
  respects mild (storeA k (λ a, a <| pendingLoadEventList := [] |> <| pendingLoadEventCountMap := ∅ |>)).
Proof.
  apply storeA_mild; [done|]. intros a [Hd Hu [P1 P2 P3 P4 P5]]. split; [done|done|].
  split; try done; simpl; [constructor|]. intros r Hr. by apply not_elem_of_nil in Hr.
Qed.
Hint Resolve setPendingEvent_keeps clearPending_keeps : respects.
Lemma HandlePendingLoad_keeps k : respects keeps_ctx (HandlePendingLoadEventLocked L k).
Proof. unfold HandlePendingLoadEventLocked. solve_respects. Qed.
Lemma HandlePendingUnload_keeps k : respects keeps_ctx (HandlePendingUnloadEventLocked L k).
Proof. unfold HandlePendingUnloadEventLocked. solve_respects. Qed.
Hint Resolve HandlePendingLoad_keeps HandlePendingUnload_keeps : respects.
Lemma pendingUnloadTask_keeps k : respects keeps_ctx (pendingUnloadTask L k).
Proof. unfold pendingUnloadTask. solve_respects. Qed.

(** ** Unloading a whole process *)

Lemma can_unload_no_loading s pn : can_unload s pn = true → no_loading s pn.
Proof.
  unfold can_unload, no_loading. intros H p k Hp Hk. rewrite Hp in H.
  apply andb_true_iff in H as [_ H]. rewrite forallb_forall in H.
  specialize (H k ltac:(by apply list_elem_of_In)). unfold has_state in *.
  destruct (_ !! k) as [a|]; [|done]. by destruct (a_state a).
Qed.

Lemma UnloadAll_wp w pn :
  ctx_inv (w_sched w) → no_loading (w_sched w) pn →
  wp (UnloadAllSystemAbilityLocked L pn) (λ _ w', ctx_inv (w_sched w')) w.
Proof.
  intros HI Hnl. unfold UnloadAllSystemAbilityLocked. wp_seq.
  eapply wp_mono; [apply (wp_forM (λ w', ctx_inv (w_sched w') ∧ no_loading (w_sched w') pn)); [done|]|].
  - intros k w' _ [HI' Hnl']. wp_seq. apply wp_GetSystemAbilityContext; [done| |done]. intros a Ha. wp_seq.
    wp_case; [|done]. wp_seq. eapply wp_mono; [by apply DoUnload_wp|]. cbv beta. intros ? w'' [HI'' Hnl'']. wp_seq. auto.
  - cbv beta. intros _ w' [HI' Hnl']. wp_seq. wp_frame. apply ProcessStateTransition_wp; auto.
Qed.

(** The test and the action, as three callers combine them. *)
Lemma CanUnloadAll_then w pn chk (k : bool → M Z) :
  ctx_inv (w_sched w) →
  (∀ w', w_sched w' = w_sched w → can_unload (w_sched w) pn = true →
         wp (k true) (λ _ w'', ctx_inv (w_sched w'')) w') →
  (∀ w', ctx_inv (w_sched w') → wp (k false) (λ _ w'', ctx_inv (w_sched w'')) w') →
  wp (b ← CanUnloadAllSystemAbilityLocked pn chk; k b) (λ _ w', ctx_inv (w_sched w')) w.
Proof.
  intros HI Ht Hf. apply wp_bind. unfold wp at 1. rewrite CanUnloadAll_eq by done.
  destruct (can_unload _ _) eqn:Hcu; [|by apply Hf]. destruct chk; [|by apply Ht].
  pose proof (CheckRecycle_rest pn w) as Hr. apply rest_sched in Hr. unfold same in Hr.
  destruct (CheckProcessImmediatelyRecycle pn w) as [[] w']; simpl in *; [by apply Ht|].
  apply Hf. by rewrite <- Hr.
Qed.

Lemma TryUnloadAll_keeps c : respects keeps_ctx (TryUnloadAllSystemAbility L c).
Proof.
  destruct c as [pn|]; [|apply respects_ret]. apply keeps_ctx_wp. intros w HI. apply CanUnloadAll_then; [done| |].
  - intros w' Hs Hcu. apply UnloadAll_wp; rewrite Hs; [done|]. by apply can_unload_no_loading.
  - intros w' HI'. by wp_seq.
Qed.

Lemma unloadOne_keeps r pn : respects keeps_ctx (unloadOne L r pn).
Proof.
  apply keeps_ctx_wp. intros w HI. unfold unloadOne. wp_seq.
  apply wp_GetSystemProcessContext; [|done]. intros p Hp. apply CanUnloadAll_then; [done| |].
  - intros w' Hs Hcu. wp_seq. eapply wp_mono; [apply UnloadAll_wp; rewrite Hs; [done|]|done].
    by apply can_unload_no_loading.
  - intros w' HI'. by wp_seq.
Qed.
Hint Resolve unloadOne_keeps : respects.
Lemma UnloadProcess_keeps l : respects keeps_ctx (UnloadProcess L l).
Proof. unfold UnloadProcess. solve_respects. Qed.
Lemma UnloadAllIdle_keeps : respects keeps_ctx (UnloadAllIdleSystemAbility L).
Proof. unfold UnloadAllIdleSystemAbility. solve_respects. Qed.

(** ** Events *)

Lemma toNotLoaded_keeps k : respects keeps_ctx (AbilityStateTransitionLocked L (Some k) NOT_LOADED).
Proof. apply AbilityStateTransition_keeps; auto. Qed.
Lemma toLoaded_keeps k : respects keeps_ctx (AbilityStateTransitionLocked L (Some k) LOADED).
Proof. apply AbilityStateTransition_keeps; auto. Qed.
Hint Resolve toNotLoaded_keeps toLoaded_keeps : respects.

Lemma AbilityEvent_keeps c e : respects keeps_ctx (HandleAbilityEventLocked L c e).
Proof.
  unfold HandleAbilityEventLocked, HandleAbilityLoadFailedEventLocked, HandleAbilityLoadSuccessEventLocked,
    HandleAbilityUnLoadSuccessEventLocked. solve_respects.
Qed.
Hint Resolve AbilityEvent_keeps : respects.
Lemma SendAbilityStateEvent_keeps k e : respects keeps_ctx (SendAbilityStateEvent L k e).
Proof. unfold SendAbilityStateEvent. solve_respects. Qed.

Lemma ProcessTransition_keeps pn to :
  to ≠ STOPPING → respects keeps_ctx (ProcessStateTransitionLocked L (Some pn) to).
Proof. intros H. apply keeps_ctx_wp. intros w HI. by apply ProcessStateTransition_wp. Qed.

Lemma setPid_mild pn x y : respects mild (storeP pn (λ p, p <| pid := x |> <| uid := y |>)).
Proof. by apply storeP_mild. Qed.

Lemma ProcessEvent_handler_keeps c i e : respects keeps_ctx (HandleProcessEventLocked L c i e).
Proof.
  pose proof setPid_mild. unfold HandleProcessEventLocked, HandleProcessStartedEventLocked,
    HandleProcessStoppedEventLocked. solve_respects; by apply ProcessTransition_keeps.
Qed.

Lemma AddRunning_ctxs pn : respects (same ctxs) (AddRunningProcessLocked pn).
Proof. unfold AddRunningProcessLocked. solve_respects. Qed.
Lemma RemoveRunning_ctxs pn : respects (same ctxs) (RemoveRunningProcessLocked pn).
Proof. unfold RemoveRunningProcessLocked. solve_respects. Qed.
Hint Resolve ProcessEvent_handler_keeps AddRunning_ctxs RemoveRunning_ctxs : respects.
Lemma SendProcessStateEvent_keeps i e : respects keeps_ctx (SendProcessStateEvent L i e).
Proof. unfold SendProcessStateEvent. solve_respects. Qed.
Lemma timeoutTask_mild pn : respects mild (timeoutTask pn).
Proof. unfold timeoutTask. solve_respects. Qed.

(** ** Enable-once *)

Lemma CheckStartEnableOnce_keeps e c cb : respects keeps_ctx (CheckStartEnableOnce L e c cb).
Proof.
  pose proof HandleLoad_keeps. unfold CheckStartEnableOnce. solve_respects;
    apply (respects_sub (same ctxs)); try apply _; intros w; reflexivity.
Qed.
Lemma CheckStopEnableOnce_keeps e c : respects keeps_ctx (CheckStopEnableOnce L e c).
Proof.
  pose proof HandleUnload_keeps. unfold CheckStopEnableOnce. solve_respects;
    apply (respects_sub (same ctxs)); try apply _; intros w; reflexivity.
Qed.
Hint Resolve CheckStartEnableOnce_keeps CheckStopEnableOnce_keeps : respects.
Lemma CheckEnableOnce_keeps e l : respects keeps_ctx (CheckEnableOnce L e l).
Proof. unfold CheckEnableOnce. solve_respects. Qed.

(** ** The callbacks *)

Lemma OnProcessStarted_mild pn : respects mild (OnProcessStartedLocked pn).
Proof. unfold OnProcessStartedLocked, NotifyProcessStarted. solve_respects. Qed.
Lemma OnAbilityNotLoaded_mild k : respects mild (OnAbilityNotLoadedLocked k).
Proof. unfold OnAbilityNotLoadedLocked. solve_respects. Qed.
Lemma OnAbilityLoaded_mild k : respects mild (OnAbilityLoadedLocked k).
Proof. unfold OnAbilityLoadedLocked, NotifyProcessActivated. solve_respects. Qed.
Lemma OnAbilityUnloadable_keeps k : respects keeps_ctx (OnAbilityUnloadableLocked L k).
Proof. unfold OnAbilityUnloadableLocked, NotifyProcessIdled. solve_respects. Qed.
Lemma resetAbilities_keeps l : respects keeps_ctx (resetAbilities L l).
Proof. unfold resetAbilities. solve_respects. Qed.
Lemma HandleAbnormallyDied_keeps pn l : respects keeps_ctx (HandleAbnormallyDiedAbilityLocked L pn l).
Proof. unfold HandleAbnormallyDiedAbilityLocked. solve_respects. Qed.
Hint Resolve resetAbilities_keeps HandleAbnormallyDied_keeps : respects.
Lemma OnProcessNotStarted_keeps pn : respects keeps_ctx (OnProcessNotStartedLocked L pn).
Proof. unfold OnProcessNotStartedLocked, NotifyProcessStopped. solve_respects. Qed.
End keeps.

(** The scheduler is a listener the state machine can rely on, at every depth. *)
Lemma schedulerListener_ok `{E : Env} {MI : ManagerIface} {ML : ManagerLaws MI} n : listener_ok (schedulerListener n).
Proof.
  induction n as [|n IH]; split; intros; simpl; try apply respects_ret.
  - apply OnAbilityNotLoaded_mild.
  - apply OnAbilityLoaded_mild.
  - by apply OnAbilityUnloadable_keeps.
  - by apply OnProcessNotStarted_keeps.
  - apply OnProcessStarted_mild.
Qed.
