(* ===== verification/SchedulerBoot.v ===== *)
(** Initialisation establishes the invariant: [InitStateContext] from well-formed
    profiles, then [InitSamgrProcessContext]. *)
From S2P Require Import Prelude Types World Ffrt Util Contexts Interfaces Hoare StateMachine EventHandler.
From S2P Require Import Scheduler SchedulerQuery SchedulerInv SchedulerProofs.

(** What the profile parser hands over: no SA twice, none in samgr's own process
    or with samgr's own id, and no more than a 32-bit counter can count. *)
Record profiles_ok (l : list SaProfile) : Prop := {
  pr_nodup : NoDup (saId <$> l);
  pr_samgr : ∀ p, p ∈ l → process p ≠ SAMGR_PROCESS_NAME ∧ saId p ≠ 0;
  pr_size : Z.of_nat (length l) < 2 ^ 32;
}.

Definition lists_bound (s : Sched) (n : nat) : Prop :=
  ∀ pn p, processContextMap_ s !! pn = Some p → (length (saList p) ≤ n)%nat.

(** A new SA context changes no process that does not list it. *)
Lemma process_ok_fresh am k a pn p :
  am !! k = None → process_ok am pn p → process_ok (<[k := a]> am) pn p.
Proof.
  intros Hk Hok. eapply process_ok_ext; [| |exact Hok].
  - intros st k' Hk'. destruct (pk_sas _ _ _ Hok k' Hk') as (a' & Ha' & _).
    unfold has_state. rewrite lookup_insert_ne; [done|congruence].
  - intros k' a' Ha'. destruct (decide (k = k')) as [<-|Hne]; [congruence|]. rewrite lookup_insert_ne by done. eauto.
Qed.

Section init.
Context (s : Sched) (sp : SaProfile).
Let k := saId sp.
Let pn := process sp.
Context (HI : ctx_inv s) (Hk : abilityContextMap_ s !! k = None).
Context (Hpn : pn ≠ []) (Hsamgr : pn ≠ SAMGR_PROCESS_NAME).

Let a := newAbilityContext <| systemAbilityId := k |> <| isAutoRestart := autoRestart sp |>
  <| a_independentUnload := independentUnload sp |>
  <| delayUnloadTime := LimitDelayUnloadTime (delayTime (stopOnDemand sp)) |> <| ownProcessContext := Some pn |>.
Let fresh := newProcessContext <| processName := pn |> <| abilityStateCountMap := countMap 0 0 |>.
Let upd := λ p : SystemProcessContext, p <| saList ::= λ l, l ++ [k] |>
  <| abilityStateCountMap ::= alter (λ n, u32 (n + 1)) NOT_LOADED |>.
Let p0 := default fresh (processContextMap_ s !! pn).

Lemma initOne_maps :
  abilityContextMap_ (initOne s sp) = <[k := a]> (abilityContextMap_ s) ∧
  processContextMap_ (initOne s sp) = <[pn := upd p0]> (processContextMap_ s).
Proof.
  unfold initOne. rewrite bool_decide_eq_false_2 by done. split; [done|]. simpl.
  apply map_eq. intros pn'. fold pn. unfold p0, map_touch.
  destruct (processContextMap_ s !! pn) as [p|] eqn:Hp; destruct (decide (pn = pn')) as [<-|Hne].
  - by rewrite lookup_alter_eq, lookup_insert_eq, Hp.
  - by rewrite lookup_alter_ne, lookup_insert_ne.
  - by rewrite lookup_alter_eq, !lookup_insert_eq.
  - by rewrite lookup_alter_ne, !lookup_insert_ne.
Qed.

Lemma fresh_ok : processContextMap_ s !! pn = None → process_ok (abilityContextMap_ s) pn fresh.
Proof.
  intros _. split; try done; simpl; [apply NoDup_nil_2|set_solver|].
  unfold counts_ok. rewrite decide_False by done. intros st. unfold count_of. simpl. by destruct st.
Qed.

Lemma p0_ok : process_ok (abilityContextMap_ s) pn p0.
Proof.
  unfold p0. destruct (processContextMap_ s !! pn) as [p|] eqn:Hp; simpl; [by apply HI|]. by apply fresh_ok.
Qed.

(** No process lists the new SA. *)
Lemma new_unlisted pn' p : process_ok (abilityContextMap_ s) pn' p → k ∉ saList p.
Proof. intros Hok Hin. destruct (pk_sas _ _ _ Hok k Hin) as (a' & Ha' & _). congruence. Qed.

Lemma has_state_new st k' :
  has_state (<[k := a]> (abilityContextMap_ s)) st k' =
  if decide (k' = k) then bool_decide (NOT_LOADED = st) else has_state (abilityContextMap_ s) st k'.
Proof.
  unfold has_state. case_decide as H; [subst k'; by rewrite lookup_insert_eq|]. by rewrite lookup_insert_ne.
Qed.

Lemma count_of_new p st :
  k ∉ saList p → count_of (<[k := a]> (abilityContextMap_ s)) p st = count_of (abilityContextMap_ s) p st.
Proof.
  intros H. apply countb_ext. intros k' Hk'. rewrite has_state_new. case_decide; [by subst|done].
Qed.

Lemma process_ok_new pn' p :
  process_ok (abilityContextMap_ s) pn' p → process_ok (<[k := a]> (abilityContextMap_ s)) pn' p.
Proof. by apply process_ok_fresh. Qed.

Lemma upd_ok :
  Z.of_nat (length (saList p0)) + 1 < 2 ^ 32 → process_ok (<[k := a]> (abilityContextMap_ s)) pn (upd p0).
Proof.
  intros Hsz. pose proof p0_ok as Hok. pose proof (new_unlisted _ _ Hok) as Hun.
  destruct (process_ok_new _ _ Hok) as [Hn Hnd Hsz' Hsas Hr Hc Hstop]. split; try done; simpl.
  - apply NoDup_app. split; [done|]. split; [set_solver|apply NoDup_singleton].
  - rewrite length_app. simpl. lia.
  - intros k' [Hk'|Hk']%elem_of_app; [by apply Hsas|]. apply list_elem_of_singleton in Hk' as ->.
    exists a. by rewrite lookup_insert_eq.
  - unfold counts_ok in *. rewrite decide_False in Hc |- * by done. intros st. specialize (Hc st).
    unfold count_of in *. simpl. rewrite countb_snoc, has_state_new, decide_True by done.
    pose proof (countb_nonneg (has_state (<[k := a]> (abilityContextMap_ s)) st) (saList p0)).
    pose proof (countb_le_length (has_state (<[k := a]> (abilityContextMap_ s)) st) (saList p0)).
    destruct (decide (NOT_LOADED = st)) as [<-|Hne].
    + rewrite lookup_alter_eq, Hc, bool_decide_eq_true_2 by done. simpl. rewrite u32_id; [done|]. unfold is_u32. lia.
    + rewrite lookup_alter_ne, Hc, bool_decide_eq_false_2, Z.add_0_r by done. done.
  - intros HS k' [Hk'|Hk']%elem_of_app; [by apply Hstop|]. apply list_elem_of_singleton in Hk' as ->.
    by rewrite has_state_new, decide_True.
Qed.

Lemma ctx_inv_initOne :
  Z.of_nat (length (saList p0)) + 1 < 2 ^ 32 → ctx_inv (initOne s sp).
Proof.
  intros Hsz. destruct initOne_maps as [Eam Epm]. split; rewrite Eam, ?Epm.
  - intros k' a' Ha'. apply lookup_insert_Some in Ha' as [[<- <-]|[Hne Ha']].
    + split; [done| |].
      * exists pn, (upd p0). rewrite lookup_insert_eq. split; [done|]. split; [done|]. simpl. set_solver.
      * split; [apply LimitDelay_range|by intros [|]|]. split; try done; simpl; [apply NoDup_nil_2|set_solver].
    + destruct (ci_ability _ HI _ _ Ha') as [Hid (pn' & p' & Hown & Hp' & Hin) Hl]. split; [done| |done].
      exists pn'. destruct (decide (pn = pn')) as [<-|Hq].
      * exists (upd p0). rewrite lookup_insert_eq. split; [done|]. split; [done|]. simpl.
        unfold p0. rewrite Hp'. simpl. set_solver.
      * exists p'. by rewrite lookup_insert_ne.
  - intros pn' p' Hp'. apply lookup_insert_Some in Hp' as [[<- <-]|[Hne Hp']]; [by apply upd_ok|].
    apply process_ok_new. by apply HI.
Qed.
End init.

(** The loop of [InitStateContext]. *)
Lemma ctx_inv_InitStateContext l : ∀ s n,
  ctx_inv s → lists_bound s n →
  NoDup (saId <$> l) → (∀ p, p ∈ l → process p ≠ SAMGR_PROCESS_NAME) →
  (∀ p, p ∈ l → abilityContextMap_ s !! saId p = None) →
  Z.of_nat n + Z.of_nat (length l) < 2 ^ 32 →
  ctx_inv (foldl initOne s l).
Proof.
  induction l as [|sp l IH]; intros s n HI Hb Hnd Hs Hfr Hsz; [done|].
  rewrite fmap_cons in Hnd. apply NoDup_cons in Hnd as [Hsp Hnd]. simpl length in Hsz. simpl foldl.
  destruct (decide (process sp = [])) as [He|He].
  { unfold initOne at 2. rewrite bool_decide_eq_true_2 by done. apply (IH s n); try done; [set_solver..|lia]. }
  destruct (initOne_maps s sp He) as [Eam Epm].
  apply (IH _ (S n)); try done; [| |set_solver| |lia].
  - apply ctx_inv_initOne; [done|apply Hfr; set_solver|done|apply Hs; set_solver|].
    destruct (processContextMap_ s !! process sp) as [p|] eqn:Hp; simpl; [apply Hb in Hp|]; lia.
  - intros pn p. rewrite Epm. intros [[<- <-]|[Hne Hp]]%lookup_insert_Some.
    + simpl. rewrite length_app. simpl.
      destruct (processContextMap_ s !! process sp) as [p|] eqn:Hp; simpl; [apply Hb in Hp|]; lia.
    + apply Hb in Hp. lia.
  - intros p Hp. rewrite Eam, lookup_insert_ne; [apply Hfr; set_solver|].
    intros E. apply Hsp. rewrite E. by apply list_elem_of_fmap_2.
Qed.

(** The new SAs are those of the profiles, the new processes theirs. *)
Lemma InitStateContext_dom l : ∀ s,
  (∀ k, is_Some (abilityContextMap_ (foldl initOne s l) !! k) →
        is_Some (abilityContextMap_ s !! k) ∨ k ∈ saId <$> l) ∧
  (∀ pn, is_Some (processContextMap_ (foldl initOne s l) !! pn) →
         is_Some (processContextMap_ s !! pn) ∨ pn ∈ process <$> l).
Proof.
  induction l as [|sp l IH]; intros s; [by split; left|]. simpl foldl. rewrite !fmap_cons.
  destruct (IH (initOne s sp)) as [IHa IHp]. destruct (decide (process sp = [])) as [He|He].
  { unfold initOne in IHa, IHp at 2. unfold initOne at 2 4.
    rewrite bool_decide_eq_true_2 in IHa, IHp |- * by done. set_solver. }
  destruct (initOne_maps s sp He) as [Eam Epm]. rewrite Eam in IHa. rewrite Epm in IHp. split.
  - intros k Hk. apply IHa in Hk as [Hk|Hk]; [|set_solver].
    destruct (decide (saId sp = k)) as [<-|Hne]; [set_solver|]. rewrite lookup_insert_ne in Hk by done. by left.
  - intros pn Hk. apply IHp in Hk as [Hk|Hk]; [|set_solver].
    destruct (decide (process sp = pn)) as [<-|Hne]; [set_solver|]. rewrite lookup_insert_ne in Hk by done. by left.
Qed.

(** The entry of samgr itself. *)
Lemma ctx_inv_samgr s p a :
  ctx_inv s → processContextMap_ s !! SAMGR_PROCESS_NAME = None → abilityContextMap_ s !! 0 = None →
  processName p = SAMGR_PROCESS_NAME → saList p = [0] → restartCountsCtrl p = [] →
  abilityStateCountMap p = countMap 0 1 → p_state p = STARTED →
  systemAbilityId a = 0 → ownProcessContext a = Some SAMGR_PROCESS_NAME → a_state a = NOT_LOADED → ability_local a →
  ctx_inv (s <| processContextMap_ ::= <[SAMGR_PROCESS_NAME := p]> |> <| abilityContextMap_ ::= <[0 := a]> |>).
Proof.
  intros HI Hp Ha Hn Hl Hr Hc Hs Hid Hown Hst Hloc. split; simpl.
  - intros k a' [[<- <-]|[Hne Ha']]%lookup_insert_Some.
    + split; [done| |done]. exists SAMGR_PROCESS_NAME, p. rewrite lookup_insert_eq, Hl. set_solver.
    + destruct (ci_ability _ HI _ _ Ha') as [Hid' (pn' & p' & Hown' & Hp' & Hin) Hl']. split; [done| |done].
      exists pn', p'. rewrite lookup_insert_ne by congruence. done.
  - intros pn p' [[<- <-]|[Hne Hp']]%lookup_insert_Some.
    + split; try done; rewrite ?Hl, ?Hr; [apply NoDup_singleton|done| |done| |congruence].
      * intros k ->%list_elem_of_singleton. exists a. by rewrite lookup_insert_eq.
      * unfold counts_ok. rewrite decide_True by done. split; [done|]. rewrite Hl.
        intros k ->%list_elem_of_singleton. unfold has_state. rewrite lookup_insert_eq. by apply bool_decide_eq_true.
    + apply process_ok_fresh; [done|]. by apply HI.
Qed.
