(* ===== verification/SchedulerFrame.v ===== *)
(** A relation on worlds that the scheduler's own writes and the manager's
    operations respect is respected by the whole scheduler.  Invariants of the
    manager's registries, and of the scheduler's members that are not contexts, are
    carried across the scheduler's calls with it. *)
From S2P Require Import Prelude Types World Ffrt Util Contexts Interfaces StateMachine EventHandler Scheduler.
From S2P Require Import SchedulerQuery.

Section frame.
Context `{E : Env} {MI : ManagerIface}.
Context (R : relation World) `{!PreOrder R}.

(** What the scheduler writes: contexts, the listeners of named processes and the
    list of running processes. *)
Record writes_respect : Prop := {
  wr_rest : subrelation frame R;
  wr_storeA k f : respects R (storeA k f);
  wr_storeP k f : respects R (storeP k f);
  wr_active n pn : respects R (notifyActiveIdle n pn);
  wr_add pn : respects R (AddRunningProcessLocked pn);
  wr_remove pn : respects R (RemoveRunningProcessLocked pn);
}.
Context (HW : writes_respect).

(** What the manager's operations must respect. *)
Record iface_respects : Prop := {
  ir_DoLoadOnDemand said : respects R (mi_DoLoadOnDemandAbility said);
  ir_DoLoad said pn cb p e : respects R (mi_DoLoadSystemAbility said pn cb p e);
  ir_DoLoadFromRpc d said pn cb e : respects R (mi_DoLoadSystemAbilityFromRpc d said pn cb e);
  ir_DoUnload said pn e : respects R (mi_DoUnloadSystemAbility said pn e);
  ir_Idle said pn e : respects R (mi_IdleSystemAbility said pn e);
  ir_Active said pn e : respects R (mi_ActiveSystemAbility said pn e);
  ir_Recycle said : respects R (mi_CheckSaIsImmediatelyRecycle said);
  ir_RemoveDied said : respects R (mi_RemoveDiedSystemAbility said);
  ir_RemoveOnDemand pn : respects R (mi_RemoveOnDemandSaInDiedProc pn);
  ir_RemoveWhite : respects R mi_RemoveWhiteCommonEvent;
}.
Context (HM : iface_respects).
Hint Resolve ir_DoLoadOnDemand ir_DoLoad ir_DoLoadFromRpc ir_DoUnload ir_Idle ir_Active ir_Recycle
  ir_RemoveDied ir_RemoveOnDemand ir_RemoveWhite : respects.

#[local] Instance rest_frame : subrelation frame R := wr_rest HW.
Hint Resolve wr_storeA wr_storeP wr_active wr_add wr_remove : respects.

Lemma stateCount_mgr pn st : respects R (stateCount pn st).
Proof. unfold stateCount. solve_respects. Qed.
Hint Resolve stateCount_mgr : respects.
Lemma SendDelayUnload_mgr said d : respects R (SendDelayUnloadEventLocked said d).
Proof. unfold SendDelayUnloadEventLocked, hasHandler, HasUnloadEvent, SendEvent. solve_respects. Qed.
Lemma RemoveDelayUnload_mgr said : respects R (RemoveDelayUnloadEventLocked said).
Proof. unfold RemoveDelayUnloadEventLocked, hasHandler, HasUnloadEvent, RemoveEvent. solve_respects. Qed.
Lemma unloadTimeoutName_mgr pn : respects R (unloadTimeoutName pn).
Proof. unfold unloadTimeoutName. solve_respects. Qed.
Hint Resolve unloadTimeoutName_mgr : respects.
Lemma UpdateDelayTask_mgr said : respects R (UpdateLimitDelayUnloadTimeTask said).
Proof. unfold UpdateLimitDelayUnloadTimeTask. solve_respects. Qed.
Lemma UpdateDelay_mgr said : respects R (UpdateLimitDelayUnloadTime said).
Proof. unfold UpdateLimitDelayUnloadTime, hasHandler. solve_respects. Qed.
Lemma ServiceControl_mgr n a : respects R (ServiceControl n a).
Proof. unfold ServiceControl, SchedulerGetUserId. solve_respects. Qed.
Hint Resolve ServiceControl_mgr : respects.
Lemma CheckProcessStarted_mgr pn : respects R (CheckProcessStarted pn).
Proof. unfold CheckProcessStarted, SchedulerGetUserId. solve_respects. Qed.
Lemma CheckRecycle_mgr pn : respects R (CheckProcessImmediatelyRecycle pn).
Proof. unfold CheckProcessImmediatelyRecycle. solve_respects. Qed.
Hint Resolve CheckRecycle_mgr : respects.
Lemma CanUnloadAll_mgr pn b : respects R (CanUnloadAllSystemAbilityLocked pn b).
Proof. unfold CanUnloadAllSystemAbilityLocked. solve_respects. Qed.
Lemma KillSystemProcess_mgr pn : respects R (KillSystemProcessLocked pn).
Proof. unfold KillSystemProcessLocked. solve_respects. Qed.
Hint Resolve SendDelayUnload_mgr RemoveDelayUnload_mgr CanUnloadAll_mgr KillSystemProcess_mgr : respects.
Lemma TryKill_mgr c : respects R (TryKillSystemProcess c).
Proof. unfold TryKillSystemProcess, CanKillSystemProcessLocked. solve_respects. Qed.
Lemma CanRestart_mgr pn : respects R (CanRestartProcessLocked pn).
Proof. unfold CanRestartProcessLocked. solve_respects. Qed.
Lemma notifyStartStop_mgr n pn : respects R (notifyStartStop n pn).
Proof. unfold notifyStartStop, isForegroundUser, SchedulerGetUserId, processInfoOf. solve_respects. Qed.
Lemma PendLoad_mgr said r : respects R (PendLoadEventLocked said r).
Proof. unfold PendLoadEventLocked, HandlePendingLoadOverflow. solve_respects. Qed.
Lemma dropPending_mgr said : respects R (dropPendingUnload said).
Proof. unfold dropPendingUnload. solve_respects. Qed.
Lemma timeoutTask_mgr pn : respects R (timeoutTask pn).
Proof. unfold timeoutTask. solve_respects. Qed.
Hint Resolve TryKill_mgr CanRestart_mgr notifyStartStop_mgr PendLoad_mgr dropPending_mgr
  CheckProcessStarted_mgr UpdateDelay_mgr : respects.

(** Operations that drive the state machine. *)
Section machine.
Context (L : option StateListener).
Context (HL : ∀ l, L = Some l → listener_respects R l).

Lemma notify_mgr c : (∀ l, L = Some l → respects R (c l)) → respects R (notify L c).
Proof. unfold notify. destruct L; intros H; [by apply H|apply respects_ret]. Qed.
Lemma OnEnter_mgr st said : respects R (OnEnter L st said).
Proof. unfold OnEnter. solve_respects; apply notify_mgr; intros l Hl; by apply (HL l Hl). Qed.
Lemma OnEnterProcess_mgr st pn : respects R (OnEnterProcess L st pn).
Proof.
  unfold OnEnterProcess. solve_respects; apply notify_mgr; intros l Hl; pose proof (HL l Hl);
    solve_respects; by apply (HL l Hl).
Qed.
Hint Resolve OnEnter_mgr OnEnterProcess_mgr : respects.
Lemma UpdateStateCount_mgr c f t : respects R (UpdateStateCount c f t).
Proof. unfold UpdateStateCount. solve_respects. Qed.
Hint Resolve UpdateStateCount_mgr : respects.
Lemma AbilityTransition_mgr c st : respects R (AbilityStateTransitionLocked L c st).
Proof. unfold AbilityStateTransitionLocked. solve_respects. Qed.
Lemma ProcessTransition_mgr c st : respects R (ProcessStateTransitionLocked L c st).
Proof. unfold ProcessStateTransitionLocked. solve_respects. Qed.
Hint Resolve AbilityTransition_mgr ProcessTransition_mgr : respects.
Lemma DoLoad_mgr said r : respects R (DoLoadSystemAbilityLocked L said r).
Proof. unfold DoLoadSystemAbilityLocked. solve_respects. Qed.
Lemma Active_mgr said e : respects R (ActiveSystemAbilityLocked L said e).
Proof. unfold ActiveSystemAbilityLocked. solve_respects. Qed.
Lemma DoUnload_mgr said : respects R (DoUnloadSystemAbilityLocked L said).
Proof. unfold DoUnloadSystemAbilityLocked. solve_respects. Qed.
Lemma HandleLoadById_mgr said b : respects R (HandleLoadAbilityEventById L said b).
Proof. unfold HandleLoadAbilityEventById. solve_respects. Qed.
Hint Resolve DoLoad_mgr Active_mgr DoUnload_mgr : respects.
Lemma HandleLoadLocked_mgr said r : respects R (HandleLoadAbilityEventLocked L said r).
Proof. unfold HandleLoadAbilityEventLocked, RemovePendingUnloadEventLocked. solve_respects. Qed.
Hint Resolve HandleLoadLocked_mgr : respects.
Lemma HandleLoad_mgr r : respects R (HandleLoadAbilityEvent L r).
Proof. unfold HandleLoadAbilityEvent. solve_respects. Qed.
Lemma DelayUnloadLocked_mgr said : respects R (ProcessDelayUnloadEventLocked L said).
Proof. unfold ProcessDelayUnloadEventLocked. solve_respects. Qed.
Hint Resolve HandleLoad_mgr DelayUnloadLocked_mgr : respects.
Lemma ProcessEvent_mgr e : respects R (ProcessEvent L e).
Proof. unfold ProcessEvent, ProcessDelayUnloadEvent. solve_respects. Qed.
Lemma HandleUnloadLocked_mgr said r : respects R (HandleUnloadAbilityEventLocked L said r).
Proof. unfold HandleUnloadAbilityEventLocked, PendUnloadEventLocked. solve_respects. Qed.
Hint Resolve HandleUnloadLocked_mgr : respects.
Lemma HandleUnload_mgr r : respects R (HandleUnloadAbilityEvent L r).
Proof. unfold HandleUnloadAbilityEvent. solve_respects. Qed.
Lemma HandleCancel_mgr said : respects R (HandleCancelUnloadAbilityEvent L said).
Proof. unfold HandleCancelUnloadAbilityEvent. solve_respects. Qed.
Lemma HandlePendingLoad_mgr said : respects R (HandlePendingLoadEventLocked L said).
Proof. unfold HandlePendingLoadEventLocked. solve_respects. Qed.
Lemma pendingUnloadTask_mgr said : respects R (pendingUnloadTask L said).
Proof. unfold pendingUnloadTask, HandlePendingUnloadEventLocked. solve_respects. Qed.
Lemma UnloadAll_mgr pn : respects R (UnloadAllSystemAbilityLocked L pn).
Proof. unfold UnloadAllSystemAbilityLocked, PostUnloadTimeoutTask. solve_respects. Qed.
Hint Resolve HandleUnload_mgr HandlePendingLoad_mgr UnloadAll_mgr : respects.
Lemma TryUnloadAll_mgr c : respects R (TryUnloadAllSystemAbility L c).
Proof. unfold TryUnloadAllSystemAbility. solve_respects. Qed.
Lemma unloadOne_mgr r pn : respects R (unloadOne L r pn).
Proof. unfold unloadOne. solve_respects. Qed.
Hint Resolve unloadOne_mgr : respects.
Lemma UnloadProcess_mgr l : respects R (UnloadProcess L l).
Proof. unfold UnloadProcess. solve_respects. Qed.
Lemma UnloadAllIdle_mgr : respects R (UnloadAllIdleSystemAbility L).
Proof. unfold UnloadAllIdleSystemAbility. solve_respects. Qed.
Lemma AbilityEvent_mgr c e : respects R (HandleAbilityEventLocked L c e).
Proof.
  unfold HandleAbilityEventLocked, HandleAbilityLoadFailedEventLocked, HandleAbilityLoadSuccessEventLocked,
    HandleAbilityUnLoadSuccessEventLocked. solve_respects.
Qed.
Lemma ProcessEventLocked_mgr c i e : respects R (HandleProcessEventLocked L c i e).
Proof.
  unfold HandleProcessEventLocked, HandleProcessStartedEventLocked, HandleProcessStoppedEventLocked. solve_respects.
Qed.
Hint Resolve AbilityEvent_mgr ProcessEventLocked_mgr : respects.
Lemma SendAbilityStateEvent_mgr said e : respects R (SendAbilityStateEvent L said e).
Proof. unfold SendAbilityStateEvent. solve_respects. Qed.
Lemma SendProcessStateEvent_mgr i e : respects R (SendProcessStateEvent L i e).
Proof. unfold SendProcessStateEvent. solve_respects. Qed.
(** The callbacks themselves. *)
Lemma asListener_mgr : listener_respects R (asListener L).
Proof.
  split; intros x; unfold asListener; cbn [OnAbilityNotLoaded OnAbilityLoading OnAbilityLoaded OnAbilityUnloadable
    OnAbilityUnloading OnProcessNotStarted OnProcessStarted OnProcessStopping];
  unfold OnAbilityNotLoadedLocked, OnAbilityLoadedLocked, OnAbilityUnloadableLocked, OnProcessNotStartedLocked,
    OnProcessStartedLocked, NotifyProcessStarted, NotifyProcessStopped, RemoveUnloadTimeoutTask,
    GetAbnormallyDiedAbilityLocked, resetAbilities, HandleAbnormallyDiedAbilityLocked, RemovePendingUnloadEventLocked,
    PostTryKillProcessTask, PostTryUnloadAllAbilityTask, hasHandler, IsProcessActivatedLocked, IsProcessIdledLocked,
    NotifyProcessActivated, NotifyProcessIdled; solve_respects.
Qed.
End machine.

Lemma schedulerListener_mgr n l : schedulerListener n = Some l → listener_respects R l.
Proof.
  revert l. induction n as [|n IH]; intros l; [done|]. intros [= <-]. apply asListener_mgr. exact IH.
Qed.

Lemma IsUnloading_mgr said : respects R (IsSystemAbilityUnloading said).
Proof. unfold IsSystemAbilityUnloading. solve_respects. Qed.
Lemma GetSystemProcessInfo_mgr said o : respects R (GetSystemProcessInfo said o).
Proof. unfold GetSystemProcessInfo, processInfoOf. solve_respects. Qed.
Lemma GetIdleProcessInfo_mgr said : respects R (GetIdleProcessInfo said).
Proof. unfold GetIdleProcessInfo. solve_respects. Qed.
Lemma IsSystemProcessCanUnload_mgr pn : respects R (IsSystemProcessCanUnload pn).
Proof. unfold IsSystemProcessCanUnload. solve_respects. Qed.

(** The members the on-demand events and the subscriptions write. *)
Record members_respect : Prop := {
  mr_start f : respects R (updS startEnableOnceMap_ f);
  mr_stop f : respects R (updS stopEnableOnceMap_ f);
  mr_listeners f : respects R (updS procListenerMap_ f);
  mr_counts f : respects R (updS subscribeProcCountMap_ f);
  mr_processes f : respects R (updS processListeners_ f);
}.
Context (HU : members_respect).
Hint Resolve mr_start mr_stop mr_listeners mr_counts mr_processes : respects.
Lemma CheckEnableOnce_mgr L e l :
  (∀ l, L = Some l → listener_respects R l) → respects R (CheckEnableOnce L e l).
Proof.
  intros HL. pose proof (HandleLoad_mgr L HL) as H1. pose proof (HandleUnload_mgr L HL) as H2.
  unfold CheckEnableOnce, CheckStartEnableOnce, CheckStopEnableOnce. solve_respects.
Qed.
Lemma SubscribeLoop_mgr pns l : respects R (SubscribeSystemProcessListLoop pns l).
Proof. induction pns; simpl; solve_respects. Qed.
End frame.

(** A relation that only constrains the manager. *)
Section manager.
Context `{E : Env} {MI : ManagerIface}.
Context (R : relation World) `{!PreOrder R} (Hmgr : subrelation (same w_mgr) R).

Lemma mgr_modify f : (∀ w, w_mgr (f w) = w_mgr w) → respects R (modify f).
Proof. intros H w. apply Hmgr. red. by rewrite <- (H w). Qed.
#[local] Instance mgr_rest : subrelation frame R.
Proof. intros w w' H. by apply Hmgr, rest_mgr. Qed.
Lemma mgr_updS {T} (proj : Sched → T) `{!Setter proj} f : respects R (updS proj f).
Proof. by apply mgr_modify. Qed.
Hint Resolve mgr_updS : respects.

Lemma mgr_writes : writes_respect R.
Proof.
  split; [apply _|by intros; apply mgr_modify..| | |]; intros;
    unfold notifyActiveIdle, AddRunningProcessLocked, RemoveRunningProcessLocked, processInfoOf; solve_respects.
Qed.
Lemma mgr_members : members_respect R.
Proof. split; intros; apply mgr_updS. Qed.
End manager.
