(* ===== verification/Policy.v ===== *)
(** The operations of [BaseSystemAbilityManager] that ask the collect manager:
    the on-demand policy of an SA and the data of the events that started it
    (services/samgr/native/source/base_system_ability_manager.cpp,
    system_ability_manager_util.cpp). *)
From S2P Require Import Prelude Types World Parcel Ffrt Util CollectManager Contexts Interfaces ManagerBase IpcInterface.

(** [DeviceStatusCollectManager] as the manager sees it. *)
Class CollectIface := {
  ci_GetOnDemandEvents : Z → Z → M (Z * list OnDemandEvent);
  ci_UpdateOnDemandEvents : Z → Z → list OnDemandEvent → M Z;
  ci_GetOnDemandReasonExtraData : Z → M (Z * OnDemandReasonExtraData);
  ci_GetSaExtraDataIdList : Z → string → M (Z * list Z);
}.

(** The class itself. *)
#[export] Instance deviceStatusCollectManager `{E : Env} : CollectIface := {|
  ci_GetOnDemandEvents := GetOnDemandEvents;
  ci_UpdateOnDemandEvents := UpdateOnDemandEvents;
  ci_GetOnDemandReasonExtraData := CollectGetReasonExtraData;
  ci_GetSaExtraDataIdList := CollectGetSaExtraDataIdList;
|}.

(** ** Conversions between the two types of events *)

Definition ConvertToOnDemandEvent (from : SystemAbilityOnDemandEvent) : OnDemandEvent :=
  let conds := (λ c, MkCondition (i32 (sac_eventId c)) (sac_name c) (sac_value c) ∅) <$> sae_conditions from in
  MkEvent (i32 (sae_eventId from)) (sae_name from) (sae_value from) (-1) (sae_persistence from) conds
    (sae_enableOnce from) LOW_PRIORITY ∅.

Definition ConvertToSystemAbilityOnDemandEvent (from : OnDemandEvent) : SystemAbilityOnDemandEvent :=
  MkSAEvent (eventId from) (ev_name from) (ev_value from) (persistence from)
    ((λ c, MkSACondition (cond_eventId c) (cond_name c) (cond_value c)) <$> conditions from) (ev_enableOnce from).

Section policy.
Context `{E : Env} {C : CollectIface}.

(** The checks both operations start with. *)
Definition checkPolicy {A} (said type : Z) (fail : Z → A) (m : M A) : M A :=
  p ← GetSaProfile said;
  match p with
  | None => mret (fail ERR_INVALID_VALUE)
  | Some p =>
      ok ← CheckCallerProcess p;
      if negb ok then mret (fail ERR_INVALID_VALUE)
      else if negb (CheckAllowUpdate type p) then mret (fail ERR_PERMISSION_DENIED)
      else
        c ← getM collectManager_;
        if negb c then mret (fail ERR_INVALID_VALUE) else m
  end.

Definition GetOnDemandPolicy (said type : Z) : M (Z * list SystemAbilityOnDemandEvent) :=
  checkPolicy said type (λ e, (e, [])) (
    '(result, events) ← ci_GetOnDemandEvents said type;
    if negb (result =? ERR_OK) then mret (result, [])
    else mret (ERR_OK, ConvertToSystemAbilityOnDemandEvent <$> events)).

Definition UpdateOnDemandPolicy (said type : Z) (events : list SystemAbilityOnDemandEvent) : M Z :=
  checkPolicy said type (λ e, e) (
    result ← ci_UpdateOnDemandEvents said type (ConvertToOnDemandEvent <$> events);
    if negb (result =? ERR_OK) then mret result else mret ERR_OK).

(** The data is written to the parcel of the caller. *)
Definition GetOnDemandReasonExtraData `{P : Parcels} (id : Z) (parcel : Parcel) : M (Z * Parcel) :=
  c ← getM collectManager_;
  if negb c then mret (ERR_INVALID_VALUE, parcel)
  else
    '(r, data) ← ci_GetOnDemandReasonExtraData id;
    if negb (r =? ERR_OK) then mret (ERR_INVALID_VALUE, parcel)
    else
      let '(b, parcel') := Write KExtraData data parcel in
      mret (if negb b then ERR_INVALID_VALUE else ERR_OK, parcel').

Definition GetCommonEventExtraDataIdlist (said : Z) (eventName : string) : M (Z * list Z) :=
  b ← IsCacheCommonEvent said;
  if negb b then mret (ERR_OK, [])
  else
    c ← getM collectManager_;
    if negb c then mret (ERR_INVALID_VALUE, []) else ci_GetSaExtraDataIdList said eventName.
End policy.
