(* ===== verification/Subscribers.v ===== *)
(** The subscriptions of a user's manager
    (services/samgr/native/source/multi_system_ability_manager.cpp): for each SA
    the binder objects that subscribed for this user, or for whoever is in the
    foreground.  The objects are held weakly: [env_promote] tells whether one
    still exists, and the loops drop those that do not. *)
From S2P Require Import Prelude Types World.

Section subscribers.
Context `{E : Env}.

(** The loop over a list of subscribers: what it keeps before the item of [obj],
    the item and what follows it. *)
Fixpoint scanSubscribers (alive : RemoteObject → bool) (obj : RemoteObject) (l : list SubscriberInfo)
    : list SubscriberInfo * option (SubscriberInfo * list SubscriberInfo) :=
  match l with
  | [] => ([], None)
  | i :: l' =>
      if negb (alive (si_remoteObject i)) then scanSubscribers alive obj l'
      else if bool_decide (si_remoteObject i = obj) then ([], Some (i, l'))
      else let '(kept, r) := scanSubscribers alive obj l' in (i :: kept, r)
  end.

Definition setSubscription (foregroundOnly b : bool) (i : SubscriberInfo) : SubscriberInfo :=
  if foregroundOnly then i <| si_hasForegroundSubscription := b |> else i <| si_hasDirectSubscription := b |>.

Definition AddSubscriberInfo (said : Z) (listener : option StatusChange) (foregroundOnly : bool) : M unit :=
  match listener with
  | None => mret tt
  | Some l =>
      tr ← gets w_trace;
      m ← getM subscriberInfoMap_;
      let '(kept, r) := scanSubscribers (env_promote tr) (sc_AsObject l) (default [] (m !! said)) in
      updM subscriberInfoMap_ <[said :=
        match r with
        | Some (i, rest) => kept ++ setSubscription foregroundOnly true i :: rest
        | None => kept ++ [MkSubscriberInfo (sc_AsObject l) (negb foregroundOnly) foregroundOnly]
        end]>
  end.

(** [subscriberInfoMap_.erase(mapIter)] when the list is empty. *)
Definition storeSubscribers (said : Z) (l : list SubscriberInfo) : M unit :=
  updM subscriberInfoMap_ (if bool_decide (l = []) then delete said else <[said := l]>).

(** Whether the object has no subscription left. *)
Definition RemoveSubscriberInfo (said : Z) (listener : option StatusChange) (foregroundOnly : bool) : M bool :=
  match listener with
  | None => mret false
  | Some l =>
      tr ← gets w_trace;
      m ← getM subscriberInfoMap_;
      match m !! said with
      | None => mret true
      | Some infos =>
          let '(kept, r) := scanSubscribers (env_promote tr) (sc_AsObject l) infos in
          match r with
          | None => storeSubscribers said kept;; mret true
          | Some (i, rest) =>
              let i' := setSubscription foregroundOnly false i in
              if si_hasDirectSubscription i' || si_hasForegroundSubscription i' then
                updM subscriberInfoMap_ <[said := kept ++ i' :: rest]>;; mret false
              else storeSubscribers said (kept ++ rest);; mret true
          end
      end
  end.

Definition ShouldNotifySubscriber (said : Z) (listener : option StatusChange) : M bool :=
  match listener with
  | None => mret false
  | Some l =>
      tr ← gets w_trace;
      m ← getM subscriberInfoMap_;
      match m !! said with
      | None => mret false
      | Some infos =>
          let '(kept, r) := scanSubscribers (env_promote tr) (sc_AsObject l) infos in
          match r with
          | None => storeSubscribers said kept;; mret false
          | Some (i, rest) =>
              updM subscriberInfoMap_ <[said := kept ++ i :: rest]>;;
              userId ← getM userId_;
              fg ← gets w_foreground;
              mret (si_hasDirectSubscription i || negb (si_hasForegroundSubscription i) || (userId =? fg))
          end
      end
  end.

(** The second half of [UnSubscribeSystemAbility(remoteObject)]. *)
Definition dropSubscriber (obj : RemoteObject) : M unit :=
  tr ← gets w_trace;
  updM subscriberInfoMap_ (omap (λ l,
    let l' := filter (λ i, env_promote tr (si_remoteObject i) = true ∧ si_remoteObject i ≠ obj) l in
    if bool_decide (l' = []) then None else Some l')).

(** ** Frames: only [subscriberInfoMap_] is written *)

Lemma AddSubscriberInfo_respects R `{!PreOrder R} said l b :
  (∀ f, respects R (updM subscriberInfoMap_ f)) → respects R (AddSubscriberInfo said l b).
Proof. intros. unfold AddSubscriberInfo. solve_respects. Qed.
Lemma RemoveSubscriberInfo_respects R `{!PreOrder R} said l b :
  (∀ f, respects R (updM subscriberInfoMap_ f)) → respects R (RemoveSubscriberInfo said l b).
Proof. intros. unfold RemoveSubscriberInfo, storeSubscribers. solve_respects. Qed.
Lemma ShouldNotifySubscriber_respects R `{!PreOrder R} said l :
  (∀ f, respects R (updM subscriberInfoMap_ f)) → respects R (ShouldNotifySubscriber said l).
Proof. intros. unfold ShouldNotifySubscriber, storeSubscribers. solve_respects. Qed.
Lemma dropSubscriber_respects R `{!PreOrder R} o :
  (∀ f, respects R (updM subscriberInfoMap_ f)) → respects R (dropSubscriber o).
Proof. intros. unfold dropSubscriber. solve_respects. Qed.
End subscribers.

#[export] Hint Extern 2 (respects _ (AddSubscriberInfo _ _ _)) => apply AddSubscriberInfo_respects; [typeclasses eauto|intros] : respects.
#[export] Hint Extern 2 (respects _ (RemoveSubscriberInfo _ _ _)) => apply RemoveSubscriberInfo_respects; [typeclasses eauto|intros] : respects.
#[export] Hint Extern 2 (respects _ (ShouldNotifySubscriber _ _)) => apply ShouldNotifySubscriber_respects; [typeclasses eauto|intros] : respects.
#[export] Hint Extern 2 (respects _ (dropSubscriber _)) => apply dropSubscriber_respects; [typeclasses eauto|intros] : respects.
