(* ===== verification/DumpStats.v ===== *)
(** [SystemAbilityManagerDumper]
    (services/samgr/native/source/system_ability_manager_dumper.cpp), what needs no manager of
    a user: the ffrt and IPC statistics, the lists of listeners, and the hosting processes.
    A function that appends to [result] takes the text and returns it. *)
From S2P Require Import Prelude Types World Ffrt Util CommonEvent TimedCollect CollectFrame Contexts Interfaces ManagerBase.
From S2P Require Import SchedulerQuery.

Definition HIDUMPER_PROCESS_NAME : string := "hidumper_service".
Definition ARGS_QUERY_SA : string := "-sa".
Definition ARGS_QUERY_PROCESS : string := "-p".
Definition ARGS_QUERY_SA_IN_CURRENT_STATE : string := "-sm".
Definition ARGS_HELP : string := "-h".
Definition ARGS_QUERY_ALL : string := "-l".
Definition ARGS_FFRT_SEPARATOR : string := "|".
Definition FFRT_STAT_STR_START : string := "--start-stat".
Definition FFRT_STAT_STR_STOP : string := "--stop-stat".
Definition FFRT_STAT_STR_GET : string := "--stat".
Definition IPC_STAT_STR_START : string := "--start-stat".
Definition IPC_STAT_STR_STOP : string := "--stop-stat".
Definition IPC_STAT_STR_GET : string := "--stat".
Definition IPC_STAT_STR_ALL : string := "all".
Definition IPC_STAT_STR_SAMGR : string := "samgr".
Definition IPC_DUMP_SUCCESS : string := " success" +:+ NL.
Definition IPC_DUMP_FAIL : string := " fail" +:+ NL.
Definition COLLECT_FFRT_METRIC_MAX_SIZE : nat := 5000.
Definition DUMP_DELAY_TIME : Z := 60 * 1000.
Definition FFRT_STAT_CMD_START : Z := 0.
Definition FFRT_STAT_CMD_STOP : Z := 1.
Definition FFRT_STAT_CMD_GET : Z := 2.
Definition IPC_STAT_CMD_START : Z := 0.
Definition IPC_STAT_CMD_STOP : Z := 1.
Definition IPC_STAT_CMD_GET : Z := 2.
Definition IPC_STAT_CMD_MAX : Z := 3.

Definition IllegalInput (result : string) : string :=
  result +:+ "The arguments are illegal and you can enter '-h' for help." +:+ NL.

(** ** Lists of listeners *)

Definition ShowListenerHelp (result : string) : string :=
  result +:+ "SystemAbilityManager Listener Dump options:" +:+ NL
    +:+ "  [-h] [cmd]..." +:+ NL
    +:+ "cmd maybe one of:" +:+ NL
    +:+ "  -sa [said]: query sa listener infos." +:+ NL
    +:+ "  -p [pid]: query process listener infos." +:+ NL
    +:+ "  -l [-sa | -p]: query all sa listener infos by [sa | process]." +:+ NL.

Abbreviation Listeners := (gmap Z (list SAListener)).

(** [for (...) cnt[k]++]. *)
Definition countKeys (l : list Z) (cnt : gmap Z Z) : gmap Z Z :=
  foldl (λ m k, <[k := default 0 (m !! k) + 1]> m) cnt l.

(** The entries of a map of counts, in the order of its keys. *)
Definition showCounts (label : string) (cnt : gmap Z Z) (result : string) : string :=
  foldl (λ r k, r +:+ NL +:+ label +:+ to_string k +:+ ", cnt:" +:+ to_string (default 0 (cnt !! k)))
    result (sorted_keys Z.le cnt).

(** The entries of the map, in the order of its keys. *)
Definition inOrder (listeners : Listeners) : list (Z * list SAListener) :=
  (λ k, (k, default [] (listeners !! k))) <$> sorted_keys Z.le listeners.

(** The binder objects; [SubscribeSystemAbility] refuses a null listener. *)
Definition listenersOf (l : list SAListener) : gset RemoteObject :=
  list_to_set (omap (λ i, sc_AsObject <$> sal_listener i) l).

Definition dashes : string := "--------------------------------".
Definition stars : string := "********************************".

Definition showSA (said : Z) (l : list SAListener) (result : string) : string :=
  if bool_decide (l = []) then result
  else
    showCounts "callingPid:" (countKeys (sal_callingPid <$> l) ∅)
      (result +:+ NL +:+ NL +:+ dashes +:+ "SA:" +:+ to_string said +:+ ", SubCnt:"
         +:+ to_string (Z.of_nat (length l)) +:+ dashes).

Definition ShowAllBySA (listeners : Listeners) (result : string) : string :=
  let result := result +:+ stars +:+ "ShowAllBySA" +:+ stars in
  let result := foldl (λ r '(said, l), showSA said l r) result (inOrder listeners) in
  let listenerSet := foldl (λ s '(_, l), s ∪ listenersOf l) ∅ (inOrder listeners) in
  result +:+ NL +:+ dashes +:+ "TotalListenerCnt:" +:+ to_string (Z.of_nat (size listenerSet)) +:+ dashes
    +:+ NL +:+ "***************************************************************************" +:+ NL.

(** The subscriptions as pairs of an SA and a listener, in the order of the loop. *)
Definition subscriptions (listeners : Listeners) : list (Z * SAListener) :=
  inOrder listeners ≫= λ '(said, l), (said,.) <$> l.

Definition subscribeMap (listeners : Listeners) : gmap Z (list Z) :=
  foldl (λ m '(said, i), <[sal_callingPid i := default [] (m !! sal_callingPid i) ++ [said]]> m) ∅ (subscriptions listeners).
Definition pidListenerMap (listeners : Listeners) : gmap Z (gset RemoteObject) :=
  foldl (λ m '(_, i), <[sal_callingPid i := listenersOf [i] ∪ default ∅ (m !! sal_callingPid i)]> m)
    ∅ (subscriptions listeners).

Section dump.
Context `{E : Env}.

Definition ShowAllByCallingPid (listeners : Listeners) (result : string) : string :=
  let result := result +:+ stars +:+ "ShowAllByCallingPid" +:+ stars in
  let pids := pidListenerMap listeners in
  let vec := (λ k, (k, default ∅ (pids !! k))) <$> sorted_keys Z.le pids in
  let vec := std_sort (λ p1 p2 : Z * gset RemoteObject, (size p2.2 <? size p1.2)%nat) vec in
  let '(result, totalSum) := foldl (λ '(r, sum) '(callingPid, s),
    let r := r +:+ NL +:+ NL +:+ dashes +:+ "CallingPid:" +:+ to_string callingPid +:+ ", ListenerCnt:"
               +:+ to_string (Z.of_nat (size s)) +:+ dashes in
    (showCounts "SA:" (countKeys (default [] (subscribeMap listeners !! callingPid)) ∅) r, sum + Z.of_nat (size s)))
    (result, 0) vec in
  result +:+ NL +:+ dashes +:+ "TotalListenerCnt:" +:+ to_string totalSum +:+ dashes
    +:+ NL +:+ "***********************************************************************************" +:+ NL.

Definition ShowCallingPidBySA (listeners : Listeners) (said : Z) (result : string) : string :=
  let result := result +:+ stars +:+ "ShowCallingPidBySA" +:+ stars
                  +:+ NL +:+ dashes +:+ "SA:" +:+ to_string said +:+ dashes in
  let pidCnt := countKeys (sal_callingPid <$> default [] (listeners !! said)) ∅ in
  let totalSum := foldl (λ sum k, sum + default 0 (pidCnt !! k)) 0 (sorted_keys Z.le pidCnt) in
  showCounts "callingPid:" pidCnt result
    +:+ NL +:+ dashes +:+ "TotalSubCnt:" +:+ to_string totalSum +:+ dashes
    +:+ NL +:+ "**********************************************************************************" +:+ NL.

Definition ShowSAByCallingPid (listeners : Listeners) (callingPid : Z) (result : string) : string :=
  let result := result +:+ stars +:+ "ShowSAByCallingPid" +:+ stars
                  +:+ NL +:+ dashes +:+ "CallingPid:" +:+ to_string callingPid +:+ dashes in
  let own := filter (λ p, sal_callingPid p.2 = callingPid) (subscriptions listeners) in
  showCounts "SA:" (countKeys own.*1 ∅) result
    +:+ NL +:+ dashes +:+ "ListenerCnt:" +:+ to_string (Z.of_nat (size (listenersOf own.*2))) +:+ dashes
    +:+ NL +:+ "**********************************************************************************" +:+ NL.

Definition GetListenerDumpProc (listeners : Listeners) (args : list string) (result : string) : string :=
  match args with
  | [_; a] => if bool_decide (a = ARGS_HELP) then ShowListenerHelp result else IllegalInput result
  | [_; a; b] =>
      if bool_decide (a = ARGS_QUERY_ALL) && bool_decide (b = ARGS_QUERY_SA) then ShowAllBySA listeners result
      else if bool_decide (a = ARGS_QUERY_ALL) && bool_decide (b = ARGS_QUERY_PROCESS)
      then ShowAllByCallingPid listeners result
      else if bool_decide (a = ARGS_QUERY_SA) then ShowCallingPidBySA listeners (atoi b) result
      else if bool_decide (a = ARGS_QUERY_PROCESS) then ShowSAByCallingPid listeners (atoi b) result
      else IllegalInput result
  | _ => IllegalInput result
  end.

Definition CanDump : M bool :=
  accessToken ← gets (λ w, callingTokenID (w_caller w));
  tr ← gets w_trace;
  let '(result, processName) := env_GetNativeTokenInfo tr accessToken in
  mret ((result =? ERR_OK) && bool_decide (processName = HIDUMPER_PROCESS_NAME)).

Definition saveStringToFd (fd : Z) (result : string) : M bool :=
  ask env_SaveStringToFd (EvDump (SaveStringToFd fd result)).
Definition SaveDumpResultToFd (fd : Z) (result : string) : M Z :=
  ok ← saveStringToFd fd result; mret (if (ok : bool) then ERR_OK else SAVE_FD_FAIL).

Definition ListenerDumpProc (listeners : Listeners) (fd : Z) (args : list string) : M Z :=
  can ← CanDump;
  if negb can then mret ERR_PERMISSION_DENIED
  else SaveDumpResultToFd fd (GetListenerDumpProc listeners args "").

(** ** The ffrt statistics of the service's own process *)

Definition CLEAR_FFRT_STATISTICS : string := "ClearFfrtStatistics".

Definition ffrt_dump (c : FfrtDumpCmd) : M Z := ask env_ffrt_dump (EvDump (FfrtDump c)).

Definition ClearFfrtStatisticsBufferLocked : M unit :=
  updDump ffrtMetricBuffer (λ _, false);;
  b ← isHandler ffrtDumpHandler;
  when b (RemoveTask ffrtDumpHandler CLEAR_FFRT_STATISTICS).

(** The task of the timeout. *)
Definition ClearFfrtStatistics : M unit :=
  collecting ← getDump collectEnable;
  when collecting (_ ← ffrt_dump DUMP_STOP_STAT; updDump collectEnable (λ _, false));;
  ClearFfrtStatisticsBufferLocked.

Definition StartFfrtStatistics (result : string) : M (bool * string) :=
  collecting ← getDump collectEnable;
  if (collecting : bool) then mret (false, result +:+ "collect has been started" +:+ NL)
  else
    ClearFfrtStatisticsBufferLocked;;
    updDump ffrtMetricBuffer (λ _, true);;
    ret ← ffrt_dump DUMP_START_STAT;
    if negb (ret =? ERR_OK) then
      ClearFfrtStatisticsBufferLocked;; mret (false, result +:+ "collect start failed" +:+ NL)
    else
      updDump collectEnable (λ _, true);;
      b ← isHandler ffrtDumpHandler;
      when (negb b) (newFFRTHandler ffrtDumpHandler);;
      _ ← PostTaskNamed ffrtDumpHandler TClearFfrtStatistics CLEAR_FFRT_STATISTICS DUMP_DELAY_TIME;
      mret (true, result +:+ "collect start success" +:+ NL).

Definition StopFfrtStatistics (result : string) : M (bool * string) :=
  collecting ← getDump collectEnable;
  if negb collecting then mret (false, result +:+ "collect has not been started" +:+ NL)
  else
    updDump collectEnable (λ _, false);;
    ret ← ffrt_dump DUMP_STOP_STAT;
    if negb (ret =? ERR_OK) then
      ClearFfrtStatisticsBufferLocked;; mret (false, result +:+ "collect stop failed" +:+ NL)
    else mret (true, result +:+ "collect stop success" +:+ NL).

(** The local variables of [FfrtStatisticsParser]. *)
Record StatSums := MkStatSums { sumTime : Z; maxTime : Z; minTime : Z; statCount : Z; taskInfo : string }.

Definition addStat (a : StatSums) (s : FfrtStat) : StatSums :=
  if fs_endTime s <? fs_startTime s then a
  else
    let duration := fs_endTime s - fs_startTime s in
    MkStatSums (u64 (sumTime a + duration)) (maxTime a `max` duration) (minTime a `min` duration) (u64 (statCount a + 1))
      (taskInfo a +:+ fs_taskName s +:+ " " +:+ to_string (fs_startTime s) +:+ " " +:+ to_string (fs_endTime s) +:+ NL).

(** The entries of the buffer end with its size or with an empty name. *)
Fixpoint statLoop (l : list FfrtStat) (a : StatSums) : StatSums :=
  match l with
  | [] => a
  | s :: l' => if bool_decide (fs_taskName s = "") then a else statLoop l' (addStat a s)
  end.

Definition statLine : string := dashes +:+ dashes +:+ "---------------------------" +:+ NL.

Definition FfrtStatisticsParser (buffer : list FfrtStat) (result : string) : string :=
  let a := statLoop (take COLLECT_FFRT_METRIC_MAX_SIZE buffer) (MkStatSums 0 0 UINT64_MAX 0 "") in
  let minTime := if statCount a =? 0 then 0 else minTime a in
  let avgTime := if statCount a =? 0 then 0 else sumTime a / statCount a in
  result +:+ "sumTime:" +:+ to_string (sumTime a) +:+ " maxTime:" +:+ to_string (maxTime a)
    +:+ " minTime:" +:+ to_string minTime +:+ " avgTime:" +:+ to_string avgTime
    +:+ " cntTime:" +:+ to_string (statCount a) +:+ NL
    +:+ statLine +:+ "taskName                                                        startTime(us)   endTime(us)" +:+ NL
    +:+ statLine +:+ taskInfo a +:+ statLine.

Definition GetFfrtStatistics (result : string) : M (bool * string) :=
  collecting ← getDump collectEnable;
  if (collecting : bool) then mret (false, result +:+ "collect has not been stopped" +:+ NL)
  else
    buffer ← getDump ffrtMetricBuffer;
    if negb buffer then mret (false, result +:+ "info not collected" +:+ NL)
    else
      tr ← gets w_trace;
      let result := FfrtStatisticsParser (env_ffrt_stat tr) result in
      ClearFfrtStatisticsBufferLocked;;
      CleanFfrt ffrtDumpHandler;; dropHandler ffrtDumpHandler;;
      mret (true, result).

Definition CollectFfrtStatistics (cmd : Z) (result : string) : M (bool * string) :=
  let result := result +:+ "pid:" +:+ to_string env_getpid +:+ " " in
  if cmd =? FFRT_STAT_CMD_START then StartFfrtStatistics result
  else if cmd =? FFRT_STAT_CMD_STOP then StopFfrtStatistics result
  else if cmd =? FFRT_STAT_CMD_GET then GetFfrtStatistics result
  else mret (false, result).

(** *** The pids of a command *)

(** [s.find(sep)] for a separator of one character. *)
Fixpoint findSep (s : string) : option nat :=
  match s with
  | EmptyString => None
  | String c s' => if Ascii.eqb c (Ascii.ascii_of_nat 124) then Some 0%nat else S <$> findSep s'
  end.

(** The loop: [fuel] is the length of the text, which every round shortens. *)
Fixpoint ffrtPids (fuel : nat) (s : string) : list Z :=
  match fuel with
  | O => []
  | S fuel =>
      match findSep s with
      | None => []
      | Some pos =>
          let processIdStr := String.substring 0 pos s in
          let s' := String.substring (pos + 1) (String.length s - pos - 1) s in
          match StrToInt processIdStr with
          | Some processId => if 0 <? processId then processId :: ffrtPids fuel s' else ffrtPids fuel s'
          | None => ffrtPids fuel s'
          end
      end
  end.

Definition FfrtDumpParser (processIdsStr : string) : list Z :=
  let processIdsVecStr := processIdsStr +:+ ARGS_FFRT_SEPARATOR in
  ffrtPids (String.length processIdsVecStr) processIdsVecStr.

Definition FfrtStatCmdParser (arg : string) : option Z :=
  if bool_decide (arg = FFRT_STAT_STR_START) then Some FFRT_STAT_CMD_START
  else if bool_decide (arg = FFRT_STAT_STR_STOP) then Some FFRT_STAT_CMD_STOP
  else if bool_decide (arg = FFRT_STAT_STR_GET) then Some FFRT_STAT_CMD_GET
  else None.

(** *** The hosting processes *)

Definition GetProcByProcessId (processId : Z) : M (option RemoteObject) :=
  scheduler ← getM abilityStateScheduler_;
  if negb scheduler then emit EvNullDeref;; mret None
  else
    '(queryResult, processName) ← GetProcessNameByProcessId processId [];
    if negb (queryResult =? ERR_OK) then mret None else GetLocalAbilityManager processName.

Definition notFound (pid : Z) : string := "process " +:+ to_string pid +:+ " not found!" +:+ NL.

Definition CollectFfrtMetricInfoInProcs (fd : Z) (processIds : list Z) (cmd : Z) (result : string) : M string :=
  foldM processIds result (λ result pid,
    if pid =? env_getpid then '(_, result) ← CollectFfrtStatistics cmd result; mret result
    else
      obj ← GetProcByProcessId pid;
      match obj with
      | None => mret (result +:+ notFound pid)
      | Some obj => emit (EvDump (FfrtStatCmd obj fd cmd));; mret result
      end).

Definition GetFfrtLoadMetrics (fd : Z) (pidStr cmdStr : string) (result : string) : M string :=
  let processIds := FfrtDumpParser pidStr in
  if bool_decide (processIds = []) then mret (IllegalInput result)
  else
    match FfrtStatCmdParser cmdStr with
    | None => mret (IllegalInput result)
    | Some cmd => CollectFfrtMetricInfoInProcs fd processIds cmd result
    end.

Definition GetSAMgrFfrtInfo (result : string) : M string :=
  info ← ask env_ffrt_info (EvDump (FfrtDump DUMP_INFO_ALL));
  mret (if bool_decide (info = "") then result else result +:+ info +:+ NL).

Definition DumpFfrtInfoInProc (pid : Z) (result : string) : M string :=
  obj ← GetProcByProcessId pid;
  match obj with
  | None => mret (result +:+ notFound pid)
  | Some obj =>
      reply ← ask env_FfrtDumperProc (EvDump (FfrtDumper obj));
      mret (match reply with Some text => result +:+ text +:+ NL | None => result end)
  end.

Definition GetFfrtDumpInfoProc (pidStr : string) (result : string) : M string :=
  let processIds := FfrtDumpParser pidStr in
  if bool_decide (processIds = []) then mret (IllegalInput result)
  else foldM processIds result (λ result pid,
         if pid =? env_getpid then GetSAMgrFfrtInfo result else DumpFfrtInfoInProc pid result).

Definition FfrtDumpProc (fd : Z) (args : list string) : M Z :=
  can ← CanDump;
  if negb can then mret ERR_PERMISSION_DENIED
  else
    result ← match args with
             | _ :: pids :: rest =>
                 if bool_decide (pids = "") then mret (IllegalInput "")
                 else
                   match rest with
                   | [] => GetFfrtDumpInfoProc pids ""
                   | [cmd] => GetFfrtLoadMetrics fd pids cmd ""
                   | _ => mret (IllegalInput "")
                   end
             | _ => mret (IllegalInput "")
             end;
    SaveDumpResultToFd fd result.

(** ** The IPC statistics *)

(** [result = ...]: what was there before is lost. *)
Definition StartSamgrIpcStatistics : M (bool * string) :=
  ret ← ask env_IpcStatistics (EvDump (IpcStatistics true));
  mret (ret, "StartIpcStatistics pid:" +:+ to_string env_getpid +:+ if (ret : bool) then IPC_DUMP_SUCCESS else IPC_DUMP_FAIL).
Definition StopSamgrIpcStatistics : M (bool * string) :=
  ret ← ask env_IpcStatistics (EvDump (IpcStatistics false));
  mret (ret, "StopSamgrIpcStatistics pid:" +:+ to_string env_getpid +:+ if (ret : bool) then IPC_DUMP_SUCCESS else IPC_DUMP_FAIL).

Definition showInterface (s : IPCPayloadStatistics) (pid : Z) (result : string) (i : IPCInterfaceInfo) : string :=
  let cost := GetDescriptorCodeCost s pid i in
  result +:+ NL +:+ "~~~~~~~~~~~~~~~~~~~~~~~~~~~~~~~~InterfaceStatisticsInfo~~~~~~~~~~~~~~~~~~~~~~~~~~~~~"
    +:+ NL +:+ "DescriptorCode:" +:+ Str16ToStr8 (ipc_desc i) +:+ "_" +:+ to_string (ipc_code i)
    +:+ NL +:+ "DescriptorCodeCount:" +:+ to_string (GetDescriptorCodeCount s pid i)
    +:+ NL +:+ "DescriptorCodeTimeCost:"
    +:+ NL +:+ "Total:" +:+ to_string (totalCost cost) +:+ " | Max:" +:+ to_string (maxCost cost)
    +:+ " | Min:" +:+ to_string (minCost cost) +:+ " | Avg:" +:+ to_string (averCost cost)
    +:+ NL +:+ "~~~~~~~~~~~~~~~~~~~~~~~~~~~~~~~~~~~~~~~~~~~~~~~~~~~~~~~~~~~~~~~~~~~~~~~~~~~~~~~~~~~~".

Definition showPid (s : IPCPayloadStatistics) (result : string) (pid : Z) : string :=
  let result := result +:+ NL +:+ dashes +:+ "ProcessStatisticsInfo-------------------------------"
    +:+ NL +:+ "CallingPid:" +:+ to_string pid
    +:+ NL +:+ "CallingPidTotalCount:" +:+ to_string (GetCount s pid)
    +:+ NL +:+ "CallingPidTotalTimeCost:" +:+ to_string (GetCost s pid) in
  foldl (showInterface s pid) result (GetDescriptorCodes s pid)
    +:+ NL +:+ "------------------------------------------------------------------------------------".

Definition GetSamgrIpcStatistics (result : string) : M (bool * string) :=
  tr ← gets w_trace;
  let s := env_IPCPayloadStatistics tr in
  let result := result +:+ stars +:+ "GlobalStatisticsInfo" +:+ stars
    +:+ NL +:+ "CurrentPid:" +:+ to_string env_getpid
    +:+ NL +:+ "TotalCount:" +:+ to_string (GetTotalCount s)
    +:+ NL +:+ "TotalTimeCost:" +:+ to_string (GetTotalCost s) in
  mret (true, foldl (showPid s) result (GetPids s)
    +:+ NL +:+ "************************************************************************************" +:+ NL).

Definition IpcDumpIsAllProcess (processName : string) : bool := bool_decide (processName = IPC_STAT_STR_ALL).
Definition IpcDumpIsSamgr (processName : string) : bool := bool_decide (processName = IPC_STAT_STR_SAMGR).

Definition IpcDumpCmdParser (args : list string) : M (option Z) :=
  can ← CanDump;
  if negb can then mret None
  else mret (match args with
             | _ :: _ :: cmd :: _ =>
                 if bool_decide (cmd = IPC_STAT_STR_START) then Some IPC_STAT_CMD_START
                 else if bool_decide (cmd = IPC_STAT_STR_STOP) then Some IPC_STAT_CMD_STOP
                 else if bool_decide (cmd = IPC_STAT_STR_GET) then Some IPC_STAT_CMD_GET
                 else None
             | _ => None
             end).

(** ** Frames: a dump writes no member of a manager *)

Lemma ClearBuffer_rest : respects frame ClearFfrtStatisticsBufferLocked.
Proof. unfold ClearFfrtStatisticsBufferLocked, isHandler. solve_respects. Qed.
Lemma CanDump_rest : respects frame CanDump.
Proof. unfold CanDump. solve_respects. Qed.
Lemma saveStringToFd_rest fd r : respects frame (saveStringToFd fd r).
Proof. unfold saveStringToFd. solve_respects. Qed.
Lemma ffrt_dump_rest c : respects frame (ffrt_dump c).
Proof. unfold ffrt_dump. solve_respects. Qed.
Hint Resolve ClearBuffer_rest CanDump_rest saveStringToFd_rest ffrt_dump_rest : respects.
Lemma ClearFfrtStatistics_rest : respects frame ClearFfrtStatistics.
Proof. unfold ClearFfrtStatistics. solve_respects. Qed.
Lemma CollectFfrtStatistics_rest cmd r : respects frame (CollectFfrtStatistics cmd r).
Proof.
  unfold CollectFfrtStatistics, StartFfrtStatistics, StopFfrtStatistics, GetFfrtStatistics, isHandler. solve_respects.
Qed.
Lemma GetProcByProcessId_rest pid : respects frame (GetProcByProcessId pid).
Proof. unfold GetProcByProcessId, GetProcessNameByProcessId. solve_respects. Qed.
Hint Resolve CollectFfrtStatistics_rest GetProcByProcessId_rest : respects.
Lemma ListenerDumpProc_rest l fd args : respects frame (ListenerDumpProc l fd args).
Proof. unfold ListenerDumpProc, SaveDumpResultToFd. solve_respects. Qed.
Lemma FfrtDumpProc_rest fd args : respects frame (FfrtDumpProc fd args).
Proof.
  unfold FfrtDumpProc, GetFfrtDumpInfoProc, GetFfrtLoadMetrics, CollectFfrtMetricInfoInProcs, GetSAMgrFfrtInfo,
    DumpFfrtInfoInProc, SaveDumpResultToFd. solve_respects.
Qed.
Lemma IpcDumpCmdParser_rest args : respects frame (IpcDumpCmdParser args).
Proof. unfold IpcDumpCmdParser. solve_respects. Qed.
Lemma StartSamgrIpc_rest : respects frame StartSamgrIpcStatistics.
Proof. unfold StartSamgrIpcStatistics. solve_respects. Qed.
Lemma StopSamgrIpc_rest : respects frame StopSamgrIpcStatistics.
Proof. unfold StopSamgrIpcStatistics. solve_respects. Qed.
Lemma GetSamgrIpc_rest r : respects frame (GetSamgrIpcStatistics r).
Proof. unfold GetSamgrIpcStatistics. solve_respects. Qed.
End dump.

#[export] Hint Resolve CanDump_rest saveStringToFd_rest ClearFfrtStatistics_rest ListenerDumpProc_rest FfrtDumpProc_rest
  IpcDumpCmdParser_rest StartSamgrIpc_rest StopSamgrIpc_rest GetSamgrIpc_rest : respects.
