(* ===== verification/Manager.v ===== *)
(** [BaseSystemAbilityManager], the operations on top of the scheduler: SA and
    process registration, subscriptions, load and unload requests, load callbacks
    and death notices
    (services/samgr/native/source/{base_system_ability_manager,ability_death_recipient}.cpp).

    A null [abilityStateScheduler_] is a false flag; the scheduler's operations
    are run with the listener [L], the scheduler itself. *)
From S2P Require Import Prelude Types World Ffrt Util Contexts Interfaces ManagerBase StateMachine.
From S2P Require Import EventHandler Scheduler SchedulerQuery Subscribers CollectManager CollectFrame CollectTasks DBinder DumpStats.

Definition ADD_SYSTEM_ABILITY_TRANSACTION : Z := 3.
Definition REMOVE_SYSTEM_ABILITY_TRANSACTION : Z := 4.
Definition RESOURCE_SCHEDULE_PROCESS_NAME : string := "resource_schedule_service".
Definition DEVICE_INFO_SERVICE_SA : Z := 3902.
Definition HIDUMPER_SERVICE_SA : Z := 1212.
Definition MEDIA_ANALYSIS_SERVICE_SA : Z := 10120.

(** Listener of an item of [listenerMap_] for a binder object. *)
Definition isSAListener (obj : RemoteObject) (i : SAListener) : bool :=
  bool_decide (sc_AsObject <$> sal_listener i = Some obj).

Section manager.
Context `{E : Env}.
Context (L : option StateListener).

(** [if (abilityStateScheduler_ == nullptr) return d;]. *)
Definition withScheduler {A} (d : A) (m : M A) : M A :=
  s ← getM abilityStateScheduler_; if negb s then mret d else m.

(** ** Status listeners *)

(** [NotifySystemAbilityChanged]. *)
Definition NotifySystemAbilityChanged (said : Z) (dev : string) (code : Z) (listener : option StatusChange) : M unit :=
  match listener with
  | None => mret tt
  | Some l =>
      if code =? ADD_SYSTEM_ABILITY_TRANSACTION then emit (EvOnAddSystemAbility l said dev)
      else if code =? REMOVE_SYSTEM_ABILITY_TRANSACTION then emit (EvOnRemoveSystemAbility l said dev)
      else mret tt
  end.

(** [FindSystemAbilityNotify(systemAbilityId, deviceId, code)]. *)
Definition FindSystemAbilityNotify (said : Z) (dev : string) (code : Z) : M Z :=
  userId ← GetUserId;
  fg ← gets w_foreground;
  if SUPPORT_MULTI_INSTANCE && negb (userId =? BASE_USER) && negb (userId =? fg)
  then mret ERR_OK
  else
    m ← getM listenerMap_;
    match m !! said with
    | None => mret ERR_OK
    | Some listeners =>
        (if code =? ADD_SYSTEM_ABILITY_TRANSACTION then
           forM listeners (λ i, when (bool_decide (sal_state i = L_INIT))
                                  (NotifySystemAbilityChanged said dev code (sal_listener i)));;
           updM listenerMap_ (alter (fmap (λ i, i <| sal_state := L_NOTIFIED |>)) said)
         else if code =? REMOVE_SYSTEM_ABILITY_TRANSACTION then
           forM listeners (λ i, NotifySystemAbilityChanged said dev code (sal_listener i));;
           updM listenerMap_ (alter (fmap (λ i, i <| sal_state := L_INIT |>)) said)
         else mret tt);;
        mret ERR_OK
    end.

(** *** The overrides of [MultiSystemAbilityManager] *)

Definition MultiNotifySystemAbilityChanged (said : Z) (dev : string) (code : Z) (listener : option StatusChange) : M unit :=
  b ← ShouldNotifySubscriber said listener;
  if negb b then mret tt else NotifySystemAbilityChanged said dev code listener.

Definition MultiFindSystemAbilityNotify (said : Z) (dev : string) (code : Z) : M Z :=
  m ← getM listenerMap_;
  match m !! said with
  | None => mret ERR_OK
  | Some listeners =>
      (if code =? ADD_SYSTEM_ABILITY_TRANSACTION then
         forM listeners (λ i, when (bool_decide (sal_state i = L_INIT))
                                (MultiNotifySystemAbilityChanged said dev code (sal_listener i)));;
         updM listenerMap_ (alter (fmap (λ i, i <| sal_state := L_NOTIFIED |>)) said)
       else if code =? REMOVE_SYSTEM_ABILITY_TRANSACTION then
         forM listeners (λ i, MultiNotifySystemAbilityChanged said dev code (sal_listener i));;
         updM listenerMap_ (alter (fmap (λ i, i <| sal_state := L_INIT |>)) said)
       else mret tt);;
      mret ERR_OK
  end.

(** [override b m]: the virtual function whose base version is [b] and whose
    version in [MultiSystemAbilityManager] is [m]. *)
Definition override {A} (b m : M A) : M A :=
  k ← getM dynamicClass;
  match k with KMultiSystemAbilityManager => m | _ => b end.

Lemma override_respects {A} R `{!PreOrder R} (b m : M A) : respects R b → respects R m → respects R (override b m).
Proof. intros. unfold override. solve_respects. Qed.

Definition virtualNotifyChanged (said : Z) (dev : string) (code : Z) (l : option StatusChange) : M unit :=
  override (NotifySystemAbilityChanged said dev code l) (MultiNotifySystemAbilityChanged said dev code l).
Definition virtualFindNotify (said : Z) (dev : string) (code : Z) : M Z :=
  override (FindSystemAbilityNotify said dev code) (MultiFindSystemAbilityNotify said dev code).

Definition RefreshListenerState (said : Z) : M unit :=
  updM listenerMap_ (alter (fmap (λ i, i <| sal_state := L_INIT |>)) said).

Definition NotifySystemAbilityAddedByAsync (said : Z) (l : StatusChange) : M unit :=
  _ ← PostTask workHandler (TListenerNotify said l); mret tt.

Definition CheckListenerNotify (said : Z) (l : StatusChange) : M unit :=
  target ← CheckSystemAbility said;
  match target with
  | None => mret tt
  | Some _ =>
      updM listenerMap_ (map_touch said []);;
      m ← getM listenerMap_;
      match list_find (λ i, isSAListener (sc_AsObject l) i = true) (default [] (m !! said)) with
      | None => mret tt
      | Some (k, i) =>
          when (bool_decide (sal_state i = L_INIT)) (
            updM subscribeCountMap_ (map_touch (sal_callingPid i) 0);;
            NotifySystemAbilityAddedByAsync said l;;
            updM listenerMap_ (alter (alter (λ i, i <| sal_state := L_NOTIFIED |>) k) said))
      end
  end.

Definition SubscribeSystemAbilityInner (said : Z) (listener : option StatusChange) (callPid : Z) : M Z :=
  match listener with
  | None => mret ERR_INVALID_VALUE
  | Some l =>
      if negb (CheckInputSysAbilityId said) then mret ERR_INVALID_VALUE
      else
        updM listenerMap_ (map_touch said []);;
        m ← getM listenerMap_;
        if existsb (isSAListener (sc_AsObject l)) (default [] (m !! said)) then mret ERR_OK
        else
          updM subscribeCountMap_ (map_touch callPid 0);;
          cm ← getM subscribeCountMap_;
          let count := default 0 (cm !! callPid) in
          if MAX_SUBSCRIBE_COUNT <=? count then mret ERR_PERMISSION_DENIED
          else
            updM subscribeCountMap_ <[callPid := count + 1]>;;
            dr ← getM abilityStatusDeath_;
            when dr (
              AddDeathRecipient AbilityStatusDeath (sc_AsObject l);;
              updM listenerMap_ (alter (λ ls, ls ++ [MkSAListener (Some l) callPid L_INIT]) said));;
            CheckListenerNotify said l;;
            mret ERR_OK
  end.

Definition SubscribeSystemAbility (said : Z) (listener : option StatusChange) : M Z :=
  callPid ← GetCallingPid; SubscribeSystemAbilityInner said listener callPid.

(** Position of the item to remove: [None] when there is none, or when a null
    listener comes first. *)
Fixpoint findListener (obj : RemoteObject) (l : list SAListener) : option (nat * SAListener) :=
  match l with
  | [] => None
  | i :: l' =>
      match sal_listener i with
      | None => None
      | Some sc =>
          if bool_decide (sc_AsObject sc = obj) then Some (O, i)
          else prod_map S id <$> findListener obj l'
      end
  end.

(** [UnSubscribeSystemAbilityLocked(listenerMap_[said], listener)]. *)
Definition UnSubscribeSystemAbilityLocked (said : Z) (obj : RemoteObject) : M unit :=
  m ← getM listenerMap_;
  match findListener obj (default [] (m !! said)) with
  | None => mret tt
  | Some (k, i) =>
      cm ← getM subscribeCountMap_;
      match cm !! sal_callingPid i with
      | None => mret tt
      | Some n => if n - 1 =? 0 then updM subscribeCountMap_ (delete (sal_callingPid i))
                  else updM subscribeCountMap_ <[sal_callingPid i := n - 1]>
      end;;
      updM listenerMap_ (alter (delete k) said)
  end.

Definition UnSubscribeSystemAbility (said : Z) (listener : option StatusChange) : M Z :=
  match listener with
  | None => mret ERR_INVALID_VALUE
  | Some l =>
      if negb (CheckInputSysAbilityId said) then mret ERR_INVALID_VALUE
      else
        updM listenerMap_ (map_touch said []);;
        UnSubscribeSystemAbilityLocked said (sc_AsObject l);;
        dr ← getM abilityStatusDeath_;
        when dr (RemoveDeathRecipient AbilityStatusDeath (sc_AsObject l));;
        mret ERR_OK
  end.

(** [UnSubscribeSystemAbility(remoteObject)]: the listener's process died. *)
Definition UnSubscribeSystemAbilityRemote (obj : RemoteObject) : M unit :=
  m ← getM listenerMap_;
  forM (sorted_keys Z.le m) (λ said, UnSubscribeSystemAbilityLocked said obj);;
  dr ← getM abilityStatusDeath_;
  when dr (RemoveDeathRecipient AbilityStatusDeath obj).

Definition MultiUnSubscribeSystemAbilityRemote (obj : RemoteObject) : M unit :=
  UnSubscribeSystemAbilityRemote obj;; dropSubscriber obj.

Definition virtualUnSubscribeRemote (obj : RemoteObject) : M unit :=
  override (UnSubscribeSystemAbilityRemote obj) (MultiUnSubscribeSystemAbilityRemote obj).

(** The same call with a null pointer: the override tests it, the base version
    goes on to [remoteObject->RemoveDeathRecipient]. *)
Definition virtualUnSubscribeNull : M unit :=
  k ← getM dynamicClass;
  dr ← getM abilityStatusDeath_;
  match k with
  | KMultiSystemAbilityManager => mret tt
  | _ => when dr (emit EvNullDeref)
  end.

Definition AsyncUnSubscribeSystemAbility (remote : option RemoteObject) : M unit :=
  match remote with
  | None => mret tt
  | Some obj =>
      h ← getH deathHandler;
      match h with
      | None => virtualUnSubscribeRemote obj
      | Some _ =>
          r ← PostTask deathHandler (TUnSubscribe obj);
          when (negb r) (virtualUnSubscribeRemote obj)
      end
  end.

(** ** Load callbacks *)

(** [NotifySystemAbilityLoaded(systemAbilityId, remoteObject, callback)]. *)
Definition NotifyLoadedCallback (said : Z) (obj : RemoteObject) (cb : option LoadCallback) : M unit :=
  match cb with None => mret tt | Some c => emit (EvOnLoadSuccess c said obj) end.

Definition NotifySystemAbilityLoadFail (said : Z) (cb : option LoadCallback) (err : Z) : M unit :=
  match cb with None => mret tt | Some c => emit (EvOnLoadFail c said err) end.

Definition RemoveStartingAbilityCallbackLocked (item : LoadCallback * Z) : M unit :=
  dr ← getM abilityCallbackDeath_;
  when dr (RemoveDeathRecipient AbilityCallbackDeath (cb_AsObject item.1));;
  m ← getM callbackCountMap_;
  match m !! item.2 with
  | None => mret tt
  | Some n => if n - 1 =? 0 then updM callbackCountMap_ (delete item.2)
              else updM callbackCountMap_ <[item.2 := n - 1]>
  end.

(** The callbacks of a starting SA in the order the nested loops visit them. *)
Definition callbacksInOrder (i : AbilityItem) : CallbackList :=
  sorted_keys str_le (callbackMap i) ≫= λ dev, default [] (callbackMap i !! dev).

(** [NotifySystemAbilityLoaded(systemAbilityId, remoteObject)]. *)
Definition NotifySystemAbilityLoaded (said : Z) (obj : RemoteObject) : M unit :=
  m ← getM startingAbilityMap_;
  match m !! said with
  | None => mret tt
  | Some item =>
      forM (callbacksInOrder item) (λ c,
        NotifyLoadedCallback said obj (Some c.1);; RemoveStartingAbilityCallbackLocked c);;
      updM startingAbilityMap_ (delete said)
  end.

(** [OnStartSystemAbilityFail] for an SA that is not registered. *)
Definition failStart (said : Z) (errCode : Z) : M Z :=
  profile ← GetSaProfile said;
  match profile with
  | None => mret ERR_INVALID_VALUE
  | Some p =>
      callPid ← GetCallingPid;
      tr ← gets w_trace;
      if negb (bool_decide (Str16ToStr8 (c_process p) = GetProcessNameFromCmdline tr callPid))
      then mret INVALID_CALL_PROC
      else
        updM onDemandAbilityMap_ (map_touch said (c_process p));;
        m ← getM startingAbilityMap_;
        match m !! said with
        | None => mret ERR_OK
        | Some item =>
            RemoveCheckLoadedMsg said;;
            forM (callbacksInOrder item) (λ c,
              NotifySystemAbilityLoadFail said (Some c.1) errCode;; RemoveStartingAbilityCallbackLocked c);;
            updM startingAbilityMap_ (delete said);;
            mret ERR_OK
        end
  end.

Definition OnStartSystemAbilityFail (said : Z) (errCode : Z) : M Z :=
  target ← CheckSystemAbility said;
  match target with
  | Some _ => mret ERR_OK
  | None => failStart said errCode
  end.

(** [abilityItem.callbackMap.erase(srcDeviceId)] when its list is empty, then
    [startingAbilityMap_.erase(iter)] when no device is left. *)
Definition dropDevice (dev : string) (i : AbilityItem) : AbilityItem :=
  if bool_decide (default [] (callbackMap i !! dev) = []) then i <| callbackMap ::= delete dev |> else i.

Definition dropItem (said : Z) (m : gmap Z AbilityItem) : gmap Z AbilityItem :=
  match m !! said with
  | Some i => if bool_decide (callbackMap i = ∅) then delete said m else m
  | None => m
  end.

Definition CleanCallbackForLoadFailed (said : Z) (pn : u16string) (dev : string) (cb : LoadCallback) : M unit :=
  updM startingProcessMap_ (delete pn);;
  m ← getM startingAbilityMap_;
  match m !! said with
  | None => mret tt
  | Some _ =>
      updM startingAbilityMap_ (alter (λ i, i <| callbackMap ::= map_touch dev [] |>) said);;
      m ← getM startingAbilityMap_;
      wh ← getH workHandler;
      match list_find (λ c, cb_AsObject cb = cb_AsObject c.1) (callbacksOf m said dev), wh with
      | Some _, None => mret tt
      | found, _ =>
          match found with
          | None => mret tt
          | Some (_, c) =>
              _ ← PostTask workHandler (TNotifyLoadFail said c.1);
              RemoveStartingAbilityCallbackLocked c;;
              updM startingAbilityMap_
                (alter (λ i, i <| callbackMap ::= alter (filter (λ c', c' ≠ c)) dev |>) said)
          end;;
          updM startingAbilityMap_ (alter (dropDevice dev) said);;
          updM startingAbilityMap_ (dropItem said)
      end
  end.

(** [RemoveStartingAbilityCallback(callbackMap[dev], remoteObject)]. *)
Definition RemoveStartingAbilityCallback (said : Z) (dev : string) (obj : RemoteObject) : M unit :=
  m ← getM startingAbilityMap_;
  match list_find (λ c, cb_AsObject c.1 = obj) (callbacksOf m said dev) with
  | None => mret tt
  | Some (k, c) =>
      RemoveStartingAbilityCallbackLocked c;;
      updM startingAbilityMap_ (alter (λ i, i <| callbackMap ::= alter (delete k) dev |>) said)
  end.

Definition RemoveStartingAbilityCallbackForDevice (said : Z) (obj : RemoteObject) : M unit :=
  m ← getM startingAbilityMap_;
  forM (sorted_keys str_le (match m !! said with Some i => callbackMap i | None => ∅ end)) (λ dev,
    RemoveStartingAbilityCallback said dev obj;;
    updM startingAbilityMap_ (alter (dropDevice dev) said)).

Definition OnAbilityCallbackDied (remote : option RemoteObject) : M unit :=
  match remote with
  | None => mret tt
  | Some obj =>
      m ← getM startingAbilityMap_;
      forM (sorted_keys Z.le m) (λ said,
        RemoveStartingAbilityCallbackForDevice said obj;;
        updM startingAbilityMap_ (dropItem said))
  end.

(** [RemoveRemoteCallbackLocked(remoteCallbacks_[dev], remoteObject)]. *)
Definition RemoveRemoteCallbackLocked (dev : string) (obj : RemoteObject) : M unit :=
  m ← getM remoteCallbacks_;
  match list_find (λ c, cb_AsObject c = obj) (default [] (m !! dev)) with
  | None => mret tt
  | Some (_, c) =>
      dr ← getM remoteCallbackDeath_;
      when dr (RemoveDeathRecipient RemoteCallbackDeath obj);;
      updM remoteCallbacks_ (alter (filter (λ c', cb_ptr c' ≠ cb_ptr c)) dev)
  end.

Definition OnRemoteCallbackDied (remote : option RemoteObject) : M unit :=
  match remote with
  | None => mret tt
  | Some obj =>
      m ← getM remoteCallbacks_;
      forM (sorted_keys str_le m) (λ dev,
        RemoveRemoteCallbackLocked dev obj;;
        updM remoteCallbacks_ (λ m, if bool_decide (default [] (m !! dev) = []) then delete dev m else m))
  end.

(** ** Registering SAs *)

Definition SystemAbilityInvalidateCache (said : Z) : M unit :=
  s ← getM onDemandSaIdsSet_;
  if bool_decide (said ∈ s) then mret tt else InvalidateSACache.

(** [OnSystemAbilityRegistered]: the derived class registers a remote proxy. *)
Definition OnSystemAbilityRegistered (said : Z) (dist : bool) : M unit :=
  k ← getM dynamicClass;
  match k with
  | KSystemAbilityManager => RegisterDistribute said dist
  | _ => mret tt
  end.

Definition ClearSaExtraDataId (said : Z) : M unit :=
  b ← IsCacheCommonEvent said;
  c ← getM collectManager_;
  when (b && c) (CollectClearSaExtraDataId said).

Definition AddSystemAbility (said : Z) (ability : option RemoteObject) (extraProp : SAExtraProp) : M Z :=
  match ability with
  | None => mret ERR_INVALID_VALUE
  | Some obj =>
      if negb (CheckInputSysAbilityId said) then mret ERR_INVALID_VALUE
      else
        RefreshListenerState said;;
        dist ← IsDistributedSystemAbility said;
        if negb (eqb (isDistributed extraProp) dist) then mret ERR_INVALID_VALUE
        else
          m ← getM abilityMap_;
          if MAX_SERVICES <=? Z.of_nat (size m) then mret ERR_INVALID_VALUE
          else
            when (bool_decide (is_Some (m !! said)))
              (SystemAbilityInvalidateCache said;; SendSystemAbilityRemovedMsg said);;
            updM abilityMap_ <[said := MkSAInfo (Some obj) (isDistributed extraProp)]>;;
            RemoveCheckLoadedMsg said;;
            OnSystemAbilityRegistered said (isDistributed extraProp);;
            dr ← getM abilityDeath_;
            when dr (AddDeathRecipient AbilityDeath obj);;
            withScheduler ERR_INVALID_VALUE (
              UpdateLimitDelayUnloadTime said;;
              _ ← SendAbilityStateEvent L said ABILITY_LOAD_SUCCESS_EVENT;
              SendSystemAbilityAddedMsg said obj;;
              mret ERR_OK)
  end.

Definition RemoveSystemAbility (said : Z) : M Z :=
  if negb (CheckInputSysAbilityId said) then mret ERR_INVALID_VALUE
  else
    m ← getM abilityMap_;
    match m !! said with
    | None => mret ERR_INVALID_VALUE
    | Some info =>
        dr ← getM abilityDeath_;
        match remoteObj info with
        | Some obj => when dr (RemoveDeathRecipient AbilityDeath obj)
        | None => mret tt
        end;;
        updM abilityMap_ (delete said);;
        withScheduler ERR_INVALID_VALUE (
          SystemAbilityInvalidateCache said;;
          _ ← SendAbilityStateEvent L said ABILITY_UNLOAD_SUCCESS_EVENT;
          SendSystemAbilityRemovedMsg said;;
          ClearSaExtraDataId said;;
          mret ERR_OK)
    end.

(** [RemoveSystemAbility(ability)]: the SA's object died. *)
Definition RemoveSystemAbilityRemote (ability : option RemoteObject) : M Z :=
  match ability with
  | None => mret ERR_INVALID_VALUE
  | Some obj =>
      m ← getM abilityMap_;
      saId ←
        match list_find (λ k, (m !! k ≫= remoteObj) = Some obj) (sorted_keys Z.le m) with
        | None => mret 0
        | Some (_, k) =>
            updM abilityMap_ (delete k);;
            dr ← getM abilityDeath_;
            when dr (RemoveDeathRecipient AbilityDeath obj);;
            mret k
        end;
      if saId =? 0 then mret ERR_OK
      else
        SystemAbilityInvalidateCache saId;;
        ClearSaExtraDataId saId;;
        emit (EvReport (ReportSaCrash saId));;
        withScheduler ERR_INVALID_VALUE (
          _ ← HandleAbilityDiedEvent saId;
          SendSystemAbilityRemovedMsg saId;;
          mret ERR_OK)
  end.

(** [CheckSystemAbility(systemAbilityId, isExist)]: the object and [isExist]. *)
Definition CheckSystemAbilityExist (said : Z) (isExist : bool) : M (option RemoteObject * bool) :=
  if negb (CheckInputSysAbilityId said) then mret (None, isExist)
  else
    withScheduler (None, isExist) (
      unloading ← IsSystemAbilityUnloading said;
      if (unloading : bool) then mret (None, isExist)
      else
        proxy ← CheckSystemAbility said;
        match proxy with
        | None => '(_, isExist) ← HandleLoadAbilityEventById L said isExist; mret (None, isExist)
        | Some obj => mret (Some obj, true)
        end).

Definition ListSystemAbilities : M (list u16string) :=
  m ← getM abilityMap_; mret ((λ k, Str8ToStr16 (to_string k)) <$> sorted_keys Z.le m).

Definition AddOnDemandSystemAbilityInfo (said : Z) (pn : u16string) : M Z :=
  if negb (CheckInputSysAbilityId said) || IsNameInValid pn then mret ERR_INVALID_VALUE
  else
    m ← getM onDemandAbilityMap_;
    if MAX_SERVICES <=? Z.of_nat (size m) then mret ERR_INVALID_VALUE
    else
      pm ← getM systemProcessMap_;
      match pm !! pn with
      | None => mret ERR_INVALID_VALUE
      | Some _ =>
          updM onDemandAbilityMap_ <[said := pn]>;;
          sm ← getM startingAbilityMap_;
          when (bool_decide (is_Some (sm !! said)))
            (_ ← PostTask workHandler (TStartOnDemandAbility pn said); mret tt);;
          mret ERR_OK
      end.

(** ** Registering processes *)

Definition AddSystemProcess (pn : u16string) (procObject : option RemoteObject) : M Z :=
  match procObject with
  | None => mret ERR_INVALID_VALUE
  | Some obj =>
      if bool_decide (pn = []) then mret ERR_INVALID_VALUE
      else
        m ← getM systemProcessMap_;
        if MAX_SERVICES <=? Z.of_nat (size m) then mret ERR_INVALID_VALUE
        else
          updM systemProcessMap_ <[pn := obj]>;;
          dr ← getM systemProcessDeath_;
          when dr (AddDeathRecipient SystemProcessDeath obj);;
          sm ← getM startingProcessMap_;
          duration ←
            match sm !! pn with
            | None => mret 0
            | Some info =>
                t ← GetTickCount; updM startingProcessMap_ (delete pn);; mret (t - stp_begin info)
            end;
          callPid ← GetCallingPid;
          callUid ← GetCallingUid;
          emit (EvReport (ReportProcessStartDuration (Str16ToStr8 pn) callPid callUid duration (sm !! pn)));;
          withScheduler ERR_INVALID_VALUE (
            _ ← SendProcessStateEvent L (MkProcessInfo pn callPid callUid) PROCESS_STARTED_EVENT;
            mret ERR_OK)
  end.

Definition RemoveSystemProcess (procObject : option RemoteObject) : M Z :=
  match procObject with
  | None => mret ERR_INVALID_VALUE
  | Some obj =>
      dr ← getM systemProcessDeath_;
      when dr (RemoveDeathRecipient SystemProcessDeath obj);;
      m ← getM systemProcessMap_;
      match list_find (λ k, m !! k = Some obj) (sorted_keys u16_le m) with
      | None => mret ERR_INVALID_VALUE
      | Some (_, pn) =>
          updM systemProcessMap_ (delete pn);;
          withScheduler ERR_INVALID_VALUE (
            _ ← SendProcessStateEvent L (MkProcessInfo pn (-1) (-1)) PROCESS_STOPPED_EVENT;
            mret ERR_OK)
      end
  end.

Definition GetLocalAbilityManagerProxy (said : Z) : M (option RemoteObject) :=
  p ← GetSaProfile said;
  match p with None => mret None | Some p => GetSystemProcess (c_process p) end.

(** [ProcessPendingLoadOverflow], the scheduler's recovery of a process that does
    not finish stopping. *)
Definition ProcessPendingLoadOverflow (said : Z) (pn : u16string) : M unit :=
  alive ← lockManager;
  if negb alive then mret tt
  else
    p ← derefP pn;
    if negb (bool_decide (p_state p = STOPPING)) then mret tt
    else
      storeA said (λ a, a <| pendingLoadEventList := [] |> <| pendingLoadEventCountMap := ∅ |>);;
      storeP pn (λ p, p <| pendingLoadFirstTimestamp := 0 |>);;
      started ← CheckProcessStarted (processName p);
      if (started : bool) then _ ← ServiceControl (Str16ToStr8 (processName p)) SA_STOP; mret tt
      else
        obj ← GetSystemProcess (processName p);
        match obj with
        | None => mret tt
        | Some o => _ ← RemoveSystemProcess (Some o); mret tt
        end.

(** ** Requests *)

Definition LoadSystemAbility (said : Z) (callback : option LoadCallback) : M Z :=
  match callback with
  | None => mret INVALID_INPUT_PARA
  | Some cb =>
      if negb (CheckInputSysAbilityId said) then mret INVALID_INPUT_PARA
      else
        p ← GetSaProfile said;
        match p with
        | None => mret PROFILE_NOT_EXIST
        | Some _ =>
            callPid ← GetCallingPid;
            withScheduler STATE_SCHEDULER_NULL
              (HandleLoadAbilityEvent L
                 (MkLoadRequest LOCAL_DEVICE (Some cb) said callPid (mkEvent INTERFACE_CALL "load" "")))
        end
  end.

(** [SystemAbilityManager::LoadSystemAbilityFromRpc]
    (services/samgr/native/source/system_ability_manager.cpp). *)
Definition LoadSystemAbilityFromRpc (dev : string) (said : Z) (callback : option LoadCallback) : M bool :=
  match callback with
  | None => mret false
  | Some cb =>
      if negb (CheckInputSysAbilityId said) then mret false
      else
        dist ← IsDistributedSystemAbility said;
        if negb dist then mret false
        else
          withScheduler false (
            r ← HandleLoadAbilityEvent L
                  (MkLoadRequest dev (Some cb) said (-1) (mkEvent INTERFACE_CALL "loadFromRpc" ""));
            mret (r =? ERR_OK))
  end.

Definition UnloadSystemAbility (said : Z) : M Z :=
  p ← GetSaProfile said;
  match p with
  | None => mret PROFILE_NOT_EXIST
  | Some p =>
      ok ← CheckCallerProcess p;
      if negb ok then mret INVALID_CALL_PROC
      else
        withScheduler STATE_SCHEDULER_NULL (
          callPid ← GetCallingPid;
          HandleUnloadAbilityEvent L (Some (MkUnloadRequest (mkEvent INTERFACE_CALL "unload" "") said callPid)))
  end.

Definition CancelUnloadSystemAbility (said : Z) : M Z :=
  if negb (CheckInputSysAbilityId said) then mret ERR_INVALID_VALUE
  else
    p ← GetSaProfile said;
    match p with
    | None => mret ERR_INVALID_VALUE
    | Some p =>
        ok ← CheckCallerProcess p;
        if negb ok then mret ERR_INVALID_VALUE
        else withScheduler ERR_INVALID_VALUE (HandleCancelUnloadAbilityEvent L said)
    end.

(** [BaseSystemAbilityManager::UnloadAllIdleSystemAbility] and [UnloadProcess]. *)
Definition ManagerUnloadAllIdle : M Z :=
  ok ← CheckCallerProcessName "memmgrservice";
  if negb ok then mret ERR_PERMISSION_DENIED
  else withScheduler ERR_INVALID_VALUE (UnloadAllIdleSystemAbility L).
Definition ManagerUnloadProcess (l : list u16string) : M Z :=
  withScheduler ERR_INVALID_VALUE (UnloadProcess L l).

Definition ProcessOnDemandEvent (event : OnDemandEvent) (l : list SaControlInfo) : M unit :=
  c ← getM collectManager_;
  when c (CollectSaveExtraId event l);;
  withScheduler tt (CheckEnableOnce L event l).

(** *** Idle processes, least recently idle first *)

Definition idle_le (a b : IdleProcessInfo) : Prop := ipi_lastIdleTime a ≤ ipi_lastIdleTime b.
#[local] Instance idle_le_dec : RelDecision idle_le := λ a b, Z.le_dec _ _.

Definition keepLatest (m : gmap u16string IdleProcessInfo) (info : IdleProcessInfo) : gmap u16string IdleProcessInfo :=
  match m !! ipi_processName info with
  | None => <[ipi_processName info := info]> m
  | Some old => if ipi_lastIdleTime old <? ipi_lastIdleTime info then <[ipi_processName info := info]> m else m
  end.

(** [std::sort] leaves the order of equal times open; a stable sort is one of its outcomes. *)
Definition GetLruIdleSystemAbilityProc : M (Z * list IdleProcessInfo) :=
  c ← getM collectManager_;
  s ← getM abilityStateScheduler_;
  if negb c || negb s then mret (ERR_INVALID_VALUE, [])
  else
    listed ← GetLowMemPrepareList;
    procInfos ← foldM listed ∅ (λ m said,
      o ← GetIdleProcessInfo said;
      mret (match o with Some info => keepLatest m info | None => m end));
    l ← foldM (sorted_keys u16_le procInfos) [] (λ acc pn,
      b ← IsSystemProcessCanUnload pn;
      mret (if (b : bool) then acc ++ option_list (procInfos !! pn) else acc));
    mret (ERR_OK, merge_sort idle_le l).

(** ** Queries *)

Definition GetOnDemandSystemAbilityIds : M (Z * list Z) :=
  s ← getM onDemandSaIdsSet_;
  mret (if bool_decide (s = ∅) then (ERR_INVALID_VALUE, []) else (ERR_OK, merge_sort Z.le (elements s))).

(** The profiles that have an extension, in the order of their ids. *)
Definition extensionProfiles (extension : string) (m : gmap Z CommonSaProfile) : list (Z * CommonSaProfile) :=
  omap (λ k, match m !! k with
             | Some p => if bool_decide (extension ∈ c_extension p) then Some (k, p) else None
             | None => None
             end) (sorted_keys Z.le m).

Definition GetExtensionSaIds (extension : string) : M (Z * list Z) :=
  m ← getM saProfileMap_; mret (ERR_OK, fst <$> extensionProfiles extension m).

Definition GetExtensionRunningSaList (extension : string) : M (Z * list RemoteObject) :=
  m ← getM saProfileMap_;
  am ← getM abilityMap_;
  mret (ERR_OK, omap (λ kp, am !! kp.1 ≫= remoteObj) (extensionProfiles extension m)).

Definition GetRunningSaExtensionInfoList (extension : string) : M (Z * list (Z * RemoteObject)) :=
  m ← getM saProfileMap_;
  am ← getM abilityMap_;
  l ← foldM (extensionProfiles extension m) [] (λ acc kp,
    proc ← GetSystemProcess (c_process kp.2);
    mret (match proc, am !! kp.1 ≫= remoteObj with
          | Some obj, Some _ => acc ++ [(kp.1, obj)]
          | _, _ => acc
          end));
  mret (ERR_OK, l).

Fixpoint SendStrategyLoop (type level : Z) (action : string) (l : list Z) : M Z :=
  match l with
  | [] => mret ERR_OK
  | said :: l' =>
      p ← GetSaProfile said;
      match p with
      | None => mret ERR_INVALID_VALUE
      | Some p =>
          proc ← GetLocalAbilityManager (c_process p);
          match proc with
          | None => mret ERR_INVALID_VALUE
          | Some o => emit (EvSendStrategy o type said level action);; SendStrategyLoop type level action l'
          end
      end
  end.

Definition SendStrategy (type : Z) (l : list Z) (level : Z) (action : string) : M Z :=
  ok ← CheckCallerProcessName RESOURCE_SCHEDULE_PROCESS_NAME;
  if negb ok then mret ERR_PERMISSION_DENIED else SendStrategyLoop type level action l.

(** The forwarding members: the scheduler's answer, or an error without one. *)
Definition ManagerGetSystemProcessInfo (said : Z) (out : SystemProcessInfo) : M (Z * SystemProcessInfo) :=
  withScheduler (ERR_INVALID_VALUE, out) (GetSystemProcessInfo said out).
Definition ManagerGetRunningSystemProcess : M (Z * list SystemProcessInfo) :=
  withScheduler (ERR_INVALID_VALUE, []) GetRunningSystemProcess.
Definition ManagerSubscribeSystemProcess (l : option ProcessStatusChange) : M Z :=
  withScheduler ERR_INVALID_VALUE (SubscribeSystemProcess l false).
Definition ManagerUnSubscribeSystemProcess (l : option ProcessStatusChange) : M Z :=
  withScheduler ERR_INVALID_VALUE (UnSubscribeSystemProcess l false).
Definition ManagerUnSubscribeSystemProcessRemote (obj : option RemoteObject) : M unit :=
  withScheduler tt (UnSubscribeSystemProcessRemote obj).
Definition ManagerSubscribeLowMem (l : option ProcessStatusChange) : M Z :=
  withScheduler ERR_INVALID_VALUE (SubscribeLowMemSystemProcess l).
Definition ManagerUnSubscribeLowMem (l : option ProcessStatusChange) : M Z :=
  withScheduler ERR_INVALID_VALUE (UnSubscribeLowMemSystemProcess l).

(** ** Timeouts and tasks *)

(** The task of [SendCheckLoadedMsg]. *)
Definition checkLoadedTask (said : Z) (pn : u16string) (dev : string) (cb : LoadCallback) : M unit :=
  DelTask workHandler (to_string said);;
  target ← CheckSystemAbility said;
  match target with
  | Some _ => mret tt
  | None =>
      CleanCallbackForLoadFailed said pn dev cb;;
      withScheduler tt (
        callPid ← GetCallingPid;
        callUid ← GetCallingUid;
        emit (EvReport (ReportSamgrSaLoadFail said callPid callUid "time out"));;
        SendUpdateSaState said "loadfail";;
        ClearSaExtraDataId said;;
        _ ← SendAbilityStateEvent L said ABILITY_LOAD_FAILED_EVENT;
        _ ← GetSystemProcess pn;
        mret tt)
  end.

(** [weakThis.lock()] of the manager's tasks. *)
Definition ifAlive (m : M unit) : M unit := alive ← lockManager; when alive m.

(** [weak.lock()] of the scheduler's tasks: the manager owns the scheduler. *)
Definition ifScheduler (m : M unit) : M unit := withScheduler tt m.

(** What a task of a queue does when it runs. The last four are closures over the service
    object or its user lifecycle manager, which have no counterpart in a manager
    alone: [runServiceTask] (Samgr.v) runs them. *)
Definition runTask (t : Task) : M unit :=
  match t with
  | TUpdateDelayUnloadTime said => ifScheduler (UpdateLimitDelayUnloadTimeTask said)
  | TPendingLoadOverflow said pn => ifScheduler (ProcessPendingLoadOverflow said pn)
  | TTryUnloadAll pn => ifScheduler (_ ← TryUnloadAllSystemAbility L (Some pn); mret tt)
  | TUnloadTimeout pn => ifScheduler (timeoutTask pn)
  | TTryKillProcess pn => ifScheduler (_ ← TryKillSystemProcess (Some pn); mret tt)
  | TPendingUnload said => ifScheduler (pendingUnloadTask L said)
  | TProcessUnloadEvent evId => ifScheduler (ProcessEvent L evId)
  | TStartOnDemandAbility pn said => ifAlive (StartOnDemandAbilityByName pn said)
  | TListenerNotify said l => ifAlive (virtualNotifyChanged said "" ADD_SYSTEM_ABILITY_TRANSACTION (Some l))
  | TUnSubscribe obj => ifAlive (virtualUnSubscribeRemote obj)
  | TNotifyAdded said obj =>
      ifAlive (_ ← virtualFindNotify said "" ADD_SYSTEM_ABILITY_TRANSACTION; NotifySystemAbilityLoaded said obj)
  | TNotifyRemoved said => ifAlive (_ ← virtualFindNotify said "" REMOVE_SYSTEM_ABILITY_TRANSACTION; mret tt)
  | TCheckLoaded said pn dev cb => ifAlive (checkLoadedTask said pn dev cb)
  | TNotifyLoadFail said cb => ifAlive (NotifySystemAbilityLoadFail said (Some cb) LOAD_SA_TIMEOUT)
  | TNotifyLoaded said obj cb => ifAlive (NotifyLoadedCallback said obj cb)
  | TSetParameter key value => emit (EvSetParameter key value)
  | TInvalidateCache => t ← GetTickCount; emit (EvSetParameter SAMGR_CACHE_KEY (to_string t))
  | TCollect ct => r ← runCollectTask ct; match r with Some (event, l) => ProcessOnDemandEvent event l | None => mret tt end
  | TClearFfrtStatistics => ClearFfrtStatistics
  | TRpcLoadCompleted dev said obj => rpcLoadCompletedTask dev said obj
  | TUserStopTimeout _ _ | TResetIpcPrior | TLoadRemote _ _ _ _ _ | TOndemandLoad => mret tt
  end.

(** ** Death notices (ability_death_recipient.cpp) *)

Definition OnRemoteDied (k : DeathKind) (remote : option RemoteObject) : M unit :=
  ifAlive
    match k with
    | AbilityDeath => _ ← RemoveSystemAbilityRemote remote; mret tt
    | SystemProcessDeath => _ ← RemoveSystemProcess remote; mret tt
    | AbilityStatusDeath =>
        if env_CheckSupportSetDeathPrior then AsyncUnSubscribeSystemAbility remote
        else match remote with
             | Some obj => virtualUnSubscribeRemote obj
             | None => virtualUnSubscribeNull
             end
    | AbilityCallbackDeath => OnAbilityCallbackDied remote
    | RemoteCallbackDeath => OnRemoteCallbackDied remote
    | ProcessListenerDeath => ManagerUnSubscribeSystemProcessRemote remote
    end.

(** ** Start and end of the manager *)

(** [InitSaProfile], given what the parser read. *)
Definition InitSaProfile (parsed : list SaProfile) (multiInstanceSaIds : gset Z) : M unit :=
  let saInfos := if SUPPORT_MULTI_INSTANCE then filter (λ p, saId p ∉ multiInstanceSaIds) parsed else parsed in
  _ ← GetTickCount;
  when SUPPORT_MULTI_INSTANCE (
    updM multiInstanceSaIds_ (λ _, multiInstanceSaIds);;
    updM allSaProfiles_ (λ _, parsed));;
  sch ← getM abilityStateScheduler_;
  when sch (SchedulerInit saInfos);;
  c ← getM collectManager_;
  when c (CollectInit saInfos);;
  updM onDemandSaIdsSet_ (λ s, {[DEVICE_INFO_SERVICE_SA; HIDUMPER_SERVICE_SA; MEDIA_ANALYSIS_SERVICE_SA]} ∪ s);;
  forM saInfos (λ p,
    updM saProfileMap_ <[saId p := FilterCommonSaProfile p]>;;
    when (negb (runOnCreate p)) (updM onDemandSaIdsSet_ (λ s, {[saId p]} ∪ s))).

(** [BaseSystemAbilityManager::Init]. *)
Definition ManagerInit (parsed : list SaProfile) (multiInstanceSaIds : gset Z) : M unit :=
  modify (λ w, w <| w_mgr ::= λ m, m <| selfPtr_ := true |> <| abilityDeath_ := true |> <| systemProcessDeath_ := true |>
    <| abilityStatusDeath_ := true |> <| abilityCallbackDeath_ := true |> <| remoteCallbackDeath_ := true |> |>);;
  wh ← getH workHandler;
  when (bool_decide (wh = None)) (newFFRTHandler workHandler);;
  dh ← getH deathHandler;
  when (bool_decide (dh = None) && env_CheckSupportSetDeathPrior) (newFFRTHandler deathHandler);;
  newCollectManager;;
  updM collectManager_ (λ _, true);;
  updM abilityStateScheduler_ (λ _, true);;
  InitSaProfile parsed multiInstanceSaIds.

(** [SystemAbilityManager::AddSamgrToAbilityMap]
    (services/samgr/native/source/system_ability_manager.cpp). *)
Definition AddSamgrToAbilityMap : M unit :=
  updM abilityMap_ <[0 := MkSAInfo (Some env_samgrObject) false]>;;
  s ← getM abilityStateScheduler_;
  when s InitSamgrProcessContext.

Definition ManagerCleanFfrt : M unit :=
  CleanFfrt workHandler;; CleanFfrt deathHandler;;
  c ← getM collectManager_; when c CollectCleanFfrt;;
  s ← getM abilityStateScheduler_; when s SchedulerCleanFfrt.

Definition ManagerSetFfrt : M unit :=
  SetFfrt workHandler;; SetFfrt deathHandler;;
  c ← getM collectManager_; when c CollectSetFfrt;;
  s ← getM abilityStateScheduler_; when s SchedulerSetFfrt.

Definition RemoveAbilityDeathRecipients : M unit :=
  m ← getM abilityMap_;
  dr ← getM abilityDeath_;
  forM (omap (λ k, m !! k ≫= remoteObj) (sorted_keys Z.le m)) (λ o, when dr (RemoveDeathRecipient AbilityDeath o));;
  updM abilityMap_ (λ _, ∅).

Definition RemoveProcessDeathRecipients : M unit :=
  m ← getM systemProcessMap_;
  dr ← getM systemProcessDeath_;
  forM (omap (λ k, m !! k) (sorted_keys u16_le m)) (λ o, when dr (RemoveDeathRecipient SystemProcessDeath o));;
  updM systemProcessMap_ (λ _, ∅).

Definition RemoveListenerDeathRecipients : M unit :=
  m ← getM listenerMap_;
  dr ← getM abilityStatusDeath_;
  forM (omap sal_listener (sorted_keys Z.le m ≫= λ k, default [] (m !! k)))
    (λ l, when dr (RemoveDeathRecipient AbilityStatusDeath (sc_AsObject l)));;
  updM listenerMap_ (λ _, ∅);;
  updM subscribeCountMap_ (λ _, ∅).

Definition RemoveOnDemandDeathRecipients : M unit :=
  m ← getM startingAbilityMap_;
  dr ← getM abilityCallbackDeath_;
  forM (sorted_keys Z.le m ≫= λ k, match m !! k with Some i => callbacksInOrder i | None => [] end)
    (λ c, when dr (RemoveDeathRecipient AbilityCallbackDeath (cb_AsObject c.1)));;
  updM startingAbilityMap_ (λ _, ∅);;
  updM onDemandAbilityMap_ (λ _, ∅);;
  updM startingProcessMap_ (λ _, ∅);;
  updM callbackCountMap_ (λ _, ∅).

Definition RemoveRemoteCallbackDeathRecipients : M unit :=
  m ← getM remoteCallbacks_;
  dr ← getM remoteCallbackDeath_;
  forM (sorted_keys str_le m ≫= λ k, default [] (m !! k))
    (λ c, when dr (RemoveDeathRecipient RemoteCallbackDeath (cb_AsObject c)));;
  updM remoteCallbacks_ (λ _, ∅).

Definition RemoveAllDeathRecipients : M unit :=
  RemoveAbilityDeathRecipients;; RemoveProcessDeathRecipients;; RemoveListenerDeathRecipients;;
  RemoveOnDemandDeathRecipients;; RemoveRemoteCallbackDeathRecipients;;
  modify (λ w, w <| w_mgr ::= λ m, m <| abilityDeath_ := false |> <| systemProcessDeath_ := false |>
    <| abilityStatusDeath_ := false |> <| abilityCallbackDeath_ := false |> <| remoteCallbackDeath_ := false |> |>).

(** [ReleaseSubSystems]: dropping the last reference to the scheduler runs its
    destructor. *)
Definition ReleaseSubSystems : M unit :=
  c ← getM collectManager_;
  when c CollectUnInit;;
  updM collectManager_ (λ _, false);;
  s ← getM abilityStateScheduler_;
  when s CleanResource;;
  updM abilityStateScheduler_ (λ _, false);;
  modify (λ w, w <| w_handlers ::= λ m, delete workHandler (delete deathHandler m) |>).

Definition Destroy : M unit :=
  ManagerCleanFfrt;; RemoveAllDeathRecipients;; ReleaseSubSystems;; updM selfPtr_ (λ _, false).
End manager.

#[export] Hint Extern 2 (respects _ (override _ _)) => apply override_respects; [typeclasses eauto|..] : respects.
