(* ===== verification/MultiManager.v ===== *)
(** [MultiSystemAbilityManager]: the manager of the SAs of one user
    (services/samgr/native/source/multi_system_ability_manager.cpp).  It is a
    [BaseSystemAbilityManager] whose subscriptions are for this user or only for
    the foreground user; the overrides that base-class code calls are in
    ManagerBase.v and Manager.v. *)
From S2P Require Import Prelude Types World Parcel Ffrt Util TimeHandler Contexts Interfaces ManagerBase StateMachine.
From S2P Require Import EventHandler Scheduler SchedulerQuery Subscribers CollectManager CollectFrame Manager IpcInterface.
From S2P Require Import DBinder DumpStats.

Record GlobalSystemAbilitySubscription := MkGlobalSubscription {
  gsa_systemAbilityId : Z;
  gsa_remoteObject : RemoteObject;
  gsa_callingPid : Z;
}.

Record GlobalSubscriptionInfo := MkGlobalSubscriptionInfo {
  systemAbilitySubscriptions : list GlobalSystemAbilitySubscription;
  systemProcessSubscriptions : list RemoteObject;
}.
#[export] Instance GlobalSubscriptionInfo_eta : Eta GlobalSubscriptionInfo := λ r,
  MkGlobalSubscriptionInfo (systemAbilitySubscriptions r) (systemProcessSubscriptions r).

Section multi.
Context `{E : Env} `{IE : !IpcEnv}.
Context (L : option StateListener).

(** ** Subscriptions *)

Definition SubscribeSystemAbilityWithPid (said : Z) (listener : option StatusChange) (foregroundOnly : bool)
    (callPid : Z) : M Z :=
  AddSubscriberInfo said listener foregroundOnly;;
  result ← SubscribeSystemAbilityInner said listener callPid;
  (if negb (result =? ERR_OK) then _ ← RemoveSubscriberInfo said listener foregroundOnly; mret tt else mret tt);;
  mret result.

Definition MultiSubscribeSystemAbility (said : Z) (listener : option StatusChange) (foregroundOnly : bool) : M Z :=
  callPid ← GetCallingPid; SubscribeSystemAbilityWithPid said listener foregroundOnly callPid.

Definition MultiUnSubscribeSystemAbility (said : Z) (listener : option StatusChange) (foregroundOnly : bool) : M Z :=
  if negb (CheckInputSysAbilityId said) || bool_decide (listener = None) then mret ERR_INVALID_VALUE
  else
    last ← RemoveSubscriberInfo said listener foregroundOnly;
    if negb last then mret ERR_OK else UnSubscribeSystemAbility said listener.

Definition MultiSubscribeSystemProcess (l : option ProcessStatusChange) (foregroundOnly : bool) : M Z :=
  withScheduler ERR_INVALID_VALUE (SubscribeSystemProcess l foregroundOnly).
Definition MultiUnSubscribeSystemProcess (l : option ProcessStatusChange) (foregroundOnly : bool) : M Z :=
  withScheduler ERR_INVALID_VALUE (UnSubscribeSystemProcess l foregroundOnly).

(** ** The subscriptions of the base user, restored for a new user *)

Definition RollbackGlobalSubscriptions (sas : list (Z * StatusChange)) (procs : list ProcessStatusChange) : M unit :=
  forM (rev procs) (λ l, _ ← MultiUnSubscribeSystemProcess (Some l) true; mret tt);;
  forM (rev sas) (λ sl, _ ← MultiUnSubscribeSystemAbility sl.1 (Some sl.2) true; mret tt).

(** A subscriber that is alive and has the interface. *)
Definition liveSubscriber {A} (cast : RemoteObject → option A) (obj : RemoteObject) : M (option A) :=
  tr ← gets w_trace; mret (if env_IsObjectDead tr obj then None else cast obj).

(** The first loop of [InitGlobalSubscriptions]: what was restored, or the error. *)
Fixpoint restoreAbilities (l : list GlobalSystemAbilitySubscription) (restored : list (Z * StatusChange))
    : M (Z + list (Z * StatusChange)) :=
  match l with
  | [] => mret (inr restored)
  | s :: l' =>
      listener ← liveSubscriber cast_StatusChange (gsa_remoteObject s);
      match listener with
      | None => restoreAbilities l' restored
      | Some sc =>
          result ← SubscribeSystemAbilityWithPid (gsa_systemAbilityId s) (Some sc) true (gsa_callingPid s);
          if negb (result =? ERR_OK) then RollbackGlobalSubscriptions restored [];; mret (inl result)
          else restoreAbilities l' (restored ++ [(gsa_systemAbilityId s, sc)])
      end
  end.

(** The second loop. *)
Fixpoint restoreProcesses (l : list RemoteObject) (sas : list (Z * StatusChange)) (restored : list ProcessStatusChange)
    : M Z :=
  match l with
  | [] => mret ERR_OK
  | obj :: l' =>
      listener ← liveSubscriber cast_ProcessStatusChange obj;
      match listener with
      | None => restoreProcesses l' sas restored
      | Some psc =>
          result ← MultiSubscribeSystemProcess (Some psc) true;
          if negb (result =? ERR_OK) then RollbackGlobalSubscriptions sas restored;; mret result
          else restoreProcesses l' sas (restored ++ [psc])
      end
  end.

Definition InitGlobalSubscriptions (subscriptions : GlobalSubscriptionInfo) : M Z :=
  r ← restoreAbilities (systemAbilitySubscriptions subscriptions) [];
  match r with
  | inl e => mret e
  | inr sas => restoreProcesses (systemProcessSubscriptions subscriptions) sas []
  end.

(** ** Start and end *)

(** [InitSaProfiles]: the profiles of the user's SAs. *)
Definition MultiInitSaProfiles (filtered : list SaProfile) : M unit :=
  updM saProfileMap_ (λ _, ∅);;
  updM onDemandSaIdsSet_ (λ _, ∅);;
  forM filtered (λ p,
    updM saProfileMap_ <[saId p := FilterCommonSaProfile p]>;;
    when (negb (runOnCreate p)) (updM onDemandSaIdsSet_ (λ s, {[saId p]} ∪ s))).

Definition userProfiles (saProfiles : list SaProfile) (multiInstanceSaIds : gset Z) : list SaProfile :=
  filter (λ p, saId p ∈ multiInstanceSaIds) saProfiles.

(** [MultiSystemAbilityManager::Init]. *)
Definition MultiInit (saProfiles : list SaProfile) (multiInstanceSaIds : gset Z) (subs : GlobalSubscriptionInfo) : M Z :=
  modify (λ w, w <| w_mgr ::= λ m, m <| selfPtr_ := true |> <| abilityDeath_ := true |> <| systemProcessDeath_ := true |>
    <| abilityStatusDeath_ := true |> <| abilityCallbackDeath_ := true |> <| remoteCallbackDeath_ := true |> |>);;
  wh ← getH workHandler;
  when (bool_decide (wh = None)) (newFFRTHandler workHandler);;
  dh ← getH deathHandler;
  when (bool_decide (dh = None) && env_CheckSupportSetDeathPrior) (newFFRTHandler deathHandler);;
  let filtered := userProfiles saProfiles multiInstanceSaIds in
  MultiInitSaProfiles filtered;;
  updM abilityStateScheduler_ (λ _, true);;
  SchedulerInit filtered;;
  newCollectManager;;
  updM collectManager_ (λ _, true);;
  CollectInit filtered;;
  InitGlobalSubscriptions subs.

(** [MultiSystemAbilityManager::Destroy]. *)
Definition MultiDestroy : M unit := Destroy;; updM subscriberInfoMap_ (λ _, ∅).

(** Every registered SA with a profile is asked to stop. *)
Definition NotifyAllSAsToStop : M unit :=
  m ← getM abilityMap_;
  profiles ← getM saProfileMap_;
  let saList := omap (λ k, (λ p, (k, c_process p)) <$> profiles !! k) (sorted_keys Z.le m) in
  forM saList (λ kp, _ ← StopOnDemandAbility kp.2 kp.1 (mkEvent INTERFACE_CALL "userStopping" ""); mret tt).

Definition StopEventCollection : M unit :=
  c ← getM collectManager_;
  when c CollectUnInit;;
  s ← getM abilityStateScheduler_;
  when s SchedulerCleanFfrt;;
  userId ← getM userId_;
  when PREFERENCES_ENABLE (DeleteUserPreferences userId).

(** [BaseSystemAbilityManager::GetSystemProcessNames]. *)
Definition GetSystemProcessNames : M (list u16string) :=
  m ← getM systemProcessMap_; mret (sorted_keys u16_le m).
End multi.
