(* ===== verification/UserLifecycle.v ===== *)
(** [UserLifecycleManager]: the managers of the users, their activation, their
    change to the foreground and their stop, and the subscriptions of the base
    user that hold for every user
    (services/samgr/native/source/user_lifecycle_manager.cpp).

    The state of the service is the world of the base manager and the managers
    of the users.  A user's manager has its own scheduler, registries, collect
    manager and queues; it shares the caller, the trace, the foreground user, the
    timers and the process-wide queues with the base manager.  [runUser] runs an operation on it.

    Locks are not modelled: every operation runs to its end. *)
From S2P Require Import Prelude Types World Parcel Ffrt Util Contexts Interfaces ManagerBase StateMachine.
From S2P Require Import EventHandler Scheduler SchedulerQuery Subscribers Manager IpcInterface MultiManager.
From S2P Require Import DBinder DumpStats.

Definition USER_STOP_TIMEOUT : Z := 5 * 1000.

(** ** State *)

Record UserManager := MkUserManager {
  um_sched : Sched;
  um_mgr : Mgr;
  um_handlers : gmap HandlerId FFRTHandler;
  um_collect : Collect;
}.

(** [us_context] is the identity of the object the timeout task holds. *)
Record UserStopping := MkUserStopping {
  us_context : positive;
  us_manager : UserManager;
  us_processNames : list u16string;
  us_finalizing : bool;
}.
#[export] Instance UserStopping_eta : Eta UserStopping := λ r,
  MkUserStopping (us_context r) (us_manager r) (us_processNames r) (us_finalizing r).

Record Users := MkUsers {
  userStateMap_ : gmap Z Z;
  multiUserManagers_ : gmap Z UserManager;
  userStoppingContexts_ : gmap Z UserStopping;
  validUserIds_ : gset Z;
  taskAlive : bool;
  globalSubscriptions_ : GlobalSubscriptionInfo;
  saProfilesSet : bool;
  nextContext : positive;
}.
#[export] Instance Users_eta : Eta Users := λ r,
  MkUsers (userStateMap_ r) (multiUserManagers_ r) (userStoppingContexts_ r) (validUserIds_ r) (taskAlive r)
    (globalSubscriptions_ r) (saProfilesSet r) (nextContext r).

(** The service: the base manager, the users, and [priorRefCnt_]. *)
Record Service := MkService {
  sv_base : World;
  sv_users : Users;
  priorRefCnt_ : Z;
}.
#[export] Instance Service_eta : Eta Service := λ r, MkService (sv_base r) (sv_users r) (priorRefCnt_ r).
#[export] Instance Service_HasWorld : HasWorld Service :=
  {| getWorld := sv_base; setWorld w s := s <| sv_base := w |> |}.

(** ** Operations on the manager of a user *)

(** Queues every manager of the process shares. *)
Definition sharedHandler (h : HandlerId) : bool :=
  match h with setParmHandler | ffrtDumpHandler | stopTaskHandler _ => true | _ => false end.
Definition sharedHandlers (m : gmap HandlerId FFRTHandler) : gmap HandlerId FFRTHandler :=
  filter (λ kv, sharedHandler kv.1 = true) m.
Definition ownHandlers (m : gmap HandlerId FFRTHandler) : gmap HandlerId FFRTHandler :=
  filter (λ kv, sharedHandler kv.1 = false) m.

Definition enterUser (u : UserManager) (w : World) : World :=
  w <| w_sched := um_sched u |> <| w_mgr := um_mgr u |>
    <| w_handlers := sharedHandlers (w_handlers w) ∪ um_handlers u |> <| w_collect := um_collect u |>.
Definition leaveUser (w w' : World) : UserManager * World :=
  (MkUserManager (w_sched w') (w_mgr w') (ownHandlers (w_handlers w')) (w_collect w'),
   w' <| w_sched := w_sched w |> <| w_mgr := w_mgr w |>
      <| w_handlers := sharedHandlers (w_handlers w') ∪ ownHandlers (w_handlers w) |> <| w_collect := w_collect w |>).

Definition runUser {A} (u : UserManager) (m : M A) (w : World) : A * UserManager * World :=
  let '(a, w') := m (enterUser u w) in let '(u', w'') := leaveUser w w' in (a, u', w'').

Section lifecycle.
Context `{E : Env} `{IE : !IpcEnv}.
Context (L : option StateListener).

Abbreviation SM := (ST Service).

Definition getU {A} (f : Users → A) : SM A := λ s, (f (sv_users s), s).
Definition updU (f : Users → Users) : SM unit := λ s, (tt, s <| sv_users ::= f |>).
Fixpoint forS {A} (l : list A) (f : A → SM unit) : SM unit :=
  match l with [] => mret tt | x :: l' => f x;; forS l' f end.

(** [auto mgr = GetMultiUserManager(userId); if (mgr == nullptr) ...; mgr->m()]. *)
Definition onManager {A} (userId : Z) (m : M A) : SM (option A) := λ s,
  match multiUserManagers_ (sv_users s) !! userId with
  | None => (None, s)
  | Some u =>
      let '(a, u', w) := runUser u m (sv_base s) in
      (Some a, s <| sv_base := w |> <| sv_users ::= λ us, us <| multiUserManagers_ ::= <[userId := u']> |> |>)
  end.

(** The same for the manager of a user that is stopping. *)
Definition onStopping {A} (userId : Z) (m : M A) : SM (option A) := λ s,
  match userStoppingContexts_ (sv_users s) !! userId with
  | None => (None, s)
  | Some c =>
      let '(a, u', w) := runUser (us_manager c) m (sv_base s) in
      (Some a, s <| sv_base := w |>
                 <| sv_users ::= λ us, us <| userStoppingContexts_ ::= <[userId := c <| us_manager := u' |>]> |> |>)
  end.

Definition withUser {A} (userId : Z) (d : A) (m : M A) : SM A := r ← onManager userId m; mret (default d r).
Definition withStopping {A} (userId : Z) (d : A) (m : M A) : SM A := r ← onStopping userId m; mret (default d r).

(** ** Queries *)

Definition GetForegroundUserId : SM Z := liftW (gets w_foreground).
Definition IsValidUser (userId : Z) : SM bool := v ← getU validUserIds_; mret (bool_decide (userId ∈ v)).
Definition IsUserStopping (userId : Z) : SM bool :=
  c ← getU userStoppingContexts_; mret (bool_decide (is_Some (c !! userId))).
Definition GetValidUserIds : SM (list Z) := v ← getU validUserIds_; mret (merge_sort Z.le (elements v)).
Definition GetActiveUserCount : SM nat := m ← getU multiUserManagers_; mret (size m).

(** ** Activating and switching *)

Definition RemoveExpiredGlobalSubscriptionsLocked : SM unit :=
  tr ← liftW (gets w_trace);
  updU (λ us, us <| globalSubscriptions_ ::= λ g,
    g <| systemAbilitySubscriptions ::= filter (λ s, env_IsObjectDead tr (gsa_remoteObject s) = false) |>
      <| systemProcessSubscriptions ::= filter (λ o, env_IsObjectDead tr o = false) |> |>).

Definition newMultiManager (userId : Z) : UserManager :=
  MkUserManager emptySched (emptyMgr KMultiSystemAbilityManager userId) ∅ newCollect.

(** [mgr->Destroy()] of a manager that is not in a table. *)
Definition destroyManager (u : UserManager) : SM unit := λ s,
  let '(_, _, w) := runUser u MultiDestroy (sv_base s) in (tt, s <| sv_base := w |>).

(** [std::make_shared<MultiSystemAbilityManager>(userId, subs)->Init(profiles)]: the
    manager and the result; a manager that failed is destroyed. *)
Definition createManager (userId : Z) (profiles : list SaProfile) (multi : gset Z) (subs : GlobalSubscriptionInfo)
    : SM (UserManager + Z) := λ s,
  let '(ret, u, w) := runUser (newMultiManager userId) (MultiInit profiles multi subs) (sv_base s) in
  let s' := s <| sv_base := w |> in
  if negb (ret =? ERR_OK) then (inr ret, (destroyManager u s').2) else (inl u, s').

Definition HandleUserActivating (userId : Z) : SM Z :=
  state ← getU userStateMap_;
  managers ← getU multiUserManagers_;
  if bool_decide (state !! userId = Some USER_STATE_STOPPING) then mret ERR_INVALID_OPERATION
  else if bool_decide (is_Some (managers !! userId)) then mret ERR_OK
  else
    RemoveExpiredGlobalSubscriptionsLocked;;
    set ← getU saProfilesSet;
    if negb set then mret ERR_INVALID_VALUE
    else
      profiles ← liftW (getM allSaProfiles_);
      multi ← liftW (getM multiInstanceSaIds_);
      subs ← getU globalSubscriptions_;
      r ← createManager userId profiles multi subs;
      match r with
      | inr ret => mret ret
      | inl u =>
          managers ← getU multiUserManagers_;
          if bool_decide (is_Some (managers !! userId)) then
            destroyManager u;; mret ERR_OK
          else
            updU (λ us, us <| multiUserManagers_ ::= <[userId := u]> |>
                           <| validUserIds_ ::= λ v, {[userId]} ∪ v |>
                           <| userStateMap_ ::= <[userId := USER_STATE_ACTIVATING]> |>);;
            mret ERR_OK
      end.

Definition HandleUserSwitching (userId : Z) : SM Z :=
  state ← getU userStateMap_;
  fg ← GetForegroundUserId;
  managers ← getU multiUserManagers_;
  if bool_decide (state !! userId = Some USER_STATE_STOPPING) then mret ERR_INVALID_VALUE
  else if userId =? fg then mret ERR_OK
  else if negb (bool_decide (is_Some (managers !! userId))) then mret ERR_INVALID_VALUE
  else
    updU (λ us, us <| userStateMap_ ::= <[userId := USER_STATE_SWITCHING]> |>);;
    liftW (modify (λ w, w <| w_foreground := userId |>));;
    mret ERR_OK.

(** ** Stopping *)

(** The loop of [CompleteUserStopping]: a process that does not stop is stopped by init. *)
Definition forceStop (userId : Z) (names : list u16string) : M unit :=
  forM names (λ pn,
    let name := Str16ToStr8 pn in
    waitResult ← ask env_ServiceWaitUser (EvServiceWaitUser name userId);
    if waitResult =? ERR_OK then mret tt
    else _ ← ServiceControlWithExtra name SA_STOP userId None; mret tt).

(** [context] identifies the object the caller holds; one that is not in the table
    any more was finalised. *)
Definition CompleteUserStopping (userId : Z) (context : positive) : SM unit :=
  contexts ← getU userStoppingContexts_;
  match contexts !! userId with
  | None => mret tt
  | Some c =>
      if negb (bool_decide (us_context c = context)) || us_finalizing c then mret tt
      else
        updU (λ us, us <| userStoppingContexts_ ::= <[userId := c <| us_finalizing := true |>]> |>);;
        liftW (forceStop userId (us_processNames c));;
        _ ← onStopping userId StopEventCollection;
        _ ← onStopping userId MultiDestroy;
        updU (λ us, us <| userStoppingContexts_ ::= delete userId |>
                       <| userStateMap_ ::= λ m,
                            if bool_decide (m !! userId = Some USER_STATE_STOPPING) then delete userId m else m |>)
  end.

(** The task posted below: nothing once the manager is being destroyed. *)
Definition userStopTimeoutTask (userId : Z) (context : positive) : SM unit :=
  alive ← getU taskAlive; if negb alive then mret tt else CompleteUserStopping userId context.

Definition PostUserStopTimeoutTask (userId : Z) (context : positive) : SM unit :=
  posted ← liftW (PostTaskDelay (stopTaskHandler userId) (TUserStopTimeout userId context) USER_STOP_TIMEOUT);
  if negb posted then CompleteUserStopping userId context else mret tt.

Definition StartUserStopping (userId : Z) (u : UserManager) : SM unit :=
  context ← getU nextContext;
  let names := sorted_keys u16_le (systemProcessMap_ (um_mgr u)) in
  updU (λ us, us <| nextContext ::= Pos.succ |>
                 <| userStoppingContexts_ ::= <[userId := MkUserStopping context u names false]> |>);;
  h ← liftW (getH (stopTaskHandler userId));
  (if bool_decide (h = None) then liftW (newFFRTHandler (stopTaskHandler userId)) else mret tt);;
  _ ← onStopping userId NotifyAllSAsToStop;
  if bool_decide (names = []) then CompleteUserStopping userId context
  else PostUserStopTimeoutTask userId context.

Definition HandleUserStopping (userId : Z) : SM Z :=
  contexts ← getU userStoppingContexts_;
  if bool_decide (is_Some (contexts !! userId)) then mret ERR_OK
  else
    updU (λ us, us <| userStateMap_ ::= <[userId := USER_STATE_STOPPING]> |>
                   <| validUserIds_ ::= λ v, v ∖ {[userId]} |>);;
    managers ← getU multiUserManagers_;
    match managers !! userId with
    | None => updU (λ us, us <| userStateMap_ ::= delete userId |>);; mret ERR_INVALID_VALUE
    | Some u =>
        updU (λ us, us <| multiUserManagers_ ::= delete userId |>);;
        fg ← GetForegroundUserId;
        (if userId =? fg then liftW (modify (λ w, w <| w_foreground := SAMGR_INVALID_USER_ID |>)) else mret tt);;
        StartUserStopping userId u;;
        mret ERR_OK
    end.

(** [UserLifecycleManager::OnUserStateChanged]. *)
Definition LifecycleOnUserStateChanged (userId userState : Z) : SM Z :=
  if userState =? USER_STATE_ACTIVATING then HandleUserActivating userId
  else if userState =? USER_STATE_SWITCHING then HandleUserSwitching userId
  else if userState =? USER_STATE_STOPPING then HandleUserStopping userId
  else mret ERR_INVALID_VALUE.

(** The destructor: the queues of the stop tasks are emptied. *)
Definition CancelPendingStopTasks : SM unit :=
  updU (λ us, us <| taskAlive := false |>);;
  hs ← liftW (gets (λ w, omap (λ h, match h with stopTaskHandler u => Some u | _ => None end)
                          ((map_to_list (w_handlers w)).*1)));
  updU (λ us, us <| userStoppingContexts_ := ∅ |>);;
  forS (merge_sort Z.le hs) (λ u,
    liftW (CleanFfrt (stopTaskHandler u);; modify (λ w, w <| w_handlers ::= delete (stopTaskHandler u) |>))).
End lifecycle.
