(* ===== verification/GlobalSubscriptions.v ===== *)
(** Subscriptions of the base user to the SAs and processes of every user, in
    [UserLifecycleManager]
    (services/samgr/native/source/user_lifecycle_manager.cpp): a subscription is
    made in the manager of each user, or undone everywhere when one refuses it. *)
From S2P Require Import Prelude Types World Parcel Ffrt Util Contexts Interfaces ManagerBase StateMachine.
From S2P Require Import EventHandler Scheduler SchedulerQuery Subscribers Manager IpcInterface MultiManager UserLifecycle.
From S2P Require Import DBinder DumpStats.

Section global.
Context `{E : Env} `{IE : !IpcEnv}.
Abbreviation SM := (ST Service).

(** The loop over [multiUserManagers_]: [op] in each manager; after the first
    failure [undo] in those that were done, last first. *)
Definition rollback (undo : M Z) (managers : list Z) : SM unit :=
  forS (rev managers) (λ u, _ ← onManager u undo; mret tt).

Fixpoint eachManager (op undo : M Z) (users completed : list Z) : SM Z :=
  match users with
  | [] => mret ERR_OK
  | u :: users' =>
      r ← onManager u op;
      match r with
      | None => eachManager op undo users' completed
      | Some result =>
          if negb (result =? ERR_OK) then rollback undo completed;; mret result
          else eachManager op undo users' (completed ++ [u])
      end
  end.

Definition allManagers (op undo : M Z) : SM Z :=
  m ← getU multiUserManagers_; eachManager op undo (sorted_keys Z.le m) [].

Definition updG (f : GlobalSubscriptionInfo → GlobalSubscriptionInfo) : SM unit :=
  updU (λ us, us <| globalSubscriptions_ ::= f |>).

(** ** SAs *)

Definition isSubscription (said : Z) (obj : RemoteObject) (s : GlobalSystemAbilitySubscription) : Prop :=
  gsa_systemAbilityId s = said ∧ gsa_remoteObject s = obj.
#[global] Instance isSubscription_dec said obj s : Decision (isSubscription said obj s) := _.

(** [RollbackSaSubscribe] and [RollbackSaUnsubscribe] run these in the managers. *)
Definition undoSaSubscribe (said : Z) (l : StatusChange) : M Z := MultiUnSubscribeSystemAbility said (Some l) true.
Definition undoSaUnsubscribe (said : Z) (l : StatusChange) (callPid : Z) : M Z :=
  SubscribeSystemAbilityWithPid said (Some l) true callPid.

Definition SubscribeSystemAbilityForAllUsers (said : Z) (listener : option StatusChange) (callPid : Z) : SM Z :=
  match listener with
  | None => mret ERR_INVALID_VALUE
  | Some l =>
      RemoveExpiredGlobalSubscriptionsLocked;;
      g ← getU globalSubscriptions_;
      let subs := systemAbilitySubscriptions g in
      if bool_decide (is_Some (list_find (isSubscription said (sc_AsObject l)) subs)) then mret ERR_OK
      else if MAX_SUBSCRIBE_COUNT <=? Z.of_nat (length (filter (λ s, gsa_callingPid s = callPid) subs))
      then mret ERR_PERMISSION_DENIED
      else
        result ← allManagers (SubscribeSystemAbilityWithPid said (Some l) true callPid) (undoSaSubscribe said l);
        if negb (result =? ERR_OK) then mret result
        else
          updG (λ g, g <| systemAbilitySubscriptions ::=
                           λ subs, subs ++ [MkGlobalSubscription said (sc_AsObject l) callPid] |>);;
          mret ERR_OK
  end.

Definition UnSubscribeSystemAbilityForAllUsers (said : Z) (listener : option StatusChange) : SM Z :=
  match listener with
  | None => mret ERR_INVALID_VALUE
  | Some l =>
      RemoveExpiredGlobalSubscriptionsLocked;;
      g ← getU globalSubscriptions_;
      match list_find (isSubscription said (sc_AsObject l)) (systemAbilitySubscriptions g) with
      | None => mret ERR_OK
      | Some (k, sub) =>
          result ← allManagers (MultiUnSubscribeSystemAbility said (Some l) true)
                     (undoSaUnsubscribe said l (gsa_callingPid sub));
          if negb (result =? ERR_OK) then mret result
          else updG (λ g, g <| systemAbilitySubscriptions ::= delete k |>);; mret ERR_OK
      end
  end.

(** ** Processes *)

(** The result and [subscriptionAdded]. *)
Definition SubscribeSystemProcessForAllUsers (listener : option ProcessStatusChange) : SM (Z * bool) :=
  match listener ≫= psc_AsObject with
  | None => mret (ERR_INVALID_VALUE, false)
  | Some obj =>
      RemoveExpiredGlobalSubscriptionsLocked;;
      g ← getU globalSubscriptions_;
      if bool_decide (obj ∈ systemProcessSubscriptions g) then mret (ERR_OK, false)
      else
        result ← allManagers (MultiSubscribeSystemProcess listener true) (MultiUnSubscribeSystemProcess listener true);
        if negb (result =? ERR_OK) then mret (result, false)
        else updG (λ g, g <| systemProcessSubscriptions ::= λ l, l ++ [obj] |>);; mret (ERR_OK, true)
  end.

Definition UnSubscribeSystemProcessForAllUsers (listener : option ProcessStatusChange) : SM Z :=
  match listener ≫= psc_AsObject with
  | None => mret ERR_INVALID_VALUE
  | Some obj =>
      RemoveExpiredGlobalSubscriptionsLocked;;
      g ← getU globalSubscriptions_;
      match list_find (λ o, o = obj) (systemProcessSubscriptions g) with
      | None => mret ERR_OK
      | Some (k, _) =>
          result ← allManagers (MultiUnSubscribeSystemProcess listener true) (MultiSubscribeSystemProcess listener true);
          if negb (result =? ERR_OK) then mret result
          else updG (λ g, g <| systemProcessSubscriptions ::= delete k |>);; mret ERR_OK
      end
  end.
End global.
