(* ===== verification/Samgr.v ===== *)
(** [SystemAbilityManager]: the service itself
    (services/samgr/native/source/system_ability_manager.cpp), the base user's
    manager that sends a request to the manager of the user it is for.

    The base manager holds no multi-instance SA, so what base-class code asks
    [CheckSystemAbility] of its own SAs is not routed (Manager.v); the one call
    with an id that may be multi-instance is in [OnStartSystemAbilityFail]. *)
From S2P Require Import Prelude Types World Parcel Ffrt Util Contexts Interfaces ManagerBase StateMachine.
From S2P Require Import EventHandler Scheduler SchedulerQuery Subscribers Manager IpcInterface Stub Policy MultiManager.
From S2P Require Import UserLifecycle GlobalSubscriptions TimeHandler CommonEvent DevicePlugins CollectFrame CollectTasks DBinder.

Definition SHFIT_BIT : Z := 32.
Definition BASE_CALLING_USER : Z := 0xffffffff.
Definition RESET_IPC_PRIOR : string := "resetIpcPrior".
Definition RESET_IPC_PRIOR_TIMEOUT : Z := 5 * 1000.
Definition ONDEMAND_PERF_PARAM : string := "persist.samgr.perf.ondemand".
Definition ONDEMAND_PERF_DELAY_TIME : Z := 60 * 1000.
Definition CONCURRENT_TASK_SERVICE_ID : Z := 1912.
Definition SET_PRIOR_PARAM : string := "const.samgr.setprior.support".

Section samgr.
Context `{E : Env} `{IE : !IpcEnv} {C : CollectIface}.
Context (L : option StateListener).
Abbreviation SM := (ST Service).

(** ** Routing *)

Definition GetCallingUserId : SM Z :=
  c ← liftW (gets (λ w, u32 (Z.shiftr (callingUserID (w_caller w)) SHFIT_BIT)));
  mret (if c =? BASE_CALLING_USER then BASE_USER else i32 c).

Definition IsMultiInstanceSaId (said : Z) : SM bool :=
  ids ← liftW (getM multiInstanceSaIds_); mret (bool_decide (said ∈ ids)).

Definition RouteForUser (said caller : Z) : SM Z :=
  b ← IsMultiInstanceSaId said;
  if negb b then mret BASE_USER else if caller =? BASE_USER then GetForegroundUserId else mret caller.

Definition RouteForSa (said caller : Z) : SM Z :=
  b ← IsMultiInstanceSaId said;
  mret (if caller =? BASE_USER then if (b : bool) then SA_OPERATION_NOT_ALLOWED else ERR_OK
        else if (b : bool) then ERR_OK else SA_OPERATION_NOT_ALLOWED).

(** The beginning of the operations that read an SA: the caller's instance of it,
    the foreground user's for the base user; [d] without a manager. *)
Definition byUser {A} (said : Z) (d : A) (m : M A) : SM A :=
  if negb SUPPORT_MULTI_INSTANCE then liftW m
  else
    caller ← GetCallingUserId;
    target ← RouteForUser said caller;
    if negb (target =? BASE_USER) then withUser target d m else liftW m.

(** The beginning of the operations of an SA's own process; [fail] is the result
    with an error code. *)
Definition bySaWith {A} (said : Z) (fail : Z → A) (onUser : Z → SM A) (m : M A) : SM A :=
  if negb SUPPORT_MULTI_INSTANCE then liftW m
  else
    caller ← GetCallingUserId;
    routeResult ← RouteForSa said caller;
    if negb (routeResult =? ERR_OK) then mret (fail routeResult)
    else if negb (caller =? BASE_USER) then onUser caller else liftW m.

Definition bySa {A} (said : Z) (fail : Z → A) (m : M A) : SM A :=
  bySaWith said fail (λ caller, withUser caller (fail ERR_INVALID_VALUE) m) m.

(** The beginning of the operations with a user id, for the base user only. *)
Definition forUser {A} (userId : Z) (fail : Z → A) (m : M A) : SM A :=
  caller ← GetCallingUserId;
  if negb (caller =? BASE_USER) then mret (fail ERR_PERMISSION_DENIED)
  else
    valid ← IsValidUser userId;
    if negb valid then mret (fail INVALID_CALLING_USER_ID)
    else withUser userId (fail ERR_INVALID_VALUE) m.

(** Loops over the users, after the base manager's turn. *)
Fixpoint foldS {A B} (l : list A) (b : B) (f : B → A → SM B) : SM B :=
  match l with [] => mret b | x :: l' => b' ← f b x; foldS l' b' f end.

Definition overUsers {A B} (m : M A) (b : B) (f : B → A → B) : SM B :=
  if negb SUPPORT_MULTI_INSTANCE then mret b
  else
    users ← GetValidUserIds;
    foldS users b (λ b u, r ← onManager u m; mret (match r with Some a => f b a | None => b end)).

Definition keepError (result userResult : Z) : Z :=
  if (result =? ERR_OK) && negb (userResult =? ERR_OK) then userResult else result.
Definition addResults {A} (acc user : Z * list A) : Z * list A :=
  if user.1 =? ERR_OK then (acc.1, acc.2 ++ user.2) else (if acc.1 =? ERR_OK then user.1 else acc.1, acc.2).

(** ** SAs *)

Definition CheckSystemAbility (said : Z) : SM (option RemoteObject) :=
  byUser said None (ManagerBase.CheckSystemAbility said).

Definition GetSystemAbility (said : Z) : SM (option RemoteObject) :=
  if negb SUPPORT_MULTI_INSTANCE then CheckSystemAbility said
  else
    caller ← GetCallingUserId;
    target ← RouteForUser said caller;
    if negb (target =? BASE_USER) then withUser target None (ManagerBase.CheckSystemAbility said)
    else CheckSystemAbility said.

Definition GetSystemAbilityFromRemote (said : Z) : SM (option RemoteObject) :=
  if negb (CheckInputSysAbilityId said) then mret None
  else
    m ← liftW (getM abilityMap_);
    mret (match m !! said with
          | None => None
          | Some info => if negb (sai_isDistributed info) then None else remoteObj info
          end).

Definition AddSystemAbility (said : Z) (ability : option RemoteObject) (p : SAExtraProp) : SM Z :=
  bySa said id (Manager.AddSystemAbility L said ability p).

Definition RemoveSystemAbility (said : Z) : SM Z :=
  bySaWith said id (λ caller,
    stopping ← IsUserStopping caller;
    if (stopping : bool) then withStopping caller ERR_INVALID_VALUE (Manager.RemoveSystemAbility L said)
    else withUser caller ERR_INVALID_VALUE (Manager.RemoveSystemAbility L said))
    (Manager.RemoveSystemAbility L said).

(** [SubscribeSystemAbility] and [UnSubscribeSystemAbility]: [everyone] for the
    base user and a multi-instance SA, else [mine] of the user or [base]. *)
Definition subscription (said : Z) (everyone : SM Z) (mine base : M Z) : SM Z :=
  if negb SUPPORT_MULTI_INSTANCE then liftW base
  else
    caller ← GetCallingUserId;
    multi ← IsMultiInstanceSaId said;
    if (caller =? BASE_USER) && multi then everyone
    else
      target ← RouteForUser said caller;
      if negb (target =? BASE_USER) then withUser target ERR_INVALID_VALUE mine else liftW base.

Definition SubscribeSystemAbility (said : Z) (l : option StatusChange) : SM Z :=
  subscription said
    (if negb (CheckInputSysAbilityId said) || bool_decide (l = None) then mret ERR_INVALID_VALUE
     else pid ← liftW GetCallingPid; SubscribeSystemAbilityForAllUsers said l pid)
    (MultiSubscribeSystemAbility said l false) (Manager.SubscribeSystemAbility said l).

Definition UnSubscribeSystemAbility (said : Z) (l : option StatusChange) : SM Z :=
  subscription said (UnSubscribeSystemAbilityForAllUsers said l)
    (MultiUnSubscribeSystemAbility said l false) (Manager.UnSubscribeSystemAbility said l).

Definition CheckSystemAbilityExist (said : Z) (isExist : bool) : SM (option RemoteObject * bool) :=
  byUser said (None, isExist) (Manager.CheckSystemAbilityExist L said isExist).

Definition AddOnDemandSystemAbilityInfo (said : Z) (pn : u16string) : SM Z :=
  bySa said id (Manager.AddOnDemandSystemAbilityInfo said pn).

Definition ListSystemAbilities (dumpFlags : Z) : SM (list u16string) := liftW Manager.ListSystemAbilities.

Definition OnStartSystemAbilityFail (said errCode : Z) : SM Z :=
  target ← CheckSystemAbility said;
  match target with
  | Some _ => mret ERR_OK
  | None => liftW (failStart said errCode)
  end.

(** ** Processes *)

Definition byCaller {A} (d : A) (onBase : SM A) (onUser : M A) (base : M A) : SM A :=
  if negb SUPPORT_MULTI_INSTANCE then liftW base
  else
    caller ← GetCallingUserId;
    if caller =? BASE_USER then onBase else withUser caller d onUser.

Definition AddSystemProcess (pn : u16string) (obj : option RemoteObject) : SM Z :=
  let m := Manager.AddSystemProcess L pn obj in byCaller ERR_INVALID_VALUE (liftW m) m m.

Definition GetSystemProcessInfo (said : Z) (out : SystemProcessInfo) : SM (Z * SystemProcessInfo) :=
  byUser said (ERR_INVALID_VALUE, out) (ManagerGetSystemProcessInfo said out).

(** A valid user without a manager ends the loop with an error. *)
Fixpoint runningLoop (users : list Z) (acc : Z * list SystemProcessInfo) : SM (Z * list SystemProcessInfo) :=
  match users with
  | [] => mret acc
  | u :: users' =>
      r ← onManager u ManagerGetRunningSystemProcess;
      match r with
      | None => mret (ERR_INVALID_VALUE, acc.2)
      | Some user => runningLoop users' (addResults acc user)
      end
  end.

Definition GetRunningSystemProcess : SM (Z * list SystemProcessInfo) :=
  base ← liftW ManagerGetRunningSystemProcess;
  if negb SUPPORT_MULTI_INSTANCE then mret base
  else users ← GetValidUserIds; runningLoop users base.

Definition SubscribeSystemProcess (l : option ProcessStatusChange) : SM Z :=
  byCaller ERR_INVALID_VALUE
    ('(result, subscriptionAdded) ← SubscribeSystemProcessForAllUsers l;
     if negb (result =? ERR_OK) then mret result
     else
       result ← liftW (ManagerSubscribeSystemProcess l);
       if negb (result =? ERR_OK) && subscriptionAdded
       then _ ← UnSubscribeSystemProcessForAllUsers l; mret result
       else mret result)
    (MultiSubscribeSystemProcess l false) (ManagerSubscribeSystemProcess l).

Definition UnSubscribeSystemProcess (l : option ProcessStatusChange) : SM Z :=
  byCaller ERR_INVALID_VALUE
    (result ← UnSubscribeSystemProcessForAllUsers l;
     if negb (result =? ERR_OK) then mret result
     else
       result ← liftW (ManagerUnSubscribeSystemProcess l);
       if negb (result =? ERR_OK)
       then _ ← SubscribeSystemProcessForAllUsers l; mret result
       else mret result)
    (MultiUnSubscribeSystemProcess l false) (ManagerUnSubscribeSystemProcess l).

Definition SubscribeLowMemSystemProcess (l : option ProcessStatusChange) : SM Z := liftW (ManagerSubscribeLowMem l).
Definition UnSubscribeLowMemSystemProcess (l : option ProcessStatusChange) : SM Z := liftW (ManagerUnSubscribeLowMem l).

(** ** Loading and unloading *)

Definition LoadSystemAbility (said : Z) (cb : option LoadCallback) : SM Z :=
  byUser said ERR_INVALID_VALUE (Manager.LoadSystemAbility L said cb).
Definition UnloadSystemAbility (said : Z) : SM Z := bySa said id (Manager.UnloadSystemAbility L said).
Definition CancelUnloadSystemAbility (said : Z) : SM Z := bySa said id (Manager.CancelUnloadSystemAbility L said).

Definition UnloadAllIdleSystemAbility : SM Z :=
  base ← liftW (ManagerUnloadAllIdle L); overUsers (ManagerUnloadAllIdle L) base keepError.
Definition UnloadProcess (l : list u16string) : SM Z :=
  base ← liftW (ManagerUnloadProcess L l); overUsers (ManagerUnloadProcess L l) base keepError.
Definition GetLruIdleSystemAbilityProc : SM (Z * list IdleProcessInfo) :=
  base ← liftW Manager.GetLruIdleSystemAbilityProc; overUsers Manager.GetLruIdleSystemAbilityProc base addResults.

(** The device coming online concerns every user. *)
Definition ProcessOnDemandEvent (event : OnDemandEvent) (l : list SaControlInfo) : SM unit :=
  liftW (Manager.ProcessOnDemandEvent L event l);;
  if negb (eventId event =? DEVICE_ONLINE) then mret tt
  else
    overUsers (c ← getM collectManager_; when c (ReportEvent event)) tt (λ _ _, tt).

(** ** SAs of other devices *)

Definition remoteKey (said : Z) (dev : string) : string := to_string said +:+ "_" +:+ dev.

(** [SamgrUtil::DeviceIdToNetworkId]. *)
Definition DeviceIdToNetworkId (networkId : string) : M string :=
  tr ← gets w_trace;
  let devList := env_TrustedDevices tr in
  ret ← DeviceManagerCall GetTrustedDeviceList;
  if negb (ret =? ERR_OK) then mret networkId
  else mret (match list_find (λ d, networkId = dm_deviceId d) devList with
             | Some (_, d) => dm_networkId d
             | None => networkId
             end).

Definition DoMakeRemoteBinder (said callPid callUid : Z) (dev : string) : M (option RemoteObject) :=
  networkId ← (if SUPPORT_DEVICE_MANAGER then DeviceIdToNetworkId dev else mret dev);
  service ← getD dBinderService_;
  if negb service then mret None
  else ask env_MakeRemoteBinder (EvDBinder (MakeRemoteBinder said networkId callPid callUid)).

(** [CheckSystemAbility(systemAbilityId, deviceId)]. *)
Definition CheckSystemAbilityRemote (said : Z) (dev : string) : SM (option RemoteObject) :=
  liftW (
    dist ← IsDistributedSystemAbility said;
    if negb dist then mret None
    else pid ← GetCallingPid; uid ← GetCallingUid; DoMakeRemoteBinder said pid uid dev).

(** [LoadSystemAbility(systemAbilityId, deviceId, callback)]; a null callback is
    dereferenced. *)
Definition LoadSystemAbilityRemote (said : Z) (dev : string) (callback : option LoadCallback) : SM Z :=
  liftW (
    let key := remoteKey said dev in
    updM remoteCallbacks_ (map_touch key []);;
    match callback with
    | None => emit EvNullDeref;; mret ERR_OK
    | Some cb =>
        m ← getM remoteCallbacks_;
        let callbacks := default [] (m !! key) in
        if bool_decide (is_Some (list_find (λ c, cb_AsObject c = cb_AsObject cb) callbacks)) then mret ERR_OK
        else
          dr ← getM remoteCallbackDeath_;
          when dr (AddDeathRecipient RemoteCallbackDeath (cb_AsObject cb));;
          updM remoteCallbacks_ <[key := callbacks ++ [cb]]>;;
          pid ← GetCallingPid;
          uid ← GetCallingUid;
          emit (EvThread (TLoadRemote said pid uid dev cb));;
          mret ERR_OK
    end).

(** The thread it starts. *)
Definition DoLoadRemoteSystemAbility (said callPid callUid : Z) (dev : string) (cb : LoadCallback) : M unit :=
  remoteBinder ← DoMakeRemoteBinder said callPid callUid dev;
  emit (EvLoadRemoteComplete cb dev said remoteBinder);;
  dr ← getM remoteCallbackDeath_;
  when dr (RemoveDeathRecipient RemoteCallbackDeath (cb_AsObject cb));;
  updM remoteCallbacks_ (λ m,
    let key := remoteKey said dev in
    let callbacks := filter (λ c, cb_ptr c ≠ cb_ptr cb) (default [] (m !! key)) in
    if bool_decide (callbacks = []) then delete key m else <[key := callbacks]> m).

(** What other devices ask for ([RpcCallbackImp], source/rpc_callback_imp.cpp); the callback
    it creates tells the binder service. *)
Definition LoadSystemAbilityFromRemote (srcNetworkId : string) (said : Z) : M bool :=
  loadCallback ← ask env_newCallback EvNewCallback;
  LoadSystemAbilityFromRpc L srcNetworkId said (Some loadCallback).
Definition rpcOnLoadSystemAbilitySuccess (srcNetworkId : string) (said : Z) (remoteObject : RemoteObject) : M unit :=
  NotifyRpcLoadCompleted srcNetworkId said (Some remoteObject).
Definition rpcOnLoadSystemAbilityFail (srcNetworkId : string) (said : Z) : M unit :=
  NotifyRpcLoadCompleted srcNetworkId said None.

(** ** Strategies, policies, extensions *)

Definition GetLocalAbilityManagerProxy (said : Z) : SM (option RemoteObject) :=
  byUser said None (Manager.GetLocalAbilityManagerProxy said).
Definition GetOnDemandSystemAbilityIds : SM (Z * list Z) := liftW Manager.GetOnDemandSystemAbilityIds.

(** The result and [dispatched]. *)
Definition SendStrategyToUsers (type : Z) (ids : list Z) (level : Z) (action : string) (dispatched : bool)
    : SM (Z * bool) :=
  overUsers (Manager.SendStrategy type ids level action) (ERR_OK, dispatched) (λ acc r, (keepError acc.1 r, true)).

Definition SendStrategy (type : Z) (ids : list Z) (level : Z) (action : string) : SM Z :=
  if negb SUPPORT_MULTI_INSTANCE || bool_decide (ids = []) then liftW (Manager.SendStrategy type ids level action)
  else
    multi ← liftW (getM multiInstanceSaIds_);
    let multiSaIds := filter (λ i, i ∈ multi) ids in
    let baseSaIds := filter (λ i, i ∉ multi) ids in
    result ← (if bool_decide (baseSaIds = []) then mret ERR_OK
              else liftW (Manager.SendStrategy type baseSaIds level action));
    let dispatched := negb (bool_decide (baseSaIds = [])) in
    '(multiResult, dispatched) ←
      (if bool_decide (multiSaIds = []) then mret (ERR_OK, dispatched)
       else SendStrategyToUsers type multiSaIds level action dispatched);
    mret (if (dispatched : bool) then if result =? ERR_OK then multiResult else result else ERR_INVALID_VALUE).

Definition GetOnDemandPolicy (said type : Z) : SM (Z * list SystemAbilityOnDemandEvent) :=
  bySa said (λ e, (e, [])) (Policy.GetOnDemandPolicy said type).
Definition UpdateOnDemandPolicy (said type : Z) (events : list SystemAbilityOnDemandEvent) : SM Z :=
  bySa said id (Policy.UpdateOnDemandPolicy said type events).
Definition GetCommonEventExtraDataIdlist (said : Z) (eventName : string) : SM (Z * list Z) :=
  bySa said (λ e, (e, [])) (Policy.GetCommonEventExtraDataIdlist said eventName).
Definition GetOnDemandReasonExtraData `{P : Parcels} (id : Z) (parcel : Parcel) : SM (Z * Parcel) :=
  liftW (Policy.GetOnDemandReasonExtraData id parcel).

Definition GetExtensionSaIds (ext : string) : SM (Z * list Z) := liftW (Manager.GetExtensionSaIds ext).
Definition GetExtensionRunningSaList (ext : string) : SM (Z * list RemoteObject) :=
  base ← liftW (Manager.GetExtensionRunningSaList ext); overUsers (Manager.GetExtensionRunningSaList ext) base addResults.
Definition GetRunningSaExtensionInfoList (ext : string) : SM (Z * list (Z * RemoteObject)) :=
  base ← liftW (Manager.GetRunningSaExtensionInfoList ext);
  overUsers (Manager.GetRunningSaExtensionInfoList ext) base addResults.

(** ** Priority of the IPC threads *)

Definition updPrior (b : bool) : SM unit := liftW (updStub (λ s, s <| priorEnable_ := b |>)).
Definition setRefCnt (n : Z) : SM unit := λ s, (tt, s <| priorRefCnt_ := n |>).

Definition FlushResetPriorTask : M unit :=
  b ← HasInnerEvent workHandler RESET_IPC_PRIOR;
  when b (RemoveTask workHandler RESET_IPC_PRIOR);;
  _ ← PostTaskNamed workHandler TResetIpcPrior RESET_IPC_PRIOR RESET_IPC_PRIOR_TIMEOUT;
  mret tt.

Definition resetTimeoutTask : SM unit := updPrior false;; liftW ResetIpcPrior;; setRefCnt 0.

Definition SetSamgrIpcPrior (enable : bool) : SM Z :=
  st ← liftW (gets w_stub);
  n ← (λ s, (priorRefCnt_ s, s));
  if negb (isSupportSetPrior_ st) then mret ERR_INVALID_OPERATION
  else if enable then
    (if negb (priorEnable_ st) then updPrior true else mret tt);;
    setRefCnt (i32 (n + 1));;
    liftW FlushResetPriorTask;;
    mret ERR_OK
  else if negb (priorEnable_ st) || (n <=? 0) then mret ERR_OK
  else
    setRefCnt (i32 (n - 1));;
    (if i32 (n - 1) =? 0
     then updPrior false;; liftW ResetIpcPrior;; liftW (RemoveTask workHandler RESET_IPC_PRIOR)
     else mret tt);;
    mret ERR_OK.

(** ** Users *)

Definition OnUserStateChanged (userId userState : Z) : SM Z :=
  if (userId =? SAMGR_INVALID_USER_ID) || (userId =? BASE_USER) then mret ERR_INVALID_VALUE
  else LifecycleOnUserStateChanged userId userState.

Definition GetSystemAbilityUser (said userId : Z) : SM (option RemoteObject) :=
  forUser userId (λ _, None) (ManagerBase.CheckSystemAbility said).
Definition CheckSystemAbilityUser (said userId : Z) : SM (option RemoteObject) :=
  forUser userId (λ _, None) (ManagerBase.CheckSystemAbility said).
Definition CheckSystemAbilityByUserId (said : Z) (isExist : bool) (userId : Z) : SM (option RemoteObject * bool) :=
  forUser userId (λ _, (None, false)) (Manager.CheckSystemAbilityExist L said false).
Definition GetSystemProcessInfoUser (said : Z) (out : SystemProcessInfo) (userId : Z) : SM (Z * SystemProcessInfo) :=
  forUser userId (λ e, (e, out)) (ManagerGetSystemProcessInfo said out).
Definition GetLocalAbilityManagerProxyUser (said userId : Z) : SM (option RemoteObject) :=
  forUser userId (λ _, None) (Manager.GetLocalAbilityManagerProxy said).
Definition LoadSystemAbilityUser (said : Z) (cb : option LoadCallback) (userId : Z) : SM Z :=
  forUser userId id (Manager.LoadSystemAbility L said cb).
Definition SubscribeSystemAbilityUser (said : Z) (l : option StatusChange) (userId : Z) : SM Z :=
  forUser userId id (MultiSubscribeSystemAbility said l false).
Definition UnSubscribeSystemAbilityUser (said : Z) (l : option StatusChange) (userId : Z) : SM Z :=
  forUser userId id (MultiUnSubscribeSystemAbility said l false).
Definition SubscribeSystemProcessUser (l : option ProcessStatusChange) (userId : Z) : SM Z :=
  forUser userId id (MultiSubscribeSystemProcess l false).
Definition UnSubscribeSystemProcessUser (l : option ProcessStatusChange) (userId : Z) : SM Z :=
  forUser userId id (MultiUnSubscribeSystemProcess l false).

(** ** Start, and what the timers do *)

Definition GetAllOndemandSa : M (list Z) :=
  profiles ← getM saProfileMap_;
  m ← getM abilityMap_;
  mret (filter (λ k, m !! k = None) (sorted_keys Z.le profiles)).

Definition DoLoadForPerf : SM unit :=
  tr ← liftW (gets w_trace);
  if negb (env_GetBoolParameter tr ONDEMAND_PERF_PARAM false) then mret tt
  else
    saids ← liftW GetAllOndemandSa;
    cb ← liftW (ask env_newCallback EvNewCallback);
    forS saids (λ said, _ ← LoadSystemAbility said (Some cb); mret tt).

Definition OndemandLoadForPerf : M unit :=
  _ ← PostTaskDelay workHandler TOndemandLoad ONDEMAND_PERF_DELAY_TIME; mret tt.
Definition OndemandLoad : M unit := emit (EvWatchParameter ONDEMAND_PERF_PARAM).

(** [SamgrUtil::RegisterSAListener]; [listener] is the object it creates. *)
Definition RegisterSAListener (listener : StatusChange) : SM unit :=
  tr ← liftW (gets w_trace);
  if negb (env_GetBoolParameter tr SET_PRIOR_PARAM false) then mret tt
  else _ ← SubscribeSystemAbility CONCURRENT_TASK_SERVICE_ID (Some listener); mret tt.

(** [SystemAbilityManager::Init]. *)
Definition SamgrInit (parsed : list SaProfile) (multi : gset Z) (listener : StatusChange) : SM unit :=
  liftW (ManagerInit parsed multi);;
  liftW (when (negb SAMGR_ENABLE_DELAY_DBINDER) (updD rpcCallbackImp_ (λ _, true)));;
  (if SUPPORT_MULTI_INSTANCE then updU (λ us, us <| saProfilesSet := true |>) else mret tt);;
  liftW OndemandLoadForPerf;;
  liftW InvalidateSACache;;
  RegisterSAListener listener.

Definition ReportGetSAPeriodically : M unit :=
  m ← getM saFrequencyMap_;
  forM (sorted_keys Z.le m) (λ key,
    emit (EvReport (ReportGetSAFrequency (u32 (Z.shiftr key SHFIT_BIT)) (u32 key) (default 0 (m !! key)))));;
  updM saFrequencyMap_ (λ _, ∅).

(** The tasks of the base manager's queues and its threads. *)
Definition runServiceTask (t : Task) : SM unit :=
  match t with
  | TUserStopTimeout userId context => userStopTimeoutTask userId context
  | TResetIpcPrior => resetTimeoutTask
  | TLoadRemote said pid uid dev cb => liftW (DoLoadRemoteSystemAbility said pid uid dev cb)
  | TOndemandLoad => liftW OndemandLoad
  | TCollect ct =>
      r ← liftW (runCollectTask ct);
      match r with Some (event, l) => ProcessOnDemandEvent event l | None => mret tt end
  | _ => liftW (runTask L t)
  end.

(** [SamgrTimeHandler::OnTime] for a descriptor whose time has come: the epoll set
    holds the descriptors of the map only. *)
Definition onTimer (fd : Z) : SM unit :=
  t ← liftW (timerTask fd);
  match t with
  | None => mret tt
  | Some t => runServiceTask t;; liftW (timerDone fd)
  end.

(** ** The service has the interface clients call *)

#[global] Instance SystemAbilityManager `{P : Parcels} : ISystemAbilityManager Service := {
  iListSystemAbilities := ListSystemAbilities;
  iGetSystemAbility := GetSystemAbility;
  iCheckSystemAbility := CheckSystemAbility;
  iRemoveSystemAbility := RemoveSystemAbility;
  iSubscribeSystemAbility := SubscribeSystemAbility;
  iUnSubscribeSystemAbility := UnSubscribeSystemAbility;
  iGetSystemAbilityRemote := CheckSystemAbilityRemote;
  iAddOnDemandSystemAbilityInfo := AddOnDemandSystemAbilityInfo;
  iCheckSystemAbilityExist := CheckSystemAbilityExist;
  iAddSystemAbility := AddSystemAbility;
  iAddSystemProcess := AddSystemProcess;
  iLoadSystemAbility := LoadSystemAbility;
  iLoadSystemAbilityRemote := LoadSystemAbilityRemote;
  iUnloadSystemAbility := UnloadSystemAbility;
  iCancelUnloadSystemAbility := CancelUnloadSystemAbility;
  iUnloadAllIdleSystemAbility := UnloadAllIdleSystemAbility;
  iUnloadProcess := UnloadProcess;
  iGetLruIdleSystemAbilityProc := GetLruIdleSystemAbilityProc;
  iOnStartSystemAbilityFail := OnStartSystemAbilityFail;
  iGetSystemProcessInfo := GetSystemProcessInfo;
  iGetRunningSystemProcess := GetRunningSystemProcess;
  iSubscribeSystemProcess := SubscribeSystemProcess;
  iUnSubscribeSystemProcess := UnSubscribeSystemProcess;
  iSubscribeLowMemSystemProcess := SubscribeLowMemSystemProcess;
  iUnSubscribeLowMemSystemProcess := UnSubscribeLowMemSystemProcess;
  iSendStrategy := SendStrategy;
  iGetExtensionSaIds := GetExtensionSaIds;
  iGetExtensionRunningSaList := GetExtensionRunningSaList;
  iGetRunningSaExtensionInfoList := GetRunningSaExtensionInfoList;
  iGetLocalAbilityManagerProxy := GetLocalAbilityManagerProxy;
  iSetSamgrIpcPrior := SetSamgrIpcPrior;
  iGetCommonEventExtraDataIdlist := GetCommonEventExtraDataIdlist;
  iGetOnDemandReasonExtraData := GetOnDemandReasonExtraData;
  iGetOnDemandPolicy := GetOnDemandPolicy;
  iUpdateOnDemandPolicy := UpdateOnDemandPolicy;
  iGetOnDemandSystemAbilityIds := GetOnDemandSystemAbilityIds;
  iOnUserStateChanged := OnUserStateChanged;
  iGetSystemAbilityUser := GetSystemAbilityUser;
  iCheckSystemAbilityUser := CheckSystemAbilityUser;
  iCheckSystemAbilityByUserId := CheckSystemAbilityByUserId;
  iGetSystemProcessInfoUser := GetSystemProcessInfoUser;
  iGetLocalAbilityManagerProxyUser := GetLocalAbilityManagerProxyUser;
  iLoadSystemAbilityUser := LoadSystemAbilityUser;
  iSubscribeSystemAbilityUser := SubscribeSystemAbilityUser;
  iUnSubscribeSystemAbilityUser := UnSubscribeSystemAbilityUser;
  iSubscribeSystemProcessUser := SubscribeSystemProcessUser;
  iUnSubscribeSystemProcessUser := UnSubscribeSystemProcessUser;
}.
End samgr.
