(* ===== verification/Dumper.v ===== *)
(** [SystemAbilityManagerDumper::Dump]
    (services/samgr/native/source/system_ability_manager_dumper.cpp) and
    [SystemAbilityManager::Dump] (services/samgr/native/source/system_ability_manager.cpp),
    which hidumper calls: the states of SAs and processes of the base user and of the
    foreground user, and the commands of DumpStats.v. *)
From S2P Require Import Prelude Types World Parcel Ffrt Util TimedCollect Contexts Interfaces ManagerBase StateMachine.
From S2P Require Import EventHandler Scheduler SchedulerQuery Subscribers DumpStats Manager IpcInterface Stub Policy.
From S2P Require Import MultiManager UserLifecycle GlobalSubscriptions Samgr.

Definition ARGS_FFRT_PARAM : string := "--ffrt".
Definition ARGS_LISTENER_PARAM : string := "--listener".
Definition IPC_STAT_DUMP_PREFIX : string := "--ipc".

Definition ShowHelp `{E : Env} (result : string) : string :=
  result +:+ "SystemAbilityManager Dump options:" +:+ NL
    +:+ "  [-h] [cmd]..." +:+ NL
    +:+ "cmd maybe one of:" +:+ NL
    +:+ "  -sa said: query sa state infos." +:+ NL
    +:+ "  -p processname: query process state infos." +:+ NL
    +:+ "  -sm state: query all sa based on state infos." +:+ NL
    +:+ "  -l: query all sa state infos." +:+ NL
    +:+ "  --listener -h: help text for listener." +:+ NL
    +:+ "  --ffrt [pid1|pid2] --start-stat/--stop-stat/--stat: start/stop/get"
    +:+ " the FFRT load statistics of a process." +:+ NL
    +:+ "  --ffrt [pid1|pid2]: query the FFRT dump infos of a process." +:+ NL
    +:+ "  --ipc procname/all --start-stat/--stop-stat/--stat: start/stop/get"
    +:+ " the IPC load statistics of a process." +:+ NL
    +:+ if SUPPORT_MULTI_INSTANCE then "  --multi-instance: query all multi-instance SA IDs." +:+ NL else "".

Section dumper.
Context `{E : Env} `{IE : !IpcEnv}.
Abbreviation SM := (ST Service).

(** A query of the scheduler [GetForegroundUserScheduler] returns; [None] where it is null. *)
Definition GetForegroundUserScheduler (query : M string) : SM (option string) :=
  foregroundUserId ← GetForegroundUserId;
  r ← onManager foregroundUserId (
        scheduler ← getM abilityStateScheduler_;
        if negb scheduler then mret None else text ← query; mret (Some text));
  mret (mjoin r).

(** [ShowAllSystemAbilityInfo], [ShowProcessInfo] and [ShowAllSystemAbilityInfoInState]: the
    scheduler of the base user, then that of the foreground user. *)
Definition showSchedulers (query : string → M string) (result : string) : SM string :=
  scheduler ← liftW (getM abilityStateScheduler_);
  if negb scheduler then mret result
  else
    result ← liftW (query result);
    if negb SUPPORT_MULTI_INSTANCE then mret result
    else r ← GetForegroundUserScheduler (query result); mret (default result r).
Definition ShowAllSystemAbilityInfo : string → SM string := showSchedulers GetAllSystemAbilityInfo.
Definition ShowProcessInfo (processName : string) : string → SM string := showSchedulers (GetProcessInfo processName).
Definition ShowAllSystemAbilityInfoInState (state : string) : string → SM string :=
  showSchedulers (GetAllSystemAbilityInfoByState state).

Definition ShowSystemAbilityInfo (said : Z) (result : string) : SM string :=
  scheduler ← liftW (getM abilityStateScheduler_);
  if negb scheduler then mret result
  else
    multi ← (if SUPPORT_MULTI_INSTANCE then IsMultiInstanceSaId said else mret false);
    r ← (if (multi : bool) then GetForegroundUserScheduler (GetSystemAbilityInfo said result) else mret None);
    match r with
    | Some result => mret result
    | None => liftW (GetSystemAbilityInfo said result)
    end.

Definition ShowMultiInstanceSaIds (result : string) : SM string :=
  ids ← liftW (getM multiInstanceSaIds_);
  let result := result +:+ "Multi-instance SA IDs:" +:+ NL in
  mret (if bool_decide (ids = ∅) then result +:+ "  (empty)" +:+ NL
        else foldl (λ r said, r +:+ "  " +:+ to_string said +:+ NL) result (merge_sort Z.le (elements ids))).

Definition DumperDump (args : list string) (result : string) : SM (bool * string) :=
  can ← liftW CanDump;
  if negb can then mret (false, result)
  else
    match args with
    | [a] =>
        if SUPPORT_MULTI_INSTANCE && bool_decide (a = "--multi-instance")
        then r ← ShowMultiInstanceSaIds result; mret (true, r)
        else if bool_decide (a = ARGS_QUERY_ALL) then r ← ShowAllSystemAbilityInfo result; mret (true, r)
        else if bool_decide (a = ARGS_HELP) then mret (true, ShowHelp result)
        else mret (false, IllegalInput result)
    | [a; b] =>
        if bool_decide (a = ARGS_QUERY_SA) then r ← ShowSystemAbilityInfo (atoi b) result; mret (true, r)
        else if bool_decide (a = ARGS_QUERY_PROCESS) then r ← ShowProcessInfo b result; mret (true, r)
        else if bool_decide (a = ARGS_QUERY_SA_IN_CURRENT_STATE)
        then r ← ShowAllSystemAbilityInfoInState b result; mret (true, r)
        else mret (false, IllegalInput result)
    | _ => mret (false, IllegalInput result)
    end.

(** ** SystemAbilityManager *)

Definition IpcStatSamgrProc (fd cmd : Z) : M bool :=
  if (cmd <? IPC_STAT_CMD_START) || (IPC_STAT_CMD_MAX <=? cmd) then mret false
  else
    '(ret, result) ← (if cmd =? IPC_STAT_CMD_START then StartSamgrIpcStatistics
                      else if cmd =? IPC_STAT_CMD_STOP then StopSamgrIpcStatistics
                      else GetSamgrIpcStatistics "");
    saved ← saveStringToFd fd result;
    mret (if (saved : bool) then ret else false).

Definition IpcDumpAllProcess (fd cmd : Z) : M unit :=
  m ← getM systemProcessMap_;
  forM (sorted_keys u16_le m) (λ pn,
    match m !! pn with
    | Some obj => when (env_iface_cast obj) (emit (EvDump (IpcStatCmd obj fd cmd)))
    | None => mret tt
    end).

Definition IpcDumpSamgrProcess (fd cmd : Z) : M unit := _ ← IpcStatSamgrProc fd cmd; mret tt.

Definition IpcDumpSingleProcess (fd cmd : Z) (processName : string) : M unit :=
  obj ← GetLocalAbilityManager (Str8ToStr16 processName);
  match obj with Some obj => emit (EvDump (IpcStatCmd obj fd cmd)) | None => mret tt end.

Definition IpcDumpProc (fd : Z) (args : list string) : M Z :=
  cmd ← IpcDumpCmdParser args;
  match cmd, args with
  | Some cmd, _ :: processName :: _ =>
      (if IpcDumpIsAllProcess processName then IpcDumpAllProcess fd cmd;; IpcDumpSamgrProcess fd cmd
       else if IpcDumpIsSamgr processName then IpcDumpSamgrProcess fd cmd
       else IpcDumpSingleProcess fd cmd processName);;
      mret ERR_OK
  | _, _ => mret ERR_INVALID_VALUE
  end.

Definition Dump (fd : Z) (args : list u16string) : SM Z :=
  let argsWithStr8 := Str16ToStr8 <$> args in
  let first := head argsWithStr8 in
  if bool_decide (first = Some ARGS_FFRT_PARAM) then liftW (FfrtDumpProc fd argsWithStr8)
  else if bool_decide (first = Some ARGS_LISTENER_PARAM) then
    dumpListeners ← liftW (getM listenerMap_);
    liftW (ListenerDumpProc dumpListeners fd argsWithStr8)
  else if bool_decide (first = Some IPC_STAT_DUMP_PREFIX) then liftW (IpcDumpProc fd argsWithStr8)
  else
    '(_, result) ← DumperDump argsWithStr8 "";
    saved ← liftW (saveStringToFd fd result);
    mret (if (saved : bool) then ERR_OK else ERR_INVALID_VALUE).

Lemma IpcDumpProc_rest fd args : respects frame (IpcDumpProc fd args).
Proof. solve_deep. Qed.
End dumper.
#[export] Hint Resolve IpcDumpProc_rest : respects.
