(* ===== verification/Registry.v ===== *)
(** The invariants of the manager's registries.

    - [subscribeCountMap_] counts the status listeners of each process, and no
      process has more than [MAX_SUBSCRIBE_COUNT]; a listener is registered once
      per SA;
    - [callbackCountMap_] counts the load callbacks each process waits for, with
      the same limit;
    - the SA and process tables hold at most [MAX_SERVICES] entries, and the
      frequency counters stay below their ceiling. *)
From S2P Require Import Prelude Types World Ffrt Util Contexts Interfaces Hoare ManagerBase Subscribers Manager.
From S2P Require Import DBinder DumpStats.

(** ** Invariants of the manager *)

Definition keeps_mgr (I : Mgr → Prop) : relation World := λ w w', I (w_mgr w) → I (w_mgr w').

#[export] Instance keeps_mgr_preorder I : PreOrder (keeps_mgr I).
Proof. split; [by intros w H|]. intros x y z H1 H2 H. auto. Qed.
#[export] Instance keeps_mgr_sub I : subrelation (same w_mgr) (keeps_mgr I).
Proof. intros w w' H Hw. by rewrite <- H. Qed.
#[export] Instance keeps_mgr_rest I : subrelation frame (keeps_mgr I).
Proof. intros w w' H Hw. apply rest_mgr in H. by rewrite <- H. Qed.

Lemma keeps_mgr_wp {A} I (m : M A) :
  (∀ w, I (w_mgr w) → wp m (λ _ w', I (w_mgr w')) w) → respects (keeps_mgr I) m.
Proof. intros H w Hw. by apply H. Qed.
Lemma wp_keeps_mgr {A} I (m : M A) w :
  respects (keeps_mgr I) m → I (w_mgr w) → wp m (λ _ w', I (w_mgr w')) w.
Proof. intros H Hw. by apply H. Qed.

(** ** C++ map access *)

Lemma lookup_map_touch {K V} `{Countable K} (m : gmap K V) k d k' :
  map_touch k d m !! k' = if decide (k = k') then Some (default d (m !! k)) else m !! k'.
Proof.
  unfold map_touch. destruct (m !! k) eqn:Hk; case_decide; subst; simpl; [done|done| |].
  - by rewrite lookup_insert_eq.
  - by rewrite lookup_insert_ne.
Qed.

Lemma msum_touch {K V} `{Countable K} (g : V → Z) (m : gmap K V) k d : g d = 0 → msum g (map_touch k d m) = msum g m.
Proof. intros Hd. unfold map_touch. destruct (m !! k) eqn:Hk; [done|]. rewrite msum_insert by done. lia. Qed.

Lemma default_touch {K} `{Countable K} (m : gmap K Z) k k' : default 0 (map_touch k 0 m !! k') = default 0 (m !! k').
Proof. rewrite lookup_map_touch. case_decide; subst; simpl; [|done]. by destruct (m !! k'). Qed.

(** A per-process counter: one more, one less. *)
Definition incr (pid : Z) (cm : gmap Z Z) : gmap Z Z := <[pid := default 0 (cm !! pid) + 1]> cm.
Definition decr (pid : Z) (cm : gmap Z Z) : gmap Z Z :=
  match cm !! pid with
  | None => cm
  | Some n => if n - 1 =? 0 then delete pid cm else <[pid := n - 1]> cm
  end.

Lemma default_incr pid cm pid' : default 0 (incr pid cm !! pid') = default 0 (cm !! pid') + if pid =? pid' then 1 else 0.
Proof.
  unfold incr. destruct (Z.eqb_spec pid pid') as [<-|Hne].
  - by rewrite lookup_insert_eq.
  - rewrite lookup_insert_ne by done. lia.
Qed.

Lemma default_decr pid cm pid' :
  0 < default 0 (cm !! pid) →
  default 0 (decr pid cm !! pid') = default 0 (cm !! pid') - if pid =? pid' then 1 else 0.
Proof.
  intros Hpos. unfold decr. destruct (cm !! pid) as [n|] eqn:Hn; simpl in Hpos; [|lia].
  destruct (Z.eqb_spec pid pid') as [<-|Hne].
  - rewrite Hn. simpl. destruct (Z.eqb_spec (n - 1) 0).
    + rewrite lookup_delete_eq. simpl. lia.
    + by rewrite lookup_insert_eq.
  - rewrite Z.sub_0_r. destruct (n - 1 =? 0); [by rewrite lookup_delete_ne|by rewrite lookup_insert_ne].
Qed.

(** ** Status listeners *)

Definition ofPid (pid : Z) (i : SAListener) : bool := sal_callingPid i =? pid.
Definition listeners_of (lm : gmap Z (list SAListener)) (pid : Z) : Z := msum (countb (ofPid pid)) lm.
Definition listener_object (i : SAListener) : option RemoteObject := sc_AsObject <$> sal_listener i.

Record sub_inv (lm : gmap Z (list SAListener)) (cm : gmap Z Z) : Prop := {
  si_some k l i : lm !! k = Some l → i ∈ l → is_Some (sal_listener i);
  si_nodup k l : lm !! k = Some l → NoDup (listener_object <$> l);
  si_count pid : default 0 (cm !! pid) = listeners_of lm pid;
  si_bound pid : listeners_of lm pid ≤ MAX_SUBSCRIBE_COUNT;
}.

Definition sub_ok (m : Mgr) : Prop :=
  abilityStatusDeath_ m = true ∧ sub_inv (listenerMap_ m) (subscribeCountMap_ m).

(** The notification state of an item is not part of the invariant. *)
Definition identity (i : SAListener) : option StatusChange * Z := (sal_listener i, sal_callingPid i).

Lemma identity_facts l l' :
  identity <$> l' = identity <$> l →
  listener_object <$> l' = listener_object <$> l ∧ (∀ pid, countb (ofPid pid) l' = countb (ofPid pid) l)
  ∧ ((∀ i, i ∈ l → is_Some (sal_listener i)) → ∀ i, i ∈ l' → is_Some (sal_listener i)).
Proof.
  revert l. induction l' as [|i' l' IH]; intros [|i l]; try done. rewrite !fmap_cons. intros [= E1 E2 E3].
  destruct (IH l E3) as (IH1 & IH2 & IH3). split; [|split].
  - rewrite IH1. unfold listener_object at 1 3. by rewrite E1.
  - intros pid. rewrite !countb_cons, IH2. unfold ofPid. by rewrite E2.
  - intros Hall j [->|Hj]%elem_of_cons; [rewrite E1; apply Hall; set_solver|]. apply IH3; set_solver.
Qed.

Lemma sub_relabel lm cm k f :
  (∀ l, identity <$> f l = identity <$> l) → sub_inv lm cm → sub_inv (alter f k lm) cm.
Proof.
  intros Hf [Hs Hn Hc Hb].
  assert (Hl : ∀ pid, listeners_of (alter f k lm) pid = listeners_of lm pid).
  { intros pid. apply msum_alter_same. intros l _. by apply identity_facts. }
  split; [| |intros pid; by rewrite Hl|intros pid; by rewrite Hl].
  - intros k' l i Hl' Hi. destruct (decide (k = k')) as [<-|Hne]; [|rewrite lookup_alter_ne in Hl' by done; eauto].
    rewrite lookup_alter_eq in Hl'. apply fmap_Some in Hl' as (l0 & Hl0 & ->).
    destruct (identity_facts _ _ (Hf l0)) as (_ & _ & H3). apply H3; [|done]. intros j Hj. by eapply Hs.
  - intros k' l Hl'. destruct (decide (k = k')) as [<-|Hne]; [|rewrite lookup_alter_ne in Hl' by done; eauto].
    rewrite lookup_alter_eq in Hl'. apply fmap_Some in Hl' as (l0 & Hl0 & ->).
    destruct (identity_facts _ _ (Hf l0)) as (-> & _). eauto.
Qed.

Lemma sub_touch lm cm k : sub_inv lm cm → sub_inv (map_touch k [] lm) cm.
Proof.
  intros [Hs Hn Hc Hb].
  assert (Hl : ∀ pid, listeners_of (map_touch k [] lm) pid = listeners_of lm pid) by (intros; by apply msum_touch).
  split; [| |intros pid; by rewrite Hl|intros pid; by rewrite Hl].
  - intros k' l i. rewrite lookup_map_touch. case_decide; [|by apply Hs]. intros [= <-] Hi.
    destruct (lm !! k) eqn:Hk; simpl in Hi; [by eapply Hs|set_solver].
  - intros k' l. rewrite lookup_map_touch. case_decide; [|by apply Hn]. intros [= <-].
    destruct (lm !! k) eqn:Hk; simpl; [by eapply Hn|apply NoDup_nil_2].
Qed.

Lemma sub_touch_count lm cm pid : sub_inv lm cm → sub_inv lm (map_touch pid 0 cm).
Proof. intros [Hs Hn Hc Hb]. split; try done. intros pid'. by rewrite default_touch. Qed.

(** A listener that is not there yet, of a process below its limit. *)
Lemma sub_add lm cm k l sc pid st :
  sub_inv lm cm → lm !! k = Some l → Some (sc_AsObject sc) ∉ listener_object <$> l →
  default 0 (cm !! pid) < MAX_SUBSCRIBE_COUNT →
  sub_inv (alter (λ ls, ls ++ [MkSAListener (Some sc) pid st]) k lm) (incr pid cm).
Proof.
  intros [Hs Hn Hc Hb] Hk Hnew Hlim.
  assert (Hl : ∀ pid', listeners_of (alter (λ ls, ls ++ [MkSAListener (Some sc) pid st]) k lm) pid' =
                       listeners_of lm pid' + if pid =? pid' then 1 else 0).
  { intros pid'. unfold listeners_of. rewrite (msum_alter _ _ _ _ _ Hk), countb_snoc. unfold ofPid at 4. simpl. lia. }
  split.
  - intros k' l' i Hl' Hi. destruct (decide (k = k')) as [<-|Hne]; [|rewrite lookup_alter_ne in Hl' by done; eauto].
    rewrite lookup_alter_eq, Hk in Hl'. injection Hl' as <-. apply elem_of_app in Hi as [Hi|Hi]; [eauto|].
    apply list_elem_of_singleton in Hi as ->. done.
  - intros k' l' Hl'. destruct (decide (k = k')) as [<-|Hne]; [|rewrite lookup_alter_ne in Hl' by done; eauto].
    rewrite lookup_alter_eq, Hk in Hl'. injection Hl' as <-. rewrite fmap_app. apply NoDup_app.
    split; [eauto|]. split; [|apply NoDup_singleton]. intros o Ho ->%list_elem_of_singleton. done.
  - intros pid'. rewrite default_incr, Hl, Hc. done.
  - intros pid'. rewrite Hl. specialize (Hb pid'). destruct (Z.eqb_spec pid pid') as [<-|]; [rewrite Hc in Hlim|]; lia.
Qed.

Lemma findListener_Some obj l k i :
  findListener obj l = Some (k, i) → l !! k = Some i ∧ listener_object i = Some obj.
Proof.
  revert k i. induction l as [|j l IH]; intros k i; simpl; [done|].
  destruct (sal_listener j) as [sc|] eqn:Hj; [|done]. case_bool_decide as Ho.
  - intros [= <- <-]. unfold listener_object. rewrite Hj. simpl. by rewrite Ho.
  - destruct (findListener obj l) as [[k' i']|] eqn:Hf; [|done]. intros [= <- <-]. by apply IH.
Qed.

Lemma findListener_None obj l :
  (∀ i, i ∈ l → is_Some (sal_listener i)) → findListener obj l = None → Some obj ∉ listener_object <$> l.
Proof.
  induction l as [|j l IH]; intros Hall; simpl; [set_solver|].
  destruct (Hall j) as [sc Hj]; [set_solver|]. rewrite Hj. case_bool_decide as Ho; [done|].
  destruct (findListener obj l) as [[k' i']|]; [done|]. intros _. rewrite not_elem_of_cons.
  split; [|apply IH; [set_solver|done]]. unfold listener_object. rewrite Hj. simpl. congruence.
Qed.

Lemma countb_delete {A} (f : A → bool) l k x : l !! k = Some x → countb f (delete k l) = countb f l - if f x then 1 else 0.
Proof.
  revert k. induction l as [|y l IH]; intros [|k] Hk; simpl in *; try done.
  - injection Hk as ->. rewrite countb_cons. lia.
  - rewrite !countb_cons, (IH k Hk). lia.
Qed.

Lemma sub_remove lm cm k l n i :
  sub_inv lm cm → lm !! k = Some l → l !! n = Some i →
  sub_inv (alter (delete n) k lm) (decr (sal_callingPid i) cm).
Proof.
  intros [Hs Hn Hc Hb] Hk Hi.
  assert (Hl : ∀ pid', listeners_of (alter (delete n) k lm) pid' =
                       listeners_of lm pid' - if sal_callingPid i =? pid' then 1 else 0).
  { intros pid'. unfold listeners_of. rewrite (msum_alter _ _ _ _ _ Hk), (countb_delete _ _ _ _ Hi). unfold ofPid. lia. }
  assert (Hpos : 0 < default 0 (cm !! sal_callingPid i)).
  { rewrite Hc. eapply Z.lt_le_trans; [|eapply msum_ge; [intros; apply countb_nonneg|exact Hk]].
    eapply countb_pos; [by eapply list_elem_of_lookup_2|]. unfold ofPid. lia. }
  split.
  - intros k' l' j Hl' Hj. destruct (decide (k = k')) as [<-|Hne]; [|rewrite lookup_alter_ne in Hl' by done; eauto].
    rewrite lookup_alter_eq, Hk in Hl'. injection Hl' as <-. eapply Hs; [done|].
    eapply elem_of_submseteq; [exact Hj|]. apply sublist_submseteq, sublist_delete.
  - intros k' l' Hl'. destruct (decide (k = k')) as [<-|Hne]; [|rewrite lookup_alter_ne in Hl' by done; eauto].
    rewrite lookup_alter_eq, Hk in Hl'. injection Hl' as <-.
    eapply sublist_NoDup; [by eapply Hn|]. apply fmap_sublist, sublist_delete.
  - intros pid'. rewrite default_decr, Hl, Hc by done. done.
  - intros pid'. rewrite Hl. specialize (Hb pid'). destruct (_ =? _); lia.
Qed.

(** *** The operations on listeners *)

#[export] Hint Extern 4 (respects (keeps_mgr _) _) => solve [intros ? Hkeep; exact Hkeep] : respects.

Section listeners.
Context `{E : Env}.

Lemma updListener_keeps k f :
  (∀ l, identity <$> f l = identity <$> l) → respects (keeps_mgr sub_ok) (updM listenerMap_ (alter f k)).
Proof. intros Hf w [Hd HI]. split; [done|]. by apply sub_relabel. Qed.

Lemma setState_identity st (l : list SAListener) : identity <$> ((λ i : SAListener, i <| sal_state := st |>) <$> l) = identity <$> l.
Proof. induction l as [|i l IH]; [done|]. rewrite !fmap_cons. by f_equal. Qed.
Lemma setState_identity_at st n (l : list SAListener) : identity <$> (alter (λ i : SAListener, i <| sal_state := st |>) n l) = identity <$> l.
Proof. revert n. induction l as [|i l IH]; intros [|n]; try done. simpl. f_equal. apply IH. Qed.
Lemma touchListener_keeps k : respects (keeps_mgr sub_ok) (updM listenerMap_ (map_touch k [])).
Proof. intros w [Hd HI]. split; [done|]. by apply sub_touch. Qed.
Lemma touchCount_keeps p : respects (keeps_mgr sub_ok) (updM subscribeCountMap_ (map_touch p 0)).
Proof. intros w [Hd HI]. split; [done|]. by apply sub_touch_count. Qed.
Hint Resolve updListener_keeps setState_identity setState_identity_at touchListener_keeps touchCount_keeps : respects.

Lemma NotifyChanged_sub said d c l : respects frame (NotifySystemAbilityChanged said d c l).
Proof. unfold NotifySystemAbilityChanged. solve_respects. Qed.
Hint Resolve NotifyChanged_sub : respects.
Lemma FindNotify_sub said d c : respects (keeps_mgr sub_ok) (FindSystemAbilityNotify said d c).
Proof. unfold FindSystemAbilityNotify. solve_respects. Qed.
Lemma MultiNotify_sub said d c l : respects (keeps_mgr sub_ok) (MultiNotifySystemAbilityChanged said d c l).
Proof. unfold MultiNotifySystemAbilityChanged. solve_respects. Qed.
Hint Resolve MultiNotify_sub : respects.
Lemma MultiFindNotify_sub said d c : respects (keeps_mgr sub_ok) (MultiFindSystemAbilityNotify said d c).
Proof. unfold MultiFindSystemAbilityNotify. solve_respects. Qed.
Hint Resolve FindNotify_sub MultiFindNotify_sub : respects.
Lemma virtualFindNotify_sub said d c : respects (keeps_mgr sub_ok) (virtualFindNotify said d c).
Proof. unfold virtualFindNotify. solve_respects. Qed.
Lemma virtualNotifyChanged_sub said d c l : respects (keeps_mgr sub_ok) (virtualNotifyChanged said d c l).
Proof. unfold virtualNotifyChanged. solve_respects. Qed.
Lemma Refresh_sub said : respects (keeps_mgr sub_ok) (RefreshListenerState said).
Proof. unfold RefreshListenerState. solve_respects. Qed.
Lemma CheckSA_sub said : respects (keeps_mgr sub_ok) (CheckSystemAbility said).
Proof. unfold CheckSystemAbility, UpdateSaFreMap. solve_respects. Qed.
Hint Resolve CheckSA_sub : respects.
Lemma CheckListenerNotify_sub said l : respects (keeps_mgr sub_ok) (CheckListenerNotify said l).
Proof. unfold CheckListenerNotify, NotifySystemAbilityAddedByAsync. solve_respects. Qed.

(** The limit is checked and the count kept. *)
Lemma SubscribeInner_sub said l p : respects (keeps_mgr sub_ok) (SubscribeSystemAbilityInner said l p).
Proof.
  apply keeps_mgr_wp. intros w [Hd HI]. unfold SubscribeSystemAbilityInner.
  destruct l as [sc|]; [|done]. wp_case; [done|]. wp_seq. apply (sub_touch _ _ said) in HI.
  wp_case; [by split|]. wp_seq.
  destruct (MAX_SUBSCRIBE_COUNT <=? _) eqn:Hlim; wp_seq; [by split; [|apply sub_touch_count]|].
  apply wp_when; [intros _|intros Hd'; simpl in Hd'; congruence]. wp_seq.
  apply (wp_same w_mgr); [intros ?; reflexivity|]. cbv beta. intros _ w1 H1. wp_seq.
  apply wp_keeps_mgr; [apply CheckListenerNotify_sub|].
  cbn. rewrite H1. split; [done|]. cbn.
  assert (Hl : map_touch said [] (listenerMap_ (w_mgr w)) !! said = Some (default [] (listenerMap_ (w_mgr w) !! said))).
  { by rewrite lookup_map_touch, decide_True. }
  refine (sub_add _ _ _ _ _ _ _ (sub_touch_count _ _ p HI) Hl _ _); [|simpl in Hlim; lia].
  simpl in Heqb0. rewrite Hl in Heqb0. simpl in Heqb0.
  intros (i & Ho & Hi)%list_elem_of_fmap. apply not_true_iff_false in Heqb0. apply Heqb0.
  apply existsb_exists. exists i. split; [by apply list_elem_of_In|]. by apply bool_decide_eq_true.
Qed.
Lemma Subscribe_sub said l : respects (keeps_mgr sub_ok) (SubscribeSystemAbility said l).
Proof. unfold SubscribeSystemAbility. solve_respects. apply SubscribeInner_sub. Qed.

Lemma UnSubscribeLocked_eq said obj w :
  UnSubscribeSystemAbilityLocked said obj w =
  match findListener obj (default [] (listenerMap_ (w_mgr w) !! said)) with
  | None => (tt, w)
  | Some (k, i) => (tt, w <| w_mgr ::= λ m, m <| subscribeCountMap_ ::= decr (sal_callingPid i) |>
                                             <| listenerMap_ ::= alter (delete k) said |> |>)
  end.
Proof.
  unfold UnSubscribeSystemAbilityLocked, mbind, M_bind, getM, gets. simpl.
  destruct (findListener _ _) as [[k i]|]; [|done]. unfold decr, set_with. simpl.
  destruct (subscribeCountMap_ (w_mgr w) !! sal_callingPid i) as [n|] eqn:Hn; [destruct (n - 1 =? 0)|];
    unfold updM, modify, set_with; simpl; reflexivity.
Qed.

Lemma UnSubscribeLocked_sub said obj : respects (keeps_mgr sub_ok) (UnSubscribeSystemAbilityLocked said obj).
Proof.
  intros w [Hd HI]. rewrite UnSubscribeLocked_eq. destruct (findListener _ _) as [[k i]|] eqn:Hf; [|done].
  split; [done|]. simpl. destruct (findListener_Some _ _ _ _ Hf) as [Hi _].
  destruct (listenerMap_ (w_mgr w) !! said) as [l|] eqn:Hl; simpl in Hi; [|done]. by eapply sub_remove.
Qed.
Hint Resolve UnSubscribeLocked_sub : respects.
Lemma UnSubscribe_sub said l : respects (keeps_mgr sub_ok) (UnSubscribeSystemAbility said l).
Proof. unfold UnSubscribeSystemAbility. solve_respects. Qed.
Lemma UnSubscribeRemote_sub o : respects (keeps_mgr sub_ok) (UnSubscribeSystemAbilityRemote o).
Proof. unfold UnSubscribeSystemAbilityRemote. solve_respects. Qed.
Hint Resolve UnSubscribeRemote_sub : respects.
Lemma virtualUnSubscribeRemote_sub o : respects (keeps_mgr sub_ok) (virtualUnSubscribeRemote o).
Proof. unfold virtualUnSubscribeRemote. apply override_respects; [typeclasses eauto|..]; unfold MultiUnSubscribeSystemAbilityRemote; solve_respects. Qed.
Hint Resolve virtualUnSubscribeRemote_sub : respects.
Lemma AsyncUnSubscribe_sub o : respects (keeps_mgr sub_ok) (AsyncUnSubscribeSystemAbility o).
Proof. unfold AsyncUnSubscribeSystemAbility. solve_respects. Qed.
End listeners.
#[export] Hint Resolve FindNotify_sub Refresh_sub CheckListenerNotify_sub Subscribe_sub UnSubscribe_sub
  UnSubscribeRemote_sub AsyncUnSubscribe_sub virtualFindNotify_sub virtualNotifyChanged_sub
  virtualUnSubscribeRemote_sub : respects.

(** ** Load callbacks *)

Lemma filter_id {A} (P : A → Prop) `{!∀ x, Decision (P x)} (l : list A) : (∀ x, x ∈ l → P x) → filter P l = l.
Proof.
  induction l as [|x l IH]; intros Hall; [done|]. rewrite filter_cons, decide_True by (apply Hall; set_solver).
  f_equal. apply IH. set_solver.
Qed.

Lemma sublist_filter_mono {A} (P : A → Prop) `{!∀ x, Decision (P x)} (l k : list A) :
  sublist l k → sublist (filter P l) (filter P k).
Proof. induction 1; rewrite ?filter_cons; repeat case_decide; first [done | by constructor | apply sublist_nil_l]. Qed.

Definition cbOfPid (pid : Z) (c : LoadCallback * Z) : bool := c.2 =? pid.
Definition item_callbacks (pid : Z) (i : AbilityItem) : Z := msum (countb (cbOfPid pid)) (callbackMap i).
Definition callbacks_of (sm : gmap Z AbilityItem) (pid : Z) : Z := msum (item_callbacks pid) sm.

(** Callbacks of remote devices carry the process id 0 and are not counted. *)
Definition counted (c : LoadCallback * Z) : Prop := c.2 ≠ 0.
#[local] Instance counted_dec c : Decision (counted c) := decide (c.2 ≠ 0).
Definition lists_ok (i : AbilityItem) : Prop :=
  ∀ dev l, callbackMap i !! dev = Some l → NoDup (filter counted l).

Record cb_inv (sm : gmap Z AbilityItem) (cm : gmap Z Z) : Prop := {
  cb_distinct k i : sm !! k = Some i → lists_ok i;
  cb_count pid : pid ≠ 0 → default 0 (cm !! pid) = callbacks_of sm pid;
  cb_bound pid : pid ≠ 0 → callbacks_of sm pid ≤ MAX_SUBSCRIBE_COUNT;
}.
Definition cb_ok (m : Mgr) : Prop := cb_inv (startingAbilityMap_ m) (callbackCountMap_ m).

Lemma item_callbacks_nonneg pid i : 0 ≤ item_callbacks pid i.
Proof. apply msum_nonneg. intros. apply countb_nonneg. Qed.

(** An item is replaced and the counters follow. *)
Lemma cb_update sm cm cm' k i f :
  cb_inv sm cm → sm !! k = Some i → lists_ok (f i) →
  (∀ pid, pid ≠ 0 → default 0 (cm' !! pid) = default 0 (cm !! pid) + item_callbacks pid (f i) - item_callbacks pid i) →
  (∀ pid, pid ≠ 0 → default 0 (cm' !! pid) ≤ MAX_SUBSCRIBE_COUNT) →
  cb_inv (alter f k sm) cm'.
Proof.
  intros [Hd Hc Hb] Hk Hf Hcm Hlim.
  assert (Hs : ∀ pid, pid ≠ 0 → default 0 (cm' !! pid) = callbacks_of (alter f k sm) pid).
  { intros pid Hp. unfold callbacks_of. rewrite (msum_alter _ _ _ _ _ Hk), Hcm, Hc by done. unfold callbacks_of. lia. }
  split; [|done|intros pid Hp; rewrite <- Hs by done; auto].
  intros k' i' Hi'. destruct (decide (k = k')) as [<-|Hne]; [|rewrite lookup_alter_ne in Hi' by done; eauto].
  rewrite lookup_alter_eq, Hk in Hi'. by injection Hi' as <-.
Qed.

(** ... without changing what is counted. *)
Lemma cb_relabel sm cm k f :
  cb_inv sm cm → (∀ i, lists_ok i → lists_ok (f i)) → (∀ pid i, pid ≠ 0 → item_callbacks pid (f i) = item_callbacks pid i) →
  cb_inv (alter f k sm) cm.
Proof.
  intros HI Hf Hcount. destruct (sm !! k) as [i|] eqn:Hk; [|by rewrite alter_id by congruence].
  apply (cb_update _ cm _ _ i); [done|done| | |].
  - apply Hf. by eapply cb_distinct.
  - intros pid Hp. rewrite Hcount by done. lia.
  - intros pid Hp. rewrite (cb_count _ _ HI pid Hp). by apply (cb_bound _ _ HI).
Qed.

Lemma cb_touch sm cm k : cb_inv sm cm → cb_inv (map_touch k newAbilityItem sm) cm.
Proof.
  intros [Hd Hc Hb].
  assert (Hl : ∀ pid, callbacks_of (map_touch k newAbilityItem sm) pid = callbacks_of sm pid) by (intros; by apply msum_touch).
  split; [|intros pid; rewrite Hl; auto|intros pid; rewrite Hl; auto].
  intros k' i. rewrite lookup_map_touch. case_decide; [|by apply Hd]. intros [= <-].
  destruct (sm !! k) eqn:Hk; simpl; [by eapply Hd|]. intros dev l [=].
Qed.

Lemma cb_touch_count sm cm pid : cb_inv sm cm → cb_inv sm (map_touch pid 0 cm).
Proof. intros [Hs Hc Hb]. split; try done. intros pid' Hp. rewrite default_touch. auto. Qed.

(** An item whose callbacks no process is counted for. *)
Lemma cb_delete sm cm cm' k i :
  cb_inv sm cm → sm !! k = Some i →
  (∀ pid, pid ≠ 0 → default 0 (cm' !! pid) = default 0 (cm !! pid) - item_callbacks pid i) →
  cb_inv (delete k sm) cm'.
Proof.
  intros [Hd Hc Hb] Hk Hcm.
  assert (Hs : ∀ pid, pid ≠ 0 → callbacks_of (delete k sm) pid = callbacks_of sm pid - item_callbacks pid i).
  { intros pid Hp. unfold callbacks_of. rewrite (msum_delete _ sm _ _ Hk). lia. }
  split.
  - intros k' i' [_ Hi']%lookup_delete_Some. eauto.
  - intros pid Hp. rewrite Hs, Hcm, Hc by done. done.
  - intros pid Hp. rewrite Hs by done. specialize (Hb pid Hp). pose proof (item_callbacks_nonneg pid i). lia.
Qed.

(** *** Changes of one list of callbacks *)

Lemma lists_alter i dev l g :
  lists_ok i → callbackMap i !! dev = Some l → NoDup (filter counted (g l)) →
  lists_ok (i <| callbackMap ::= alter g dev |>).
Proof.
  intros Hi Hl Hg dev' l'. simpl. destruct (decide (dev = dev')) as [<-|Hne].
  - rewrite lookup_alter_eq, Hl. by intros [= <-].
  - rewrite lookup_alter_ne by done. by apply Hi.
Qed.

Lemma callbacks_alter i dev l g pid :
  callbackMap i !! dev = Some l →
  item_callbacks pid (i <| callbackMap ::= alter g dev |>) =
  item_callbacks pid i - countb (cbOfPid pid) l + countb (cbOfPid pid) (g l).
Proof. intros Hl. unfold item_callbacks. simpl. by apply msum_alter. Qed.

Lemma lists_touch i dev : lists_ok i → lists_ok (i <| callbackMap ::= map_touch dev [] |>).
Proof.
  intros Hi dev' l. simpl. rewrite lookup_map_touch. case_decide; [|by apply Hi]. intros [= <-].
  destruct (callbackMap i !! dev) eqn:Hd; simpl; [by eapply Hi|apply NoDup_nil_2].
Qed.
Lemma callbacks_touch i dev pid : item_callbacks pid (i <| callbackMap ::= map_touch dev [] |>) = item_callbacks pid i.
Proof. by apply msum_touch. Qed.

(** A callback that is new, or not counted. *)
Lemma lists_add i dev c :
  lists_ok i → (counted c → c ∉ default [] (callbackMap i !! dev)) → lists_ok (addCallback dev c i).
Proof.
  intros Hi Hc dev' l. unfold addCallback. simpl. intros [[<- <-]|[_ Hl]]%lookup_insert_Some; [|by eapply Hi].
  rewrite filter_app. assert (Hnd : NoDup (filter counted (default [] (callbackMap i !! dev)))).
  { destruct (callbackMap i !! dev) eqn:Hl; simpl; [by eapply Hi|apply NoDup_nil_2]. }
  apply NoDup_app. split; [done|]. rewrite filter_cons. case_decide as Hcc; simpl; [|split; [set_solver|apply NoDup_nil_2]].
  split; [|apply NoDup_singleton]. intros c' [_ Hc']%list_elem_of_filter ->%list_elem_of_singleton. by apply Hc.
Qed.
Lemma callbacks_add i dev c pid :
  item_callbacks pid (addCallback dev c i) = item_callbacks pid i + if c.2 =? pid then 1 else 0.
Proof.
  unfold item_callbacks, addCallback. simpl. destruct (callbackMap i !! dev) as [l|] eqn:Hl; simpl.
  - rewrite (msum_update _ _ _ _ _ Hl), countb_snoc. unfold cbOfPid at 4. lia.
  - rewrite msum_insert by done. rewrite countb_cons, countb_nil. unfold cbOfPid at 1. lia.
Qed.

(** [std::list::remove(c)] of a callback that is in the list removes one counted callback. *)
Lemma countb_remove c l pid :
  pid ≠ 0 → NoDup (filter counted l) → c ∈ l →
  countb (cbOfPid pid) (filter (λ c', c' ≠ c) l) = countb (cbOfPid pid) l - if c.2 =? pid then 1 else 0.
Proof.
  intros Hp. induction l as [|x l IH]; [set_solver|]. rewrite !filter_cons, countb_cons. intros Hnd Hc.
  assert (Hnd' : NoDup (filter counted l)). { destruct (decide (counted x)); [by apply NoDup_cons in Hnd as [_ ?]|done]. }
  destruct (decide (x = c)) as [->|Hne].
  - rewrite decide_False by tauto. unfold cbOfPid at 2. destruct (Z.eqb_spec c.2 pid) as [E'|E'].
    + assert (Hcc : counted c) by (unfold counted; congruence). rewrite decide_True in Hnd by done.
      apply NoDup_cons in Hnd as [Hnot _]. f_equal. rewrite Z.add_simpl_l. f_equal.
      apply filter_id. intros y Hy ->. apply Hnot. by apply list_elem_of_filter.
    + destruct (decide (c ∈ l)) as [Hin|Hout]; [rewrite IH by done; destruct (Z.eqb_spec c.2 pid); lia|].
      rewrite Z.sub_0_r, Z.add_0_l. f_equal. apply filter_id. intros y Hy ->. done.
  - rewrite decide_True by done. rewrite countb_cons, IH by set_solver. lia.
Qed.

Lemma NoDup_filter_sub l l' : sublist l' l → NoDup (filter counted l) → NoDup (filter counted l').
Proof. intros Hs Hn. eapply sublist_NoDup; [exact Hn|]. by apply sublist_filter_mono. Qed.

Lemma default_decr_other pid cm pid' : pid ≠ pid' → default 0 (decr pid cm !! pid') = default 0 (cm !! pid').
Proof.
  intros Hne. unfold decr. destruct (cm !! pid); [|done].
  case_match; [by rewrite lookup_delete_ne|by rewrite lookup_insert_ne].
Qed.

(** Decrementing for a list of callbacks, as long as each is counted. *)
Lemma default_decrs (l : CallbackList) cm pid :
  countb (cbOfPid pid) l ≤ default 0 (cm !! pid) →
  default 0 (foldl (λ cm c, decr c.2 cm) cm l !! pid) = default 0 (cm !! pid) - countb (cbOfPid pid) l.
Proof.
  revert cm. induction l as [|c l IH]; intros cm Hle; [rewrite countb_nil; simpl; lia|]. simpl.
  rewrite countb_cons in Hle |- *. change (cbOfPid pid c) with (c.2 =? pid) in Hle |- *.
  pose proof (countb_nonneg (cbOfPid pid) l).
  assert (Hd : default 0 (decr c.2 cm !! pid) = default 0 (cm !! pid) - if c.2 =? pid then 1 else 0).
  { destruct (Z.eqb_spec c.2 pid) as [->|Hne]; [rewrite default_decr, Z.eqb_refl by lia; done|].
    rewrite default_decr_other by done. lia. }
  rewrite IH, Hd; lia.
Qed.

(** A callback of one list is removed and its process' counter decremented. *)
Lemma cb_remove sm cm k i dev l g c :
  cb_inv sm cm → sm !! k = Some i → callbackMap i !! dev = Some l → c ∈ l → sublist (g l) l →
  (∀ pid, pid ≠ 0 → countb (cbOfPid pid) (g l) = countb (cbOfPid pid) l - if c.2 =? pid then 1 else 0) →
  cb_inv (alter (λ i, i <| callbackMap ::= alter g dev |>) k sm) (decr c.2 cm).
Proof.
  intros HI Hk Hl Hc Hsub Hcount.
  assert (Hle : ∀ pid, pid ≠ 0 → countb (cbOfPid pid) l ≤ default 0 (cm !! pid)).
  { intros pid Hp. rewrite (cb_count _ _ HI pid Hp). etrans; [|eapply msum_ge; [apply item_callbacks_nonneg|exact Hk]].
    unfold item_callbacks. eapply (msum_ge (countb (cbOfPid pid))); [intros; apply countb_nonneg|exact Hl]. }
  assert (Hd : ∀ pid, pid ≠ 0 → default 0 (decr c.2 cm !! pid) = default 0 (cm !! pid) - if c.2 =? pid then 1 else 0).
  { intros pid Hp. destruct (Z.eqb_spec c.2 pid) as [E'|Hne]; [|rewrite default_decr_other by done; lia].
    rewrite default_decr, E', Z.eqb_refl; [done|]. rewrite E'. specialize (Hle pid Hp).
    assert (0 < countb (cbOfPid pid) l); [|lia]. eapply countb_pos; [done|]. unfold cbOfPid. lia. }
  apply (cb_update _ cm _ _ i); [done|done| | |].
  - eapply lists_alter; [by eapply cb_distinct|done|]. eapply NoDup_filter_sub; [exact Hsub|].
    by eapply (cb_distinct _ _ HI).
  - intros pid Hp. rewrite (callbacks_alter _ _ _ _ _ Hl), Hcount, Hd by done. lia.
  - intros pid Hp. rewrite Hd by done. rewrite (cb_count _ _ HI pid Hp).
    pose proof (cb_bound _ _ HI pid Hp). destruct (_ =? _); lia.
Qed.

Lemma lists_dropDevice dev i : lists_ok i → lists_ok (dropDevice dev i).
Proof.
  intros Hi. unfold dropDevice. case_bool_decide; [|done]. intros dev' l. simpl.
  intros [_ Hl]%lookup_delete_Some. by eapply Hi.
Qed.
Lemma callbacks_dropDevice dev i pid : item_callbacks pid (dropDevice dev i) = item_callbacks pid i.
Proof.
  unfold dropDevice. case_bool_decide as He; [|done]. unfold item_callbacks. simpl.
  destruct (callbackMap i !! dev) as [l|] eqn:Hl; simpl in He; [|by rewrite delete_id].
  rewrite (msum_delete _ (callbackMap i) _ _ Hl). subst l. done.
Qed.
Lemma cb_dropItem said sm cm : cb_inv sm cm → cb_inv (dropItem said sm) cm.
Proof.
  intros HI. unfold dropItem. destruct (sm !! said) as [i|] eqn:Hk; [|done]. case_bool_decide as He; [|done].
  apply (cb_delete _ cm _ _ i); [done..|]. intros pid Hp. unfold item_callbacks. rewrite He, msum_empty. lia.
Qed.

Section callbacks.
Context `{E : Env}.

Lemma cb_updStarting_keeps k f :
  (∀ i, lists_ok i → lists_ok (f i)) → (∀ pid i, pid ≠ 0 → item_callbacks pid (f i) = item_callbacks pid i) →
  respects (keeps_mgr cb_ok) (updM startingAbilityMap_ (alter f k)).
Proof. intros H1 H2 w HI. by apply cb_relabel. Qed.
Lemma cb_touchStarting_keeps k : respects (keeps_mgr cb_ok) (updM startingAbilityMap_ (map_touch k newAbilityItem)).
Proof. intros w HI. by apply cb_touch. Qed.
Lemma cb_dropDevice_keeps k dev : respects (keeps_mgr cb_ok) (updM startingAbilityMap_ (alter (dropDevice dev) k)).
Proof. apply cb_updStarting_keeps; intros; [by apply lists_dropDevice|by apply callbacks_dropDevice]. Qed.
Lemma cb_dropItem_keeps k : respects (keeps_mgr cb_ok) (updM startingAbilityMap_ (dropItem k)).
Proof. intros w HI. by apply cb_dropItem. Qed.
Hint Resolve cb_touchStarting_keeps cb_dropDevice_keeps cb_dropItem_keeps : respects.
Hint Extern 2 (respects (keeps_mgr cb_ok) (updM startingAbilityMap_ (alter _ _))) =>
  apply cb_updStarting_keeps; [intros ? Hi; exact Hi|intros; reflexivity] : respects.

Lemma CheckSA_cb said : respects (keeps_mgr cb_ok) (CheckSystemAbility said).
Proof. unfold CheckSystemAbility, UpdateSaFreMap. solve_respects. Qed.
Hint Resolve CheckSA_cb : respects.
Lemma StartInner_cb pn said : respects (keeps_mgr cb_ok) (StartOnDemandAbilityInner pn said).
Proof. unfold StartOnDemandAbilityInner. solve_respects. Qed.
Hint Resolve StartInner_cb : respects.
Lemma StartLocked_cb said : respects (keeps_mgr cb_ok) (StartOnDemandAbilityLocked said).
Proof. unfold StartOnDemandAbilityLocked. solve_respects. Qed.
Hint Resolve StartLocked_cb : respects.
Lemma DoLoadOnDemand_cb said : respects (keeps_mgr cb_ok) (DoLoadOnDemandAbility said).
Proof.
  unfold DoLoadOnDemandAbility. solve_respects.
  intros w HI. apply cb_relabel; [by apply cb_touch|done..].
Qed.
Lemma StartingInit_cb pn said e : respects (keeps_mgr cb_ok) (StartingSystemProcessInit pn said e).
Proof. unfold StartingSystemProcessInit. solve_respects. Qed.
Hint Resolve StartingInit_cb : respects.
Lemma Starting_cb pn said e : respects (keeps_mgr cb_ok) (StartingSystemProcess pn said e).
Proof. unfold StartingSystemProcess, StartOnDemandAbility. solve_respects. Qed.
Lemma StartingLocked_cb pn said e : respects (keeps_mgr cb_ok) (StartingSystemProcessLocked pn said e).
Proof. unfold StartingSystemProcessLocked. solve_respects. Qed.
Hint Resolve Starting_cb StartingLocked_cb : respects.

(** The local load: the limit is checked and the count kept. *)
Lemma DoLoad_cb said pn cb p e : respects (keeps_mgr cb_ok) (DoLoadSystemAbility said pn cb p e).
Proof.
  unfold DoLoadSystemAbility. apply respects_bind; [auto with respects|]. intros [obj|]; [solve_respects|].
  apply keeps_mgr_wp. intros w HI. wp_seq.
  set (item0 := default newAbilityItem (startingAbilityMap_ (w_mgr w) !! said)).
  set (sm := alter (λ i : AbilityItem, i <| callbackMap ::= map_touch LOCAL_DEVICE [] |>) said
               (map_touch said newAbilityItem (startingAbilityMap_ (w_mgr w)))).
  assert (HI1 : cb_inv sm (callbackCountMap_ (w_mgr w))).
  { apply cb_relabel; [by apply cb_touch|intros; by apply lists_touch|intros; apply callbacks_touch]. }
  assert (Hk : sm !! said = Some (item0 <| callbackMap ::= map_touch LOCAL_DEVICE [] |>)).
  { unfold sm. by rewrite lookup_alter_eq, lookup_map_touch, decide_True. }
  set (i1 := item0 <| callbackMap ::= map_touch LOCAL_DEVICE [] |>) in *. clearbody i1.
  destruct cb as [c|]; wp_seq; [|exact HI1]. wp_case; wp_seq; [exact HI1|].
  destruct (MAX_SUBSCRIBE_COUNT <=? _) eqn:Hlim; wp_seq; [by apply cb_touch_count|].
  apply (wp_same w_mgr); [solve_respects|]. cbv beta. intros _ w1 H1. apply wp_keeps_mgr; [solve_respects|].
  rewrite H1. cbn in Hlim. unfold callbacksOf in Heqb. cbn in Heqb. fold sm in Heqb. rewrite Hk in Heqb.
  refine (cb_update _ (map_touch p 0 (callbackCountMap_ (w_mgr w))) (incr p (map_touch p 0 (callbackCountMap_ (w_mgr w))))
    _ _ (λ i, addCallback LOCAL_DEVICE (c, p) i <| ai_event := e |>) (cb_touch_count _ _ p HI1) Hk _ _ _).
  - change (lists_ok (addCallback LOCAL_DEVICE (c, p) i1)). apply lists_add; [eapply cb_distinct; [exact HI1|exact Hk]|].
    intros _ Hin. apply not_true_iff_false in Heqb. apply Heqb, existsb_exists. exists (c, p).
    split; [by apply list_elem_of_In|]. by apply bool_decide_eq_true.
  - intros pid Hp. rewrite default_incr.
    change (item_callbacks pid (addCallback LOCAL_DEVICE (c, p) i1 <| ai_event := e |>)) with
      (item_callbacks pid (addCallback LOCAL_DEVICE (c, p) i1)). rewrite callbacks_add. simpl. lia.
  - intros pid Hp. rewrite default_incr.
    pose proof (cb_bound _ _ HI1 pid Hp) as Hb. rewrite <- (cb_count _ _ HI1 pid Hp) in Hb.
    rewrite default_touch in Hlim |- *. destruct (Z.eqb_spec p pid) as [<-|]; lia.
Qed.

Lemma DoLoadFromRpc_cb d said pn cb e : respects (keeps_mgr cb_ok) (DoLoadSystemAbilityFromRpc d said pn cb e).
Proof.
  unfold DoLoadSystemAbilityFromRpc. solve_respects. intros w HI. apply cb_relabel; [by apply cb_touch| |].
  - intros i Hi. apply lists_add; [done|]. by intros [].
  - intros pid i Hp. rewrite callbacks_add. cbn [snd]. destruct (Z.eqb_spec 0 pid); lia.
Qed.

(** *** Callbacks leave the table together with their count *)

Lemma RemoveStartingLocked_mgr c w :
  w_mgr (RemoveStartingAbilityCallbackLocked c w).2 = (w_mgr w) <| callbackCountMap_ ::= decr c.2 |>.
Proof.
  change (wp (RemoveStartingAbilityCallbackLocked c) (λ _ w', w_mgr w' = (w_mgr w) <| callbackCountMap_ ::= decr c.2 |>) w).
  unfold RemoveStartingAbilityCallbackLocked. wp_seq. apply (wp_same w_mgr); [solve_respects|]. cbv beta.
  intros _ w1 H1. wp_seq. rewrite H1. unfold decr, set_with. simpl.
  destruct (callbackCountMap_ (w_mgr w) !! c.2) as [n|]; [destruct (n - 1 =? 0)|]; wp_seq; simpl;
    unfold set_with; rewrite H1; try reflexivity. by destruct (w_mgr w).
Qed.

(** Notify and release all callbacks of an SA. *)
Lemma releaseAll_mgr (l : CallbackList) (f : LoadCallback → M unit) w :
  (∀ c, respects (same w_mgr) (f c)) →
  w_mgr (forM l (λ c, f c.1;; RemoveStartingAbilityCallbackLocked c) w).2 =
  (w_mgr w) <| callbackCountMap_ ::= λ cm, foldl (λ cm c, decr c.2 cm) cm l |>.
Proof.
  intros Hf. revert w. induction l as [|c l IH]; intros w; [by destruct w as [? [] ? ? ?]|].
  change (wp (forM (c :: l) (λ c, f c.1;; RemoveStartingAbilityCallbackLocked c))
    (λ _ w', w_mgr w' = (w_mgr w) <| callbackCountMap_ ::= λ cm, foldl (λ cm c, decr c.2 cm) cm (c :: l) |>) w).
  simpl forM. wp_seq. apply (wp_same w_mgr); [apply Hf|]. cbv beta. intros _ w1 H1.
  unfold wp. rewrite IH, RemoveStartingLocked_mgr, H1. done.
Qed.

Lemma releaseAll_cb said i w (f : LoadCallback → M unit) :
  cb_ok (w_mgr w) → startingAbilityMap_ (w_mgr w) !! said = Some i → (∀ c, respects (same w_mgr) (f c)) →
  wp (forM (callbacksInOrder i) (λ c, f c.1;; RemoveStartingAbilityCallbackLocked c);;
      updM startingAbilityMap_ (delete said)) (λ _ w', cb_ok (w_mgr w')) w.
Proof.
  intros HI Hi Hf. wp_seq. unfold wp, updM, modify. simpl. rewrite (releaseAll_mgr _ f) by done.
  eapply cb_delete; [exact HI|exact Hi|]. intros pid Hp. simpl.
  assert (Hsum : countb (cbOfPid pid) (callbacksInOrder i) = item_callbacks pid i) by apply countb_flatten.
  rewrite default_decrs; rewrite Hsum; [done|]. rewrite (cb_count _ _ HI pid Hp).
  eapply msum_ge; [apply item_callbacks_nonneg|done].
Qed.

Lemma NotifyLoaded_cb said o : respects (keeps_mgr cb_ok) (NotifySystemAbilityLoaded said o).
Proof.
  apply keeps_mgr_wp. intros w HI. unfold NotifySystemAbilityLoaded. wp_seq. wp_case; [|done].
  apply (releaseAll_cb said a w (λ c, NotifyLoadedCallback said o (Some c)) HI); [done|]. intros c w'. reflexivity.
Qed.

Lemma OnStartFail_cb said e : respects (keeps_mgr cb_ok) (OnStartSystemAbilityFail said e).
Proof.
  apply keeps_mgr_wp. intros w HI. unfold OnStartSystemAbilityFail, failStart. wp_seq.
  eapply wp_mono; [apply wp_keeps_mgr; [apply CheckSA_cb|exact HI]|]. cbv beta. clear w HI. intros [?|] w HI; [done|].
  wp_seq. apply (wp_same w_mgr); [solve_respects|]. cbv beta. intros prof w1 H1. rewrite <- H1 in HI. clear w H1.
  wp_steps; try done. apply (wp_same w_mgr); [solve_respects|]. cbv beta. intros _ w2 H2.
  apply (wp_assoc (forM _ _) (λ _, updM _ _)), wp_bind.
  eapply wp_mono; [|intros ? ? H; exact H].
  apply (releaseAll_cb said a w2 (λ c, NotifySystemAbilityLoadFail said (Some c) e)); [by rewrite H2|by rewrite H2|].
  intros c' w'. reflexivity.
Qed.

(** The found callback is removed, and the tables cleaned up. *)
Lemma RemoveStarting_cb said dev obj : respects (keeps_mgr cb_ok) (RemoveStartingAbilityCallback said dev obj).
Proof.
  apply keeps_mgr_wp. intros w HI. unfold RemoveStartingAbilityCallback. wp_seq. wp_case; [|done].
  destruct p as [k c]. wp_seq. unfold wp, updM, modify. simpl. rewrite RemoveStartingLocked_mgr.
  apply list_find_Some in Heqo as (Hk & _ & _). unfold callbacksOf in Hk.
  destruct (startingAbilityMap_ (w_mgr w) !! said) as [i|] eqn:Hi; [|done].
  destruct (callbackMap i !! dev) as [l|] eqn:Hl; [|done]. simpl in Hk.
  eapply (cb_remove _ _ _ _ _ _ _ _ HI Hi Hl); [by eapply list_elem_of_lookup_2|apply sublist_delete|].
  intros pid Hp. exact (countb_delete (cbOfPid pid) _ _ _ Hk).
Qed.
Hint Resolve RemoveStarting_cb : respects.
Lemma RemoveForDevice_cb said obj : respects (keeps_mgr cb_ok) (RemoveStartingAbilityCallbackForDevice said obj).
Proof. unfold RemoveStartingAbilityCallbackForDevice. solve_respects. Qed.
Hint Resolve RemoveForDevice_cb : respects.
Lemma CallbackDied_cb o : respects (keeps_mgr cb_ok) (OnAbilityCallbackDied o).
Proof. unfold OnAbilityCallbackDied. solve_respects. Qed.

(** The callback whose load timed out. *)
Lemma removeFound_cb said dev c w :
  cb_ok (w_mgr w) → c ∈ callbacksOf (startingAbilityMap_ (w_mgr w)) said dev →
  wp (RemoveStartingAbilityCallbackLocked c;;
      updM startingAbilityMap_ (alter (λ i, i <| callbackMap ::= alter (filter (λ c', c' ≠ c)) dev |>) said))
    (λ _ w', cb_ok (w_mgr w')) w.
Proof.
  intros HI Hc. unfold callbacksOf in Hc. destruct (startingAbilityMap_ (w_mgr w) !! said) as [i|] eqn:Hi; [|set_solver].
  destruct (callbackMap i !! dev) as [l|] eqn:Hl; simpl in Hc; [|set_solver].
  wp_seq. unfold wp, updM, modify. simpl. rewrite RemoveStartingLocked_mgr.
  eapply (cb_remove _ _ _ _ _ _ _ _ HI Hi Hl Hc); [apply sublist_filter|].
  intros pid Hp. apply countb_remove; [done| |done]. eapply cb_distinct; [exact HI|exact Hi|exact Hl].
Qed.

Lemma CleanCallback_cb said pn dev cb : respects (keeps_mgr cb_ok) (CleanCallbackForLoadFailed said pn dev cb).
Proof.
  apply keeps_mgr_wp. intros w HI. unfold CleanCallbackForLoadFailed. wp_seq. wp_case; [|done]. wp_seq.
  set (w1 := w <| w_mgr ::= _ |> <| w_mgr ::= _ |>).
  assert (HI1 : cb_ok (w_mgr w1)).
  { apply cb_relabel; [exact HI|intros; by apply lists_touch|intros; apply callbacks_touch]. }
  clearbody w1. clear w HI Heqo. apply (wp_same w_mgr); [solve_respects|]. cbv beta. intros wh w2 H2.
  rewrite <- H2 in *. clear w1 H2.
  assert (Hdrop : ∀ w, cb_ok (w_mgr w) → wp (updM startingAbilityMap_ (alter (dropDevice dev) said);;
                    updM startingAbilityMap_ (dropItem said)) (λ _ w', cb_ok (w_mgr w')) w).
  { intros w HI. by apply wp_keeps_mgr; [solve_respects|]. }
  destruct (list_find _ _) as [[k c]|] eqn:Hf; destruct wh as [h|]; [|exact HI1|by apply Hdrop..].
  apply list_find_Some in Hf as (Hk & _ & _). wp_seq. apply (wp_same w_mgr); [solve_respects|]. cbv beta. intros _ w3 H3.
  eapply wp_mono; [apply removeFound_cb|cbv beta; intros ? w4 HI4; by apply Hdrop]; rewrite H3; [done|].
  by eapply list_elem_of_lookup_2.
Qed.

(** The rest of the interface the scheduler calls. *)
Lemma RemoveDied_cb said : respects (keeps_mgr cb_ok) (RemoveDiedSystemAbility said).
Proof. unfold RemoveDiedSystemAbility. solve_respects. Qed.
End callbacks.
#[export] Hint Resolve DoLoadOnDemand_cb DoLoad_cb DoLoadFromRpc_cb NotifyLoaded_cb OnStartFail_cb CallbackDied_cb
  CleanCallback_cb StartInner_cb StartLocked_cb RemoveDied_cb CheckSA_cb : respects.

(** ** Limits of the tables *)

Definition freq_ok (fm : gmap Z Z) : Prop := ∀ k n, fm !! k = Some n → 0 < n ≤ MAX_SA_FREQUENCY_COUNT.
Definition below_limit {K V} `{Countable K} (m : gmap K V) : Prop := Z.of_nat (size m) ≤ MAX_SERVICES.

Definition cap_ok (m : Mgr) : Prop :=
  below_limit (abilityMap_ m) ∧ below_limit (systemProcessMap_ m) ∧ freq_ok (saFrequencyMap_ m).

Lemma below_insert {K V} `{Countable K} (m : gmap K V) k v :
  Z.of_nat (size m) < MAX_SERVICES → below_limit (<[k := v]> m).
Proof.
  intros Hs. unfold below_limit. destruct (m !! k) as [v'|] eqn:Hk.
  - rewrite map_size_insert_Some by (by eexists). lia.
  - rewrite map_size_insert_None by done. lia.
Qed.
Lemma below_delete {K V} `{Countable K} (m : gmap K V) k : below_limit m → below_limit (delete k m).
Proof.
  unfold below_limit. intros Hs. destruct (m !! k) as [v'|] eqn:Hk.
  - rewrite map_size_delete_Some by (by eexists). lia.
  - rewrite map_size_delete_None by done. done.
Qed.

Section limits.
Context `{E : Env}.

Lemma UpdateFre_cap uid said : respects (keeps_mgr cap_ok) (UpdateSaFreMap uid said).
Proof.
  apply keeps_mgr_wp. intros w (Ha & Hp & Hf). unfold UpdateSaFreMap. wp_case; [done|]. wp_seq. split; [done|]. split; [done|].
  intros k n. simpl. set (c := default 0 _). intros [[_ <-]|[_ Hn]]%lookup_insert_Some; [|by eapply Hf].
  assert (0 ≤ c ≤ MAX_SA_FREQUENCY_COUNT).
  { unfold c. destruct (_ !! _) eqn:Hl; simpl; [apply Hf in Hl; lia|]. done. }
  destruct (Z.ltb_spec c MAX_SA_FREQUENCY_COUNT); [lia|]. unfold MAX_SA_FREQUENCY_COUNT, INT32_MAX in *. lia.
Qed.
Lemma delAbility_cap k : respects (keeps_mgr cap_ok) (updM abilityMap_ (delete k)).
Proof. intros w (Ha & Hp & Hf). split; [by apply below_delete|done]. Qed.
Lemma delProcess_cap k : respects (keeps_mgr cap_ok) (updM systemProcessMap_ (delete k)).
Proof. intros w (Ha & Hp & Hf). split; [done|]. split; [by apply below_delete|done]. Qed.
End limits.
#[export] Hint Resolve UpdateFre_cap delAbility_cap delProcess_cap : respects.
