(* ===== verification/System.v ===== *)
(** The whole service: boot, the calls it receives, the tasks of its queues and
    the death notices, as a transition system; the invariants of its reachable
    states.

    Each step runs one operation to its end.  The program serialises operations
    on a process and its SAs with the process lock, and those on each registry
    with the registry's lock; a step of the model is such a critical section. *)
From S2P Require Import Prelude Types World Ffrt Util Contexts Interfaces Hoare ManagerBase StateMachine.
From S2P Require Import EventHandler Scheduler SchedulerQuery SchedulerInv SchedulerProofs SchedulerKeeps.
From S2P Require Import SchedulerBoot Subscribers TimeHandler CollectFrame CollectTasks Manager.
From S2P Require Import DBinder DumpStats.

(** ** The transition system *)

(** Calls of the service's interface, what reaches the collect plugins, and timers. *)
Inductive Op :=
  | OpAddSystemAbility (said : Z) (ability : option RemoteObject) (prop : SAExtraProp)
  | OpRemoveSystemAbility (said : Z)
  | OpCheckSystemAbility (said : Z)
  | OpCheckSystemAbilityExist (said : Z) (isExist : bool)
  | OpListSystemAbilities
  | OpSubscribeSystemAbility (said : Z) (l : option StatusChange)
  | OpUnSubscribeSystemAbility (said : Z) (l : option StatusChange)
  | OpAddOnDemandSystemAbilityInfo (said : Z) (pn : u16string)
  | OpAddSystemProcess (pn : u16string) (obj : option RemoteObject)
  | OpLoadSystemAbility (said : Z) (cb : option LoadCallback)
  | OpLoadFromRpc (dev : string) (said : Z) (cb : option LoadCallback)
  | OpUnloadSystemAbility (said : Z)
  | OpCancelUnloadSystemAbility (said : Z)
  | OpUnloadAllIdle
  | OpUnloadProcess (l : list u16string)
  | OpGetLruIdle
  | OpOnStartFail (said err : Z)
  | OpOnDemandEvent (event : OnDemandEvent) (l : list SaControlInfo)
  | OpGetSystemProcessInfo (said : Z) (out : SystemProcessInfo)
  | OpGetRunningSystemProcess
  | OpSubscribeSystemProcess (l : option ProcessStatusChange)
  | OpUnSubscribeSystemProcess (l : option ProcessStatusChange)
  | OpSubscribeLowMem (l : option ProcessStatusChange)
  | OpUnSubscribeLowMem (l : option ProcessStatusChange)
  | OpSendStrategy (type : Z) (l : list Z) (level : Z) (action : string)
  | OpGetOnDemandIds
  | OpGetExtensionSaIds (ext : string)
  | OpGetExtensionRunning (ext : string)
  | OpGetExtensionInfo (ext : string)
  | OpCleanFfrt
  | OpSetFfrt
  | OpCollect (i : CollectInput)
  | OpTimer (fd : Z).

Definition ignore {A} (m : M A) : M unit := _ ← m; mret tt.

Section system.
Context `{E : Env}.

(** The listener of the program: the scheduler, with room for the two levels of
    callbacks it needs ([schedulerListener_depth]). *)
Definition Lsched : option StateListener := schedulerListener 2.

Definition runOp (o : Op) : M unit :=
  match o with
  | OpAddSystemAbility said a p => ignore (AddSystemAbility Lsched said a p)
  | OpRemoveSystemAbility said => ignore (RemoveSystemAbility Lsched said)
  | OpCheckSystemAbility said => ignore (CheckSystemAbility said)
  | OpCheckSystemAbilityExist said b => ignore (CheckSystemAbilityExist Lsched said b)
  | OpListSystemAbilities => ignore ListSystemAbilities
  | OpSubscribeSystemAbility said l => ignore (SubscribeSystemAbility said l)
  | OpUnSubscribeSystemAbility said l => ignore (UnSubscribeSystemAbility said l)
  | OpAddOnDemandSystemAbilityInfo said pn => ignore (AddOnDemandSystemAbilityInfo said pn)
  | OpAddSystemProcess pn obj => ignore (AddSystemProcess Lsched pn obj)
  | OpLoadSystemAbility said cb => ignore (LoadSystemAbility Lsched said cb)
  | OpLoadFromRpc dev said cb => ignore (LoadSystemAbilityFromRpc Lsched dev said cb)
  | OpUnloadSystemAbility said => ignore (UnloadSystemAbility Lsched said)
  | OpCancelUnloadSystemAbility said => ignore (CancelUnloadSystemAbility Lsched said)
  | OpUnloadAllIdle => ignore (ManagerUnloadAllIdle Lsched)
  | OpUnloadProcess l => ignore (ManagerUnloadProcess Lsched l)
  | OpGetLruIdle => ignore GetLruIdleSystemAbilityProc
  | OpOnStartFail said err => ignore (OnStartSystemAbilityFail said err)
  | OpOnDemandEvent event l => ProcessOnDemandEvent Lsched event l
  | OpGetSystemProcessInfo said out => ignore (ManagerGetSystemProcessInfo said out)
  | OpGetRunningSystemProcess => ignore ManagerGetRunningSystemProcess
  | OpSubscribeSystemProcess l => ignore (ManagerSubscribeSystemProcess l)
  | OpUnSubscribeSystemProcess l => ignore (ManagerUnSubscribeSystemProcess l)
  | OpSubscribeLowMem l => ignore (ManagerSubscribeLowMem l)
  | OpUnSubscribeLowMem l => ignore (ManagerUnSubscribeLowMem l)
  | OpSendStrategy type l level action => ignore (SendStrategy type l level action)
  | OpGetOnDemandIds => ignore GetOnDemandSystemAbilityIds
  | OpGetExtensionSaIds ext => ignore (GetExtensionSaIds ext)
  | OpGetExtensionRunning ext => ignore (GetExtensionRunningSaList ext)
  | OpGetExtensionInfo ext => ignore (GetRunningSaExtensionInfoList ext)
  | OpCleanFfrt => ManagerCleanFfrt
  | OpSetFfrt => ManagerSetFfrt
  | OpCollect i => runCollectInput i
  | OpTimer fd =>
      t ← timerTask fd;
      match t with None => mret tt | Some t => runTask Lsched t;; timerDone fd end
  end.

(** A task that was submitted to a queue. *)
Definition submitted (t : Task) (w : World) : Prop := ∃ h q d, EvSubmit h q t d ∈ w_trace w.

Inductive step : World → World → Prop :=
  | step_call w c o : step w (runOp o (w <| w_caller := c |>)).2
  | step_task w c t : submitted t w → step w (runTask Lsched t (w <| w_caller := c |>)).2
  | step_died w c k o : step w (OnRemoteDied Lsched k o (w <| w_caller := c |>)).2.

(** ** Boot *)

(** The constructor of [SystemAbilityManager] gets the binder service unless that is delayed. *)
Definition newDistributed (k : ManagerClass) : Distributed :=
  match k with
  | KSystemAbilityManager => MkDistributed (negb SAMGR_ENABLE_DELAY_DBINDER && env_dBinderService []) false false []
  | _ => MkDistributed false false false []
  end.

Definition emptyWorld (k : ManagerClass) (userId : Z) (c : Caller) : World :=
  MkWorld emptySched (emptyMgr k userId) ∅ c [] (MkStubState false false false ∅) SAMGR_INVALID_USER_ID newCollect ∅
    (newDistributed k) (MkDumper false false).

(** [Init] of the manager; [SystemAbilityManager] then adds its own entry. *)
Definition boot (profiles : list SaProfile) (multi : gset Z) : M unit :=
  newFFRTHandler setParmHandler;;
  ManagerInit profiles multi;;
  k ← getM dynamicClass;
  match k with
  | KSystemAbilityManager => AddSamgrToAbilityMap
  | _ => mret tt
  end.

Definition reachable (profiles : list SaProfile) (multi : gset Z) (w : World) : Prop :=
  ∃ k userId c, rtc step (boot profiles multi (emptyWorld k userId c)).2 w.

(** ** Every operation keeps the invariant of the contexts *)

Hint Resolve baseManager_laws schedulerListener_ok : respects.
Hint Resolve HandleLoad_keeps HandleLoadById_keeps HandleUnload_keeps HandleCancel_keeps SendAbilityStateEvent_keeps
  SendProcessStateEvent_keeps UnloadProcess_keeps UnloadAllIdle_keeps CheckEnableOnce_keeps TryUnloadAll_keeps
  timeoutTask_mild pendingUnloadTask_keeps ProcessEvent_keeps clearPending_keeps : respects.

Lemma Lsched_ok : listener_ok Lsched.
Proof. apply schedulerListener_ok. Qed.
Hint Resolve Lsched_ok : respects.

(** The part of the manager that does not call the scheduler's machine. *)
Lemma CheckListenerNotify_sched said l : respects (same w_sched) (CheckListenerNotify said l).
Proof. unfold CheckListenerNotify, NotifySystemAbilityAddedByAsync. solve_respects. Qed.
Hint Resolve CheckListenerNotify_sched : respects.
Lemma Subscribe_sched said l : respects (same w_sched) (SubscribeSystemAbility said l).
Proof. unfold SubscribeSystemAbility, SubscribeSystemAbilityInner. solve_respects. Qed.
Lemma UnSubscribeLocked_sched said o : respects (same w_sched) (UnSubscribeSystemAbilityLocked said o).
Proof. unfold UnSubscribeSystemAbilityLocked. solve_respects. Qed.
Hint Resolve UnSubscribeLocked_sched : respects.
Lemma UnSubscribe_sched said l : respects (same w_sched) (UnSubscribeSystemAbility said l).
Proof. unfold UnSubscribeSystemAbility. solve_respects. Qed.
Lemma UnSubscribeRemote_sched o : respects (same w_sched) (UnSubscribeSystemAbilityRemote o).
Proof. unfold UnSubscribeSystemAbilityRemote. solve_respects. Qed.
Hint Resolve UnSubscribeRemote_sched : respects.
Lemma virtualUnSubscribeRemote_sched o : respects (same w_sched) (virtualUnSubscribeRemote o).
Proof. unfold virtualUnSubscribeRemote. apply override_respects; [typeclasses eauto|..]; unfold MultiUnSubscribeSystemAbilityRemote; solve_respects. Qed.
Hint Resolve virtualUnSubscribeRemote_sched : respects.
Lemma AsyncUnSubscribe_sched o : respects (same w_sched) (AsyncUnSubscribeSystemAbility o).
Proof. unfold AsyncUnSubscribeSystemAbility. solve_respects. Qed.
Lemma NotifyChanged_rest said d c l : respects frame (NotifySystemAbilityChanged said d c l).
Proof. unfold NotifySystemAbilityChanged. solve_respects. Qed.
Hint Resolve NotifyChanged_rest : respects.
Lemma FindNotify_sched said d c : respects (same w_sched) (FindSystemAbilityNotify said d c).
Proof. unfold FindSystemAbilityNotify. solve_respects. Qed.
Lemma virtualUnSubscribeNull_rest : respects frame virtualUnSubscribeNull.
Proof. unfold virtualUnSubscribeNull. solve_respects. Qed.
Hint Resolve virtualUnSubscribeNull_rest : respects.
Lemma MultiNotify_sched said d c l : respects (same w_sched) (MultiNotifySystemAbilityChanged said d c l).
Proof. unfold MultiNotifySystemAbilityChanged. solve_respects. Qed.
Hint Resolve MultiNotify_sched : respects.
Lemma MultiFindNotify_sched said d c : respects (same w_sched) (MultiFindSystemAbilityNotify said d c).
Proof. unfold MultiFindSystemAbilityNotify. solve_respects. Qed.
Hint Resolve FindNotify_sched MultiFindNotify_sched : respects.
Lemma virtualFindNotify_sched said d c : respects (same w_sched) (virtualFindNotify said d c).
Proof. unfold virtualFindNotify. solve_respects. Qed.
Lemma virtualNotifyChanged_sched said d c l : respects (same w_sched) (virtualNotifyChanged said d c l).
Proof. unfold virtualNotifyChanged. solve_respects. Qed.
Hint Resolve virtualFindNotify_sched virtualNotifyChanged_sched : respects.
Lemma RemoveStartingLocked_sched c : respects (same w_sched) (RemoveStartingAbilityCallbackLocked c).
Proof. unfold RemoveStartingAbilityCallbackLocked. solve_respects. Qed.
Lemma NotifyLoadedCallback_rest said o c : respects frame (NotifyLoadedCallback said o c).
Proof. unfold NotifyLoadedCallback. solve_respects. Qed.
Lemma NotifyLoadFail_rest said c e : respects frame (NotifySystemAbilityLoadFail said c e).
Proof. unfold NotifySystemAbilityLoadFail. solve_respects. Qed.
Hint Resolve RemoveStartingLocked_sched NotifyLoadedCallback_rest NotifyLoadFail_rest : respects.
Lemma NotifyLoaded_sched said o : respects (same w_sched) (NotifySystemAbilityLoaded said o).
Proof. unfold NotifySystemAbilityLoaded. solve_respects. Qed.
Lemma OnStartFail_sched said e : respects (same w_sched) (OnStartSystemAbilityFail said e).
Proof. unfold OnStartSystemAbilityFail, failStart. solve_respects. Qed.
Lemma CleanCallback_sched said pn d c : respects (same w_sched) (CleanCallbackForLoadFailed said pn d c).
Proof. unfold CleanCallbackForLoadFailed. solve_respects. Qed.
Lemma OnAbilityCallbackDied_sched o : respects (same w_sched) (OnAbilityCallbackDied o).
Proof.
  unfold OnAbilityCallbackDied, RemoveStartingAbilityCallbackForDevice, RemoveStartingAbilityCallback. solve_respects.
Qed.
Lemma OnRemoteCallbackDied_sched o : respects (same w_sched) (OnRemoteCallbackDied o).
Proof. unfold OnRemoteCallbackDied, RemoveRemoteCallbackLocked. solve_respects. Qed.
Lemma InvalidateCache_rest said : respects frame (SystemAbilityInvalidateCache said).
Proof. unfold SystemAbilityInvalidateCache. solve_respects. Qed.
Lemma OnRegistered_rest said d : respects frame (OnSystemAbilityRegistered said d).
Proof. unfold OnSystemAbilityRegistered. solve_respects. Qed.
Lemma ClearSaExtraDataId_rest said : respects frame (ClearSaExtraDataId said).
Proof. unfold ClearSaExtraDataId. solve_respects. Qed.
Hint Resolve InvalidateCache_rest OnRegistered_rest ClearSaExtraDataId_rest : respects.
Lemma AddOnDemand_sched said pn : respects (same w_sched) (AddOnDemandSystemAbilityInfo said pn).
Proof. unfold AddOnDemandSystemAbilityInfo. solve_respects. Qed.
Lemma SendStrategy_rest t l v a : respects frame (SendStrategy t l v a).
Proof.
  unfold SendStrategy. solve_respects. generalize l. clear l. intros l.
  induction l; simpl; solve_respects.
Qed.
Lemma RemoveSystemAbilityRemote_sched o : respects (same w_sched) (RemoveSystemAbilityRemote o).
Proof. unfold RemoveSystemAbilityRemote, withScheduler, HandleAbilityDiedEvent. solve_respects. Qed.
Lemma IsUnloading_rest said : respects frame (IsSystemAbilityUnloading said).
Proof. unfold IsSystemAbilityUnloading. solve_respects. Qed.
Lemma GetIdleProcessInfo_rest said : respects frame (GetIdleProcessInfo said).
Proof. unfold GetIdleProcessInfo. solve_respects. Qed.
Lemma IsSystemProcessCanUnload_quiet pn : respects quiet (IsSystemProcessCanUnload pn).
Proof. unfold IsSystemProcessCanUnload. solve_respects. Qed.
Hint Resolve IsUnloading_rest GetIdleProcessInfo_rest IsSystemProcessCanUnload_quiet : respects.
Lemma GetLru_quiet : respects quiet GetLruIdleSystemAbilityProc.
Proof. unfold GetLruIdleSystemAbilityProc. solve_respects. Qed.
Hint Resolve Subscribe_sched UnSubscribe_sched AsyncUnSubscribe_sched FindNotify_sched NotifyLoaded_sched
  OnStartFail_sched CleanCallback_sched OnAbilityCallbackDied_sched OnRemoteCallbackDied_sched AddOnDemand_sched
  SendStrategy_rest RemoveSystemAbilityRemote_sched GetLru_quiet : respects.

(** Subscriptions to processes touch only the listener registries. *)
Lemma SubscribeProcess_ctxs l b : respects (same ctxs) (SubscribeSystemProcess l b).
Proof. unfold SubscribeSystemProcess. solve_respects. Qed.
Lemma UnSubscribeProcess_ctxs l b : respects (same ctxs) (UnSubscribeSystemProcess l b).
Proof. unfold UnSubscribeSystemProcess. solve_respects. Qed.
Lemma UnSubscribeProcessRemote_ctxs o : respects (same ctxs) (UnSubscribeSystemProcessRemote o).
Proof. unfold UnSubscribeSystemProcessRemote. solve_respects. Qed.
Lemma SubscribeLoop_ctxs pns l : respects (same ctxs) (SubscribeSystemProcessListLoop pns l).
Proof. induction pns; simpl; solve_respects. Qed.
Lemma UnSubscribeListLocked_ctxs pn o : respects (same ctxs) (UnSubscribeSystemProcessListLocked pn o).
Proof. unfold UnSubscribeSystemProcessListLocked. solve_respects. Qed.
Hint Resolve SubscribeProcess_ctxs UnSubscribeProcess_ctxs UnSubscribeProcessRemote_ctxs SubscribeLoop_ctxs
  UnSubscribeListLocked_ctxs : respects.
Lemma SubscribeLowMem_ctxs l : respects (same ctxs) (SubscribeLowMemSystemProcess l).
Proof. unfold SubscribeLowMemSystemProcess, SubscribeSystemProcessList. solve_respects. Qed.
Lemma UnSubscribeLowMem_ctxs l : respects (same ctxs) (UnSubscribeLowMemSystemProcess l).
Proof. unfold UnSubscribeLowMemSystemProcess, UnSubscribeSystemProcessList. solve_respects. Qed.
Hint Resolve SubscribeLowMem_ctxs UnSubscribeLowMem_ctxs : respects.

Lemma AddSystemAbility_keeps said a p : respects keeps_ctx (AddSystemAbility Lsched said a p).
Proof. unfold AddSystemAbility, RefreshListenerState, withScheduler. solve_respects. Qed.
Lemma RemoveSystemAbility_keeps said : respects keeps_ctx (RemoveSystemAbility Lsched said).
Proof. unfold RemoveSystemAbility, withScheduler. solve_respects. Qed.
Lemma CheckExist_keeps said b : respects keeps_ctx (CheckSystemAbilityExist Lsched said b).
Proof. unfold CheckSystemAbilityExist, withScheduler. solve_respects. Qed.
Lemma AddSystemProcess_keeps pn o : respects keeps_ctx (AddSystemProcess Lsched pn o).
Proof. unfold AddSystemProcess, withScheduler. solve_respects. Qed.
Lemma RemoveSystemProcess_keeps o : respects keeps_ctx (RemoveSystemProcess Lsched o).
Proof. unfold RemoveSystemProcess, withScheduler. solve_respects. Qed.
Hint Resolve AddSystemAbility_keeps RemoveSystemAbility_keeps CheckExist_keeps AddSystemProcess_keeps
  RemoveSystemProcess_keeps : respects.
Lemma Load_keeps said cb : respects keeps_ctx (LoadSystemAbility Lsched said cb).
Proof. unfold LoadSystemAbility, withScheduler. solve_respects. Qed.
Lemma LoadFromRpc_keeps d said cb : respects keeps_ctx (LoadSystemAbilityFromRpc Lsched d said cb).
Proof. unfold LoadSystemAbilityFromRpc, withScheduler. solve_respects. Qed.
Lemma Unload_keeps said : respects keeps_ctx (UnloadSystemAbility Lsched said).
Proof. unfold UnloadSystemAbility, withScheduler. solve_respects. Qed.
Lemma CancelUnload_keeps said : respects keeps_ctx (CancelUnloadSystemAbility Lsched said).
Proof. unfold CancelUnloadSystemAbility, withScheduler. solve_respects. Qed.
Lemma resetFirst_mild pn : respects mild (storeP pn (λ p, p <| pendingLoadFirstTimestamp := 0 |>)).
Proof. by apply storeP_mild. Qed.
Hint Resolve resetFirst_mild Load_keeps LoadFromRpc_keeps Unload_keeps CancelUnload_keeps : respects.
Lemma Overflow_keeps said pn : respects keeps_ctx (ProcessPendingLoadOverflow Lsched said pn).
Proof. unfold ProcessPendingLoadOverflow. solve_respects. Qed.
Lemma checkLoadedTask_keeps said pn d cb : respects keeps_ctx (checkLoadedTask Lsched said pn d cb).
Proof. unfold checkLoadedTask, withScheduler. solve_respects. Qed.
Hint Resolve Overflow_keeps checkLoadedTask_keeps : respects.

Lemma OnDemandEvent_keeps e l : respects keeps_ctx (ProcessOnDemandEvent Lsched e l).
Proof. unfold ProcessOnDemandEvent, withScheduler. solve_respects. Qed.
Hint Resolve OnDemandEvent_keeps : respects.

Lemma runTask_keeps t : respects keeps_ctx (runTask Lsched t).
Proof.
  destruct t; unfold runTask, ifAlive, ifScheduler, withScheduler, StartOnDemandAbilityByName; solve_respects.
Qed.
Hint Resolve runTask_keeps : respects.

Lemma runOp_keeps o : respects keeps_ctx (runOp o).
Proof.
  destruct o; unfold runOp, ignore, ListSystemAbilities, ManagerUnloadAllIdle, ManagerUnloadProcess,
    ManagerGetSystemProcessInfo, GetSystemProcessInfo, ManagerGetRunningSystemProcess,
    GetRunningSystemProcess, ManagerSubscribeSystemProcess, ManagerUnSubscribeSystemProcess, ManagerSubscribeLowMem,
    ManagerUnSubscribeLowMem, GetOnDemandSystemAbilityIds, GetExtensionSaIds, GetExtensionRunningSaList,
    GetRunningSaExtensionInfoList, ManagerCleanFfrt, ManagerSetFfrt, SchedulerCleanFfrt, SchedulerSetFfrt,
    withScheduler; solve_respects.
Qed.

Lemma OnRemoteDied_keeps k o : respects keeps_ctx (OnRemoteDied Lsched k o).
Proof.
  destruct k; unfold OnRemoteDied, ifAlive, ManagerUnSubscribeSystemProcessRemote, withScheduler; solve_respects.
Qed.

Lemma step_keeps w w' : step w w' → ctx_inv (w_sched w) → ctx_inv (w_sched w').
Proof.
  intros [w0 c o|w0 c t _|w0 c k o] HI; [apply runOp_keeps|apply runTask_keeps|apply OnRemoteDied_keeps]; exact HI.
Qed.

(** ** Boot establishes the invariant *)

(** The profiles the scheduler is initialised with. *)
Definition bootProfiles (profiles : list SaProfile) (multi : gset Z) : list SaProfile :=
  if SUPPORT_MULTI_INSTANCE then filter (λ p, saId p ∉ multi) profiles else profiles.

Lemma bootProfiles_ok profiles multi : profiles_ok profiles → profiles_ok (bootProfiles profiles multi).
Proof.
  intros [Hn Hs Hz]. unfold bootProfiles. destruct SUPPORT_MULTI_INSTANCE; [|done]. split.
  - eapply sublist_NoDup; [exact Hn|]. apply fmap_sublist, sublist_filter.
  - intros p [_ Hp]%list_elem_of_filter. by apply Hs.
  - pose proof (length_filter (λ p, saId p ∉ multi) profiles). lia.
Qed.

Definition bootContexts (l : list SaProfile) : Sched := foldl initOne emptySched l.

Lemma bootContexts_inv l : profiles_ok l → ctx_inv (bootContexts l).
Proof.
  intros [Hn Hs Hz]. apply (ctx_inv_InitStateContext l emptySched 0); try done.
  intros p Hp. by apply Hs.
Qed.

Lemma bootContexts_samgr l :
  profiles_ok l →
  processContextMap_ (bootContexts l) !! SAMGR_PROCESS_NAME = None ∧ abilityContextMap_ (bootContexts l) !! 0 = None.
Proof.
  intros [_ Hs _]. destruct (InitStateContext_dom l emptySched) as [Ha Hp].
  rewrite <- !not_elem_of_dom, !elem_of_dom. split; intros H.
  - apply Hp in H as [[? H]|H]; [done|].
    apply list_elem_of_fmap in H as (p & E' & Hin). by destruct (Hs _ Hin) as [? _].
  - apply Ha in H as [[? H]|H]; [done|].
    apply list_elem_of_fmap in H as (p & E' & Hin). by destruct (Hs _ Hin) as [_ ?].
Qed.

Lemma SchedulerInit_ctxs l w :
  ctxs (SchedulerInit l w).2 =
  (abilityContextMap_ (foldl initOne (w_sched w) l), processContextMap_ (foldl initOne (w_sched w) l)).
Proof.
  apply (wp_bind _ _ (λ _ w', ctxs w' = _)). apply wp_modify. apply (wp_same ctxs); [|done].
  unfold InitLowMemProcessList. solve_respects.
Qed.

Lemma InitSaProfile_wp profiles multi w :
  w_sched w = emptySched → abilityStateScheduler_ (w_mgr w) = true →
  wp (InitSaProfile profiles multi) (λ _ w', ctxs w' =
    let s := bootContexts (bootProfiles profiles multi) in (abilityContextMap_ s, processContextMap_ s)) w.
Proof.
  intros Hw Hs. unfold InitSaProfile. fold (bootProfiles profiles multi). wp_seq.
  apply (wp_same rest); [solve_respects|]. cbv beta. intros ? w1 [= E1 E2 _]. wp_seq.
  apply (wp_same (λ w, (w_sched w, abilityStateScheduler_ (w_mgr w)))); [solve_respects|].
  cbv beta. intros ? w1' [= E1' E2']. wp_seq. rewrite E2', E2, Hs. rewrite <- E1' in E1.
  eapply wp_mono; [exact (SchedulerInit_ctxs _ _ : wp _ (λ _ w', ctxs w' = _) _)|]. cbv beta.
  intros _ w2 Hc. rewrite E1, Hw in Hc. apply (wp_same ctxs); [solve_respects|]. intros _ w3 ->. exact Hc.
Qed.

Lemma ManagerInit_wp profiles multi w :
  w_sched w = emptySched →
  wp (ManagerInit profiles multi) (λ _ w', ctxs w' =
    let s := bootContexts (bootProfiles profiles multi) in (abilityContextMap_ s, processContextMap_ s)) w.
Proof.
  intros Hw. unfold ManagerInit. wp_seq.
  do 5 (apply (wp_same w_sched); [solve_respects|]; cbv beta; intros ? ? H'; simpl in H'; rewrite Hw in H';
        clear Hw; rename H' into Hw; wp_seq).
  by apply InitSaProfile_wp.
Qed.
Lemma AddSamgr_wp w :
  ctx_inv (w_sched w) → processContextMap_ (w_sched w) !! SAMGR_PROCESS_NAME = None →
  abilityContextMap_ (w_sched w) !! 0 = None →
  wp AddSamgrToAbilityMap (λ _ w', ctx_inv (w_sched w')) w.
Proof.
  intros HI Hp Ha. unfold AddSamgrToAbilityMap, InitSamgrProcessContext. wp_steps; [|done].
  eapply ctx_inv_ctxs; [| |apply (ctx_inv_samgr (w_sched w))]; try reflexivity; try done.
  split; [simpl; unfold MAX_DELAY_TIME; lia|by intros [|]|]. split; try done; simpl; [apply NoDup_nil_2|set_solver].
Qed.

Lemma boot_wp profiles multi k userId c :
  profiles_ok profiles → wp (boot profiles multi) (λ _ w', ctx_inv (w_sched w')) (emptyWorld k userId c).
Proof.
  intros Hpr%(bootProfiles_ok _ multi). unfold boot. wp_seq.
  apply (wp_same w_sched); [solve_respects|]. intros ? w1 H1. wp_seq.
  eapply wp_mono; [by apply ManagerInit_wp|]. cbv beta. intros ? w2 [= Ea Ep]. wp_seq.
  assert (HI : ctx_inv (w_sched w2)) by (eapply ctx_inv_ctxs; [done..|by apply bootContexts_inv]).
  destruct (bootContexts_samgr _ Hpr). wp_case; wp_seq; try done. apply AddSamgr_wp; congruence.
Qed.

Lemma reachable_inv profiles multi w :
  profiles_ok profiles → reachable profiles multi w → ctx_inv (w_sched w).
Proof.
  intros Hpr (k & userId & c & Hr). pose proof (boot_wp profiles multi k userId c Hpr) as HI. red in HI.
  revert HI. induction Hr as [w0|w0 w1 w2 Hs _ IH]; [done|]. intros HI. by apply IH, (step_keeps w0).
Qed.
End system.
