(* ===== verification/SystemRegistry.v ===== *)
(** The registries' invariants hold in every reachable state: the manager's
    operations and the scheduler's, which call back into the manager, keep them. *)
From S2P Require Import Prelude Types World Ffrt Util TimeHandler CollectFrame CollectTasks Contexts Interfaces Hoare ManagerBase StateMachine.
From S2P Require Import EventHandler Scheduler SchedulerQuery SchedulerFrame Subscribers Manager Registry System.
From S2P Require Import DBinder DumpStats.

Section lift.
Context `{E : Env}.
Context (R : relation World) `{!PreOrder R}.
Context (HW : writes_respect R) (HM : iface_respects R) (HU : members_respect R).

(** The scheduler's operations, for the listener of the program. *)
Record sched_respects : Prop := {
  sr_HandleLoad r : respects R (HandleLoadAbilityEvent Lsched r);
  sr_HandleLoadById k b : respects R (HandleLoadAbilityEventById Lsched k b);
  sr_HandleUnload r : respects R (HandleUnloadAbilityEvent Lsched r);
  sr_HandleCancel k : respects R (HandleCancelUnloadAbilityEvent Lsched k);
  sr_AbilityEvent k e : respects R (SendAbilityStateEvent Lsched k e);
  sr_ProcessEvent i e : respects R (SendProcessStateEvent Lsched i e);
  sr_UnloadProcess l : respects R (UnloadProcess Lsched l);
  sr_UnloadAllIdle : respects R (UnloadAllIdleSystemAbility Lsched);
  sr_CheckEnableOnce e l : respects R (CheckEnableOnce Lsched e l);
  sr_TryUnloadAll c : respects R (TryUnloadAllSystemAbility Lsched c);
  sr_TryKill c : respects R (TryKillSystemProcess c);
  sr_timeoutTask pn : respects R (timeoutTask pn);
  sr_pendingUnloadTask k : respects R (pendingUnloadTask Lsched k);
  sr_Event e : respects R (ProcessEvent Lsched e);
  sr_UpdateDelayTask k : respects R (UpdateLimitDelayUnloadTimeTask k);
  sr_SubscribeLoop pns l : respects R (SubscribeSystemProcessListLoop pns l);
  sr_storeA k f : respects R (storeA k f);
  sr_storeP k f : respects R (storeP k f);
  sr_CanUnload pn : respects R (IsSystemProcessCanUnload pn);
  sr_members : members_respect R;
}.

Lemma scheduler_respects : sched_respects.
Proof.
  pose proof (schedulerListener_mgr R HW HM 2) as HL.
  split; intros;
    [ apply HandleLoad_mgr | apply HandleLoadById_mgr | apply HandleUnload_mgr | apply HandleCancel_mgr
    | apply SendAbilityStateEvent_mgr | apply SendProcessStateEvent_mgr | apply UnloadProcess_mgr
    | apply UnloadAllIdle_mgr | apply CheckEnableOnce_mgr | apply TryUnloadAll_mgr | apply TryKill_mgr
    | apply timeoutTask_mgr | apply pendingUnloadTask_mgr | apply ProcessEvent_mgr | apply UpdateDelayTask_mgr
    | apply SubscribeLoop_mgr | apply HW | apply HW | apply IsSystemProcessCanUnload_mgr | exact HU ];
    first [exact HM | exact HL | exact HW | exact HU | typeclasses eauto].
Qed.
End lift.

Definition registry_respects `{E : Env} (I : Mgr → Prop) (HM : iface_respects (keeps_mgr I)) :
  sched_respects (keeps_mgr I) :=
  scheduler_respects (keeps_mgr I) (mgr_writes _ (keeps_mgr_sub I)) HM (mgr_members _ (keeps_mgr_sub I)).

Hint Resolve sr_HandleLoad sr_HandleLoadById sr_HandleUnload sr_HandleCancel sr_AbilityEvent sr_ProcessEvent
  sr_UnloadProcess sr_UnloadAllIdle sr_CheckEnableOnce sr_TryUnloadAll sr_TryKill sr_timeoutTask sr_pendingUnloadTask
  sr_Event sr_UpdateDelayTask sr_SubscribeLoop sr_storeA sr_storeP sr_CanUnload sr_members SendStrategy_rest
  mr_start mr_stop mr_listeners mr_counts mr_processes : respects.

Section listeners.
Context `{E : Env}.

Lemma iface_sub : iface_respects (keeps_mgr sub_ok).
Proof. split; intros; simpl; solve_deep. Qed.
Let HS := registry_respects sub_ok iface_sub.
Hint Resolve HS : respects.
Lemma runOp_sub o : respects (keeps_mgr sub_ok) (runOp o).
Proof. destruct o; solve_deep. Qed.
Lemma runTask_sub t : respects (keeps_mgr sub_ok) (runTask Lsched t).
Proof. destruct t; solve_deep. Qed.
Lemma OnRemoteDied_sub k o : respects (keeps_mgr sub_ok) (OnRemoteDied Lsched k o).
Proof. destruct k; solve_deep. Qed.
End listeners.

Section callbacks.
Context `{E : Env}.

Lemma iface_cb : iface_respects (keeps_mgr cb_ok).
Proof. split; intros; simpl; solve_deep. Qed.
Let HS := registry_respects cb_ok iface_cb.
Hint Resolve HS : respects.
Lemma runOp_cb o : respects (keeps_mgr cb_ok) (runOp o).
Proof. destruct o; solve_deep. Qed.
Lemma runTask_cb t : respects (keeps_mgr cb_ok) (runTask Lsched t).
Proof. destruct t; solve_deep. Qed.
Lemma OnRemoteDied_cb k o : respects (keeps_mgr cb_ok) (OnRemoteDied Lsched k o).
Proof. destruct k; solve_deep. Qed.
End callbacks.

Section limits.
Context `{E : Env}.

Lemma iface_cap : iface_respects (keeps_mgr cap_ok).
Proof. split; intros; simpl; solve_deep. Qed.
Let HS := registry_respects cap_ok iface_cap.
Hint Resolve HS : respects.

(** A new entry is refused when the table is full. *)
Lemma AddSystemAbility_cap said a p : respects (keeps_mgr cap_ok) (AddSystemAbility Lsched said a p).
Proof.
  unfold AddSystemAbility. destruct a as [obj|]; [|solve_deep].
  destruct (negb _); [solve_deep|]. apply respects_bind; [solve_deep|]. intros _.
  apply respects_bind; [solve_deep|]. intros dist. destruct (negb _); [solve_deep|].
  apply keeps_mgr_wp. intros w HI. wp_seq. destruct (Z.leb_spec MAX_SERVICES (Z.of_nat (size (abilityMap_ (w_mgr w))))) as [Hs|Hs].
  { wp_seq. exact HI. }
  wp_seq. apply (wp_same w_mgr); [solve_deep|]. cbv beta. intros _ w1 H1.
  apply wp_bind, wp_modify. cbv beta. apply wp_keeps_mgr; [solve_deep|]. simpl. rewrite H1. destruct HI as (Ha & Hp & Hf). split; [|done]. by apply below_insert.
Qed.
Lemma AddSystemProcess_cap pn o : respects (keeps_mgr cap_ok) (AddSystemProcess Lsched pn o).
Proof.
  unfold AddSystemProcess. destruct o as [obj|]; [|solve_deep]. destruct (bool_decide _); [solve_deep|].
  apply keeps_mgr_wp. intros w HI. wp_seq.
  destruct (Z.leb_spec MAX_SERVICES (Z.of_nat (size (systemProcessMap_ (w_mgr w))))) as [Hs|Hs].
  { wp_seq. exact HI. }
  apply wp_bind, wp_modify. cbv beta. apply wp_keeps_mgr; [solve_deep|]. destruct HI as (Ha & Hp & Hf).
  split; [done|]. split; [|done]. by apply below_insert.
Qed.
Hint Resolve AddSystemAbility_cap AddSystemProcess_cap : respects.

Lemma runOp_cap o : respects (keeps_mgr cap_ok) (runOp o).
Proof. destruct o; solve_deep. Qed.
Lemma runTask_cap t : respects (keeps_mgr cap_ok) (runTask Lsched t).
Proof. destruct t; solve_deep. Qed.
Lemma OnRemoteDied_cap k o : respects (keeps_mgr cap_ok) (OnRemoteDied Lsched k o).
Proof. destruct k; solve_deep. Qed.
End limits.

(** ** The list of running processes *)

Definition running_ok (s : Sched) : Prop := NoDup (spi_processName <$> runningProcessList_ s).

Lemma fmap_alter_name (f : SystemProcessInfo → SystemProcessInfo) k (l : list SystemProcessInfo) :
  (∀ i, spi_processName (f i) = spi_processName i) → spi_processName <$> alter f k l = spi_processName <$> l.
Proof.
  intros Hf. revert k. induction l as [|i l IH]; intros [|k]; try done; simpl; [by rewrite Hf|]. f_equal. apply IH.
Qed.

Lemma erase_first_sublist {A} (f : A → bool) l : sublist (erase_first f l) l.
Proof. induction l as [|x l IH]; simpl; [done|]. destruct (f x); by constructor. Qed.

Section running.
Context `{E : Env}.
Let R := keeps running_ok.

Lemma AddRunning_running pn : respects (keeps running_ok) (AddRunningProcessLocked pn).
Proof.
  apply keeps_wp. intros w Hn. unfold AddRunningProcessLocked. wp_seq.
  set (p := default _ _). destruct (list_find _ _) as [[k i]|] eqn:Hf; apply wp_modify.
  - unfold running_ok. simpl. by rewrite fmap_alter_name.
  - unfold running_ok. simpl. rewrite fmap_app. apply NoDup_app. split; [exact Hn|]. split; [|apply NoDup_singleton].
    intros name Hin ->%list_elem_of_singleton. apply list_elem_of_fmap in Hin as (i & Ei & Hi).
    apply list_find_None in Hf. rewrite Forall_forall in Hf. by apply (Hf i Hi).
Qed.
Lemma RemoveRunning_running pn : respects (keeps running_ok) (RemoveRunningProcessLocked pn).
Proof.
  apply keeps_wp. intros w Hn. unfold RemoveRunningProcessLocked. wp_seq. unfold running_ok. simpl.
  eapply sublist_NoDup; [exact Hn|]. apply fmap_sublist, erase_first_sublist.
Qed.

Hint Extern 4 (respects (keeps running_ok) _) => solve [intros ? Hkeep; exact Hkeep] : respects.
Lemma writes_running : writes_respect (keeps running_ok).
Proof.
  split; [apply _| | | |apply AddRunning_running|apply RemoveRunning_running]; intros;
    unfold notifyActiveIdle, processInfoOf; solve_respects.
Qed.
Lemma members_running : members_respect (keeps running_ok).
Proof. split; intros; solve_respects. Qed.
Lemma iface_sched_only (I : Sched → Prop) : iface_respects (keeps I).
Proof. split; intros; simpl; (apply (respects_sub (same w_sched)); [apply _|]); auto with respects; solve_deep. Qed.
Let HS := scheduler_respects _ writes_running (iface_sched_only running_ok) members_running.
Hint Resolve HS : respects.
Lemma runOp_running o : respects (keeps running_ok) (runOp o).
Proof. destruct o; solve_deep. Qed.
Lemma runTask_running t : respects (keeps running_ok) (runTask Lsched t).
Proof. destruct t; solve_deep. Qed.
Lemma OnRemoteDied_running k o : respects (keeps running_ok) (OnRemoteDied Lsched k o).
Proof. destruct k; solve_deep. Qed.
End running.

(** ** Reachable states *)

Record registry_ok (m : Mgr) : Prop := {
  ro_listeners : sub_ok m;
  ro_callbacks : cb_ok m;
  ro_limits : cap_ok m;
}.

Section reachable.
Context `{E : Env}.

Lemma step_registry w w' : step w w' → registry_ok (w_mgr w) → registry_ok (w_mgr w').
Proof.
  intros [w0 c o|w0 c t _|w0 c k o] [H1 H2 H3]; split;
    [by apply runOp_sub|by apply runOp_cb|by apply runOp_cap|by apply runTask_sub|by apply runTask_cb
    |by apply runTask_cap|by apply OnRemoteDied_sub|by apply OnRemoteDied_cb|by apply OnRemoteDied_cap].
Qed.

(** The tables are empty until the first call. *)
Definition tables (m : Mgr) :=
  (listenerMap_ m, subscribeCountMap_ m, startingAbilityMap_ m, callbackCountMap_ m, systemProcessMap_ m,
   saFrequencyMap_ m).
Definition emptyTables (m : Mgr) : Prop := tables m = (∅, ∅, ∅, ∅, ∅, ∅).

Lemma tables_registry m :
  emptyTables m → abilityStatusDeath_ m = true → below_limit (abilityMap_ m) → registry_ok m.
Proof.
  intros [= H1 H2 H3 H4 H5 H6] Hd Ha. unfold emptyTables in *. split.
  - split; [done|]. rewrite H1, H2. split; intros *; try (intros Hl; by rewrite lookup_empty in Hl).
    + rewrite lookup_empty. unfold listeners_of. by rewrite msum_empty.
    + unfold listeners_of. by rewrite msum_empty.
  - unfold cb_ok. rewrite H3, H4. split; intros *; try (intros Hl; by rewrite lookup_empty in Hl).
    + rewrite lookup_empty. unfold callbacks_of. by rewrite msum_empty.
    + unfold callbacks_of. by rewrite msum_empty.
  - split; [done|]. unfold below_limit, freq_ok. rewrite H5, H6, map_size_empty.
    split; [done|]. intros k n Hk. by rewrite lookup_empty in Hk.
Qed.

Lemma boot_registry profiles multi k userId c :
  wp (boot profiles multi) (λ _ w', registry_ok (w_mgr w')) (emptyWorld k userId c).
Proof.
  unfold boot. apply wp_bind, (wp_same w_mgr); [solve_deep|]. cbv beta. intros _ w1 H1.
  unfold ManagerInit. do 2 apply wp_bind. apply wp_modify. cbv beta.
  apply (wp_same (λ w, (tables (w_mgr w), abilityStatusDeath_ (w_mgr w), abilityMap_ (w_mgr w)))); [solve_deep|].
  cbv beta. intros _ w2 H2. simpl in H2. rewrite H1 in H2. apply pair_eq in H2 as [[Ht Hd]%pair_eq Ha].
  apply wp_bind, wp_gets. cbv beta. destruct (dynamicClass (w_mgr w2)).
  1, 3: apply wp_ret, tables_registry; [exact Ht|exact Hd|by rewrite Ha].
  - unfold AddSamgrToAbilityMap. apply wp_bind, wp_modify. cbv beta. apply (wp_same w_mgr); [solve_deep|]. cbv beta.
    intros _ w3 H3. rewrite H3. apply tables_registry; [exact Ht|exact Hd|]. simpl. rewrite Ha. done.
Qed.

Lemma reachable_registry profiles multi w : reachable profiles multi w → registry_ok (w_mgr w).
Proof.
  intros (k & userId & c & Hr). pose proof (boot_registry profiles multi k userId c) as HI. red in HI.
  revert HI. induction Hr as [w0|w0 w1 w2 Hs _ IH]; [done|]. intros HI. by apply IH, (step_registry w0).
Qed.

(** The running list is empty until samgr enters itself. *)
Lemma foldl_initOne_running l s : runningProcessList_ (foldl initOne s l) = runningProcessList_ s.
Proof.
  revert s. induction l as [|p l IH]; intros s; [done|]. simpl. rewrite IH. unfold initOne. by case_bool_decide.
Qed.
Lemma InitStateContext_running l : respects (same (λ w, runningProcessList_ (w_sched w))) (InitStateContext l).
Proof. intros w. red. simpl. by rewrite foldl_initOne_running. Qed.
Hint Resolve InitStateContext_running : respects.

Lemma boot_running profiles multi k userId c :
  wp (boot profiles multi) (λ _ w', running_ok (w_sched w')) (emptyWorld k userId c).
Proof.
  unfold boot. apply wp_bind, (wp_same (λ w, runningProcessList_ (w_sched w))); [solve_deep|]. cbv beta. intros _ w1 H1.
  apply wp_bind, (wp_same (λ w, runningProcessList_ (w_sched w))); [solve_deep|]. cbv beta. intros _ w2 H2.
  rewrite H1 in H2. simpl in H2. apply wp_bind, wp_gets. cbv beta.
  assert (Hok : running_ok (w_sched w2)) by (unfold running_ok; rewrite H2; apply NoDup_nil_2).
  destruct (dynamicClass (w_mgr w2)); [exact Hok| |exact Hok].
  unfold AddSamgrToAbilityMap, InitSamgrProcessContext. wp_steps; [|exact Hok].
  unfold running_ok. simpl. rewrite H2. apply NoDup_singleton.
Qed.

Lemma reachable_running profiles multi w : reachable profiles multi w → running_ok (w_sched w).
Proof.
  intros (k & userId & c & Hr). pose proof (boot_running profiles multi k userId c) as HI. red in HI.
  revert HI. induction Hr as [w0|w0 w1 w2 Hs _ IH]; [done|]. intros HI. apply IH. clear IH.
  destruct Hs; [by apply runOp_running|by apply runTask_running|by apply OnRemoteDied_running].
Qed.
End reachable.
