(* ===== verification/Evolves.v ===== *)
(** What no operation of a manager does: change the manager's identity, the
    caller, the foreground user or the priority mode, or take back an event of the trace.
    Every operation of Manager.v, MultiManager.v and Policy.v [evolves] its world
    in this sense, which is how the service's invariants pass over them. *)
From S2P Require Import Prelude Types World Ffrt Util Contexts Interfaces Hoare ManagerBase StateMachine.
From S2P Require Import Parcel EventHandler Scheduler SchedulerQuery SchedulerFrame Subscribers Manager Registry System.
From S2P Require Import DBinder DumpStats.
From S2P Require Import SystemRegistry IpcInterface Policy MultiManager CollectManager CollectFrame CollectTasks.

Definition identity (w : World) : Z * ManagerClass * Caller * Z * bool :=
  (userId_ (w_mgr w), dynamicClass (w_mgr w), w_caller w, w_foreground w, priorEnable_ (w_stub w)).

Definition evolves : relation World := λ w w', identity w = identity w' ∧ w_trace w `suffix_of` w_trace w'.

#[export] Instance evolves_preorder : PreOrder evolves.
Proof. split; [by split|]. intros x y z [H1 H2] [H3 H4]. split; [congruence|by etrans]. Qed.

#[export] Instance frame_evolves : subrelation frame evolves.
Proof. intros w w' [H ?]. split; [|done]. unfold rest in H. unfold identity. congruence. Qed.

(** A write to another member of the manager or of the scheduler. *)
Lemma modify_evolves f :
  (∀ w, identity (f w) = identity w ∧ w_trace (f w) = w_trace w) → respects evolves (modify f).
Proof. intros H w. destruct (H w) as [Hi Ht]. split; [done|]. simpl. by rewrite Ht. Qed.
#[export] Hint Extern 1 (respects evolves (modify _)) => apply modify_evolves; intros ?; split; reflexivity : respects.
#[export] Hint Extern 1 (respects evolves (updM _ _)) => apply modify_evolves; intros ?; split; reflexivity : respects.
#[export] Hint Extern 1 (respects evolves (updS _ _)) => apply modify_evolves; intros ?; split; reflexivity : respects.
#[export] Hint Extern 1 (respects evolves (storeA _ _)) => apply modify_evolves; intros ?; split; reflexivity : respects.
#[export] Hint Extern 1 (respects evolves (storeP _ _)) => apply modify_evolves; intros ?; split; reflexivity : respects.
Hint Resolve SendStrategy_rest : respects.

(** The collect manager writes no member of the manager that asks it. *)
Class CollectLaws (C : CollectIface) : Prop := {
  cl_GetOnDemandEvents said type : respects frame (ci_GetOnDemandEvents said type);
  cl_UpdateOnDemandEvents said type l : respects frame (ci_UpdateOnDemandEvents said type l);
  cl_GetExtraData i : respects frame (ci_GetOnDemandReasonExtraData i);
  cl_GetExtraDataIdList said name : respects frame (ci_GetSaExtraDataIdList said name);
}.
#[export] Hint Resolve cl_GetOnDemandEvents cl_UpdateOnDemandEvents cl_GetExtraData cl_GetExtraDataIdList : respects.

#[export] Instance deviceStatusCollectManager_laws `{E : Env} : CollectLaws deviceStatusCollectManager.
Proof. split; intros; simpl; auto with respects. Qed.

Section evolves.
Context `{E : Env} `{IE : !IpcEnv}.

Lemma evolves_writes : writes_respect evolves.
Proof. split; [apply _|..]; intros; solve_deep. Qed.
Lemma evolves_members : members_respect evolves.
Proof. split; intros; auto with respects. Qed.
Lemma evolves_iface : iface_respects evolves.
Proof. split; intros; simpl; solve_deep. Qed.
Definition evolves_sched : sched_respects evolves :=
  scheduler_respects evolves evolves_writes evolves_iface evolves_members.
Hint Resolve evolves_sched sr_HandleLoad sr_HandleLoadById sr_HandleUnload sr_HandleCancel sr_AbilityEvent
  sr_ProcessEvent sr_UnloadProcess sr_UnloadAllIdle sr_CheckEnableOnce sr_TryUnloadAll sr_TryKill sr_timeoutTask
  sr_pendingUnloadTask sr_Event sr_UpdateDelayTask sr_SubscribeLoop sr_CanUnload : respects.

Lemma runTask_evolves t : respects evolves (runTask Lsched t).
Proof. destruct t; solve_deep. Qed.
Lemma OnRemoteDied_evolves k o : respects evolves (OnRemoteDied Lsched k o).
Proof. destruct k; solve_deep. Qed.
Lemma AddSystemAbility_evolves said a p : respects evolves (AddSystemAbility Lsched said a p).
Proof. solve_deep. Qed.
Lemma RemoveSystemAbility_evolves said : respects evolves (RemoveSystemAbility Lsched said).
Proof. solve_deep. Qed.
Lemma AddSystemProcess_evolves pn o : respects evolves (AddSystemProcess Lsched pn o).
Proof. solve_deep. Qed.
Lemma CheckExist_evolves said b : respects evolves (CheckSystemAbilityExist Lsched said b).
Proof. solve_deep. Qed.
Lemma Load_evolves said cb : respects evolves (LoadSystemAbility Lsched said cb).
Proof. solve_deep. Qed.
Lemma LoadFromRpc_evolves dev said cb : respects evolves (LoadSystemAbilityFromRpc Lsched dev said cb).
Proof. solve_deep. Qed.
Lemma Unload_evolves said : respects evolves (UnloadSystemAbility Lsched said).
Proof. solve_deep. Qed.
Lemma CancelUnload_evolves said : respects evolves (CancelUnloadSystemAbility Lsched said).
Proof. solve_deep. Qed.
Lemma UnloadAllIdle_evolves : respects evolves (ManagerUnloadAllIdle Lsched).
Proof. solve_deep. Qed.
Lemma UnloadProcess_evolves l : respects evolves (ManagerUnloadProcess Lsched l).
Proof. solve_deep. Qed.
Lemma OnDemandEvent_evolves e l : respects evolves (ProcessOnDemandEvent Lsched e l).
Proof. solve_deep. Qed.
Lemma CheckSystemAbility_evolves said : respects evolves (CheckSystemAbility said).
Proof. solve_deep. Qed.
Lemma AddOnDemand_evolves said pn : respects evolves (AddOnDemandSystemAbilityInfo said pn).
Proof. solve_deep. Qed.
Lemma failStart_evolves said e : respects evolves (failStart said e).
Proof. solve_deep. Qed.
Lemma GetLru_evolves : respects evolves GetLruIdleSystemAbilityProc.
Proof. solve_deep. Qed.
Lemma Subscribe_evolves said l : respects evolves (SubscribeSystemAbility said l).
Proof. solve_deep. Qed.
Lemma UnSubscribe_evolves said l : respects evolves (UnSubscribeSystemAbility said l).
Proof. solve_deep. Qed.
Lemma SubscribeProcess_evolves l b : respects evolves (SubscribeSystemProcess l b).
Proof. solve_deep. Qed.
Lemma UnSubscribeProcess_evolves l b : respects evolves (UnSubscribeSystemProcess l b).
Proof. solve_deep. Qed.
Lemma SubscribeLowMem_evolves l : respects evolves (ManagerSubscribeLowMem l).
Proof. solve_deep. Qed.
Lemma UnSubscribeLowMem_evolves l : respects evolves (ManagerUnSubscribeLowMem l).
Proof. solve_deep. Qed.
Lemma GetRunning_evolves : respects evolves ManagerGetRunningSystemProcess.
Proof. solve_deep. Qed.
Lemma GetProcessInfo_evolves said out : respects evolves (ManagerGetSystemProcessInfo said out).
Proof. solve_deep. Qed.
Lemma ManagerInit_evolves l multi : respects evolves (ManagerInit l multi).
Proof. solve_deep. Qed.
Hint Resolve Subscribe_evolves UnSubscribe_evolves SubscribeProcess_evolves UnSubscribeProcess_evolves : respects.

(** The manager of a user. *)
Lemma AddSubscriberInfo_evolves said l b : respects evolves (AddSubscriberInfo said l b).
Proof. solve_deep. Qed.
Lemma RemoveSubscriberInfo_evolves said l b : respects evolves (RemoveSubscriberInfo said l b).
Proof. solve_deep. Qed.
Hint Resolve AddSubscriberInfo_evolves RemoveSubscriberInfo_evolves : respects.
Lemma SubscribeWithPid_evolves said l b pid : respects evolves (SubscribeSystemAbilityWithPid said l b pid).
Proof. solve_deep. Qed.
Lemma MultiUnSubscribe_evolves said l b : respects evolves (MultiUnSubscribeSystemAbility said l b).
Proof. solve_deep. Qed.
Lemma MultiSubscribeProcess_evolves l b : respects evolves (MultiSubscribeSystemProcess l b).
Proof. solve_deep. Qed.
Lemma MultiUnSubscribeProcess_evolves l b : respects evolves (MultiUnSubscribeSystemProcess l b).
Proof. solve_deep. Qed.
Hint Resolve SubscribeWithPid_evolves MultiUnSubscribe_evolves MultiSubscribeProcess_evolves
  MultiUnSubscribeProcess_evolves : respects.
Lemma MultiSubscribe_evolves said l b : respects evolves (MultiSubscribeSystemAbility said l b).
Proof. solve_deep. Qed.
Lemma RollbackGlobal_evolves sas procs : respects evolves (RollbackGlobalSubscriptions sas procs).
Proof. solve_deep. Qed.
Hint Resolve RollbackGlobal_evolves : respects.
Lemma restoreAbilities_evolves l done : respects evolves (restoreAbilities l done).
Proof. revert done. induction l; intros; simpl; solve_respects. Qed.
Lemma restoreProcesses_evolves l sas done : respects evolves (restoreProcesses l sas done).
Proof. revert done. induction l; intros; simpl; solve_respects. Qed.
Hint Resolve restoreAbilities_evolves restoreProcesses_evolves : respects.
Lemma MultiInit_evolves l multi subs : respects evolves (MultiInit l multi subs).
Proof. solve_deep. Qed.
Lemma MultiDestroy_evolves : respects evolves MultiDestroy.
Proof. solve_deep. Qed.
Lemma NotifyAllSAsToStop_evolves : respects evolves NotifyAllSAsToStop.
Proof. solve_deep. Qed.
Lemma StopEventCollection_evolves : respects evolves StopEventCollection.
Proof. solve_deep. Qed.

(** The collect manager's side. *)
Context {C : CollectIface} {CL : CollectLaws C}.
Lemma GetOnDemandPolicy_evolves said type : respects evolves (GetOnDemandPolicy said type).
Proof. solve_deep. Qed.
Lemma UpdateOnDemandPolicy_evolves said type l : respects evolves (UpdateOnDemandPolicy said type l).
Proof. solve_deep. Qed.
Lemma GetCommonEventExtraDataIdlist_evolves said n : respects evolves (GetCommonEventExtraDataIdlist said n).
Proof. solve_deep. Qed.
Lemma GetReasonExtraData_evolves `{P : Parcels} i p : respects evolves (GetOnDemandReasonExtraData i p).
Proof. solve_deep. Qed.
End evolves.

#[export] Hint Resolve runTask_evolves OnRemoteDied_evolves AddSystemAbility_evolves RemoveSystemAbility_evolves
  AddSystemProcess_evolves CheckExist_evolves Load_evolves LoadFromRpc_evolves Unload_evolves CancelUnload_evolves UnloadAllIdle_evolves
  UnloadProcess_evolves OnDemandEvent_evolves CheckSystemAbility_evolves AddOnDemand_evolves failStart_evolves
  GetLru_evolves Subscribe_evolves UnSubscribe_evolves SubscribeProcess_evolves UnSubscribeProcess_evolves
  SubscribeLowMem_evolves UnSubscribeLowMem_evolves GetRunning_evolves GetProcessInfo_evolves ManagerInit_evolves
  SubscribeWithPid_evolves MultiSubscribe_evolves MultiUnSubscribe_evolves MultiSubscribeProcess_evolves
  MultiUnSubscribeProcess_evolves MultiInit_evolves MultiDestroy_evolves NotifyAllSAsToStop_evolves
  StopEventCollection_evolves GetOnDemandPolicy_evolves UpdateOnDemandPolicy_evolves
  GetCommonEventExtraDataIdlist_evolves GetReasonExtraData_evolves SendStrategy_rest : respects.
