(* ===== verification/UsersInv.v ===== *)
(** The users of the service: what holds of the tables of [UserLifecycleManager]
    between operations, and that every operation keeps it. *)
From S2P Require Import Prelude Types World Parcel Ffrt Util TimeHandler CollectFrame CollectTasks Contexts Interfaces Hoare ManagerBase StateMachine.
From S2P Require Import EventHandler Scheduler SchedulerQuery Subscribers Manager IpcInterface Stub StubFrame Policy.
From S2P Require Import DBinder DumpStats.
From S2P Require Import MultiManager UserLifecycle GlobalSubscriptions Samgr System SystemRegistry Evolves.

(** Whose manager it is, and of which class. *)
Definition um_id (u : UserManager) : Z * ManagerClass := (userId_ (um_mgr u), dynamicClass (um_mgr u)).

Record users_ok (s : Service) : Prop := {
  uo_valid : validUserIds_ (sv_users s) = dom (multiUserManagers_ (sv_users s));
  uo_active u :
    is_Some (multiUserManagers_ (sv_users s) !! u) ↔
    userStateMap_ (sv_users s) !! u = Some USER_STATE_ACTIVATING ∨
    userStateMap_ (sv_users s) !! u = Some USER_STATE_SWITCHING;
  uo_stopping u :
    is_Some (userStoppingContexts_ (sv_users s) !! u) ↔ userStateMap_ (sv_users s) !! u = Some USER_STATE_STOPPING;
  uo_foreground :
    w_foreground (sv_base s) = SAMGR_INVALID_USER_ID ∨
    is_Some (multiUserManagers_ (sv_users s) !! w_foreground (sv_base s));
  uo_ids u : is_Some (userStateMap_ (sv_users s) !! u) → u ≠ SAMGR_INVALID_USER_ID ∧ u ≠ BASE_USER;
  uo_state u st :
    userStateMap_ (sv_users s) !! u = Some st → st ∈ [USER_STATE_ACTIVATING; USER_STATE_SWITCHING; USER_STATE_STOPPING];
  uo_manager u m : multiUserManagers_ (sv_users s) !! u = Some m → um_id m = (u, KMultiSystemAbilityManager);
  uo_context u c :
    userStoppingContexts_ (sv_users s) !! u = Some c →
    um_id (us_manager c) = (u, KMultiSystemAbilityManager) ∧ us_finalizing c = false ∧
    (us_context c < nextContext (sv_users s))%positive ∧
    submitted (TUserStopTimeout u (us_context c)) (sv_base s);
  uo_alive : taskAlive (sv_users s) = true;
  uo_prior : is_i32 (priorRefCnt_ s) ∧ (priorEnable_ (w_stub (sv_base s)) = false → priorRefCnt_ s = 0);
}.

(** ** Operations that leave the tables alone *)

Definition uc_id (c : UserStopping) : positive * bool * (Z * ManagerClass) :=
  (us_context c, us_finalizing c, um_id (us_manager c)).
Definition tables (us : Users) :=
  (userStateMap_ us, um_id <$> multiUserManagers_ us, uc_id <$> userStoppingContexts_ us, validUserIds_ us,
   taskAlive us, nextContext us).

Definition ordinary : relation Service := λ s s',
  (tables (sv_users s) = tables (sv_users s') ∧ priorRefCnt_ s = priorRefCnt_ s') ∧ evolves (sv_base s) (sv_base s').

#[export] Instance ordinary_preorder : PreOrder ordinary.
Proof.
  split; [by split|]. intros x y z [[H1 H2] H3] [[H4 H5] H6]. split; [split; congruence|by etrans].
Qed.

Lemma submitted_suffix t w w' : w_trace w `suffix_of` w_trace w' → submitted t w → submitted t w'.
Proof. intros [l Hl] (h & q & d & H). exists h, q, d. rewrite Hl. set_solver. Qed.

Lemma fmap_lookup_eq {A B} (f : A → B) (m m' : gmap Z A) k :
  f <$> m = f <$> m' → f <$> m !! k = f <$> m' !! k.
Proof. intros H. by rewrite <- !lookup_fmap, H. Qed.
Lemma fmap_is_Some {A B} (f : A → B) (m m' : gmap Z A) k :
  f <$> m = f <$> m' → is_Some (m !! k) ↔ is_Some (m' !! k).
Proof.
  intros H%(fmap_lookup_eq f m m' k). destruct (m !! k), (m' !! k); simpl in H; try done; split; eauto.
Qed.
Lemma fmap_lookup_back {A B} (f : A → B) (m m' : gmap Z A) k x' :
  f <$> m = f <$> m' → m' !! k = Some x' → ∃ x, m !! k = Some x ∧ f x = f x'.
Proof. intros H%(fmap_lookup_eq f m m' k) Hk. rewrite Hk in H. by apply fmap_Some_1 in H as (x & ? & ?); eauto. Qed.

Lemma ordinary_users_ok s s' : ordinary s s' → users_ok s → users_ok s'.
Proof.
  intros [[Ht Hp] [Hi Htr]] [V A S F I T M C L P]. unfold tables in Ht. injection Ht as H1 H2 H3 H4 H5 H6.
  unfold identity in Hi. injection Hi as _ _ _ Hf Hpr. split.
  - by rewrite <- H4, V, <- (dom_fmap_L um_id), H2, dom_fmap_L.
  - intros u. rewrite <- H1, <- (A u). symmetry. by apply (fmap_is_Some um_id).
  - intros u. rewrite <- H1, <- (S u). symmetry. by apply (fmap_is_Some uc_id).
  - rewrite <- Hf. destruct F as [F|F]; [by left|right]. by apply (fmap_is_Some um_id _ _ _ H2).
  - intros u. rewrite <- H1. apply I.
  - intros u. rewrite <- H1. apply T.
  - intros u m' Hm. apply (fmap_lookup_back um_id _ _ _ _ H2) in Hm as (m & Hm & <-). by apply M.
  - intros u c' Hc. apply (fmap_lookup_back uc_id _ _ _ _ H3) in Hc as (c & Hc & Hid).
    apply pair_eq in Hid as [[<- <-]%pair_eq <-]. destruct (C u c Hc) as (? & ? & ? & ?). rewrite <- H6.
    split_and!; [done..|]. by eapply submitted_suffix.
  - congruence.
  - by rewrite <- Hp, <- Hpr.
Qed.

(** ** Running a manager's operation *)

Lemma liftW_ordinary {A} (m : M A) : respects evolves m → keepsS ordinary (liftW m : ST Service A).
Proof.
  intros Hm s. unfold liftW. specialize (Hm (sv_base s)). simpl. by destruct (m (sv_base s)) as [a w'].
Qed.
Lemma liftW_frame {A} (m : M A) : respects frame m → keepsS ordinary (liftW m : ST Service A).
Proof. intros Hm. apply liftW_ordinary. intros w. apply frame_evolves, Hm. Qed.

(** The base manager is put back; the user's manager keeps its identity. *)
Lemma runUser_evolves {A} (u : UserManager) (m : M A) w :
  respects evolves m → let '(_, u', w') := runUser u m w in um_id u' = um_id u ∧ evolves w w'.
Proof.
  intros Hm. unfold runUser. specialize (Hm (enterUser u w)). destruct (m (enterUser u w)) as [a w'].
  destruct Hm as [Hi Ht]. unfold identity in Hi. injection Hi as Hu Hc Hcl Hf Hp. simpl in *. split.
  - unfold um_id. simpl. congruence.
  - split; [|exact Ht]. unfold identity. simpl. congruence.
Qed.

Lemma onManager_ordinary {A} u (m : M A) : respects evolves m → keepsS ordinary (onManager u m).
Proof.
  intros Hm s. unfold onManager. destruct (multiUserManagers_ (sv_users s) !! u) as [um|] eqn:Hu; [|reflexivity].
  pose proof (runUser_evolves um m (sv_base s) Hm) as Hr. destruct (runUser um m (sv_base s)) as [[a u'] w'].
  destruct Hr as [Hid Hw]. split; [|exact Hw]. split; [|done]. unfold tables. simpl.
  by rewrite fmap_insert, Hid, insert_id; [|rewrite lookup_fmap, Hu].
Qed.

Lemma onStopping_ordinary {A} u (m : M A) : respects evolves m → keepsS ordinary (onStopping u m).
Proof.
  intros Hm s. unfold onStopping. destruct (userStoppingContexts_ (sv_users s) !! u) as [c|] eqn:Hu; [|reflexivity].
  pose proof (runUser_evolves (us_manager c) m (sv_base s) Hm) as Hr.
  destruct (runUser (us_manager c) m (sv_base s)) as [[a u'] w'].
  destruct Hr as [Hid Hw]. split; [|exact Hw]. split; [|done]. unfold tables. simpl. rewrite fmap_insert.
  assert (Hc : uc_id (c <| us_manager := u' |>) = uc_id c) by (unfold uc_id; simpl; by rewrite Hid).
  by rewrite Hc, insert_id; [|rewrite lookup_fmap, Hu].
Qed.

Lemma withUser_ordinary {A} u (d : A) m : respects evolves m → keepsS ordinary (withUser u d m).
Proof. intros Hm. apply (keepsS_bind ordinary); [by apply onManager_ordinary|]. intros r. apply (keepsS_ret ordinary). Qed.
Lemma withStopping_ordinary {A} u (d : A) m : respects evolves m → keepsS ordinary (withStopping u d m).
Proof. intros Hm. apply (keepsS_bind ordinary); [by apply onStopping_ordinary|]. intros r. apply (keepsS_ret ordinary). Qed.

Lemma getU_ordinary {A} (f : Users → A) : keepsS ordinary (getU f).
Proof. intros s. reflexivity. Qed.
Lemma updU_ordinary f : (∀ us, tables (f us) = tables us) → keepsS ordinary (updU f).
Proof. intros H s. split; [|reflexivity]. by rewrite <- (H (sv_users s)). Qed.
Lemma forS_ordinary {A} (l : list A) f : (∀ x, keepsS ordinary (f x)) → keepsS ordinary (forS l f).
Proof.
  intros Hf. induction l; simpl; [apply (keepsS_ret ordinary)|]. apply (keepsS_bind ordinary); auto.
Qed.
Lemma foldS_ordinary {A B} (l : list A) (b : B) f : (∀ b x, keepsS ordinary (f b x)) → keepsS ordinary (foldS l b f).
Proof.
  intros Hf. revert b. induction l; intros b; simpl; [apply (keepsS_ret ordinary)|].
  apply (keepsS_bind ordinary); auto.
Qed.

#[export] Hint Extern 3 (keepsS ordinary (liftW _)) => apply liftW_ordinary; solve_deep : keeps.
#[export] Hint Extern 3 (keepsS ordinary (onManager _ _)) => apply onManager_ordinary; solve_deep : keeps.
#[export] Hint Extern 3 (keepsS ordinary (withUser _ _ _)) => apply withUser_ordinary; solve_deep : keeps.
#[export] Hint Extern 3 (keepsS ordinary (withStopping _ _ _)) => apply withStopping_ordinary; solve_deep : keeps.
#[export] Hint Extern 3 (keepsS ordinary (updU _)) => apply updU_ordinary; done : keeps.
#[export] Hint Resolve getU_ordinary : keeps.

(** Follow an operation of the service, opening what no lemma covers. *)
Ltac unfold_s := lazymatch goal with |- keepsS _ ?m => let h := op_head m in unfold h end.
Ltac solve_ordinary :=
  repeat first [ keeps_step | solve [auto with keeps]
               | apply forS_ordinary; intros ? | apply foldS_ordinary; intros ? ? | unfold_s ].

(** ** The operations of the interface *)

Section operations.
Context `{E : Env} `{IE : !IpcEnv} {C : CollectIface} {CL : CollectLaws C}.

Lemma CheckSystemAbility_ordinary said : keepsS ordinary (Samgr.CheckSystemAbility said).
Proof. solve_ordinary. Qed.
Lemma GetSystemAbility_ordinary said : keepsS ordinary (Samgr.GetSystemAbility said).
Proof. solve_ordinary. Qed.
Lemma AddSystemAbility_ordinary said a p : keepsS ordinary (Samgr.AddSystemAbility Lsched said a p).
Proof. solve_ordinary. Qed.
Lemma RemoveSystemAbility_ordinary said : keepsS ordinary (Samgr.RemoveSystemAbility Lsched said).
Proof. solve_ordinary. Qed.
Lemma RemoveExpired_ordinary : keepsS ordinary RemoveExpiredGlobalSubscriptionsLocked.
Proof. solve_ordinary. Qed.
Lemma rollback_ordinary undo l : respects evolves undo → keepsS ordinary (rollback undo l).
Proof. intros. solve_ordinary. Qed.
Lemma eachManager_ordinary op undo us done :
  respects evolves op → respects evolves undo → keepsS ordinary (eachManager op undo us done).
Proof.
  intros Ho Hu. pose proof (rollback_ordinary undo) as Hr. revert done. induction us; intros done; simpl; solve_ordinary.
Qed.
Lemma allManagers_ordinary op undo : respects evolves op → respects evolves undo → keepsS ordinary (allManagers op undo).
Proof. intros. pose proof eachManager_ordinary. solve_ordinary. Qed.
Hint Resolve RemoveExpired_ordinary : keeps.
Hint Extern 3 (keepsS ordinary (allManagers _ _)) => apply allManagers_ordinary; solve_deep : keeps.
Lemma SubscribeAll_ordinary said l pid : keepsS ordinary (SubscribeSystemAbilityForAllUsers said l pid).
Proof. solve_ordinary. Qed.
Lemma UnSubscribeAll_ordinary said l : keepsS ordinary (UnSubscribeSystemAbilityForAllUsers said l).
Proof. solve_ordinary. Qed.
Lemma SubscribeProcessAll_ordinary l : keepsS ordinary (SubscribeSystemProcessForAllUsers l).
Proof. solve_ordinary. Qed.
Lemma UnSubscribeProcessAll_ordinary l : keepsS ordinary (UnSubscribeSystemProcessForAllUsers l).
Proof. solve_ordinary. Qed.
Hint Resolve CheckSystemAbility_ordinary SubscribeAll_ordinary UnSubscribeAll_ordinary SubscribeProcessAll_ordinary
  UnSubscribeProcessAll_ordinary : keeps.
Lemma runningLoop_ordinary us acc : keepsS ordinary (runningLoop us acc).
Proof. revert acc. induction us; intros; simpl; solve_ordinary. Qed.
End operations.

#[export] Hint Resolve CheckSystemAbility_ordinary SubscribeAll_ordinary UnSubscribeAll_ordinary
  SubscribeProcessAll_ordinary UnSubscribeProcessAll_ordinary runningLoop_ordinary : keeps.

(** ** Users come and go *)

Definition keepsU : relation Service := λ s s', users_ok s → users_ok s'.
#[export] Instance keepsU_preorder : PreOrder keepsU.
Proof. split; [by intros ??|]. intros x y z H1 H2 H. auto. Qed.

Lemma ordinary_keepsU {A} (m : ST Service A) : keepsS ordinary m → keepsS keepsU m.
Proof. intros H s. unfold keepsU. apply ordinary_users_ok, H. Qed.

Lemma service_ext s s' :
  sv_base s = sv_base s' → sv_users s = sv_users s' → priorRefCnt_ s = priorRefCnt_ s' → s = s'.
Proof. destruct s, s'. simpl. congruence. Qed.
Lemma liftW_gets {A} (f : World → A) (s : Service) : liftW (gets f) s = (f (sv_base s), s).
Proof. by destruct s. Qed.

Section lifecycle.
Context `{E : Env} `{IE : !IpcEnv}.

Lemma destroyManager_ordinary u : keepsS ordinary (destroyManager u).
Proof.
  intros s. unfold destroyManager. pose proof (runUser_evolves u MultiDestroy (sv_base s) MultiDestroy_evolves) as H.
  destruct (runUser u MultiDestroy (sv_base s)) as [[a u'] w']. by destruct H.
Qed.

Lemma createManager_ok userId l multi subs s :
  ordinary s (createManager userId l multi subs s).2 ∧
  ∀ u, (createManager userId l multi subs s).1 = inl u → um_id u = (userId, KMultiSystemAbilityManager).
Proof.
  unfold createManager.
  pose proof (runUser_evolves (newMultiManager userId) _ (sv_base s) (MultiInit_evolves l multi subs)) as H.
  destruct (runUser _ _ _) as [[ret u] w']. destruct H as [Hid Hw].
  assert (Ho : ordinary s (s <| sv_base := w' |>)) by by split.
  destruct (negb (ret =? ERR_OK)); simpl.
  - split; [|done]. etrans; [exact Ho|apply destroyManager_ordinary].
  - split; [exact Ho|]. by intros ? [= <-].
Qed.

(** A new user. *)
Lemma addUser_ok s userId u st :
  users_ok s → userStateMap_ (sv_users s) !! userId ≠ Some USER_STATE_STOPPING →
  st = USER_STATE_ACTIVATING ∨ st = USER_STATE_SWITCHING →
  userId ≠ SAMGR_INVALID_USER_ID → userId ≠ BASE_USER → um_id u = (userId, KMultiSystemAbilityManager) →
  users_ok (s <| sv_users ::= λ us, us <| multiUserManagers_ ::= <[userId := u]> |>
                                       <| validUserIds_ ::= λ v, {[userId]} ∪ v |>
                                       <| userStateMap_ ::= <[userId := st]> |> |>).
Proof.
  intros [V A S F I T M C L P] Hn Hst H1 H2 Hid. split; simpl; try done.
  - rewrite V. set_solver.
  - intros v. destruct (decide (userId = v)) as [<-|Hv]; [|by rewrite !lookup_insert_ne].
    rewrite !lookup_insert_eq. split; [|eauto]. intros _. destruct Hst as [->| ->]; auto.
  - intros v. destruct (decide (userId = v)) as [<-|Hv]; [|by rewrite lookup_insert_ne].
    rewrite S, lookup_insert_eq. split; [done|]. destruct Hst as [->| ->]; by intros [= ?].
  - destruct F as [F|F]; [by left|right]. rewrite lookup_insert_is_Some. destruct (decide (userId = w_foreground (sv_base s))); auto.
  - intros v. rewrite lookup_insert_is_Some. intros [<-|[_ ?]]; auto.
  - intros v x. rewrite lookup_insert_Some. intros [[_ <-]|[_ ?]]; [set_solver|eauto].
  - intros v m. rewrite lookup_insert_Some. intros [[<- <-]|[_ ?]]; auto.
Qed.

Lemma HandleUserActivating_keeps userId :
  userId ≠ SAMGR_INVALID_USER_ID → userId ≠ BASE_USER → keepsS keepsU (HandleUserActivating userId).
Proof.
  intros H1 H2 s Hs. unfold HandleUserActivating. unfold mbind, ST_bind, getU.
  case_bool_decide as Hst; [exact Hs|]. case_bool_decide as Hm; [exact Hs|].
  pose proof (RemoveExpired_ordinary s) as Ho. destruct (RemoveExpiredGlobalSubscriptionsLocked s) as [[] s1].
  simpl in Ho. assert (Hs1 : users_ok s1) by by eapply ordinary_users_ok.
  assert (Hst1 : userStateMap_ (sv_users s1) !! userId ≠ Some USER_STATE_STOPPING).
  { destruct Ho as [[Ht _] _]. by injection Ht as <-. }
  destruct (negb _); [exact Hs1|]. unfold getM. rewrite !liftW_gets.
  set (l := allSaProfiles_ _). set (multi := multiInstanceSaIds_ _). set (subs := globalSubscriptions_ _).
  destruct (createManager_ok userId l multi subs s1) as [Hc Hid].
  destruct (createManager userId l multi subs s1) as [[u|r] s2]; simpl in Hc, Hid;
    assert (Hs2 : users_ok s2) by (by eapply ordinary_users_ok); [|exact Hs2].
  case_bool_decide as Hm2.
  - pose proof (destroyManager_ordinary u s2) as Hd. destruct (destroyManager u s2) as [[] s3].
    by eapply ordinary_users_ok.
  - apply addUser_ok; [done| |by left|done..|by apply Hid].
    destruct Hc as [[Ht _] _]. by injection Ht as <-.
Qed.

Lemma HandleUserSwitching_keeps userId : keepsS keepsU (HandleUserSwitching userId).
Proof.
  intros s Hs. unfold HandleUserSwitching, GetForegroundUserId, mbind, ST_bind, getU. rewrite liftW_gets.
  case_bool_decide as Hst; [exact Hs|]. destruct (userId =? _); [exact Hs|].
  case_bool_decide as Hm; [simpl|exact Hs]. destruct Hs as [V A S F I T M C L P]. split; simpl; try done.
  - intros v. rewrite A. destruct (decide (userId = v)) as [<-|Hv]; [|by rewrite !lookup_insert_ne].
    rewrite !lookup_insert_eq. split; [auto|]. intros _. by apply A.
  - intros v. rewrite S. destruct (decide (userId = v)) as [<-|Hv]; [|by rewrite lookup_insert_ne].
    rewrite lookup_insert_eq. by split; [|intros [=]].
  - by right.
  - intros v. rewrite lookup_insert_is_Some. intros [<-|[_ ?]]; [|auto]. apply I.
    apply A in Hm as [->| ->]; eauto.
  - intros v x. rewrite lookup_insert_Some. intros [[_ <-]|[_ ?]]; [set_solver|eauto].
Qed.

(** *** Stopping *)

(** The tables without the context of a user. *)
Definition dropUser (userId : Z) (us : Users) : Users :=
  us <| userStoppingContexts_ ::= delete userId |>
     <| userStateMap_ ::= λ m, if bool_decide (m !! userId = Some USER_STATE_STOPPING) then delete userId m else m |>.

Lemma dropUser_ordinary userId s s' :
  ordinary s s' → ordinary (s <| sv_users ::= dropUser userId |>) (s' <| sv_users ::= dropUser userId |>).
Proof.
  intros [[Ht Hp] Hw]. split; [split|done]; [|done]. unfold tables in *. injection Ht as H1 H2 H3 H4 H5 H6. simpl.
  by rewrite !fmap_delete, H1, H2, H3, H4, H5, H6.
Qed.

(** The end of a user: its context and its state go, the rest is untouched. *)
Lemma CompleteUserStopping_spec userId s c :
  userStoppingContexts_ (sv_users s) !! userId = Some c → us_finalizing c = false →
  ordinary (s <| sv_users ::= dropUser userId |>) (CompleteUserStopping userId (us_context c) s).2.
Proof.
  intros Hc Hf. unfold CompleteUserStopping. unfold mbind at 1, ST_bind at 1, getU at 1. rewrite Hc, Hf.
  rewrite bool_decide_eq_true_2 by done. cbn [negb orb].
  set (s1 := s <| sv_users ::= λ us, us <| userStoppingContexts_ ::= <[userId := c <| us_finalizing := true |>]> |> |>).
  set (tl := liftW (forceStop userId (us_processNames c));; _ ← onStopping userId StopEventCollection;
             onStopping userId MultiDestroy).
  assert (Ht : keepsS ordinary tl).
  { unfold tl. repeat (apply (keepsS_bind ordinary); [|intros ?]).
    - apply liftW_ordinary. unfold forceStop. solve_respects.
    - apply onStopping_ordinary, StopEventCollection_evolves.
    - apply onStopping_ordinary, MultiDestroy_evolves. }
  specialize (Ht s1). apply (dropUser_ordinary userId) in Ht.
  assert (Hd : ordinary (s <| sv_users ::= dropUser userId |>) (s1 <| sv_users ::= dropUser userId |>)).
  { split; [split; [|done]|done]. unfold tables. simpl. by rewrite delete_insert_eq. }
  etrans; [exact Hd|]. unfold tl, mbind, ST_bind in Ht. unfold mbind, ST_bind, updU. cbv beta. fold s1.
  destruct (liftW (forceStop userId (us_processNames c)) s1) as [[] s2].
  destruct (onStopping userId StopEventCollection s2) as [? s3].
  by destruct (onStopping userId MultiDestroy s3) as [? s4].
Qed.

Lemma dropUser_ok userId s :
  users_ok s → is_Some (userStoppingContexts_ (sv_users s) !! userId) → users_ok (s <| sv_users ::= dropUser userId |>).
Proof.
  intros [V A S F I T M C L P] Hc. apply S in Hc. split; simpl; rewrite ?bool_decide_eq_true_2 by done; try done.
  - intros v. rewrite A. destruct (decide (userId = v)) as [<-|Hv]; [|by rewrite !lookup_delete_ne].
    rewrite !lookup_delete_eq, Hc. naive_solver.
  - intros v. destruct (decide (userId = v)) as [<-|Hv]; [|by rewrite !lookup_delete_ne].
    rewrite !lookup_delete_eq. split; [intros [? [=]]|intros [=]].
  - intros v [x Hx]. apply lookup_delete_Some in Hx as [_ Hx]. eauto.
  - intros v x [_ Hx]%lookup_delete_Some. eauto.
  - intros v c' Hv. apply lookup_delete_Some in Hv as [_ Hv]. eauto.
Qed.

Lemma CompleteUserStopping_keeps userId context : keepsS keepsU (CompleteUserStopping userId context).
Proof.
  intros s Hs. destruct (userStoppingContexts_ (sv_users s) !! userId) as [c|] eqn:Hc.
  - destruct (uo_context s Hs _ _ Hc) as (_ & Hf & _ & _).
    destruct (decide (us_context c = context)) as [<-|Hne].
    + eapply ordinary_users_ok; [by apply CompleteUserStopping_spec|]. apply dropUser_ok; eauto.
    + unfold CompleteUserStopping, mbind, ST_bind, getU. rewrite Hc. by rewrite bool_decide_eq_false_2.
  - unfold CompleteUserStopping, mbind, ST_bind, getU. by rewrite Hc.
Qed.

(** The state in which a user's stop begins. *)
Definition stopUser (userId : Z) (u : UserManager) (names : list u16string) (s : Service) : Service :=
  s <| sv_base ::= λ w, if userId =? w_foreground w then w <| w_foreground := SAMGR_INVALID_USER_ID |> else w |>
    <| sv_users ::= λ us,
         us <| userStateMap_ ::= <[userId := USER_STATE_STOPPING]> |> <| validUserIds_ ::= λ v, v ∖ {[userId]} |>
            <| multiUserManagers_ ::= delete userId |>
            <| userStoppingContexts_ ::= <[userId := MkUserStopping (nextContext us) u names false]> |>
            <| nextContext ::= Pos.succ |> |>.

Lemma stopUser_base userId u names s :
  let w := sv_base (stopUser userId u names s) in
  w_trace w = w_trace (sv_base s) ∧ w_stub w = w_stub (sv_base s) ∧ w_mgr w = w_mgr (sv_base s) ∧
  w_caller w = w_caller (sv_base s) ∧
  w_foreground w = if userId =? w_foreground (sv_base s) then SAMGR_INVALID_USER_ID else w_foreground (sv_base s).
Proof. unfold stopUser. simpl. by destruct (userId =? _). Qed.

(** Once its timeout task is posted. *)
Lemma stopUser_ok userId u names s :
  users_ok s → multiUserManagers_ (sv_users s) !! userId = Some u →
  submitted (TUserStopTimeout userId (nextContext (sv_users s))) (sv_base s) →
  users_ok (stopUser userId u names s).
Proof.
  intros [V A S F I T M C L P] Hu Hsub. destruct (stopUser_base userId u names s) as (Ht & Hst & _ & _ & Hf). split.
  - simpl. rewrite V. set_solver.
  - intros v. simpl. destruct (decide (userId = v)) as [<-|Hv]; [|by rewrite lookup_delete_ne, !lookup_insert_ne].
    rewrite lookup_delete_eq, !lookup_insert_eq. split; [intros [? [=]]|intros [[=]|[=]]].
  - intros v. simpl. destruct (decide (userId = v)) as [<-|Hv]; [|by rewrite !lookup_insert_ne].
    rewrite !lookup_insert_eq. split; eauto.
  - rewrite Hf. simpl. destruct (Z.eqb_spec userId (w_foreground (sv_base s))) as [|Hne]; [by left|].
    by rewrite lookup_delete_ne.
  - intros v. simpl. rewrite lookup_insert_is_Some. intros [<-|[_ ?]]; [|auto]. apply I.
    destruct (proj1 (A userId)) as [->| ->]; eauto.
  - intros v x. simpl. rewrite lookup_insert_Some. intros [[_ <-]|[_ ?]]; [set_solver|eauto].
  - intros v m. simpl. rewrite lookup_delete_Some. intros [_ ?]. auto.
  - intros v c. simpl. rewrite lookup_insert_Some. unfold submitted. simpl in Ht. rewrite Ht.
    intros [[<- <-]|[_ Hc]]; simpl; [split_and!; [auto|done|lia|exact Hsub]|].
    destruct (C v c Hc) as (? & ? & ? & ?). split_and!; [done|done|lia|done].
  - done.
  - by rewrite Hst.
Qed.

(** When nothing is left to wait for. *)
Lemma stopUser_drop_ok userId u names s :
  users_ok s → multiUserManagers_ (sv_users s) !! userId = Some u →
  users_ok ((stopUser userId u names s) <| sv_users ::= dropUser userId |>).
Proof.
  intros Hs Hu. set (w := (sv_base s) <| w_trace ::= cons (EvSubmit (stopTaskHandler userId) 1%positive
    (TUserStopTimeout userId (nextContext (sv_users s))) 0) |>).
  assert (Hs' : users_ok (s <| sv_base := w |>)).
  { apply (ordinary_users_ok s); [|done]. split; [done|]. split; [done|]. by eexists [_]. }
  assert (Hok : users_ok ((stopUser userId u names (s <| sv_base := w |>)) <| sv_users ::= dropUser userId |>)).
  { apply dropUser_ok; [|simpl; rewrite lookup_insert_eq; eauto]. apply stopUser_ok; [done..|].
    eexists _, _, _. apply list_elem_of_here. }
  destruct (stopUser_base userId u names s) as (Ht & Hst & _ & _ & Hf).
  destruct (stopUser_base userId u names (s <| sv_base := w |>)) as (_ & Hst' & _ & _ & Hf').
  destruct Hok as [V A S F I T M C L P]. split; try done.
  - simpl in F, Hf, Hf' |- *. rewrite Hf' in F. by rewrite Hf.
  - intros v c Hc. destruct (C v c Hc) as (? & ? & ? & _). split_and!; [done..|].
    simpl in Hc. rewrite delete_insert_eq in Hc. apply lookup_delete_Some in Hc as [_ Hc].
    destruct (uo_context s Hs v c Hc) as (_ & _ & _ & Hsub). unfold submitted. simpl in Ht |- *. by rewrite Ht.
  - simpl in P, Hst, Hst' |- *. rewrite Hst' in P. by rewrite Hst.
Qed.

Lemma PostTaskDelay_submitted h t d w :
  (PostTaskDelay h t d w).1 = true → submitted t (PostTaskDelay h t d w).2.
Proof.
  unfold PostTaskDelay. destruct (_ <? d); [done|]. unfold mbind, M_bind, getH, gets. simpl.
  destruct (option_bind _ _ _ _) as [q|]; [|done]. intros _. eexists _, _, _. apply list_elem_of_here.
Qed.

(** Whichever way the stop goes from [stopUser]: completed at once, or left to the posted task. *)
Lemma stopUser_complete userId u names s s' c :
  users_ok s → multiUserManagers_ (sv_users s) !! userId = Some u → ordinary (stopUser userId u names s) s' →
  c = nextContext (sv_users s) → users_ok (CompleteUserStopping userId c s').2.
Proof.
  intros Hs Hu Ho ->. destruct Ho as [[Ht Hp] Hw] eqn:Heq. pose proof Ht as Ht'. unfold tables in Ht'.
  injection Ht' as _ _ H3 _ _ _. apply (fmap_lookup_eq _ _ _ userId) in H3. simpl in H3.
  rewrite lookup_insert_eq in H3. symmetry in H3. apply fmap_Some_1 in H3 as (c & Hc & Hid).
  apply pair_eq in Hid as [[Hid Hf]%pair_eq _]. simpl in Hid, Hf. rewrite Hid.
  eapply ordinary_users_ok; [by apply CompleteUserStopping_spec|].
  eapply ordinary_users_ok; [apply dropUser_ordinary, Ho|]. by apply stopUser_drop_ok.
Qed.

Lemma stopUser_posted userId u names s s' :
  users_ok s → multiUserManagers_ (sv_users s) !! userId = Some u → ordinary (stopUser userId u names s) s' →
  submitted (TUserStopTimeout userId (nextContext (sv_users s))) (sv_base s') → users_ok s'.
Proof.
  intros Hs Hu [[Ht Hp] [Hi Htr]] Hsub. destruct (stopUser_base userId u names s) as (Htr0 & Hst & Hm & Hcl & Hf).
  set (st := s <| sv_base ::= λ w, w <| w_trace := w_trace (sv_base s') |> |>).
  assert (Hsuf : w_trace (sv_base s) `suffix_of` w_trace (sv_base s')) by (rewrite <- Htr0; exact Htr).
  assert (Hst' : users_ok st) by (apply (ordinary_users_ok s); [|done]; by split).
  destruct (stopUser_base userId u names st) as (Htr1 & Hst1 & Hm1 & Hcl1 & Hf1).
  apply (ordinary_users_ok (stopUser userId u names st)); [|by apply stopUser_ok]. split; [done|]. split.
  - etrans; [|exact Hi]. unfold identity. rewrite Hst, Hm, Hcl, Hf, Hst1, Hm1, Hcl1, Hf1. done.
  - rewrite Htr1. done.
Qed.

Lemma StartUserStopping_ok userId u s s0 :
  users_ok s → multiUserManagers_ (sv_users s) !! userId = Some u →
  nextContext (sv_users s0) = nextContext (sv_users s) →
  let names := sorted_keys u16_le (systemProcessMap_ (um_mgr u)) in
  s0 <| sv_users ::= λ us, us <| nextContext ::= Pos.succ |>
       <| userStoppingContexts_ ::= <[userId := MkUserStopping (nextContext (sv_users s0)) u names false]> |> |>
    = stopUser userId u names s →
  users_ok (StartUserStopping userId u s0).2.
Proof.
  intros Hs Hu Hn names Heq. unfold StartUserStopping. fold names. unfold mbind at 1, ST_bind at 1, getU at 1.
  unfold mbind at 1, ST_bind at 1, updU at 1. rewrite Heq, Hn.
  assert (Ho : ordinary (stopUser userId u names s) (stopUser userId u names s)) by done. revert Ho.
  generalize (stopUser userId u names s) at 2 3. intros s1 Ho.
  unfold mbind at 1, ST_bind at 1, getH. rewrite liftW_gets.
  set (mk := if bool_decide (w_handlers _ !! _ = None) then _ else _). assert (Hmk : keepsS ordinary mk).
  { unfold mk. case_bool_decide; [|apply (keepsS_ret ordinary)]. apply liftW_ordinary. solve_deep. }
  specialize (Hmk s1). unfold mbind at 1, ST_bind at 1. destruct (mk s1) as [[] s2]. simpl in Hmk.
  pose proof (onStopping_ordinary userId _ NotifyAllSAsToStop_evolves s2) as Hno.
  unfold mbind at 1, ST_bind at 1. destruct (onStopping userId NotifyAllSAsToStop s2) as [? s3]. simpl in Hno.
  assert (Ho3 : ordinary (stopUser userId u names s) s3) by (etrans; [exact Ho|]; by etrans).
  case_bool_decide; [by eapply stopUser_complete|]. unfold PostUserStopTimeoutTask, mbind, ST_bind.
  set (post := PostTaskDelay _ _ _).
  assert (Hpost : keepsS ordinary (liftW post : ST Service bool)) by (apply liftW_ordinary; solve_deep).
  specialize (Hpost s3). pose proof (PostTaskDelay_submitted (stopTaskHandler userId)
    (TUserStopTimeout userId (nextContext (sv_users s))) USER_STOP_TIMEOUT (sv_base s3)) as Hsub. fold post in Hsub.
  unfold liftW in *. simpl in *. destruct (post (sv_base s3)) as [[] w4]; simpl in *.
  - eapply stopUser_posted; [done..| |by apply Hsub]. by etrans.
  - eapply stopUser_complete; [done..| |done]. by etrans.
Qed.

Lemma HandleUserStopping_keeps userId : keepsS keepsU (HandleUserStopping userId).
Proof.
  intros s Hs. unfold HandleUserStopping. unfold mbind at 1, ST_bind at 1, getU at 1.
  case_bool_decide as Hc; [exact Hs|]. unfold mbind at 1, ST_bind at 1, updU at 1. unfold mbind at 1, ST_bind at 1, getU.
  simpl. destruct (multiUserManagers_ (sv_users s) !! userId) as [u|] eqn:Hu.
  - unfold mbind, ST_bind, updU, GetForegroundUserId. rewrite liftW_gets. simpl.
    destruct (userId =? w_foreground (sv_base s)) eqn:Hf; simpl;
      match goal with |- context [StartUserStopping userId u ?s0] =>
        assert (Hok : users_ok (StartUserStopping userId u s0).2) end.
    1, 3: apply (StartUserStopping_ok userId u s); [done..|]; apply service_ext; simpl; by rewrite ?Hf.
    all: by destruct (StartUserStopping _ _ _) as [? s2].
  - apply (ordinary_users_ok s); [|done]. split; [split; [|done]|done]. unfold tables. simpl.
    rewrite delete_insert_eq, (uo_valid s Hs), difference_disjoint_L, delete_id; [done| |].
    + destruct (userStateMap_ (sv_users s) !! userId) as [st|] eqn:Hst; [|done]. exfalso.
      assert (Ha : ¬ is_Some (multiUserManagers_ (sv_users s) !! userId)) by (rewrite Hu; by intros [? [=]]).
      rewrite (uo_active s Hs) in Ha. rewrite (uo_stopping s Hs) in Hc. pose proof (uo_state s Hs _ _ Hst). set_solver.
    + apply not_elem_of_dom in Hu. set_solver.
Qed.
End lifecycle.
