(* ===== verification/Service.v ===== *)
(** The service as clients, its queues and the system drive it: boot, the requests
    that arrive over IPC with any transaction code and any parcel, the tasks of
    its queues and of those of the users' managers, death notices, on-demand events
    and timers.  Every step keeps the invariant of the users ([users_ok]). *)
From S2P Require Import Prelude Types World Parcel Ffrt Util TimeHandler CollectFrame Contexts Interfaces Hoare ManagerBase StateMachine.
From S2P Require Import EventHandler Scheduler SchedulerQuery Subscribers Manager IpcInterface Stub StubFrame Policy.
From S2P Require Import DBinder DumpStats Dumper.
From S2P Require Import MultiManager UserLifecycle GlobalSubscriptions Samgr System SystemRegistry Evolves UsersInv CollectTasks.

Definition setCaller (c : Caller) (s : Service) : Service := s <| sv_base ::= λ w, w <| w_caller := c |> |>.

Definition emptyUsers : Users := MkUsers ∅ ∅ ∅ ∅ true (MkGlobalSubscriptionInfo [] []) false 1.
Definition emptyService `{E : Env} (c : Caller) : Service :=
  MkService (emptyWorld KSystemAbilityManager BASE_USER c) emptyUsers 0.

Section service.
Context `{E : Env} `{IE : !IpcEnv} {C : CollectIface} `{P : Parcels}.

#[local] Instance samgr : ISystemAbilityManager Service := SystemAbilityManager Lsched.

(** The constructors, [Init] and [AddSamgrToAbilityMap], as main.cpp calls them. *)
Definition serviceBoot (parsed : list SaProfile) (multi : gset Z) (listener : StatusChange) : ST Service unit :=
  liftW (newFFRTHandler setParmHandler);;
  liftW newStub;;
  SamgrInit parsed multi listener;;
  liftW AddSamgrToAbilityMap.

(** What may run next; [c] is the caller the IPC framework reports. *)
Inductive sstep (s : Service) : Service → Prop :=
  | sstep_request c code data : sstep s (OnRemoteRequest code data (setCaller c s)).2
  | sstep_task c t :
      submitted t (sv_base s) ∨ EvThread t ∈ w_trace (sv_base s) → sstep s (runServiceTask Lsched t (setCaller c s)).2
  | sstep_userTask c u t : submitted t (sv_base s) → sstep s (onManager u (runTask Lsched t) (setCaller c s)).2
  | sstep_stoppingTask c u t : submitted t (sv_base s) → sstep s (onStopping u (runTask Lsched t) (setCaller c s)).2
  | sstep_died c k o : sstep s (liftW (OnRemoteDied Lsched k o) (setCaller c s)).2
  | sstep_userDied c u k o : sstep s (onManager u (OnRemoteDied Lsched k o) (setCaller c s)).2
  | sstep_stoppingDied c u k o : sstep s (onStopping u (OnRemoteDied Lsched k o) (setCaller c s)).2
  | sstep_event c e l : sstep s (Samgr.ProcessOnDemandEvent Lsched e l (setCaller c s)).2
  | sstep_userEvent c u e l : sstep s (onManager u (Manager.ProcessOnDemandEvent Lsched e l) (setCaller c s)).2
  | sstep_perf c : sstep s (DoLoadForPerf Lsched (setCaller c s)).2
  | sstep_report c : sstep s (liftW ReportGetSAPeriodically (setCaller c s)).2
  | sstep_timer c fd : sstep s (onTimer Lsched fd (setCaller c s)).2
  | sstep_collect c i : sstep s (liftW (runCollectInput i) (setCaller c s)).2
  | sstep_userCollect c u i : sstep s (onManager u (runCollectInput i) (setCaller c s)).2
  | sstep_stoppingCollect c u i : sstep s (onStopping u (runCollectInput i) (setCaller c s)).2
  | sstep_subscribeFor c l said listener :
      EvSubscribeFor l said ∈ w_trace (sv_base s) →
      sstep s (Samgr.SubscribeSystemAbility said (Some listener) (setCaller c s)).2
  | sstep_dump c fd args : sstep s (Dump fd args (setCaller c s)).2
  | sstep_frozen c u tid said pn reason : sstep s (liftW (killPeerTask u tid said pn reason) (setCaller c s)).2
  | sstep_rpcLoad c dev said : sstep s (liftW (LoadSystemAbilityFromRemote Lsched dev said) (setCaller c s)).2
  | sstep_rpcLoaded c dev said obj : sstep s (liftW (rpcOnLoadSystemAbilitySuccess dev said obj) (setCaller c s)).2
  | sstep_rpcFailed c dev said : sstep s (liftW (rpcOnLoadSystemAbilityFail dev said) (setCaller c s)).2.

Definition sreachable (parsed : list SaProfile) (multi : gset Z) (s : Service) : Prop :=
  ∃ c listener, rtc sstep (serviceBoot parsed multi listener (emptyService c)).2 s.

(** ** The operations that are not ordinary *)

Lemma OnUserStateChanged_keeps u st : keepsS keepsU (OnUserStateChanged u st).
Proof.
  unfold OnUserStateChanged. destruct (Z.eqb_spec u SAMGR_INVALID_USER_ID); [apply (keepsS_ret keepsU)|].
  destruct (Z.eqb_spec u BASE_USER); [apply (keepsS_ret keepsU)|]. cbn [orb]. unfold LifecycleOnUserStateChanged.
  repeat (case_match; [auto using HandleUserActivating_keeps, HandleUserSwitching_keeps, HandleUserStopping_keeps|]).
  apply (keepsS_ret keepsU).
Qed.

(** The mode and the count change together. *)
Lemma setPrior_ok s n b w :
  users_ok s → is_i32 n → (b = false → n = 0) → priorEnable_ (w_stub w) = b →
  w_foreground w = w_foreground (sv_base s) → w_trace (sv_base s) `suffix_of` w_trace w →
  users_ok (s <| sv_base := w |> <| priorRefCnt_ := n |>).
Proof.
  intros [V A S F I T M Cx L Pr] Hn Hb <- Hf Ht. split; simpl; try done.
  - by rewrite Hf.
  - intros u c Hc. destruct (Cx u c Hc) as (? & ? & ? & ?). split_and!; [done..|]. by eapply submitted_suffix.
Qed.

Lemma ResetIpcPrior_frame : respects frame ResetIpcPrior.
Proof. unfold ResetIpcPrior, updStub. solve_respects. Qed.

(** An operation that leaves the mode alone, run where the mode is [b]. *)
Lemma prior_run_ok {A} s b (m : M A) n w :
  users_ok s → is_i32 n → (b = false → n = 0) → respects frame m →
  priorEnable_ (w_stub w) = b → w_foreground w = w_foreground (sv_base s) → w_trace w = w_trace (sv_base s) →
  users_ok (s <| sv_base := (m w).2 |> <| priorRefCnt_ := n |>).
Proof.
  intros Hs Hn Hb Hm Hw Hf Ht. destruct (Hm w) as [Hr Htr]. unfold rest in Hr. injection Hr as _ _ _ Hf' Hp.
  apply (setPrior_ok s n b); try done; congruence.
Qed.

Lemma resetTimeoutTask_keeps : keepsS keepsU resetTimeoutTask.
Proof.
  intros s Hs. unfold resetTimeoutTask, mbind, ST_bind, liftW, updPrior, setRefCnt. simpl.
  set (w := (sv_base s) <| w_stub ::= λ st, st <| priorEnable_ := false |> |>).
  pose proof (prior_run_ok s false ResetIpcPrior 0 w Hs) as H.
  destruct (ResetIpcPrior w) as [[] w']. apply H; try done. apply ResetIpcPrior_frame.
Qed.

Lemma FlushResetPriorTask_frame : respects frame FlushResetPriorTask.
Proof. unfold FlushResetPriorTask. solve_respects. Qed.

(** What a request leaves: the world of an operation that leaves the mode alone, run where the mode is set. *)
Lemma SetSamgrIpcPrior_effect b s :
  is_i32 (priorRefCnt_ s) →
  let n := priorRefCnt_ s in
  let run (on : bool) (m : M unit) (k : Z) :=
    s <| sv_base := (m ((sv_base s) <| w_stub ::= λ st, st <| priorEnable_ := on |> |>)).2 |> <| priorRefCnt_ := k |> in
  let s' := (SetSamgrIpcPrior b s).2 in
  s' = s ∨
  (b = true ∧ s' = run true FlushResetPriorTask (i32 (n + 1))) ∨
  (b = false ∧ priorEnable_ (w_stub (sv_base s)) = true ∧ 0 < n ∧
   s' = if n =? 1 then run false (ResetIpcPrior ≫= λ _, RemoveTask workHandler RESET_IPC_PRIOR) 0
        else s <| priorRefCnt_ := n - 1 |>).
Proof.
  intros Hn n run s'. unfold s', SetSamgrIpcPrior, mbind, ST_bind. rewrite liftW_gets.
  destruct (negb (isSupportSetPrior_ _)); [by left|]. destruct b.
  - right. left. split; [done|]. unfold run.
    set (w := (sv_base s) <| w_stub ::= λ st, st <| priorEnable_ := true |> |>).
    assert (Hw : priorEnable_ (w_stub (sv_base s)) = true → sv_base s = w).
    { unfold w. destruct (sv_base s) as [? ? ? ? ? [] ? ? ?]; simpl. by intros ->. }
    destruct (priorEnable_ (w_stub (sv_base s))) eqn:He; unfold liftW, updPrior, setRefCnt; simpl.
    + rewrite (Hw eq_refl). by destruct (FlushResetPriorTask w) as [[] w'].
    + fold w. by destruct (FlushResetPriorTask w) as [[] w'].
  - destruct (priorEnable_ _) eqn:He; [|by left]. destruct (Z.leb_spec (priorRefCnt_ s) 0); [by left|].
    right. right. split_and!; [done..|]. simpl. fold n.
    rewrite i32_id by (unfold is_i32 in *; unfold n; lia).
    destruct (Z.eqb_spec n 1) as [H1|H1]; [rewrite H1|rewrite (proj2 (Z.eqb_neq (n - 1) 0)) by lia; done].
    unfold run. simpl. set (w := (sv_base s) <| w_stub ::= λ st, st <| priorEnable_ := false |> |>).
    unfold liftW, updPrior, setRefCnt, mbind, M_bind; simpl. fold w. destruct (ResetIpcPrior w) as [[] w1].
    simpl. by destruct (RemoveTask workHandler RESET_IPC_PRIOR w1) as [[] w2].
Qed.

Lemma resetAndRemove_frame :
  respects frame (ResetIpcPrior ≫= λ _, RemoveTask workHandler RESET_IPC_PRIOR).
Proof. exact (respects_bind _ _ ResetIpcPrior_frame (λ _, RemoveTask_rest _ _)). Qed.

Lemma SetSamgrIpcPrior_keeps b : keepsS keepsU (SetSamgrIpcPrior b).
Proof.
  intros s Hs. destruct (uo_prior s Hs) as [Hn Hp].
  destruct (SetSamgrIpcPrior_effect b s Hn) as [->|[[_ ->]|(_ & He & H0 & ->)]]; [done| |].
  - apply (prior_run_ok s true); try done; [apply i32_range|apply FlushResetPriorTask_frame].
  - destruct (Z.eqb_spec (priorRefCnt_ s) 1).
    + apply (prior_run_ok s false); try done. apply resetAndRemove_frame.
    + apply (setPrior_ok s (priorRefCnt_ s - 1) true (sv_base s) Hs); try done. unfold is_i32 in *. lia.
Qed.

(** The priority mode is on exactly while the count of its requests is positive. *)
Definition prior_exact (s : Service) : Prop :=
  0 ≤ priorRefCnt_ s ∧ priorEnable_ (w_stub (sv_base s)) = bool_decide (0 < priorRefCnt_ s).

Lemma SetSamgrIpcPrior_exact b s :
  is_i32 (priorRefCnt_ s) → prior_exact s → priorRefCnt_ s < 2 ^ 31 - 1 → prior_exact (SetSamgrIpcPrior b s).2.
Proof.
  intros Hn [H0 He] Hm.
  assert (Hrun : ∀ (m : M unit) w, respects frame m → priorEnable_ (w_stub (m w).2) = priorEnable_ (w_stub w)).
  { intros m w Hr. destruct (Hr w) as [Hr' _]. unfold rest in Hr'. congruence. }
  destruct (SetSamgrIpcPrior_effect b s Hn) as [->|[[_ ->]|(_ & He' & Hp & ->)]]; [done| |].
  - unfold prior_exact. simpl. rewrite (Hrun _ _ FlushResetPriorTask_frame). simpl.
    rewrite i32_id by (unfold is_i32; lia). split; [lia|]. by rewrite bool_decide_eq_true_2 by lia.
  - destruct (Z.eqb_spec (priorRefCnt_ s) 1); unfold prior_exact; simpl.
    + by rewrite (Hrun _ _ resetAndRemove_frame).
    + rewrite He', bool_decide_eq_true_2 by lia. split; [lia|done].
Qed.

(** ** Every request *)

Context {CL : CollectLaws C}.

Lemma frame_keepsU A (m : M A) : respects frame m → keepsS keepsU (liftW m : ST Service A).
Proof. intros H. by apply ordinary_keepsU, liftW_frame. Qed.

(** The interface operations open to those of Samgr.v. *)
Ltac open_interface :=
  lazymatch goal with |- keepsS _ ?m => let h := op_head m in unfold h, samgr, SystemAbilityManager; cbv beta iota end.
Hint Resolve OnUserStateChanged_keeps SetSamgrIpcPrior_keeps : keeps.
Hint Extern 8 (keepsS keepsU _) =>
  open_interface; first [solve [auto with keeps nocore] | apply ordinary_keepsU; solve_ordinary] : keeps.

Lemma handlers_keep code h : memberFuncMap_ !! code = Some h → keepsX keepsU h.
Proof.
  pose proof frame_keepsU as HR. revert code h. change (map_Forall (λ _, keepsX keepsU) memberFuncMap_).
  each_handler.
  all: solve_keepsX.
Qed.

(** ** Every step *)

Lemma setCaller_ok c s : users_ok s → users_ok (setCaller c s).
Proof. by intros []. Qed.

Lemma runServiceTask_keeps t : keepsS keepsU (runServiceTask Lsched t).
Proof.
  destruct t; try (apply ordinary_keepsU, liftW_ordinary, runTask_evolves); cbn [runServiceTask].
  - unfold userStopTimeoutTask. keeps_step; [by intros s|].
    case_match; [apply (keepsS_ret keepsU)|apply CompleteUserStopping_keeps].
  - apply resetTimeoutTask_keeps.
  - apply ordinary_keepsU, liftW_ordinary. solve_deep.
  - apply ordinary_keepsU, liftW_ordinary. solve_deep.
  - apply ordinary_keepsU. solve_ordinary.
Qed.

Lemma onTimer_keeps fd : keepsS keepsU (onTimer Lsched fd).
Proof.
  unfold onTimer. keeps_step; [apply frame_keepsU, respects_gets|]. case_match; [|apply (keepsS_ret keepsU)].
  keeps_step; [apply runServiceTask_keeps|]. apply frame_keepsU. auto with respects.
Qed.

Lemma sstep_keeps s s' : sstep s s' → users_ok s → users_ok s'.
Proof.
  intros Hst Hs. assert (Hc : ∀ c, users_ok (setCaller c s)) by (intros c; by apply setCaller_ok).
  assert (Ho : ∀ A (m : ST Service A) c, keepsS ordinary m → users_ok (m (setCaller c s)).2).
  { intros A m c Hm. by apply (ordinary_keepsU m Hm). }
  destruct Hst; try (apply Ho; first [apply liftW_ordinary|apply onManager_ordinary|apply onStopping_ordinary|idtac];
    solve [solve_deep|solve_ordinary]).
  - apply (request_keeps keepsU frame_keepsU); [apply handlers_keep|apply Hc].
  - apply runServiceTask_keeps, Hc.
  - apply onTimer_keeps, Hc.
Qed.

Lemma serviceBoot_ok parsed multi listener c : users_ok (serviceBoot parsed multi listener (emptyService c)).2.
Proof.
  assert (H0 : users_ok (emptyService c)).
  { split; simpl; try done; try (intros; split; [intros [? [=]]|naive_solver]); [by left|by intros u [? [=]]]. }
  apply (ordinary_keepsU (serviceBoot parsed multi listener)); [|exact H0]. solve_ordinary.
Qed.

(** In every reachable state. *)
Lemma sreachable_ok parsed multi s : sreachable parsed multi s → users_ok s.
Proof.
  intros (c & listener & Hr). assert (H0 := serviceBoot_ok parsed multi listener c). revert H0.
  induction Hr as [|s s1 s2 Hst _ IH]; intros H0; [done|]. apply IH. by eapply sstep_keeps.
Qed.
End service.
