(* ===== verification/Isolation.v ===== *)
(** Requests of a user's processes: which managers they may change. *)
From S2P Require Import Prelude Types World Parcel Ffrt Util TimeHandler CollectFrame CollectTasks Contexts Interfaces Hoare ManagerBase StateMachine.
From S2P Require Import EventHandler Scheduler SchedulerQuery Subscribers Manager IpcInterface Stub StubFrame Policy.
From S2P Require Import DBinder DumpStats.
From S2P Require Import MultiManager UserLifecycle GlobalSubscriptions Samgr System SystemRegistry Evolves UsersInv.
From S2P Require Import Service.

(** What the service reads as the calling user. *)
Definition callingUser (s : Service) : Z :=
  let c := u32 (Z.shiftr (callingUserID (w_caller (sv_base s))) SHFIT_BIT) in
  if c =? BASE_CALLING_USER then BASE_USER else i32 c.

Lemma GetCallingUserId_eq s : GetCallingUserId s = (callingUser s, s).
Proof. unfold GetCallingUserId, mbind, ST_bind. by rewrite liftW_gets. Qed.

(** All that is not the manager of [u]: the tables of users and the other users'
    managers, running or stopping. *)
Definition otherUsers (u : Z) (s : Service) :=
  (userStateMap_ (sv_users s), validUserIds_ (sv_users s), globalSubscriptions_ (sv_users s),
   delete u (multiUserManagers_ (sv_users s)), delete u (userStoppingContexts_ (sv_users s)),
   w_foreground (sv_base s)).
Definition baseManager (s : Service) := (w_sched (sv_base s), w_mgr (sv_base s)).

(** With [own], the base manager is out of reach too. *)
Definition isolated (u : Z) (own : bool) : relation Service := λ s s',
  callingUser s = u →
  callingUser s' = u ∧ otherUsers u s = otherUsers u s' ∧ (own = true → baseManager s = baseManager s').

#[export] Instance isolated_preorder u own : PreOrder (isolated u own).
Proof.
  split; [done|]. intros x y z H1 H2 Hc. destruct (H1 Hc) as (H3 & H4 & H5). destruct (H2 H3) as (H6 & H7 & H8).
  split_and!; [done|congruence|]. intros Ho. rewrite H5 by done. auto.
Qed.

Lemma callingUser_caller s s' : w_caller (sv_base s) = w_caller (sv_base s') → callingUser s = callingUser s'.
Proof. intros H. unfold callingUser. by rewrite H. Qed.

Section isolation.
Context `{E : Env} `{IE : !IpcEnv} {C : CollectIface} {CL : CollectLaws C} `{P : Parcels}.
Context (u : Z) (Hu : u ≠ BASE_USER) (HM : SUPPORT_MULTI_INSTANCE = true).

Lemma frame_isolated own A (m : M A) : respects frame m → keepsS (isolated u own) (liftW m : ST Service A).
Proof.
  intros Hm s Hc. unfold liftW. specialize (Hm (sv_base s)). simpl. destruct (m (sv_base s)) as [a w'].
  destruct Hm as [Hr _]. simpl in Hr. unfold rest in Hr. injection Hr as H1 H2 H3 H4 H5.
  split_and!; [rewrite <- Hc; by apply callingUser_caller|unfold otherUsers; simpl; congruence|].
  intros _. unfold baseManager. simpl. congruence.
Qed.

Lemma liftW_isolated A (m : M A) : respects evolves m → keepsS (isolated u false) (liftW m : ST Service A).
Proof.
  intros Hm s Hc. unfold liftW. specialize (Hm (sv_base s)). simpl. destruct (m (sv_base s)) as [a w'].
  destruct Hm as [Hr _]. simpl in Hr. unfold identity in Hr. injection Hr as H1 H2 H3 H4 H5.
  split_and!; [rewrite <- Hc; by apply callingUser_caller|unfold otherUsers; simpl; congruence|done].
Qed.

(** An operation on the user's own manager: what is left is put back. *)
Lemma runUser_own {A} (um : UserManager) (m : M A) w :
  respects evolves m →
  let '(_, _, w') := runUser um m w in
  w_sched w = w_sched w' ∧ w_mgr w = w_mgr w' ∧ w_caller w = w_caller w' ∧ w_foreground w = w_foreground w'.
Proof.
  intros Hm. unfold runUser. specialize (Hm (enterUser um w)). destruct (m (enterUser um w)) as [a w'].
  destruct Hm as [Hr _]. unfold identity in Hr. injection Hr as H1 H2 H3 H4 H5. done.
Qed.

Lemma onManager_isolated own {A} (m : M A) : respects evolves m → keepsS (isolated u own) (onManager u m).
Proof.
  intros Hm s Hc. unfold onManager. destruct (multiUserManagers_ (sv_users s) !! u) as [um|] eqn:Hl; [|done].
  pose proof (runUser_own um m (sv_base s) Hm) as Hr. destruct (runUser um m (sv_base s)) as [[a u'] w'].
  destruct Hr as (H1 & H2 & H3 & H4).
  split_and!; [rewrite <- Hc; by apply callingUser_caller| |intros _; unfold baseManager; simpl; congruence].
  unfold otherUsers. simpl. by rewrite delete_insert_eq, H4.
Qed.

Lemma onStopping_isolated own {A} (m : M A) : respects evolves m → keepsS (isolated u own) (onStopping u m).
Proof.
  intros Hm s Hc. unfold onStopping. destruct (userStoppingContexts_ (sv_users s) !! u) as [c|] eqn:Hl; [|done].
  pose proof (runUser_own (us_manager c) m (sv_base s) Hm) as Hr.
  destruct (runUser (us_manager c) m (sv_base s)) as [[a u'] w']. destruct Hr as (H1 & H2 & H3 & H4).
  split_and!; [rewrite <- Hc; by apply callingUser_caller| |intros _; unfold baseManager; simpl; congruence].
  unfold otherUsers. simpl. by rewrite delete_insert_eq, H4.
Qed.

Lemma withUser_isolated own {A} (d : A) m : respects evolves m → keepsS (isolated u own) (withUser u d m).
Proof.
  intros Hm. apply (keepsS_bind (isolated u own)); [by apply onManager_isolated|].
  intros r. apply (keepsS_ret (isolated u own)).
Qed.

Lemma withStopping_isolated own {A} (d : A) m : respects evolves m → keepsS (isolated u own) (withStopping u d m).
Proof.
  intros Hm. apply (keepsS_bind (isolated u own)); [by apply onStopping_isolated|].
  intros r. apply (keepsS_ret (isolated u own)).
Qed.

Lemma own_isolated {A} (m : ST Service A) : keepsS (isolated u true) m → keepsS (isolated u false) m.
Proof. intros H s Hc. by destruct (H s Hc) as (? & ? & _). Qed.

(** ** The ways operations are routed, for this caller *)

(** Reading the caller gives [u]; the rest is judged for that caller. *)
Lemma caller_isolated own {A} (k : Z → ST Service A) :
  keepsS (isolated u own) (k u) → keepsS (isolated u own) (caller ← GetCallingUserId; k caller).
Proof. intros Hk s Hc. unfold mbind, ST_bind. rewrite GetCallingUserId_eq, Hc. by apply Hk. Qed.

Lemma IsMultiInstanceSaId_eq said s :
  IsMultiInstanceSaId said s = (bool_decide (said ∈ multiInstanceSaIds_ (w_mgr (sv_base s))), s).
Proof. by destruct s. Qed.

Lemma RouteForUser_eq said s :
  RouteForUser said u s =
  (if bool_decide (said ∈ multiInstanceSaIds_ (w_mgr (sv_base s))) then u else BASE_USER, s).
Proof.
  unfold RouteForUser, mbind, ST_bind. rewrite IsMultiInstanceSaId_eq. apply Z.eqb_neq in Hu as Hu'.
  case_bool_decide; simpl; [by rewrite Hu'|done].
Qed.

(** To the user's manager, or to the base manager. *)
Lemma target_isolated {A} said (d : A) (mine : M A) (base : ST Service A) :
  respects evolves mine → keepsS (isolated u false) base →
  keepsS (isolated u false)
    (target ← RouteForUser said u; if negb (target =? BASE_USER) then withUser target d mine else base).
Proof.
  intros Hm Hb s. unfold mbind, ST_bind. rewrite RouteForUser_eq. apply Z.eqb_neq in Hu as Hu'.
  case_bool_decide; [rewrite Hu'; by apply withUser_isolated|by apply Hb].
Qed.

Lemma byUser_isolated {A} said (d : A) m : respects evolves m → keepsS (isolated u false) (byUser said d m).
Proof.
  intros Hm. unfold byUser. rewrite HM. cbn [negb]. apply caller_isolated, target_isolated; [done|].
  by apply liftW_isolated.
Qed.

Lemma bySaWith_isolated {A} said (fail : Z → A) onUser m :
  keepsS (isolated u true) (onUser u) → keepsS (isolated u true) (bySaWith said fail onUser m).
Proof.
  intros Ho. unfold bySaWith. rewrite HM. cbn [negb]. apply caller_isolated. apply Z.eqb_neq in Hu as Hu'.
  intros s. unfold mbind, ST_bind, RouteForSa, mbind, ST_bind. rewrite IsMultiInstanceSaId_eq. simpl.
  destruct (negb _); [done|]. rewrite Hu'. apply Ho.
Qed.

Lemma bySa_isolated {A} said (fail : Z → A) m :
  respects evolves m → keepsS (isolated u true) (bySa said fail m).
Proof. intros Hm. by apply bySaWith_isolated, withUser_isolated. Qed.

Lemma forUser_isolated own {A} v (fail : Z → A) m : keepsS (isolated u own) (forUser v fail m).
Proof.
  unfold forUser. apply caller_isolated. apply Z.eqb_neq in Hu as Hu'. rewrite Hu'. cbn [negb].
  apply (keepsS_ret (isolated u own)).
Qed.

Lemma byCaller_isolated own {A} (d : A) onBase mine base :
  respects evolves mine → keepsS (isolated u own) (byCaller d onBase mine base).
Proof.
  intros Hm. unfold byCaller. rewrite HM. cbn [negb]. apply caller_isolated. apply Z.eqb_neq in Hu as Hu'.
  rewrite Hu'. by apply withUser_isolated.
Qed.

Lemma subscription_isolated said everyone mine base :
  respects evolves mine → respects evolves base →
  keepsS (isolated u false) (subscription said everyone mine base).
Proof.
  intros Hm Hb. unfold subscription. rewrite HM. cbn [negb]. apply caller_isolated. apply Z.eqb_neq in Hu as Hu'.
  intros s. unfold mbind at 1, ST_bind at 1. rewrite IsMultiInstanceSaId_eq, Hu'. cbn [andb].
  apply target_isolated; [done|by apply liftW_isolated].
Qed.

(** ** The requests *)

#[local] Instance samgr : ISystemAbilityManager Service := SystemAbilityManager Lsched.

Ltac open_interface :=
  lazymatch goal with |- keepsS _ ?m => let h := op_head m in unfold h, samgr, SystemAbilityManager; cbv beta iota end.
Ltac isolated_step :=
  lazymatch goal with
  | |- keepsS _ (GetCallingUserId ≫= _) => apply caller_isolated; cbv beta
  | |- keepsS _ (RouteForUser ?k _ ≫= λ t, if negb (t =? BASE_USER) then withUser t ?d ?mine else ?base) =>
      apply (target_isolated k d mine base); [solve_deep|]
  | |- keepsS _ (byUser _ _ _) => apply byUser_isolated; solve_deep
  | |- keepsS (isolated _ true) (bySa _ _ _) => apply bySa_isolated; solve_deep
  | |- keepsS (isolated _ true) (bySaWith _ _ _ _) => apply bySaWith_isolated
  | |- keepsS (isolated _ false) (bySa _ _ _) => apply own_isolated, bySa_isolated; solve_deep
  | |- keepsS (isolated _ false) (bySaWith _ _ _ _) => apply own_isolated, bySaWith_isolated
  | |- keepsS _ (forUser _ _ _) => apply forUser_isolated
  | |- keepsS _ (byCaller _ _ _ _) => apply byCaller_isolated; solve_deep
  | |- keepsS _ (subscription _ _ _ _) => apply subscription_isolated; [solve_deep|solve_deep]
  | |- keepsS _ (withUser _ _ _) => apply withUser_isolated; solve_deep
  | |- keepsS _ (withStopping _ _ _) => apply withStopping_isolated; solve_deep
  | |- keepsS _ (liftW _) => first [apply liftW_isolated; solve [solve_deep] | apply frame_isolated; solve [solve_deep]]
  | |- keepsS _ (IsUserStopping _) => by intros ? ?
  | |- keepsS _ (setRefCnt _) => by intros ? ?
  | |- keepsS _ (updPrior _) => by intros ? ?
  | |- keepsS _ (λ _, _) => by intros ? ?
  | |- keepsS _ _ => first [keeps_step | unfold_s]
  end.
Ltac solve_isolated := repeat isolated_step.
Hint Extern 8 (keepsS (isolated _ _) _) => open_interface; solve [solve_isolated] : keeps.

(** Requests about every user. *)
Definition serviceWide : list Z :=
  [Code.GET_RUNNING_SYSTEM_PROCESS_TRANSACTION; Code.UNLOAD_ALL_IDLE_SYSTEM_ABILITY_TRANSACTION;
   Code.UNLOAD_IDLE_PROCESS_BYLIST; Code.GET_LRU_IDLE_SYSTEM_ABILITY_PROCESS_TRANSACTION;
   Code.SEND_STRATEGY_TRANASACTION; Code.GET_EXTERNSION_SA_LIST_TRANSCATION; Code.GET_SA_EXTENSION_INFO_TRANSCATION;
   Code.ON_USER_STATE_CHANGED_TRANSACTION].
(** Requests of an SA's process about its own SAs. *)
Definition ownProcess : list Z :=
  [Code.ADD_SYSTEM_ABILITY_TRANSACTION; Code.REMOVE_SYSTEM_ABILITY_TRANSACTION;
   Code.ADD_ONDEMAND_SYSTEM_ABILITY_TRANSACTION; Code.ADD_SYSTEM_PROCESS_TRANSACTION;
   Code.UNLOAD_SYSTEM_ABILITY_TRANSACTION; Code.CANCEL_UNLOAD_SYSTEM_ABILITY_TRANSACTION;
   Code.GET_ONDEAMND_POLICY_TRANSACTION; Code.UPDATE_ONDEAMND_POLICY_TRANSACTION;
   Code.GET_COMMON_EVENT_EXTRA_ID_LIST_TRANSCATION].

Lemma handlers_isolated code h :
  memberFuncMap_ !! code = Some h → code ∈ serviceWide ∨ keepsX (isolated u false) h.
Proof.
  pose proof (frame_isolated false) as HR. revert code h.
  change (map_Forall (λ code h, code ∈ serviceWide ∨ keepsX (isolated u false) h) memberFuncMap_).
  unfold memberFuncMap_. rewrite HM. each_handler.
  all: first [left; apply (bool_decide_unpack _); exact I | right].
  all: solve_keepsX.
Qed.

Lemma handlers_own code h : memberFuncMap_ !! code = Some h → code ∈ ownProcess → keepsX (isolated u true) h.
Proof.
  pose proof (frame_isolated true) as HR. revert code h.
  change (map_Forall (λ code h, code ∈ ownProcess → keepsX (isolated u true) h) memberFuncMap_).
  unfold memberFuncMap_. rewrite HM. each_handler.
  all: first [intros H; exfalso; apply (bool_decide_pack _) in H; exact H | intros _].
  all: solve_keepsX.
Qed.
End isolation.
