(* ===== verification/ManagerGood.v ===== *)
(** Every operation of a manager, the base user's or a user's, keeps the invariant
    of the scheduler's contexts, and the profiles new managers are made from. *)
From S2P Require Import Prelude Types World Parcel Ffrt Util TimeHandler CollectFrame CollectTasks Contexts Interfaces Hoare ManagerBase StateMachine.
From S2P Require Import EventHandler Scheduler SchedulerQuery SchedulerInv SchedulerProofs SchedulerKeeps SchedulerBoot.
From S2P Require Import SchedulerFrame Subscribers Manager IpcInterface Policy MultiManager.
From S2P Require Import DBinder DumpStats.
From S2P Require Import Registry System SystemRegistry Evolves.

(** ** Of one manager *)

(** The profiles the managers of new users are made from. *)
Definition profs_ok (m : Mgr) : Prop := profiles_ok (allSaProfiles_ m).
Definition good (w : World) : Prop := ctx_inv (w_sched w) ∧ profs_ok (w_mgr w).
Definition keepsG : relation World := λ w w', good w → good w'.
#[export] Instance keepsG_preorder : PreOrder keepsG.
Proof. split; [by intros ??|]. intros x y z H1 H2 H. auto. Qed.

Lemma good_respects {A} (m : M A) : respects keeps_ctx m → respects (keeps_mgr profs_ok) m → respects keepsG m.
Proof. intros H1 H2 w [Hc Hp]. split; [by apply H1|by apply H2]. Qed.

#[export] Hint Extern 1 (respects (keeps_mgr profs_ok) (updM _ _)) => (intros ? H; exact H) : respects.
#[export] Hint Extern 1 (respects (keeps_mgr profs_ok) (updS _ _)) => (intros ? H; exact H) : respects.
#[export] Hint Extern 1 (respects (keeps_mgr profs_ok) (storeA _ _)) => (intros ? H; exact H) : respects.
#[export] Hint Extern 1 (respects (keeps_mgr profs_ok) (storeP _ _)) => (intros ? H; exact H) : respects.

Section managers.
Context `{E : Env} `{IE : !IpcEnv} {C : CollectIface} {CL : CollectLaws C}.

Lemma profs_iface : iface_respects (keeps_mgr profs_ok).
Proof. split; intros; simpl; solve_deep. Qed.
Definition profs_sched : sched_respects (keeps_mgr profs_ok) := registry_respects profs_ok profs_iface.
Hint Resolve profs_sched sr_HandleLoad sr_HandleLoadById sr_HandleUnload sr_HandleCancel sr_AbilityEvent
  sr_ProcessEvent sr_UnloadProcess sr_UnloadAllIdle sr_CheckEnableOnce sr_TryUnloadAll sr_TryKill sr_timeoutTask
  sr_pendingUnloadTask sr_Event sr_UpdateDelayTask sr_SubscribeLoop sr_CanUnload SendStrategy_rest : respects.
Hint Resolve AddSystemAbility_keeps RemoveSystemAbility_keeps CheckExist_keeps AddSystemProcess_keeps Load_keeps
  LoadFromRpc_keeps Unload_keeps CancelUnload_keeps UnloadProcess_keeps UnloadAllIdle_keeps CheckEnableOnce_keeps
  runTask_keeps OnRemoteDied_keeps Subscribe_sched UnSubscribe_sched OnStartFail_sched AddOnDemand_sched
  SubscribeProcess_ctxs UnSubscribeProcess_ctxs SubscribeLowMem_ctxs UnSubscribeLowMem_ctxs GetLru_quiet
  CheckListenerNotify_sched RemoveStartingLocked_sched NotifyLoadFail_rest Lsched_ok baseManager_laws : respects.

Lemma runTask_good t : respects keepsG (runTask Lsched t).
Proof. apply good_respects; [auto with respects|]. destruct t; solve_deep. Qed.
Lemma OnRemoteDied_good k o : respects keepsG (OnRemoteDied Lsched k o).
Proof. apply good_respects; [auto with respects|]. destruct k; solve_deep. Qed.
Lemma AddSystemAbility_good said a p : respects keepsG (AddSystemAbility Lsched said a p).
Proof. apply good_respects; solve_deep. Qed.
Lemma RemoveSystemAbility_good said : respects keepsG (RemoveSystemAbility Lsched said).
Proof. apply good_respects; solve_deep. Qed.
Lemma AddSystemProcess_good pn o : respects keepsG (AddSystemProcess Lsched pn o).
Proof. apply good_respects; solve_deep. Qed.
Lemma CheckExist_good said b : respects keepsG (CheckSystemAbilityExist Lsched said b).
Proof. apply good_respects; solve_deep. Qed.
Lemma Load_good said cb : respects keepsG (LoadSystemAbility Lsched said cb).
Proof. apply good_respects; solve_deep. Qed.
Lemma LoadFromRpc_good dev said cb : respects keepsG (LoadSystemAbilityFromRpc Lsched dev said cb).
Proof. apply good_respects; solve_deep. Qed.
Lemma Unload_good said : respects keepsG (UnloadSystemAbility Lsched said).
Proof. apply good_respects; solve_deep. Qed.
Lemma CancelUnload_good said : respects keepsG (CancelUnloadSystemAbility Lsched said).
Proof. apply good_respects; solve_deep. Qed.
Lemma UnloadAllIdle_good : respects keepsG (ManagerUnloadAllIdle Lsched).
Proof. apply good_respects; solve_deep. Qed.
Lemma UnloadProcess_good l : respects keepsG (ManagerUnloadProcess Lsched l).
Proof. apply good_respects; solve_deep. Qed.
Lemma OnDemandEvent_good e l : respects keepsG (ProcessOnDemandEvent Lsched e l).
Proof. apply good_respects; solve_deep. Qed.
Lemma CheckSystemAbility_good said : respects keepsG (CheckSystemAbility said).
Proof. apply good_respects; solve_deep. Qed.
Lemma AddOnDemand_good said pn : respects keepsG (AddOnDemandSystemAbilityInfo said pn).
Proof. apply good_respects; solve_deep. Qed.
Lemma failStart_good said e : respects keepsG (failStart said e).
Proof. apply good_respects; solve_deep. Qed.
Lemma GetLru_good : respects keepsG GetLruIdleSystemAbilityProc.
Proof. apply good_respects; solve_deep. Qed.
Lemma Subscribe_good said l : respects keepsG (SubscribeSystemAbility said l).
Proof. apply good_respects; solve_deep. Qed.
Lemma UnSubscribe_good said l : respects keepsG (UnSubscribeSystemAbility said l).
Proof. apply good_respects; solve_deep. Qed.
Lemma SubscribeProcess_good l b : respects keepsG (SubscribeSystemProcess l b).
Proof. apply good_respects; solve_deep. Qed.
Lemma UnSubscribeProcess_good l b : respects keepsG (UnSubscribeSystemProcess l b).
Proof. apply good_respects; solve_deep. Qed.
Lemma SubscribeLowMem_good l : respects keepsG (ManagerSubscribeLowMem l).
Proof. apply good_respects; solve_deep. Qed.
Lemma UnSubscribeLowMem_good l : respects keepsG (ManagerUnSubscribeLowMem l).
Proof. apply good_respects; solve_deep. Qed.
Lemma GetRunning_good : respects keepsG ManagerGetRunningSystemProcess.
Proof. apply good_respects; solve_deep. Qed.
Lemma GetProcessInfo_good said out : respects keepsG (ManagerGetSystemProcessInfo said out).
Proof. apply good_respects; solve_deep. Qed.
Hint Resolve Subscribe_good UnSubscribe_good SubscribeProcess_good UnSubscribeProcess_good : respects.

(** The manager of a user. *)
Lemma AddSubscriberInfo_good said l b : respects keepsG (AddSubscriberInfo said l b).
Proof. apply good_respects; solve_deep. Qed.
Lemma RemoveSubscriberInfo_good said l b : respects keepsG (RemoveSubscriberInfo said l b).
Proof. apply good_respects; solve_deep. Qed.
Lemma SubscribeInner_good said l pid : respects keepsG (SubscribeSystemAbilityInner said l pid).
Proof. apply good_respects; solve_deep. Qed.
Hint Resolve AddSubscriberInfo_good RemoveSubscriberInfo_good SubscribeInner_good : respects.
Lemma SubscribeWithPid_good said l b pid : respects keepsG (SubscribeSystemAbilityWithPid said l b pid).
Proof. unfold SubscribeSystemAbilityWithPid. solve_respects. Qed.
Hint Resolve SubscribeWithPid_good : respects.
Lemma MultiSubscribe_good said l b : respects keepsG (MultiSubscribeSystemAbility said l b).
Proof. unfold MultiSubscribeSystemAbility. solve_respects. Qed.
Lemma MultiUnSubscribe_good said l b : respects keepsG (MultiUnSubscribeSystemAbility said l b).
Proof. unfold MultiUnSubscribeSystemAbility. solve_respects. Qed.
Lemma MultiSubscribeProcess_good l b : respects keepsG (MultiSubscribeSystemProcess l b).
Proof. unfold MultiSubscribeSystemProcess, withScheduler. solve_respects. Qed.
Lemma MultiUnSubscribeProcess_good l b : respects keepsG (MultiUnSubscribeSystemProcess l b).
Proof. unfold MultiUnSubscribeSystemProcess, withScheduler. solve_respects. Qed.
Lemma NotifyAllSAsToStop_good : respects keepsG NotifyAllSAsToStop.
Proof. apply good_respects; solve_deep. Qed.
Lemma StopEventCollection_good : respects keepsG StopEventCollection.
Proof. apply good_respects; solve_deep. Qed.
Lemma GetOnDemandPolicy_good said type : respects keepsG (GetOnDemandPolicy said type).
Proof. apply good_respects; solve_deep. Qed.
Lemma UpdateOnDemandPolicy_good said type l : respects keepsG (UpdateOnDemandPolicy said type l).
Proof. apply good_respects; solve_deep. Qed.
Lemma GetCommonEventExtraDataIdlist_good said n : respects keepsG (GetCommonEventExtraDataIdlist said n).
Proof. apply good_respects; solve_deep. Qed.
Lemma GetReasonExtraData_good `{P : Parcels} i p : respects keepsG (GetOnDemandReasonExtraData i p).
Proof. apply good_respects; solve_deep. Qed.

(** *** The start of a user's manager *)

Hint Resolve MultiSubscribe_good MultiUnSubscribe_good MultiSubscribeProcess_good MultiUnSubscribeProcess_good : respects.
Lemma RollbackGlobal_good sas procs : respects keepsG (RollbackGlobalSubscriptions sas procs).
Proof. unfold RollbackGlobalSubscriptions. solve_respects. Qed.
Hint Resolve RollbackGlobal_good : respects.
Lemma liveSubscriber_good {A} (cast : RemoteObject → option A) o : respects keepsG (liveSubscriber cast o).
Proof. unfold liveSubscriber. solve_respects. Qed.
Hint Resolve @liveSubscriber_good : respects.
Lemma restoreAbilities_good l done : respects keepsG (restoreAbilities l done).
Proof. revert done. induction l; intros; simpl; solve_respects. Qed.
Lemma restoreProcesses_good l sas done : respects keepsG (restoreProcesses l sas done).
Proof. revert done. induction l; intros; simpl; solve_respects. Qed.
Hint Resolve restoreAbilities_good restoreProcesses_good : respects.

Lemma userProfiles_ok l multi : profiles_ok l → profiles_ok (userProfiles l multi).
Proof.
  intros [Hn Hs Hz]. unfold userProfiles. split.
  - eapply sublist_NoDup; [exact Hn|]. apply fmap_sublist, sublist_filter.
  - intros p [_ Hp]%list_elem_of_filter. by apply Hs.
  - pose proof (length_filter (λ p, saId p ∈ multi) l). lia.
Qed.

(** A manager with new members is good once it is started. *)
Lemma MultiInit_good l multi subs w :
  profiles_ok l → w_sched w = emptySched → profs_ok (w_mgr w) → good (MultiInit l multi subs w).2.
Proof.
  intros Hl Hw Hp. change (wp (MultiInit l multi subs) (λ _ w', good w') w).
  set (start := λ w, (w_sched w, allSaProfiles_ (w_mgr w))).
  unfold MultiInit. cbv zeta. apply wp_bind. apply (wp_same start); [solve_deep|]. cbv beta. intros _ w1 H1.
  do 6 (apply wp_bind; apply (wp_same start); [solve_deep|]; cbv beta; intros ? ? H2; rewrite H1 in H2;
        clear H1; rename H2 into H1).
  apply pair_eq in H1 as [H1 H2]. rewrite Hw in H1. apply wp_bind. red.
  pose proof (SchedulerInit_ctxs (userProfiles l multi) w'4) as Hc.
  assert (Hs : respects (same (λ w, allSaProfiles_ (w_mgr w))) (SchedulerInit (userProfiles l multi))) by solve_deep.
  specialize (Hs w'4). destruct (SchedulerInit _ w'4) as [[] w5]. simpl in Hc, Hs. rewrite H1 in Hc.
  apply pair_eq in Hc as [Ea Ep]. fold (bootContexts (userProfiles l multi)) in Ea, Ep.
  assert (Hg : good w5).
  { split; [eapply ctx_inv_ctxs; [exact Ea|exact Ep|by apply bootContexts_inv, userProfiles_ok]|].
    unfold profs_ok. red in Hs. rewrite <- Hs, H2. exact Hp. }
  match goal with |- wp ?k _ _ => assert (Hk : respects keepsG k) end.
  { apply respects_bind; [apply good_respects; solve_deep|intros _].
    do 2 (apply respects_bind; [apply good_respects; solve_deep|intros _]). unfold InitGlobalSubscriptions. solve_respects. }
  exact (Hk w5 Hg).
Qed.
End managers.

#[export] Hint Resolve runTask_good OnRemoteDied_good AddSystemAbility_good RemoveSystemAbility_good AddSystemProcess_good
  CheckExist_good Load_good LoadFromRpc_good Unload_good CancelUnload_good UnloadAllIdle_good UnloadProcess_good OnDemandEvent_good
  CheckSystemAbility_good AddOnDemand_good failStart_good GetLru_good Subscribe_good UnSubscribe_good
  SubscribeProcess_good UnSubscribeProcess_good SubscribeLowMem_good UnSubscribeLowMem_good GetRunning_good
  GetProcessInfo_good SubscribeWithPid_good MultiSubscribe_good MultiUnSubscribe_good MultiSubscribeProcess_good
  MultiUnSubscribeProcess_good NotifyAllSAsToStop_good StopEventCollection_good GetOnDemandPolicy_good
  UpdateOnDemandPolicy_good GetCommonEventExtraDataIdlist_good GetReasonExtraData_good : respects.
#[export] Instance frame_good : subrelation frame keepsG.
Proof.
  intros w w' [H _] [Hc Hp]. unfold rest in H. injection H as H1 H2 _ _ _. split; [by rewrite <- H1|by rewrite <- H2].
Qed.
