(* ===== verification/ServiceGood.v ===== *)
(** The scheduler of every manager, the base user's and each user's, has the
    invariant of its contexts in every state the service reaches. *)
From S2P Require Import Prelude Types World Parcel Ffrt Util TimeHandler CollectFrame CollectTasks Contexts Interfaces Hoare ManagerBase StateMachine.
From S2P Require Import EventHandler Scheduler SchedulerQuery SchedulerInv SchedulerProofs SchedulerBoot Subscribers.
From S2P Require Import Manager IpcInterface Stub StubFrame Policy MultiManager UserLifecycle GlobalSubscriptions Samgr.
From S2P Require Import DBinder DumpStats.
From S2P Require Import Registry System SystemRegistry Evolves ManagerGood UsersInv Service.

(** ** All managers *)

Definition goodManager (u : UserManager) : Prop := ctx_inv (um_sched u) ∧ profs_ok (um_mgr u).

Record all_good (s : Service) : Prop := {
  ag_base : good (sv_base s);
  ag_users u m : multiUserManagers_ (sv_users s) !! u = Some m → goodManager m;
  ag_stopping u c : userStoppingContexts_ (sv_users s) !! u = Some c → goodManager (us_manager c);
}.
Definition keepsA : relation Service := λ s s', all_good s → all_good s'.
#[export] Instance keepsA_preorder : PreOrder keepsA.
Proof. split; [by intros ??|]. intros x y z H1 H2 H. auto. Qed.

Lemma liftW_good {A} (m : M A) : respects keepsG m → keepsS keepsA (liftW m : ST Service A).
Proof.
  intros Hm s [Hb Hu Hs]. unfold liftW. specialize (Hm (sv_base s)). simpl. destruct (m (sv_base s)) as [a w'].
  split; [by apply Hm|exact Hu|exact Hs].
Qed.

(** An operation on a user's manager: the base manager is put back. *)
Lemma runUser_good {A} u (m : M A) w :
  respects keepsG m → good w → goodManager u → let '(_, u', w') := runUser u m w in goodManager u' ∧ good w'.
Proof.
  intros Hm Hw Hu. unfold runUser. specialize (Hm (enterUser u w)). destruct (m (enterUser u w)) as [a w'].
  split; [by apply Hm|exact Hw].
Qed.
Lemma runUser_base {A} u (m : M A) w : good w → let '(_, _, w') := runUser u m w in good w'.
Proof. intros Hw. unfold runUser. by destruct (m (enterUser u w)) as [a w']. Qed.

Lemma onManager_good {A} u (m : M A) : respects keepsG m → keepsS keepsA (onManager u m).
Proof.
  intros Hm s [Hb Hu Hs]. unfold onManager. destruct (multiUserManagers_ (sv_users s) !! u) as [um|] eqn:Hl; [|by split].
  pose proof (runUser_good um m (sv_base s) Hm Hb (Hu u um Hl)) as H. destruct (runUser um m (sv_base s)) as [[a u'] w'].
  destruct H as [H1 H2]. split; simpl; [done| |done]. intros v x. rewrite lookup_insert_Some. intros [[_ <-]|[_ ?]]; eauto.
Qed.
Lemma onStopping_good {A} u (m : M A) : respects keepsG m → keepsS keepsA (onStopping u m).
Proof.
  intros Hm s [Hb Hu Hs]. unfold onStopping.
  destruct (userStoppingContexts_ (sv_users s) !! u) as [c|] eqn:Hl; [|by split].
  pose proof (runUser_good (us_manager c) m (sv_base s) Hm Hb (Hs u c Hl)) as H.
  destruct (runUser (us_manager c) m (sv_base s)) as [[a u'] w'].
  destruct H as [H1 H2]. split; simpl; [done|done|]. intros v x. rewrite lookup_insert_Some. intros [[_ <-]|[_ ?]]; eauto.
Qed.
Lemma withUser_good {A} u (d : A) m : respects keepsG m → keepsS keepsA (withUser u d m).
Proof. intros Hm. apply (keepsS_bind keepsA); [by apply onManager_good|]. intros r. apply (keepsS_ret keepsA). Qed.
Lemma withStopping_good {A} u (d : A) m : respects keepsG m → keepsS keepsA (withStopping u d m).
Proof. intros Hm. apply (keepsS_bind keepsA); [by apply onStopping_good|]. intros r. apply (keepsS_ret keepsA). Qed.
Lemma forS_good {A} (l : list A) f : (∀ x, keepsS keepsA (f x)) → keepsS keepsA (forS l f).
Proof. intros Hf. induction l; simpl; [apply (keepsS_ret keepsA)|]. apply (keepsS_bind keepsA); auto. Qed.
Lemma foldS_good {A B} (l : list A) (b : B) f : (∀ b x, keepsS keepsA (f b x)) → keepsS keepsA (foldS l b f).
Proof.
  intros Hf. revert b. induction l; intros b; simpl; [apply (keepsS_ret keepsA)|]. apply (keepsS_bind keepsA); auto.
Qed.
Lemma updU_good f :
  (∀ us, multiUserManagers_ (f us) = multiUserManagers_ us ∧ userStoppingContexts_ (f us) = userStoppingContexts_ us) →
  keepsS keepsA (updU f).
Proof. intros Hf s [Hb Hu Hs]. destruct (Hf (sv_users s)) as [H1 H2]. split; simpl; [done|by rewrite H1|by rewrite H2]. Qed.

(** The same database of operations as for [ordinary]. *)
Ltac good_step :=
  lazymatch goal with
  | |- keepsS _ (liftW _) => apply liftW_good; first [solve [solve_deep] | apply good_respects; solve [solve_deep]]
  | |- keepsS _ (onManager _ _) => apply onManager_good; first [solve [solve_deep] | apply good_respects; solve [solve_deep]]
  | |- keepsS _ (onStopping _ _) => apply onStopping_good; first [solve [solve_deep] | apply good_respects; solve [solve_deep]]
  | |- keepsS _ (withUser _ _ _) => apply withUser_good; first [solve [solve_deep] | apply good_respects; solve [solve_deep]]
  | |- keepsS _ (withStopping _ _ _) =>
      apply withStopping_good; first [solve [solve_deep] | apply good_respects; solve [solve_deep]]
  | |- keepsS _ (forS _ _) => apply forS_good; intros ?
  | |- keepsS _ (foldS _ _ _) => apply foldS_good; intros ? ?
  | |- keepsS _ (updU _) => apply updU_good; intros ?; split; reflexivity
  | |- keepsS _ (getU _) => by intros ? ?
  | |- keepsS _ (updPrior _) => apply liftW_good; intros ? [? ?]; by split
  | |- keepsS _ (setRefCnt _) => by intros ? []
  | |- keepsS _ (λ _, _) => by intros ? ?
  | |- keepsS _ _ => first [keeps_step | solve [auto with keeps nocore] | unfold_s]
  end.
Ltac solve_good := repeat good_step.

Section operations.
Context `{E : Env} `{IE : !IpcEnv} {C : CollectIface} {CL : CollectLaws C} `{P : Parcels}.

Lemma rollback_good undo l : respects keepsG undo → keepsS keepsA (rollback undo l).
Proof. intros. solve_good. Qed.
Lemma eachManager_good op undo us done :
  respects keepsG op → respects keepsG undo → keepsS keepsA (eachManager op undo us done).
Proof.
  intros Ho Hu. revert done. induction us as [|u us IH]; intros done; simpl; [apply (keepsS_ret keepsA)|].
  apply (keepsS_bind keepsA); [by apply onManager_good|]. intros [r|]; [|apply IH]. case_match; [|apply IH].
  apply (keepsS_bind keepsA); [by apply rollback_good|]. intros _. apply (keepsS_ret keepsA).
Qed.
Lemma allManagers_good op undo : respects keepsG op → respects keepsG undo → keepsS keepsA (allManagers op undo).
Proof. intros. unfold allManagers. apply (keepsS_bind keepsA); [by intros ? ?|]. intros m. by apply eachManager_good. Qed.
Hint Extern 3 (keepsS keepsA (allManagers _ _)) => apply allManagers_good; solve_deep : keeps.
Lemma SubscribeAll_good said l pid : keepsS keepsA (SubscribeSystemAbilityForAllUsers said l pid).
Proof. solve_good. Qed.
Lemma UnSubscribeAll_good said l : keepsS keepsA (UnSubscribeSystemAbilityForAllUsers said l).
Proof. solve_good. Qed.
Lemma SubscribeProcessAll_good l : keepsS keepsA (SubscribeSystemProcessForAllUsers l).
Proof. solve_good. Qed.
Lemma UnSubscribeProcessAll_good l : keepsS keepsA (UnSubscribeSystemProcessForAllUsers l).
Proof. solve_good. Qed.
Lemma runningLoop_good us acc : keepsS keepsA (runningLoop us acc).
Proof. revert acc. induction us; intros; simpl; solve_good. Qed.
Hint Resolve SubscribeAll_good UnSubscribeAll_good SubscribeProcessAll_good UnSubscribeProcessAll_good
  runningLoop_good : keeps.

(** ** Users come and go *)

Lemma profiles_ok_nil : profiles_ok [].
Proof. split; [apply NoDup_nil_2|by intros p []%elem_of_nil|done]. Qed.

Lemma destroyManager_good u : keepsS keepsA (destroyManager u).
Proof.
  intros s [Hb Hu Hs]. unfold destroyManager. pose proof (runUser_base u MultiDestroy (sv_base s) Hb) as H.
  destruct (runUser u MultiDestroy (sv_base s)) as [[a u'] w']. by split.
Qed.

Lemma createManager_good userId l multi subs s :
  all_good s → profiles_ok l →
  all_good (createManager userId l multi subs s).2 ∧
  ∀ u, (createManager userId l multi subs s).1 = inl u → goodManager u.
Proof.
  intros Hs Hl. unfold createManager.
  pose proof (runUser_base (newMultiManager userId) (MultiInit l multi subs) (sv_base s) (ag_base s Hs)) as Hb.
  assert (Hg : goodManager (runUser (newMultiManager userId) (MultiInit l multi subs) (sv_base s)).1.2).
  { unfold runUser. pose proof (MultiInit_good l multi subs (enterUser (newMultiManager userId) (sv_base s)) Hl eq_refl
      profiles_ok_nil) as H. by destruct (MultiInit l multi subs _) as [r w']. }
  destruct (runUser _ _ _) as [[ret u] w']. simpl in Hg.
  assert (Hs' : all_good (s <| sv_base := w' |>)) by (destruct Hs; by split).
  destruct (negb (ret =? ERR_OK)); simpl; [|by split; [|intros ? [= <-]]].
  split; [by apply destroyManager_good|done].
Qed.

Lemma HandleUserActivating_good userId : keepsS keepsA (HandleUserActivating userId).
Proof.
  intros s Hs. unfold HandleUserActivating, mbind, ST_bind, getU.
  case_bool_decide; [exact Hs|]. case_bool_decide; [exact Hs|].
  assert (Ho : keepsS keepsA RemoveExpiredGlobalSubscriptionsLocked) by solve_good. specialize (Ho s Hs).
  destruct (RemoveExpiredGlobalSubscriptionsLocked s) as [[] s1]. simpl in Ho.
  destruct (negb _); [exact Ho|]. unfold getM. rewrite !liftW_gets.
  set (l := allSaProfiles_ _). set (multi := multiInstanceSaIds_ _). set (subs := globalSubscriptions_ _).
  destruct (createManager_good userId l multi subs s1 Ho (proj2 (ag_base s1 Ho))) as [Hc Hg].
  destruct (createManager userId l multi subs s1) as [[u|r] s2]; simpl in Hc, Hg; [|exact Hc].
  case_bool_decide.
  - pose proof (destroyManager_good u s2 Hc) as Hd. by destruct (destroyManager u s2) as [[] s3].
  - destruct Hc as [Hb Hu Hst]. split; simpl; [done| |done].
    intros v m. rewrite lookup_insert_Some. intros [[_ <-]|[_ ?]]; eauto.
Qed.

Lemma HandleUserSwitching_good userId : keepsS keepsA (HandleUserSwitching userId).
Proof.
  intros s Hs. unfold HandleUserSwitching, GetForegroundUserId, mbind, ST_bind, getU. rewrite liftW_gets.
  case_bool_decide; [exact Hs|]. destruct (userId =? _); [exact Hs|]. destruct (negb _); [exact Hs|].
  destruct Hs as [Hb Hu Hst]. by split.
Qed.

(** What is left when a stopping manager is dropped. *)
Lemma drop_good {A} u (m : M A) s :
  all_good s → all_good ((onStopping u m s).2 <| sv_users ::= dropUser u |>).
Proof.
  intros [Hb Hu Hs]. unfold onStopping. destruct (userStoppingContexts_ (sv_users s) !! u) as [c|] eqn:Hl.
  - pose proof (runUser_base (us_manager c) m (sv_base s) Hb) as H.
    destruct (runUser (us_manager c) m (sv_base s)) as [[a u'] w']. split; simpl; [done|done|].
    intros v x. rewrite delete_insert_eq. intros [_ ?]%lookup_delete_Some. eauto.
  - split; simpl; [done|done|]. intros v x [_ ?]%lookup_delete_Some. eauto.
Qed.

Lemma CompleteUserStopping_good userId context : keepsS keepsA (CompleteUserStopping userId context).
Proof.
  intros s Hs. unfold CompleteUserStopping. unfold mbind at 1, ST_bind at 1, getU at 1.
  destruct (userStoppingContexts_ (sv_users s) !! userId) as [c|] eqn:Hc; [|exact Hs].
  destruct (_ || _); [exact Hs|]. unfold mbind at 1, ST_bind at 1, updU at 1.
  assert (H1 : all_good (s <| sv_users ::= λ us, us <| userStoppingContexts_ ::=
                 <[userId := c <| us_finalizing := true |>]> |> |>)).
  { destruct Hs as [Hb Hu Hst]. split; simpl; [done|done|]. intros v x. rewrite lookup_insert_Some.
    intros [[<- <-]|[_ ?]]; [by apply (Hst userId c)|eauto]. }
  revert H1. generalize (s <| sv_users ::= λ us, us <| userStoppingContexts_ ::=
                 <[userId := c <| us_finalizing := true |>]> |> |>). intros s1 H1.
  assert (Hf : keepsS keepsA (liftW (forceStop userId (us_processNames c)) : ST Service unit))
    by (apply liftW_good; solve_deep).
  specialize (Hf s1 H1). unfold mbind, ST_bind. destruct (liftW _ s1) as [[] s2]. simpl in Hf.
  pose proof (onStopping_good userId _ StopEventCollection_good s2 Hf) as He.
  destruct (onStopping userId StopEventCollection s2) as [? s3]. simpl in He.
  pose proof (drop_good userId MultiDestroy s3 He) as Hd. by destruct (onStopping userId MultiDestroy s3) as [? s4].
Qed.

Lemma StartUserStopping_good userId u s :
  all_good s → goodManager u → all_good (StartUserStopping userId u s).2.
Proof.
  intros [Hb Hu Hst] Hg. unfold StartUserStopping. unfold mbind at 1, ST_bind at 1, getU at 1.
  unfold mbind at 1, ST_bind at 1, updU at 1. set (names := sorted_keys _ _). set (n := nextContext _).
  match goal with |- all_good ((_ ?s0)).2 => assert (H1 : all_good s0) end.
  { split; simpl; [done|done|]. intros v x. rewrite lookup_insert_Some. intros [[_ <-]|[_ ?]]; [done|eauto]. }
  revert H1. match goal with |- all_good ?s0 → _ => generalize s0 end. intros s1 H1.
  match goal with |- all_good ((?m s1)).2 => assert (Hm : keepsS keepsA m) end; [|by apply Hm].
  apply (keepsS_bind keepsA); [apply liftW_good; solve_deep|]. intros h. apply (keepsS_bind keepsA).
  { case_bool_decide; [apply liftW_good; solve_deep|apply (keepsS_ret keepsA)]. }
  intros _. apply (keepsS_bind keepsA); [apply onStopping_good, NotifyAllSAsToStop_good|]. intros _.
  case_bool_decide; [apply CompleteUserStopping_good|]. unfold PostUserStopTimeoutTask.
  apply (keepsS_bind keepsA); [apply liftW_good; solve_deep|]. intros b.
  case_match; [apply CompleteUserStopping_good|apply (keepsS_ret keepsA)].
Qed.

Lemma HandleUserStopping_good userId : keepsS keepsA (HandleUserStopping userId).
Proof.
  intros s Hs. unfold HandleUserStopping. unfold mbind at 1, ST_bind at 1, getU at 1.
  case_bool_decide; [exact Hs|]. unfold mbind at 1, ST_bind at 1, updU at 1. unfold mbind at 1, ST_bind at 1, getU. simpl.
  destruct Hs as [Hb Hu Hst]. destruct (multiUserManagers_ (sv_users s) !! userId) as [u|] eqn:Hl; [|by split].
  unfold mbind, ST_bind, updU, GetForegroundUserId. rewrite liftW_gets. simpl.
  destruct (userId =? w_foreground (sv_base s)); simpl;
    match goal with |- context [StartUserStopping userId u ?s0] =>
      assert (Hok : all_good (StartUserStopping userId u s0).2) end.
  1, 3: apply StartUserStopping_good; [|by eapply Hu]; split; simpl; [done| |done];
    intros v m [_ ?]%lookup_delete_Some; eauto.
  all: by destruct (StartUserStopping _ _ _) as [? s2].
Qed.
Hint Resolve HandleUserActivating_good HandleUserSwitching_good HandleUserStopping_good : keeps.

(** ** Every step *)

#[local] Instance samgr : ISystemAbilityManager Service := SystemAbilityManager Lsched.
Ltac open_interface :=
  lazymatch goal with |- keepsS _ ?m => let h := op_head m in unfold h, samgr, SystemAbilityManager; cbv beta iota end.
Hint Extern 8 (keepsS keepsA _) => open_interface; solve [solve_good] : keeps.

Lemma frame_keepsA A (m : M A) : respects frame m → keepsS keepsA (liftW m : ST Service A).
Proof. intros H. apply liftW_good. intros w. apply frame_good, H. Qed.

Lemma handlers_good code h : memberFuncMap_ !! code = Some h → keepsX keepsA h.
Proof.
  pose proof frame_keepsA as HR. revert code h. change (map_Forall (λ _, keepsX keepsA) memberFuncMap_).
  each_handler.
  all: solve_keepsX.
Qed.

Lemma setCaller_good c s : all_good s → all_good (setCaller c s).
Proof. by intros []. Qed.

Lemma runServiceTask_good t : keepsS keepsA (runServiceTask Lsched t).
Proof.
  destruct t; try (apply liftW_good, runTask_good); cbn [runServiceTask].
  - unfold userStopTimeoutTask. apply (keepsS_bind keepsA); [by intros s|]. intros b.
    case_match; [apply (keepsS_ret keepsA)|apply CompleteUserStopping_good].
  - solve_good.
  - apply liftW_good, good_respects; solve_deep.
  - solve_good.
  - solve_good.
Qed.

Lemma onTimer_good fd : keepsS keepsA (onTimer Lsched fd).
Proof.
  unfold onTimer. keeps_step; [apply frame_keepsA, respects_gets|]. case_match; [|apply (keepsS_ret keepsA)].
  keeps_step; [apply runServiceTask_good|]. apply frame_keepsA. auto with respects.
Qed.

Lemma sstep_good s s' : sstep s s' → all_good s → all_good s'.
Proof.
  intros Hst Hs. assert (Hc : ∀ c, all_good (setCaller c s)) by (intros c; by apply setCaller_good).
  assert (Ho : ∀ A (m : ST Service A) c, keepsS keepsA m → all_good (m (setCaller c s)).2) by (intros A m c Hm; by apply Hm).
  destruct Hst; try (apply Ho; solve [solve_good]).
  - apply (request_keeps keepsA frame_keepsA); [apply handlers_good|apply Hc].
  - apply runServiceTask_good, Hc.
  - apply onTimer_good, Hc.
Qed.

(** *** Boot *)

(** What runs between the two starts of contexts leaves the base scheduler's alone. *)
Definition sameBoot : relation Service := λ s s',
  (w_sched (sv_base s) = w_sched (sv_base s') ∧ allSaProfiles_ (w_mgr (sv_base s)) = allSaProfiles_ (w_mgr (sv_base s'))) ∧
  tables (sv_users s) = tables (sv_users s').
#[local] Instance sameBoot_preorder : PreOrder sameBoot.
Proof.
  split; [by split|]. intros x y z [[] ?] [[] ?]. repeat split; congruence.
Qed.

Definition bootPart (w : World) : Sched * list SaProfile := (w_sched w, allSaProfiles_ (w_mgr w)).
Lemma sameBoot_ordinary {A} (m : ST Service A) s :
  ordinary s (m s).2 → bootPart (sv_base s) = bootPart (sv_base (m s).2) → sameBoot s (m s).2.
Proof. intros [[Ht _] _] [= H1 H2]. by split. Qed.
Lemma liftW_boot {A} (m : M A) :
  respects evolves m → respects (same bootPart) m → keepsS sameBoot (liftW m : ST Service A).
Proof.
  intros He Hm s. apply sameBoot_ordinary; [by apply liftW_ordinary|]. specialize (Hm (sv_base s)).
  unfold liftW. simpl. by destruct (m (sv_base s)) as [a w'].
Qed.
Lemma onManager_boot {A} u (m : M A) : respects evolves m → keepsS sameBoot (onManager u m).
Proof.
  intros He s. apply sameBoot_ordinary; [by apply onManager_ordinary|]. unfold onManager, runUser.
  destruct (_ !! u) as [um|]; [|done]. by destruct (m (enterUser um (sv_base s))) as [a w'].
Qed.
Lemma eachManager_boot op undo us done :
  respects evolves op → respects evolves undo → keepsS sameBoot (eachManager op undo us done).
Proof.
  intros Ho Hu. revert done. induction us as [|u us IH]; intros done; simpl; [apply (keepsS_ret sameBoot)|].
  apply (keepsS_bind sameBoot); [by apply onManager_boot|]. intros [r|]; [|apply IH]. case_match; [|apply IH].
  apply (keepsS_bind sameBoot); [|intros _; apply (keepsS_ret sameBoot)]. unfold rollback. generalize (rev done).
  intros l. induction l as [|v l IHl]; simpl; [apply (keepsS_ret sameBoot)|].
  apply (keepsS_bind sameBoot); [|intros _; apply IHl].
  apply (keepsS_bind sameBoot); [by apply onManager_boot|intros _; apply (keepsS_ret sameBoot)].
Qed.

Ltac boot_step :=
  lazymatch goal with
  | |- keepsS _ (liftW _) => apply liftW_boot; solve [solve_deep]
  | |- keepsS _ (withUser _ _ _) =>
      apply (keepsS_bind sameBoot); [apply onManager_boot; solve [solve_deep]|intros ?; apply (keepsS_ret sameBoot)]
  | |- keepsS _ (eachManager _ _ _ _) => apply eachManager_boot; solve [solve_deep]
  | |- keepsS _ (getU _) => by intros ?
  | |- keepsS _ (updU _) => by intros ?
  | |- keepsS _ _ => first [keeps_step | unfold_s]
  end.
Hint Resolve Subscribe_sched : respects.
Lemma RegisterSAListener_boot listener : keepsS sameBoot (RegisterSAListener listener).
Proof. repeat boot_step. Qed.

Lemma ManagerInit_profs parsed multi :
  profiles_ok parsed → respects (keeps_mgr profs_ok) (ManagerInit parsed multi).
Proof.
  intros Hp. assert (H : respects (keeps_mgr profs_ok) (updM allSaProfiles_ (λ _, parsed))) by (by intros w _).
  solve_deep.
Qed.

(** [serviceBoot] up to the contexts of the profiles, and from there. *)
Lemma ManagerInit_base parsed multi w :
  profiles_ok parsed → w_sched w = emptySched → profs_ok (w_mgr w) →
  let w' := (ManagerInit parsed multi w).2 in
  ctxs w' = (let b := bootContexts (bootProfiles parsed multi) in (abilityContextMap_ b, processContextMap_ b)) ∧
  profs_ok (w_mgr w').
Proof. intros Hp Hw Hm. split; [exact (ManagerInit_wp parsed multi w Hw)|by apply ManagerInit_profs]. Qed.

(** From [Q] to [T] by [m]. *)
Definition leads {A} (Q : Service → Prop) (m : ST Service A) (T : Service → Prop) : Prop := ∀ s, Q s → T (m s).2.
Lemma leads_bind {A B} Q T U (m : ST Service A) (k : A → ST Service B) :
  leads Q m T → (∀ a, leads T (k a) U) → leads Q (m ≫= k) U.
Proof. intros Hm Hk s Hs. specialize (Hm s Hs). unfold mbind, ST_bind. destruct (m s) as [a s']. by apply Hk. Qed.

Definition bootedAs (parsed : list SaProfile) (multi : gset Z) (initialised : bool) (s : Service) : Prop :=
  (if initialised then ctxs (sv_base s) =
     (let b := bootContexts (bootProfiles parsed multi) in (abilityContextMap_ b, processContextMap_ b))
   else w_sched (sv_base s) = emptySched) ∧
  profs_ok (w_mgr (sv_base s)) ∧ tables (sv_users s) = tables emptyUsers.

Lemma bootedAs_same parsed multi i {A} (m : ST Service A) :
  keepsS sameBoot m → leads (bootedAs parsed multi i) m (bootedAs parsed multi i).
Proof.
  intros Hm s (Hc & Hp & Ht). destruct (Hm s) as [[H1 H2] H3]. split_and!; [|unfold profs_ok; by rewrite <- H2|congruence].
  destruct i; [unfold ctxs; by rewrite <- H1|congruence].
Qed.

Lemma serviceBoot_good parsed multi listener c :
  profiles_ok parsed → all_good (serviceBoot parsed multi listener (emptyService c)).2.
Proof.
  intros Hp. pose proof (bootProfiles_ok _ multi Hp) as Hb. destruct (bootContexts_samgr _ Hb) as [Hsp Hsa].
  assert (H : leads (bootedAs parsed multi false) (serviceBoot parsed multi listener) all_good);
    [|apply H; split_and!; [done|apply profiles_ok_nil|done]].
  assert (Hsame := @bootedAs_same parsed multi). unfold serviceBoot, SamgrInit.
  apply (leads_bind _ (bootedAs parsed multi false)); [apply Hsame, liftW_boot; solve_deep|intros _].
  apply (leads_bind _ (bootedAs parsed multi false)); [apply Hsame, liftW_boot; solve_deep|intros _].
  apply (leads_bind _ (bootedAs parsed multi true)); [|intros _].
  { apply (leads_bind _ (bootedAs parsed multi true)).
    - intros s (Hs & Hm & Ht). destruct (ManagerInit_base parsed multi (sv_base s) Hp Hs Hm) as [H1 H2].
      unfold liftW. simpl. destruct (ManagerInit parsed multi (sv_base s)) as [[] w']. by split.
    - intros _. apply Hsame. apply (keepsS_bind sameBoot); [apply liftW_boot; solve_deep|intros _].
      apply (keepsS_bind sameBoot); [case_match; [by intros s|apply (keepsS_ret sameBoot)]|].
      intros _. do 2 (apply (keepsS_bind sameBoot); [apply liftW_boot; solve_deep|intros _]).
      apply RegisterSAListener_boot. }
  intros s (Hc & Hm & Ht). unfold tables in Ht. injection Ht as _ H2 H3 _ _ _. apply pair_eq in Hc as [Ea Ep].
  assert (HI : ctx_inv (w_sched (sv_base s))) by (eapply ctx_inv_ctxs; [exact Ea|exact Ep|by apply bootContexts_inv]).
  pose proof (AddSamgr_wp (sv_base s) HI ltac:(by rewrite Ep) ltac:(by rewrite Ea)) as Hw.
  assert (Hf : respects (same (λ w, allSaProfiles_ (w_mgr w))) AddSamgrToAbilityMap) by solve_deep.
  specialize (Hf (sv_base s)). unfold liftW, wp in *. simpl. destruct (AddSamgrToAbilityMap (sv_base s)) as [[] w'].
  red in Hf. simpl in *. split; simpl.
  - split; [exact Hw|]. unfold profs_ok. by rewrite <- Hf.
  - intros u m. rewrite (proj1 (fmap_empty_iff _ _) H2), lookup_empty. done.
  - intros u x. rewrite (proj1 (fmap_empty_iff _ _) H3), lookup_empty. done.
Qed.

Lemma sreachable_good parsed multi s : profiles_ok parsed → sreachable parsed multi s → all_good s.
Proof.
  intros Hp (c & listener & Hr). assert (H0 := serviceBoot_good parsed multi listener c Hp). revert H0.
  induction Hr as [|s s1 s2 Hst _ IH]; intros H0; [done|]. apply IH. by eapply sstep_good.
Qed.
End operations.
