(* ===== verification/Concrete.v ===== *)
(** A concrete environment and concrete states, on which the theorems'
    hypotheses are shown to hold.

    The environment grants everything: queues are created, tasks are accepted
    with a new handle each, host processes answer, init starts and stops services,
    and the clock counts the calls made so far. *)
From S2P Require Import Prelude Types World Ffrt Util TimedCollect DevicePlugins Contexts Interfaces ManagerBase StateMachine.
From S2P Require Import EventHandler Scheduler SchedulerQuery SchedulerInv SchedulerBoot Manager System.
From S2P Require Import DBinder DumpStats.

(** UTF-16 and UTF-8 agree on ASCII. *)
Definition ascii_of_unit (z : Z) : Ascii.ascii := Ascii.ascii_of_nat (Z.to_nat z).
Definition asciiString (u : u16string) : string := foldr (λ z s, String (ascii_of_unit z) s) EmptyString u.
Fixpoint unitsOf (s : string) : u16string :=
  match s with EmptyString => [] | String a s' => Z.of_nat (Ascii.nat_of_ascii a) :: unitsOf s' end.

Definition freshHandle (tr : Trace) : positive := Pos.of_succ_nat (length tr).

(** The text of a file of preferences after the calls made so far. *)
Fixpoint stored (tr : Trace) (path : string) : gmap string PreferencesValue :=
  match tr with
  | [] => ∅
  | EvPreferences p (PutLong k v) :: tr' => if bool_decide (p = path) then <[k := PrefLong v]> (stored tr' path) else stored tr' path
  | EvPreferences p (PutString k v) :: tr' => if bool_decide (p = path) then <[k := PrefString v]> (stored tr' path) else stored tr' path
  | EvPreferences p (DeleteKey k) :: tr' => if bool_decide (p = path) then delete k (stored tr' path) else stored tr' path
  | _ :: tr' => stored tr' path
  end.

(** Parts of a text that are not empty, between the separators. *)
Fixpoint splitOn (c : Ascii.ascii) (s cur : string) : list string :=
  let flush l := if bool_decide (cur = "") then l else cur :: l in
  match s with
  | EmptyString => flush []
  | String a s' => if Ascii.eqb a c then flush (splitOn c s' "") else splitOn c s' (cur +:+ String a EmptyString)
  end.
Definition splitStr (s sep : string) : list string :=
  match sep with String c EmptyString => splitOn c s "" | _ => [s] end.

Definition ces0 : CommonEventSupport :=
  MkCommonEventSupport "usual.event.SCREEN_ON" "usual.event.SCREEN_OFF" "usual.event.CHARGING" "usual.event.DISCHARGING"
    "usual.event.POWER_CONNECTED" "usual.event.POWER_DISCONNECTED" "usual.event.USER_UNLOCKED"
    "usual.event.wifi.POWER_STATE" "usual.event.bluetooth.host.STATE_UPDATE".

(** Two finished runs of one task, one still running and one not started. *)
Definition stats0 : list FfrtStat :=
  [MkFfrtStat "Init" 0 0; MkFfrtStat "Load" 1000 4000; MkFfrtStat "Timer" 2000 0; MkFfrtStat "Load" 6000 8000].

(** A stable sort by a strict order. *)
Fixpoint insertWith {A} (cmp : A → A → bool) (x : A) (l : list A) : list A :=
  match l with [] => [x] | y :: l' => if cmp y x then y :: insertWith cmp x l' else x :: l end.
Definition sortWith {A} (cmp : A → A → bool) (l : list A) : list A := foldr (insertWith cmp) [] l.

(** A call that was just made and one that has waited for a minute. *)
Definition transactions0 : list string :=
  ["501:7 to 240:0 code 1 wait:2 s"; "501:7 to 250:0 code 1 wait:61 s"; "context hwbinder"].

Definition concreteEnv (multi delay : bool) (tokenName cmdline : string) : Env := {|
  ERR_INVALID_VALUE := 22;
  ERR_PERMISSION_DENIED := 1;
  ERR_INVALID_VALUE_nz := ltac:(lia);
  ERR_PERMISSION_DENIED_nz := ltac:(lia);
  Str16ToStr8 := asciiString;
  Str8ToStr16 := unitsOf;
  DeleteBlank := filter (λ z, z ≠ 32);
  EventToStr_dump := λ i n v x, n +:+ v;
  SUPPORT_MULTI_INSTANCE := multi;
  SAMGR_ENABLE_EXTEND_LOAD_TIMEOUT := false;
  PREFERENCES_ENABLE := true;
  env_GetTickCount := λ tr, Z.of_nat (length tr);
  env_queue_create := λ _, Some 1%positive;
  env_queue_submit := λ tr, Some (freshHandle tr);
  env_iface_cast := λ _, true;
  env_StartAbility := λ _, true;
  env_StopAbility := λ _, true;
  env_IdleAbility := λ _, (true, 0);
  env_ActiveAbility := λ _, true;
  env_ServiceControl := λ _, 0;
  env_ServiceWaitUser := λ _, 0;
  env_promote := λ _ _, true;
  env_GetNativeTokenInfo := λ _ _, (0, tokenName);
  env_GetParameter := λ _ _ d, d;
  env_GetBoolParameter := λ _ _ d, d;
  env_cmdline := λ _ _, Some cmdline;
  env_transaction_proc := λ _, Some transactions0;
  env_ServiceStatus_STARTED := "2";
  env_newCallback := λ tr, MkLoadCallback (freshHandle tr) (freshHandle tr);
  StrToInt := λ s, if bool_decide (s = "") then None else Some (atoi s);
  SplitStr := splitStr;
  SUPPORT_DEVICE_MANAGER := true;
  SUPPORT_COMMON_EVENT := true;
  SUPPORT_SWITCH_COLLECT := true;
  SAMGR_ENABLE_DELAY_DBINDER := delay;
  ces := ces0;
  env_SubscribeCommonEvent := λ _, true;
  env_WatchParameter := λ _, 0;
  env_RemoveParameterWatcher := λ _, 0;
  env_GetPreferences := λ _ _, true;
  env_PreferencesPut := λ _, true;
  env_PreferencesFlush := λ _, true;
  env_PreferencesDelete := λ _, true;
  env_PreferencesHasKey := λ tr p k, bool_decide (is_Some (stored tr p !! k));
  env_PreferencesGetString := λ tr p k, match stored tr p !! k with Some (PrefString v) => Some v | _ => None end;
  env_PreferencesGetAll := stored;
  env_time := λ tr, Z.of_nat (length tr);
  env_mktime := λ tr _, Z.of_nat (length tr) + 60;
  env_timerfd_create := λ tr, Some (Z.of_nat (length tr));
  env_epoll_add := λ _, true;
  env_timerfd_settime := λ _, true;
  env_DeviceManager := λ _ _, 0;
  env_TrustedDevices := λ _, [];
  env_ProxyIsDead := λ _ _, false;
  env_StrongRefCount := λ _ _, 1;
  env_dBinderService := λ _, true;
  env_ffrt_dump := λ _, 0;
  env_ffrt_stat := λ _, stats0;
  env_ffrt_info := λ _, "";
  env_IpcStatistics := λ _, true;
  env_IPCPayloadStatistics := λ _, MkIPCPayloadStatistics 0 0 [] (λ _, 0) (λ _, 0) (λ _, []) (λ _ _, 0) (λ _ _, MkIPCPayloadCost 0 0 0 0);
  env_FfrtDumperProc := λ _, Some "";
  env_SaveStringToFd := λ _, true;
  std_sort := @sortWith;
  env_coreNum := 4;
  env_proc_stat := λ tr, let n := Z.of_nat (length tr) in Some [40 + n; 0; 10; 1000 + 90 * n; 0; 0; 0; 0; 0; 0];
  env_uninitialised := λ _, 77;
  env_sysinfo := λ _, Some (4 * 65536 + 100, 6 * 65536);
  env_CheckSupportSetDeathPrior := true;
  env_samgrObject := 1%positive;
  env_getpid := 501;
  env_getuid := 5523;
|}.
#[export] Instance env0 : Env := concreteEnv false false "foo" "foo".

(** Two SAs in the process [foo], one in [bar]; all stop when memory is low. *)
Definition foo : u16string := [102; 111; 111].
Definition bar : u16string := [98; 97; 114].
Definition profile (pn : u16string) (said : Z) (strategy : Z) : SaProfile :=
  MkSaProfile pn said "libsa.so" [] 0 false false true false 1 1 (MkStartOnDemand false [])
    (MkStopOnDemand false false 20000 0 [mkEvent PARAM PARAM_LOW_MEM_PREPARE_NAME "true"]) strategy ["backup"] false false.
Definition profiles0 : list SaProfile := [profile foo 401 IMMEDIATELY; profile foo 402 IMMEDIATELY; profile bar 501 LOW_MEMORY].

Definition caller0 : Caller := MkCaller 1000 2000 3000 0.
Definition callback1 : LoadCallback := MkLoadCallback 11 11.
Definition callback2 : LoadCallback := MkLoadCallback 12 12.
Definition listener1 : StatusChange := MkStatusChange 21 21.

Definition run {A} (m : M A) (w : World) : World := (m w).2.

(** Booted; then SA 401 is asked for; [foo] starts; it registers the SA; the SA is
    told to unload and agrees. *)
Definition booted : World := run (boot profiles0 ∅) (emptyWorld KSystemAbilityManager 0 caller0).
Definition call (o : Op) (w : World) : World := run (runOp o) (w <| w_caller := caller0 |>).
Definition asked : World := call (OpLoadSystemAbility 401 (Some callback1)) booted.
Definition started : World := call (OpAddSystemProcess foo (Some 31%positive)) asked.
Definition loaded : World := call (OpAddSystemAbility 401 (Some 32%positive) (MkSAExtraProp false 8 [] [])) started.
Definition idle : World := call (OpUnloadSystemAbility 401) loaded.

Definition stateOf (w : World) (k : Z) : option SystemAbilityState := a_state <$> abilityContextMap_ (w_sched w) !! k.

Lemma run_states :
  (stateOf booted 401, stateOf asked 401, stateOf loaded 401, stateOf idle 401) =
  (Some NOT_LOADED, Some LOADING, Some LOADED, Some UNLOADABLE).
Proof. vm_compute. reflexivity. Qed.

Lemma profiles0_ok : profiles_ok profiles0.
Proof.
  split; [by vm_compute; repeat constructor; set_solver| |done].
  intros p. unfold profiles0. rewrite !elem_of_cons. by intros [->|[->|[->|[]%elem_of_nil]]].
Qed.

Lemma booted_reachable : reachable profiles0 ∅ booted.
Proof. exists KSystemAbilityManager, 0, caller0. apply rtc_refl. Qed.
Lemma call_reachable o w : reachable profiles0 ∅ w → reachable profiles0 ∅ (call o w).
Proof.
  intros (k & u & c & H). exists k, u, c. eapply rtc_r; [exact H|]. apply (step_call w caller0 o).
Qed.
Lemma idle_reachable : reachable profiles0 ∅ idle.
Proof. unfold idle, loaded, started, asked. do 4 apply call_reachable. apply booted_reachable. Qed.
Lemma loaded_reachable : reachable profiles0 ∅ loaded.
Proof. unfold loaded, started, asked. do 3 apply call_reachable. apply booted_reachable. Qed.

Lemma idle_inv : ctx_inv (w_sched idle).
Proof. exact (reachable_inv profiles0 ∅ idle profiles0_ok idle_reachable). Qed.
Lemma loaded_inv : ctx_inv (w_sched loaded).
Proof. exact (reachable_inv profiles0 ∅ loaded profiles0_ok loaded_reachable). Qed.

Definition abilityOf (w : World) (k : Z) : SystemAbilityContext := default newAbilityContext (abilityContextMap_ (w_sched w) !! k).
Definition processOf (w : World) (pn : u16string) : SystemProcessContext :=
  default newProcessContext (processContextMap_ (w_sched w) !! pn).
