(* ===== verification/ConcreteService.v ===== *)
(** A concrete service with two users: the environment of Concrete.v built with
    multi-instance support, an IPC layer that delivers everything, and states
    reached by requests; and a client that logs what it is told, a hosting process, and the
    witnesses of the theorems on notices and on requests to hosting processes. *)
From S2P Require Import Notices NoticeSpec LocalProxy.
From S2P Require Import Prelude Types World Parcel Ffrt Util Contexts Interfaces ManagerBase StateMachine.
From S2P Require Import EventHandler Scheduler SchedulerQuery Subscribers Manager IpcInterface Stub Policy MultiManager.
From S2P Require Import DBinder DumpStats.
From S2P Require Import UserLifecycle GlobalSubscriptions Samgr System Concrete Evolves Service.

Definition env1 : Env := concreteEnv true false "accountmgr" "bar".
#[export] Existing Instance env1.
Lemma env1_i32 : is_i32 (ERR_INVALID_VALUE (Env := env1)).
Proof. by vm_compute. Qed.

#[export] Instance ipc1 : IpcEnv (E := env1) := {|
  ERR_NULL_OBJECT := 7;
  ERR_FLATTEN_OBJECT := 5;
  ERR_INVALID_OPERATION := 38;
  ERR_NULL_OBJECT_nz := ltac:(lia);
  ERR_FLATTEN_OBJECT_nz := ltac:(lia);
  ERR_INVALID_OPERATION_nz := ltac:(lia);
  ERR_INVALID_VALUE_i32 := env1_i32;
  env_SendRequest := λ _ _, 0;
  env_OnRemoteRequest := λ _, 305;
  env_TokenIsNative := λ _ _, true;
  env_VerifyAccessToken := λ _ _ _, true;
  WITH_SELINUX := false;
  env_GetCallingSid := λ _ _, "sid";
  env_ServiceCheck := λ _ _ _, 0;
  SUPPORT_PENGLAI_MODE := false;
  penglaiFunc_ := None;
  env_gettid := λ _, 900;
  cast_StatusChange := λ o, Some (MkStatusChange o o);
  cast_LoadCallback := λ o, Some (MkLoadCallback o o);
  cast_ProcessStatusChange := λ o, Some (MkProcessStatusChange o (Some o));
  env_waitLoaded := λ _, None;
  env_IsObjectDead := λ _ _, false;
  env_MakeRemoteBinder := λ _, None;
|}.

#[export] Existing Instance queueParcels.

(** Callers of the base user and of user 100; SA 501 has an instance per user. *)
Definition baseCaller : Caller := MkCaller 1000 2000 3000 (Z.shiftl 0xffffffff 32).
Definition userCaller : Caller := MkCaller 1100 2100 3100 (Z.shiftl 100 32).
Definition multi0 : gset Z := {[501]}.

Definition send (c : Caller) (code : Z) (data : list Item) (s : Service) : Service :=
  (OnRemoteRequest (I := SystemAbilityManager Lsched) code (item KToken SAMANAGER_INTERFACE_TOKEN :: data) (setCaller c s)).2.
Definition userState (u st : Z) : Service → Service :=
  send baseCaller Code.ON_USER_STATE_CHANGED_TRANSACTION [item KInt32 u; item KInt32 st].

Definition serviceBooted : Service := (serviceBoot profiles0 multi0 listener1 (emptyService baseCaller)).2.
(** User 100 is activated and comes to the foreground, its process [bar] starts. *)
Definition activated : Service := userState 100 USER_STATE_ACTIVATING serviceBooted.
Definition switched : Service := userState 100 USER_STATE_SWITCHING activated.
Definition barStarted : Service :=
  send userCaller Code.ADD_SYSTEM_PROCESS_TRANSACTION [item KString16 bar; item KObject 41%positive] switched.
(** The user is stopped while [bar] runs. *)
Definition stopping : Service := userState 100 USER_STATE_STOPPING barStarted.

Lemma send_reachable c code data s :
  sreachable profiles0 multi0 s → sreachable profiles0 multi0 (send c code data s).
Proof. intros (c0 & l & H). exists c0, l. eapply rtc_r; [exact H|]. apply sstep_request. Qed.
Lemma stopping_reachable : sreachable profiles0 multi0 stopping.
Proof.
  unfold stopping, barStarted, switched, activated, userState. do 4 apply send_reachable. exists baseCaller, listener1.
  apply rtc_refl.
Qed.
Lemma barStarted_reachable : sreachable profiles0 multi0 barStarted.
Proof.
  unfold barStarted, switched, activated, userState. do 3 apply send_reachable. exists baseCaller, listener1.
  apply rtc_refl.
Qed.

Lemma run_users :
  (elements (validUserIds_ (sv_users activated)), w_foreground (sv_base switched),
   elements (validUserIds_ (sv_users stopping)), us_processNames <$> userStoppingContexts_ (sv_users stopping) !! 100)
  = ([100], 100, [], Some [bar]).
Proof. vm_compute. reflexivity. Qed.

(** ** A client and a hosting process *)

Definition Client : Type := World * list Notice.
#[export] Instance Client_HasWorld : HasWorld Client := {| getWorld c := c.1; setWorld w c := (w, c.2) |}.

Definition told (n : Notice) : ST Client unit := λ c, (tt, (c.1, c.2 ++ [n])).

#[export] Instance Client_load : ISystemAbilityLoadCallback Client := {|
  cOnLoadSystemAbilitySuccess said o := told (LoadSuccess said o);
  cOnLoadSystemAbilityFail said := told (LoadFail said);
  cOnLoadSystemAbilityFailWithCode said e := told (LoadFailWithCode said e);
  cOnLoadSACompleteForRemote dev said o := told (RemoteLoadComplete dev said o);
|}.
#[export] Instance Client_status : ISystemAbilityStatusChange Client := {|
  cOnAddSystemAbility said dev := told (AbilityAdded said dev);
  cOnRemoveSystemAbility said dev := told (AbilityRemoved said dev);
|}.
#[export] Instance Client_process : ISystemProcessStatusChange Client := {|
  cOnSystemProcessStarted i := told (ProcessStarted i);
  cOnSystemProcessStopped i := told (ProcessStopped i);
  cOnSystemProcessActivated i := told (ProcessActivated i);
  cOnSystemProcessIdled i := told (ProcessIdled i);
|}.

Definition client0 : Client := (booted, []).
Definition remoteDone : Notice := RemoteLoadComplete "dev" 401 (Some 7%positive).

(** The completion of a remote load arrives with its object. *)
Lemma notice_delivered_witness :
  notice_typed remoteDone ∧ (noticed true remoteDone client0).2.2 = [remoteDone] ∧
  announce true remoteDone client0 = noticed true remoteDone client0.
Proof.
  assert (H : notice_typed remoteDone) by (cbn; unfold is_i32; lia).
  split; [exact H|]. split; [vm_compute; reflexivity|]. apply (notice_delivered true remoteDone client0 H).
Defined.

(** A hosting process that answers [true] and a delay of 5. *)
#[export] Instance local0 : LocalEnv := {| INVALID_DATA := 3; OBJECT_NULL := 4 |}.
Definition host (code : Z) (data : Parcel) : ST Client (Z * Parcel) :=
  λ c, ((0, ([item KBool true; item KInt32 5] : Parcel (Parcels := queueParcels))), c).
Definition idleRequest : LocalRequest Client string := LqIdle 401 "idle" 0.

Lemma local_call_wire_witness :
  (localCall (λ r, r) true host idleRequest client0).1 = LpDelay (true, 5) ∧
  ∃ data, unread data = item KToken LOCAL_ABILITY_MANAGER_INTERFACE_TOKEN :: [item KInt32 401; item KString "idle"] ∧
    ∀ s, localCall (λ r, r) true host idleRequest s = specLocalCall true host data idleRequest s.
Proof. split; [vm_compute; reflexivity|]. apply (local_call_wire (λ r, r) true host idleRequest). Defined.
