(* ===== verification/ServiceSpec.v ===== *)
(** The service with its users: the tables of users, the stop of a user, and the
    isolation of users from each other. *)
From S2P Require Import Prelude Types World Parcel Ffrt Util Contexts Interfaces ManagerBase StateMachine.
From S2P Require Import EventHandler Scheduler SchedulerQuery Subscribers Manager IpcInterface Stub StubFrame Policy.
From S2P Require Import DBinder DumpStats.
From S2P Require Import MultiManager UserLifecycle GlobalSubscriptions Samgr System Evolves UsersInv Service Isolation.
From S2P Require Import SchedulerInv SchedulerBoot ManagerGood ServiceGood Proxy IpcLaws IpcSpec IpcExec IpcRefines Concrete ConcreteService.

Section spec.
Context `{E : Env} `{IE : !IpcEnv} {C : CollectIface} {CL : CollectLaws C} `{P : Parcels}.
#[local] Instance samgr : ISystemAbilityManager Service := SystemAbilityManager Lsched.

(** ** The tables of users *)

(** C8: In every state the service reaches, whatever requests arrive over IPC and
    however tasks, death notices and events interleave, the tables of users agree: the
    valid users are those with a manager, and their state is activating or
    switching; the stopping users are those with a stopping context, whose timeout
    task is posted; no user is both; the foreground user is none or a valid one; a
    manager belongs to the user it is filed under; and the count of requests for
    the priority mode, an int32_t that wraps around, is zero while the mode is off.
    From a state where the mode is on exactly while the count is positive, a
    request for or against the mode leaves it so as long as the count is below
    the largest int32_t: only an overflow of the count can part the two. *)
Theorem users_tables_agree parsed multi s :
  sreachable parsed multi s →
  users_ok s ∧ ∀ b, prior_exact s → priorRefCnt_ s < 2 ^ 31 - 1 → prior_exact (Samgr.SetSamgrIpcPrior b s).2.
Proof.
  intros Hs%sreachable_ok. split; [done|]. intros b. apply SetSamgrIpcPrior_exact, (uo_prior s Hs).
Qed.

(** ** The end of a user *)

(** A run of the service in which the timeout tasks of stopping users do run. *)
Definition fair_run (σ : nat → Service) : Prop :=
  (∀ n, sstep (σ n) (σ (S n))) ∧
  ∀ n u x, submitted (TUserStopTimeout u x) (sv_base (σ n)) →
    ∃ m c, (n ≤ m)%nat ∧ σ (S m) = (runServiceTask Lsched (TUserStopTimeout u x) (setCaller c (σ m))).2.

Lemma stopTask_effect s u c cl :
  users_ok s → userStoppingContexts_ (sv_users s) !! u = Some c →
  let s' := (runServiceTask Lsched (TUserStopTimeout u (us_context c)) (setCaller cl s)).2 in
  userStoppingContexts_ (sv_users s') !! u = None ∧ userStateMap_ (sv_users s') !! u = None ∧
  u ∉ validUserIds_ (sv_users s').
Proof.
  intros Hs Hc. destruct (uo_context s Hs u c Hc) as (_ & Hf & _ & _).
  cbn [runServiceTask]. unfold userStopTimeoutTask, mbind, ST_bind, getU.
  change (sv_users (setCaller cl s)) with (sv_users s). rewrite (uo_alive s Hs). cbn [negb].
  destruct (CompleteUserStopping_spec u (setCaller cl s) c Hc Hf) as [[Ht _] _].
  set (s' := (CompleteUserStopping u (us_context c) (setCaller cl s)).2) in *.
  unfold tables in Ht. injection Ht as H1 H2 H3 H4 H5 H6. simpl in H1, H2, H3, H4.
  assert (Hst : userStateMap_ (sv_users s) !! u = Some USER_STATE_STOPPING) by (apply (uo_stopping s Hs); eauto).
  rewrite bool_decide_eq_true_2 in H1 by done. split_and!.
  - apply (fmap_lookup_eq uc_id _ _ u) in H3. rewrite lookup_delete_eq in H3. by destruct (userStoppingContexts_ (sv_users s') !! u).
  - by rewrite <- H1, lookup_delete_eq.
  - rewrite <- H4, (uo_valid s Hs), elem_of_dom, (uo_active s Hs), Hst. by intros [[=]|[=]].
Qed.

(** C9: A user that is stopping is stopped in the end: its timeout task is posted, and
    when it runs the user has no context and no state left and is not valid, so
    that it can be activated again; on a fair run from a reachable state a stop that
    has begun is over at some later time. *)
Theorem user_stop_completes parsed multi σ n u c :
  sreachable parsed multi (σ 0%nat) → fair_run σ → userStoppingContexts_ (sv_users (σ n)) !! u = Some c →
  submitted (TUserStopTimeout u (us_context c)) (sv_base (σ n)) ∧
  (∀ cl, let s' := (runServiceTask Lsched (TUserStopTimeout u (us_context c)) (setCaller cl (σ n))).2 in
    userStoppingContexts_ (sv_users s') !! u = None ∧ userStateMap_ (sv_users s') !! u = None ∧
    u ∉ validUserIds_ (sv_users s')) ∧
  ∃ m, (n ≤ m)%nat ∧ ∀ c', userStoppingContexts_ (sv_users (σ m)) !! u = Some c' → us_context c' ≠ us_context c.
Proof.
  intros Hr [Hrun Hfair] Hc.
  assert (Hok : ∀ k, users_ok (σ k)).
  { intros k. induction k as [|k IH]; [by eapply sreachable_ok|]. by apply (sstep_keeps (σ k)). }
  destruct (uo_context _ (Hok n) _ _ Hc) as (_ & _ & _ & Hsub). split_and!; [done|by intros cl; apply stopTask_effect|].
  destruct (Hfair n u (us_context c) Hsub) as (m & cl & Hm & Hnext).
  destruct (userStoppingContexts_ (sv_users (σ m)) !! u) as [c1|] eqn:H1.
  - destruct (decide (us_context c1 = us_context c)) as [Heq|Hne].
    + exists (S m). split; [lia|]. rewrite <- Heq in Hnext. destruct (stopTask_effect _ u c1 cl (Hok m) H1) as [Hn _].
      intros c'. rewrite Hnext, Hn. done.
    + exists m. split; [done|]. intros c'. rewrite H1. by intros [= <-].
  - exists m. split; [done|]. intros c'. by rewrite H1.
Qed.

(** ** The schedulers of all users *)

(** C3: When the profiles are well formed, in every state the service reaches the
    scheduler of the base user, that of every user and that of every user still
    stopping has the invariant of its contexts ([ctx_inv]): states, counters,
    pending requests and the links between SAs and processes agree in each of
    them, although one service drives them all from the same requests and tasks. *)
Theorem managers_contexts_ok parsed multi s :
  profiles_ok parsed → sreachable parsed multi s →
  ctx_inv (w_sched (sv_base s)) ∧
  (∀ u m, multiUserManagers_ (sv_users s) !! u = Some m → ctx_inv (um_sched m)) ∧
  (∀ u c, userStoppingContexts_ (sv_users s) !! u = Some c → ctx_inv (um_sched (us_manager c))).
Proof.
  intros Hp Hr. destruct (sreachable_good parsed multi s Hp Hr) as [Hb Hu Hs]. split_and!; [apply Hb|..].
  - intros u m Hm. apply (Hu u m Hm).
  - intros u c Hc. apply (Hs u c Hc).
Qed.

(** ** Isolation *)

(** C4: A request of a process of user [u], whatever its parcel holds, changes nothing of
    another user: not its manager, running or stopping, nor the tables of users,
    the subscriptions for all users or the foreground user; only the requests that
    are about all users ([serviceWide]) are exempt.  The requests an SA's process
    makes about its own SAs ([ownProcess]) do not reach the base manager either. *)
Theorem user_requests_isolated code data s :
  SUPPORT_MULTI_INSTANCE = true → callingUser s ≠ BASE_USER → code ∉ serviceWide →
  let s' := (OnRemoteRequest code data s).2 in
  otherUsers (callingUser s) s' = otherUsers (callingUser s) s ∧
  (code ∈ ownProcess → baseManager s' = baseManager s).
Proof.
  intros HM Hu Hcode s'. split.
  - pose proof (request_keeps (isolated (callingUser s) false) (frame_isolated _ false) code data) as H.
    destruct (H) with (s := s) as (_ & Ho & _); [|done|done].
    intros h Hh. destruct (handlers_isolated _ Hu HM code h Hh) as [?|?]; [done|done].
  - intros Hown. pose proof (request_keeps (isolated (callingUser s) true) (frame_isolated _ true) code data) as H.
    destruct (H) with (s := s) as (_ & _ & Hb); [|done|by symmetry; apply Hb].
    intros h Hh. by apply (handlers_own _ Hu HM code h Hh).
Qed.
End spec.

(** ** Instances *)

Lemma users_tables_agree_witness :
  sreachable profiles0 multi0 stopping ∧ users_ok stopping ∧ prior_exact (Samgr.SetSamgrIpcPrior true stopping).2.
Proof.
  split; [exact stopping_reachable|].
  destruct (users_tables_agree profiles0 multi0 stopping stopping_reachable) as [H1 H2]. split; [exact H1|].
  apply H2; vm_compute; [by split|done].
Defined.

(** The timeout of user 100 runs, again and again. *)
Definition timeout100 : Task := TUserStopTimeout 100 1.
Definition stopped : Service := (runServiceTask Lsched timeout100 (setCaller baseCaller stopping)).2.
Definition stopRun (n : nat) : Service := match n with O => stopping | S _ => stopped end.

Lemma stopped_stays : (runServiceTask Lsched timeout100 (setCaller baseCaller stopped)).2 = stopped.
Proof. vm_compute. reflexivity. Qed.
Lemma stopRun_step n : stopRun (S n) = (runServiceTask Lsched timeout100 (setCaller baseCaller (stopRun n))).2.
Proof. destruct n as [|n]; cbn [stopRun]; [unfold stopped; reflexivity|]. symmetry. exact stopped_stays. Qed.

(** The only timeout tasks of its trace are those of this stop. *)
Definition isStop (e : Ev) : bool := match e with EvSubmit _ _ (TUserStopTimeout _ _) _ => true | _ => false end.
Definition isStopOf100 (e : Ev) : bool :=
  match e with EvSubmit _ _ (TUserStopTimeout u x) _ => (u =? 100) && Pos.eqb x 1 | _ => false end.
Lemma stopRun_tasks n :
  existsb isStopOf100 (w_trace (sv_base (stopRun n))) = true ∧
  forallb (λ e, implb (isStop e) (isStopOf100 e)) (w_trace (sv_base (stopRun n))) = true.
Proof. destruct n; vm_compute; split; reflexivity. Qed.

Lemma stopRun_submitted n : submitted timeout100 (sv_base (stopRun n)).
Proof.
  destruct (stopRun_tasks n) as [H _]. apply existsb_exists in H as (e & Hin & He). destruct e;
    try discriminate He.
  destruct t; try discriminate He. apply andb_true_iff in He as [->%Z.eqb_eq ->%Pos.eqb_eq].
  eexists _, _, _. apply list_elem_of_In. exact Hin.
Qed.

Lemma stopRun_only n u x : submitted (TUserStopTimeout u x) (sv_base (stopRun n)) → TUserStopTimeout u x = timeout100.
Proof.
  intros (h & q & d & Hin). destruct (stopRun_tasks n) as [_ H]. rewrite forallb_forall in H.
  specialize (H _ (proj1 (list_elem_of_In _ _) Hin)). apply andb_true_iff in H as [->%Z.eqb_eq ->%Pos.eqb_eq]. reflexivity.
Qed.

Lemma stopRun_fair : fair_run stopRun.
Proof.
  split.
  - intros n. rewrite stopRun_step. apply sstep_task. left. apply stopRun_submitted.
  - intros n u x Hs. exists n, baseCaller. split; [lia|]. rewrite (stopRun_only n u x Hs). apply stopRun_step.
Qed.

Lemma user_stop_completes_witness :
  ∃ c, userStoppingContexts_ (sv_users (stopRun 0)) !! 100 = Some c ∧
  ∃ m, (0 ≤ m)%nat ∧ ∀ c', userStoppingContexts_ (sv_users (stopRun m)) !! 100 = Some c' → us_context c' ≠ us_context c.
Proof.
  destruct (userStoppingContexts_ (sv_users (stopRun 0)) !! 100) as [c|] eqn:Hc.
  - exists c. split; [reflexivity|].
    exact (proj2 (proj2 (user_stop_completes profiles0 multi0 stopRun 0 100 c stopping_reachable stopRun_fair Hc))).
  - exfalso. assert (H : bool_decide (userStoppingContexts_ (sv_users (stopRun 0)) !! 100 = None) = false)
      by (vm_compute; reflexivity).
    apply bool_decide_eq_false in H. exact (H Hc).
Defined.

Lemma managers_contexts_ok_witness :
  (elements (dom (multiUserManagers_ (sv_users barStarted))) = [100] ∧ profiles_ok profiles0) ∧
  ∀ u m, multiUserManagers_ (sv_users barStarted) !! u = Some m → ctx_inv (um_sched m).
Proof.
  split; [split; [vm_compute; reflexivity|exact profiles0_ok]|].
  exact (proj1 (proj2 (managers_contexts_ok profiles0 multi0 barStarted profiles0_ok barStarted_reachable))).
Defined.

(** User 100 registers SA 501 from its process. *)
Definition barAsks : Service := setCaller userCaller barStarted.
Definition addData : list Item :=
  [item KToken SAMANAGER_INTERFACE_TOKEN; item KInt32 501; item KObject 42%positive; item KBool false; item KInt32 8;
   item KString16 []; item KString16 []].

Lemma user_requests_isolated_witness :
  (callingUser barAsks = 100 ∧
   (OnRemoteRequest (I := SystemAbilityManager Lsched) Code.ADD_SYSTEM_ABILITY_TRANSACTION addData barAsks).1.1 = 0) ∧
  let s' := (OnRemoteRequest (I := SystemAbilityManager Lsched) Code.ADD_SYSTEM_ABILITY_TRANSACTION addData barAsks).2 in
  otherUsers 100 s' = otherUsers 100 barAsks ∧ baseManager s' = baseManager barAsks.
Proof.
  split; [split; vm_compute; reflexivity|]. assert (Hc : callingUser barAsks = 100) by (vm_compute; reflexivity).
  assert (Hb : callingUser barAsks ≠ BASE_USER) by (rewrite Hc; discriminate).
  assert (Hw : Code.ADD_SYSTEM_ABILITY_TRANSACTION ∉ serviceWide)
    by (apply (bool_decide_unpack _); vm_compute; exact I).
  pose proof (user_requests_isolated Code.ADD_SYSTEM_ABILITY_TRANSACTION addData barAsks eq_refl Hb Hw) as [Ho Hm].
  rewrite Hc in Ho. split; [exact Ho|]. apply Hm. apply list_elem_of_here.
Defined.

(** A process of user 100 registers SA 501 through the proxy. *)
Definition addRequest : Request := RqAddSystemAbility 501 (Some 42%positive) (MkSAExtraProp false 8 [] []).

Lemma remote_call_refines_witness :
  (specRemoteCall (I := SystemAbilityManager Lsched) true addRequest barAsks).1 = RpInt 0 ∧
  remoteCall (I := SystemAbilityManager Lsched) true addRequest barAsks =
  specRemoteCall (I := SystemAbilityManager Lsched) true addRequest barAsks.
Proof.
  assert (H : (specRemoteCall (I := SystemAbilityManager Lsched) true addRequest barAsks).1 = RpInt 0)
    by (vm_compute; reflexivity).
  split; [exact H|]. apply (remote_call_refines true addRequest barAsks); [exact I|rewrite H; exact I|discriminate].
Defined.
