(* ===== verification/FfrtSpec.v ===== *)
(** What the queues promise: a named task is outstanding from its submission until
    it runs or is removed, and delays are converted without overflow. *)
From S2P Require Import Prelude Types World Ffrt Util Contexts Interfaces Hoare ManagerBase StateMachine.
From S2P Require Import EventHandler Scheduler SchedulerQuery Manager System Concrete.
From S2P Require Import DBinder DumpStats.

(** ** Operations of a queue, and its states *)

Inductive QueueOp :=
  | QNew (h : HandlerId)
  | QPost (h : HandlerId) (t : Task)
  | QPostDelay (h : HandlerId) (t : Task) (delay : Z)
  | QPostNamed (h : HandlerId) (t : Task) (name : string) (delay : Z)
  | QRemove (h : HandlerId) (name : string)
  | QDel (h : HandlerId) (name : string)
  | QClean (h : HandlerId)
  | QSet (h : HandlerId).

(** The abstract state of a queue: how many submissions of each name are neither
    run nor removed. *)
Definition outstanding (w : World) (h : HandlerId) (name : string) : nat :=
  match w_handlers w !! h with
  | None => 0%nat
  | Some hd => length (default [] (taskMap_ hd !! name))
  end.

Section queue.
Context `{E : Env}.

Definition runQueue (o : QueueOp) : M unit :=
  match o with
  | QNew h => newFFRTHandler h
  | QPost h t => ignore (PostTask h t)
  | QPostDelay h t d => ignore (PostTaskDelay h t d)
  | QPostNamed h t n d => ignore (PostTaskNamed h t n d)
  | QRemove h n => RemoveTask h n
  | QDel h n => DelTask h n
  | QClean h => CleanFfrt h
  | QSet h => SetFfrt h
  end.

(** [PostTaskNamed] in one equation. *)
Lemma PostTaskNamed_eq h t name d w :
  PostTaskNamed h t name d w =
  match w_handlers w !! h ≫= queue_ with
  | Some q =>
      if UINT64_MAX / CONVERSION_FACTOR <? d then (false, w)
      else
        let w1 := w <| w_trace ::= cons (EvSubmit h q t (u64 (d * CONVERSION_FACTOR))) |> in
        match env_queue_submit (w_trace w) with
        | None => (false, w1)
        | Some th => (true, w1 <| w_handlers ::= alter (λ r, r <| taskMap_ ::= λ m,
                        <[name := default [] (m !! name) ++ [th]]> m |>) h |>)
        end
  | None => (false, w)
  end.
Proof.
  unfold PostTaskNamed. destruct (UINT64_MAX / CONVERSION_FACTOR <? d); [by case_match|].
  unfold ask, emit, getH, mbind, M_bind, gets, modify.
  destruct (w_handlers w !! h) as [hd|]; simpl; [|done]. destruct (queue_ hd); [|done]. 
  cbv beta iota zeta. unfold mret, M_ret. by destruct (env_queue_submit (w_trace w)).
Qed.

Lemma outstanding_updH w h f h' name :
  outstanding (w <| w_handlers ::= alter f h |>) h' name =
  if decide (h = h') then
    match w_handlers w !! h with None => 0%nat | Some hd => length (default [] (taskMap_ (f hd) !! name)) end
  else outstanding w h' name.
Proof.
  unfold outstanding. simpl. case_decide as Hh; [subst; rewrite lookup_alter_eq|by rewrite lookup_alter_ne].
  by destruct (w_handlers w !! h').
Qed.

Lemma RemoveTask_handlers h name w :
  w_handlers (RemoveTask h name w).2 = alter (λ r, r <| taskMap_ ::= delete name |>) h (w_handlers w).
Proof.
  unfold RemoveTask, getH, gets, mbind, M_bind. simpl.
  destruct (w_handlers w !! h) as [hd|] eqn:Hh; simpl; [|rewrite alter_id; [done|congruence]].
  destruct (taskMap_ hd !! name) as [l|] eqn:Hl; simpl.
  - assert (Hloop : respects (same w_handlers) (forM l (λ th, emit (EvCancel th)))) by solve_respects.
    specialize (Hloop w). destruct (forM l _ w) as [u w1] eqn:Hf. simpl in *. by rewrite <- Hloop.
  - symmetry. apply alter_id. intros hd' Hhd'. rewrite Hh in Hhd'. injection Hhd' as <-.
    destruct hd as [q m]. cbn in *. unfold set_with. cbn. by rewrite delete_id.
Qed.

Lemma DelTask_handlers h name w :
  w_handlers (DelTask h name w).2 =
  alter (λ r, r <| taskMap_ ::= λ m, match tail (default [] (m !! name)) with
                                     | [] => delete name m | l => <[name := l]> m end |>) h (w_handlers w).
Proof.
  unfold DelTask, getH, gets, mbind, M_bind. simpl.
  destruct (w_handlers w !! h) as [hd|] eqn:Hh; simpl; [|rewrite alter_id; [done|congruence]].
  assert (Hext : ∀ f g : FFRTHandler → FFRTHandler, f hd = g hd → alter f h (w_handlers w) = alter g h (w_handlers w)).
  { intros f g Hfg. apply map_eq. intros h'. destruct (decide (h = h')) as [<-|]; [|by rewrite !lookup_alter_ne].
    rewrite !lookup_alter_eq, Hh. simpl. by rewrite Hfg. }
  destruct (taskMap_ hd !! name) as [l|] eqn:Hl; simpl.
  - destruct (tail l) as [|x l'] eqn:Ht; simpl; apply Hext; unfold set_with; simpl; by rewrite Hl; simpl; rewrite Ht.
  - symmetry. apply alter_id. intros hd' Hhd'. rewrite Hh in Hhd'. injection Hhd' as <-.
    destruct hd as [q m]. cbn in *. unfold set_with. cbn. rewrite Hl. simpl. by rewrite delete_id.
Qed.
End queue.

Section theorems.
Context `{E : Env}.

(** The task map refines a counter per queue and name: [HasInnerEvent] tells
    whether the counter is positive, an accepted [PostTask] increments it,
    [DelTask] (a task starts to run) decrements it, [RemoveTask] clears it, and
    none of them touches another name or queue. *)
Theorem named_tasks_counted h name w :
  handlers_ok w →
  HasInnerEvent h name w = (bool_decide (0 < outstanding w h name)%nat, w) ∧
  (∀ t d w', PostTaskNamed h t name d w = (true, w') → ∀ h' n', outstanding w' h' n' =
     if decide (h' = h ∧ n' = name) then S (outstanding w h name) else outstanding w h' n') ∧
  (∀ h' n', outstanding (DelTask h name w).2 h' n' =
     if decide (h' = h ∧ n' = name) then pred (outstanding w h name) else outstanding w h' n') ∧
  (∀ h' n', outstanding (RemoveTask h name w).2 h' n' =
     if decide (h' = h ∧ n' = name) then 0%nat else outstanding w h' n').
Proof.
  intros Hok. split; [|split; [|split]].
  - unfold HasInnerEvent, getH, gets, mbind, M_bind, mret, M_ret, outstanding. f_equal. apply bool_decide_ext.
    destruct (w_handlers w !! h) as [hd|] eqn:Hh; simpl; [|split; [by intros [? [=]]|lia]].
    destruct (taskMap_ hd !! name) as [l|] eqn:Hl; simpl; [|split; [by intros [? [=]]|lia]].
    pose proof (Hok _ _ _ _ Hh Hl). destruct l; simpl; [done|]. split; [lia|by eexists].
  - intros t d w'. rewrite PostTaskNamed_eq. destruct (w_handlers w !! h) as [hd|] eqn:Hh; simpl; [|done].
    destruct (queue_ hd) as [q|]; [|done]. destruct (_ <? d); [done|]. destruct (env_queue_submit _) as [th|]; [|done].
    intros [= <-] h' n'. rewrite outstanding_updH. simpl. rewrite Hh. unfold outstanding. simpl.
    destruct (decide (h = h')) as [<-|Hne]; [|rewrite decide_False by naive_solver; done]. rewrite Hh. simpl.
    destruct (decide (name = n')) as [<-|Hn].
    + rewrite decide_True, lookup_insert_eq by done. simpl. rewrite length_app. simpl. lia.
    + rewrite decide_False, lookup_insert_ne by naive_solver. done.
  - intros h' n'. unfold outstanding. rewrite DelTask_handlers. destruct (decide (h = h')) as [<-|Hne].
    + rewrite lookup_alter_eq. destruct (w_handlers w !! h) as [hd|] eqn:Hh; simpl; [|by case_decide].
      destruct (decide (n' = name)) as [->|Hn].
      * rewrite decide_True by done. destruct (default [] (taskMap_ hd !! name)) as [|x [|y l]]; simpl;
          [by rewrite lookup_delete_eq..|by rewrite lookup_insert_eq].
      * rewrite decide_False by naive_solver. case_match; [by rewrite lookup_delete_ne|by rewrite lookup_insert_ne].
    + rewrite lookup_alter_ne, decide_False by naive_solver. done.
  - intros h' n'. unfold outstanding. rewrite RemoveTask_handlers. destruct (decide (h = h')) as [<-|Hne].
    + rewrite lookup_alter_eq. destruct (w_handlers w !! h) as [hd|] eqn:Hh; simpl; [|by case_decide].
      destruct (decide (n' = name)) as [->|Hn].
      * rewrite decide_True, lookup_delete_eq by done. done.
      * rewrite decide_False, lookup_delete_ne by naive_solver. done.
    + rewrite lookup_alter_ne, decide_False by naive_solver. done.
Qed.

(** A submitted delay is the delay in milliseconds times 1000, exactly: when the
    product does not fit into 64 bits the task is refused and nothing happens. *)
Theorem delay_exact h q t name d w :
  0 ≤ d → w_handlers w !! h ≫= queue_ = Some q →
  if decide (d * CONVERSION_FACTOR ≤ UINT64_MAX)
  then w_trace (PostTaskNamed h t name d w).2 = EvSubmit h q t (d * CONVERSION_FACTOR) :: w_trace w
  else PostTaskNamed h t name d w = (false, w).
Proof.
  intros Hd Hq. rewrite PostTaskNamed_eq, Hq. unfold CONVERSION_FACTOR, UINT64_MAX.
  pose proof (Z.div_mod (2 ^ 64 - 1) 1000 ltac:(lia)). pose proof (Z.mod_pos_bound (2 ^ 64 - 1) 1000 ltac:(lia)).
  case_decide as Hle; destruct (Z.ltb_spec ((2 ^ 64 - 1) / 1000) d); [lia| |done|lia].
  unfold u64. rewrite Z.mod_small by lia. by destruct (env_queue_submit (w_trace w)).
Qed.

(** However the queues are created, cleaned, reset, filled and drained, a name
    that is in a task map has an outstanding handle: [DelTask] and [RemoveTask] never
    leave an empty entry behind, so [HasInnerEvent] is never stale. *)
Theorem queues_never_stale ops w :
  w_handlers w = ∅ → handlers_ok (foldl (λ w o, (runQueue o w).2) w ops).
Proof.
  intros Hw. assert (H0 : handlers_ok w) by (intros h hd name q Hl; by rewrite Hw, lookup_empty in Hl).
  clear Hw. revert w H0. induction ops as [|o ops IH]; intros w H0; [done|]. simpl. apply IH.
  assert (Hk : respects keeps_handlers (runQueue o)).
  { destruct o; unfold runQueue, ignore; solve_respects; auto using newFFRTHandler_keeps, PostTask_keeps,
      PostTaskDelay_keeps, PostTaskNamed_keeps, RemoveTask_keeps, DelTask_keeps, CleanFfrt_keeps, SetFfrt_keeps. }
  by apply Hk.
Qed.
End theorems.

Definition queued : World := run (runQueue (QNew workHandler)) (emptyWorld KBaseSystemAbilityManager 0 caller0).

Lemma queued_ok : handlers_ok queued.
Proof.
  intros h hd name q. change (w_handlers queued) with (<[workHandler := MkFFRTHandler (Some 1%positive) ∅]> (∅ : gmap HandlerId FFRTHandler)).
  intros [[_ <-]|[_ H]]%lookup_insert_Some; [done|by rewrite lookup_empty in H].
Qed.

Lemma named_tasks_counted_witness :
  handlers_ok queued ∧ HasInnerEvent workHandler "401" queued = (false, queued).
Proof.
  split; [exact queued_ok|]. exact (proj1 (named_tasks_counted workHandler "401" queued queued_ok)).
Defined.

Lemma delay_exact_witness :
  0 ≤ 4000 ∧ w_trace (PostTaskNamed workHandler (TNotifyRemoved 401) "401" 4000 queued).2 =
  EvSubmit workHandler 1 (TNotifyRemoved 401) 4000000 :: w_trace queued.
Proof.
  split; [lia|]. exact (delay_exact workHandler 1 (TNotifyRemoved 401) "401" 4000 queued ltac:(lia) eq_refl).
Defined.

Lemma queues_never_stale_witness :
  handlers_ok (foldl (λ w o, (runQueue o w).2) (emptyWorld KBaseSystemAbilityManager 0 caller0)
    [QNew workHandler; QPostNamed workHandler (TNotifyRemoved 401) "401" 10; QDel workHandler "401"]).
Proof. apply queues_never_stale. reflexivity. Defined.
