(* ===== verification/SchedulerSpec.v ===== *)
(** What the state machine, the event handler and the counting tests of the
    scheduler do, on every branch. *)
From S2P Require Import Prelude Types World Ffrt Util Contexts Interfaces Hoare ManagerBase StateMachine.
From S2P Require Import EventHandler Scheduler SchedulerQuery SchedulerInv SchedulerProofs SchedulerKeeps.
From S2P Require Import SchedulerBoot Subscribers Manager System Concrete.
From S2P Require Import DBinder DumpStats.

(** State of an SA, list of a process. *)
Definition abilityState (s : Sched) (k : Z) : option SystemAbilityState := a_state <$> abilityContextMap_ s !! k.

Lemma has_state_abilityState s st k : has_state (abilityContextMap_ s) st k = true ↔ abilityState s k = Some st.
Proof.
  unfold has_state, abilityState. destruct (_ !! k) as [a|]; simpl; [|done]. rewrite bool_decide_eq_true. naive_solver.
Qed.

Lemma abilityState_view s s' k : view s' = view s → abilityState s' k = abilityState s k.
Proof.
  intros Hv. apply (f_equal fst), (f_equal (lookup k)) in Hv. simpl in Hv. rewrite !lookup_fmap in Hv.
  unfold abilityState. destruct (abilityContextMap_ s' !! k), (abilityContextMap_ s !! k); simpl in *; try done.
  unfold viewA in Hv. injection Hv as _ -> _ _. done.
Qed.

Lemma abilityState_setState s k pn from to :
  is_Some (abilityContextMap_ s !! k) → abilityState (setState k pn from to s) k = Some to.
Proof. intros [a Ha]. unfold abilityState, setState. simpl. by rewrite lookup_alter_eq, Ha. Qed.

Lemma abilityState_setState_ne s k pn from to k' :
  k ≠ k' → abilityState (setState k pn from to s) k' = abilityState s k'.
Proof. intros Hne. unfold abilityState, setState. simpl. by rewrite lookup_alter_ne. Qed.

(** The state an event of the event handler leads to, if it is accepted. *)
Definition eventTarget (e : AbilityStateEvent) (st : SystemAbilityState) : option SystemAbilityState :=
  match e, st with
  | ABILITY_LOAD_FAILED_EVENT, LOADING => Some NOT_LOADED
  | ABILITY_LOAD_SUCCESS_EVENT, NOT_LOADED => Some LOADED
  | ABILITY_LOAD_SUCCESS_EVENT, LOADING => Some LOADED
  | ABILITY_UNLOAD_SUCCESS_EVENT, NOT_LOADED => None
  | ABILITY_UNLOAD_SUCCESS_EVENT, _ => Some NOT_LOADED
  | _, _ => None
  end.

Section machine.
Context `{E : Env}.
Context (L : option StateListener) (HL : listener_ok L).

(** A transition whose listener only posts tasks, and its effect on the view. *)
Lemma transition_state w k a pn to :
  ctx_inv (w_sched w) → abilityContextMap_ (w_sched w) !! k = Some a → ownProcessContext a = Some pn →
  pn ≠ SAMGR_PROCESS_NAME → to = NOT_LOADED ∨ to = LOADED → CanEnter to (a_state a) = true →
  wp (AbilityStateTransitionLocked L (Some k) to) (λ r w', r = ERR_OK ∧ ctx_inv (w_sched w') ∧
    abilityState (w_sched w') k = Some to ∧ ∀ k', k' ≠ k → abilityState (w_sched w') k' = abilityState (w_sched w) k') w.
Proof.
  intros HI Ha Hown Hpn Hto HC. destruct (ctx_owner _ _ _ HI Ha) as (pn' & p & Hown' & Hp & Hk & _).
  assert (pn' = pn) as -> by congruence.
  assert (Hne : a_state a ≠ to) by (intros E'; rewrite E' in HC; by destruct Hto; subst).
  assert (HS : ctx_inv (setState k pn (a_state a) to (w_sched w))).
  { eapply ctx_inv_setState; eauto; destruct Hto; subst; try done; by intros [|]. }
  unfold wp. rewrite (AbilityStateTransition_eq L w k a pn p to) by done.
  rewrite HC. simpl negb. cbv iota. rewrite decide_False by done.
  rewrite decide_False by done. cbn [fst snd].
  assert (Hm : respects mild (OnEnter L to k)) by (apply OnEnter_mild; [done|by destruct Hto; subst]).
  destruct (Hm (w <| w_sched ::= setState k pn (a_state a) to |>)) as [HI' Hv]; [exact HS|].
  split; [done|]. split; [done|]. split.
  - rewrite (abilityState_view _ _ _ Hv). by apply abilityState_setState.
  - intros k' Hk'. rewrite (abilityState_view _ _ _ Hv). by apply abilityState_setState_ne.
Qed.

(** The same after a pending unload was dropped. *)
Lemma drop_transition_state w k a pn to :
  ctx_inv (w_sched w) → abilityContextMap_ (w_sched w) !! k = Some a → ownProcessContext a = Some pn →
  pn ≠ SAMGR_PROCESS_NAME → to = NOT_LOADED ∨ to = LOADED → CanEnter to (a_state a) = true →
  wp (dropPendingUnload k;; AbilityStateTransitionLocked L (Some k) to) (λ r w', r = ERR_OK ∧ ctx_inv (w_sched w') ∧
    abilityState (w_sched w') k = Some to ∧ ∀ k', k' ≠ k → abilityState (w_sched w') k' = abilityState (w_sched w) k') w.
Proof.
  intros HI Ha Hown Hpn Hto HC. wp_seq. apply wp_mild; [apply dropPendingUnload_mild|done|]. intros _ w1 HI1 Hv.
  assert (∃ a1, abilityContextMap_ (w_sched w1) !! k = Some a1 ∧ viewA a1 = viewA a) as (a1 & Ha1 & Hva).
  { apply (f_equal fst), (f_equal (lookup k)) in Hv. simpl in Hv. rewrite !lookup_fmap, Ha in Hv.
    apply fmap_Some in Hv as (a1 & ? & ?). eauto. }
  unfold viewA in Hva. injection Hva as _ Hst Ho _.
  eapply wp_mono; [apply (transition_state w1 k a1 pn to); congruence|]. cbv beta.
  intros r w' (Hr & HI' & Hk & Hoth). split; [done|]. split; [done|]. split; [done|].
  intros k' Hne. rewrite (Hoth k' Hne). by apply abilityState_view.
Qed.
End machine.

(** ** A process has stopped *)

(** No load request comes to wait, and no process may be restarted that could not be before. *)
Definition calm : relation World := λ w w',
  (∀ k a', abilityContextMap_ (w_sched w') !! k = Some a' → pendingEvent a' = LOAD_ABILITY_EVENT →
     ∃ a, abilityContextMap_ (w_sched w) !! k = Some a ∧ pendingEvent a = LOAD_ABILITY_EVENT) ∧
  (∀ pn p', processContextMap_ (w_sched w') !! pn = Some p' → enableRestart p' = true →
     ∃ p, processContextMap_ (w_sched w) !! pn = Some p ∧ enableRestart p = true).

#[export] Instance calm_preorder : PreOrder calm.
Proof.
  split; [split; eauto|]. intros x y z [H1 H2] [H3 H4]. split; intros k c Hk Hc.
  - destruct (H3 k c Hk Hc) as (b & ? & ?). eauto.
  - destruct (H4 k c Hk Hc) as (b & ? & ?). eauto.
Qed.
#[export] Instance same_sched_calm : subrelation (same w_sched) calm.
Proof. intros w w' H. unfold calm. rewrite <- H. split; eauto. Qed.
#[export] Instance frame_calm : subrelation frame calm.
Proof. intros w w' [H _]. apply same_sched_calm. unfold rest in H. unfold same. congruence. Qed.

Lemma storeA_calm k f :
  (∀ a, pendingEvent (f a) = LOAD_ABILITY_EVENT → pendingEvent a = LOAD_ABILITY_EVENT) → respects calm (storeA k f).
Proof.
  intros Hf w. split; cbn; [|eauto]. intros k' a' Hk Ha. apply lookup_alter_Some in Hk as [(-> & a & Hk & ->)|[_ Hk]]; eauto.
Qed.
Lemma storeP_calm pn f : (∀ p, enableRestart (f p) = true → enableRestart p = true) → respects calm (storeP pn f).
Proof.
  intros Hf w. split; cbn; [eauto|]. intros k' a' Hk Ha. apply lookup_alter_Some in Hk as [(-> & a & Hk & ->)|[_ Hk]]; eauto.
Qed.
Hint Extern 5 (respects calm (storeA _ _)) => (apply storeA_calm; let H := fresh in intros ? H; first [exact H | discriminate H]) : respects.
Hint Extern 5 (respects calm (storeP _ _)) => (apply storeP_calm; let H := fresh in intros ? H; first [exact H | discriminate H]) : respects.

(** The scheduler's callbacks for an SA that leaves. *)
Lemma OnAbilityNotLoaded_calm `{E : Env} {MI : ManagerIface} {ML : ManagerLaws MI} k :
  respects calm (OnAbilityNotLoadedLocked k).
Proof.
  unfold OnAbilityNotLoadedLocked, RemovePendingUnloadEventLocked, dropPendingUnload. solve_respects.
Qed.

Lemma RemovePendingUnload_calm `{E : Env} k : respects calm (RemovePendingUnloadEventLocked k).
Proof. unfold RemovePendingUnloadEventLocked, dropPendingUnload. solve_respects. Qed.
Lemma scheduler_calm `{E : Env} {MI : ManagerIface} {ML : ManagerLaws MI} n to k :
  to = NOT_LOADED ∨ to = LOADING → respects calm (OnEnter (schedulerListener n) to k).
Proof.
  intros [-> | ->]; unfold OnEnter, notify; destruct n; simpl; apply respects_bind; try apply respects_gets; intros c;
    try apply respects_ret; apply OnAbilityNotLoaded_calm.
Qed.

(** Why an SA is loaded again after its process died: a load request waited, or the SA was in use, is
    restarted when it dies, and its process may be restarted.  [m0] and [p0] are the contexts before. *)
Definition waited (m0 : gmap Z SystemAbilityContext) (k : Z) : Prop :=
  ∃ a, m0 !! k = Some a ∧ pendingEvent a = LOAD_ABILITY_EVENT.
Definition restarted (m0 : gmap Z SystemAbilityContext) (p0 : SystemProcessContext) (k : Z) : Prop :=
  enableRestart p0 = true ∧
  ∃ a, m0 !! k = Some a ∧ (a_state a = LOADED ∨ a_state a = LOADING) ∧ isAutoRestart a = true.
Definition reloaded (m0 : gmap Z SystemAbilityContext) (p0 : SystemProcessContext) (k : Z) : Prop :=
  waited m0 k ∨ restarted m0 p0 k.

Definition at_rest (m0 : gmap Z SystemAbilityContext) (p0 : SystemProcessContext) (s : Sched) (k : Z) : Prop :=
  abilityState s k = Some NOT_LOADED ∨ abilityState s k = Some LOADING ∧ reloaded m0 p0 k.

(** The process is not running, and the SAs [ks] of its list are at rest. *)
Record stopped (m0 : gmap Z SystemAbilityContext) (p0 : SystemProcessContext) (pn : u16string) (ks : list Z)
    (s : Sched) : Prop := {
  st_inv : ctx_inv s;
  st_process : ∃ p, processContextMap_ s !! pn = Some p ∧ saList p = saList p0 ∧ p_state p = NOT_STARTED ∧
                    (enableRestart p = true → enableRestart p0 = true);
  st_waited k a : abilityContextMap_ s !! k = Some a → pendingEvent a = LOAD_ABILITY_EVENT → waited m0 k;
  st_rest k : k ∈ ks → at_rest m0 p0 s k;
}.

Lemma stopped_view m0 p0 pn ks w w' :
  ctx_inv (w_sched w') → view (w_sched w') = view (w_sched w) → calm w w' →
  stopped m0 p0 pn ks (w_sched w) → stopped m0 p0 pn ks (w_sched w').
Proof.
  intros HI Hv [Hc1 Hc2] [_ (p & Hp & Hl & Hst & He) Hw Hr]. split; [done| | |].
  - pose proof (f_equal snd Hv) as Hv'. apply (f_equal (lookup pn)) in Hv'. simpl in Hv'. rewrite !lookup_fmap, Hp in Hv'.
    apply fmap_Some in Hv' as (p' & Hp' & E). unfold viewP in E. injection E as _ E1 E2. exists p'.
    split_and!; [done|congruence..|]. intros He'. destruct (Hc2 pn p' Hp' He') as (p1 & Hp1 & ?). apply He. congruence.
  - intros k a Ha Hpe. destruct (Hc1 k a Ha Hpe) as (a0 & ? & ?). eauto.
  - intros k Hk. unfold at_rest. rewrite !(abilityState_view _ _ _ Hv). by apply Hr.
Qed.

Lemma stopped_setState m0 p0 pn ks s k pn' from to :
  ctx_inv (setState k pn' from to s) → is_Some (abilityContextMap_ s !! k) →
  to = NOT_LOADED ∨ to = LOADING ∧ reloaded m0 p0 k →
  stopped m0 p0 pn ks s → stopped m0 p0 pn (k :: ks) (setState k pn' from to s).
Proof.
  intros HI Hk Hto [_ (p & Hp & Hl & Hst & He) Hw Hr]. split; [done| | |].
  - unfold setState, setA, setP. simpl. destruct (decide (pn' = pn)) as [->|Hne].
    + eexists. rewrite lookup_alter_eq, Hp. by split_and!.
    + exists p. by rewrite lookup_alter_ne.
  - unfold setState, setA, setP. simpl. intros k' a Ha Hpe.
    apply lookup_alter_Some in Ha as [(-> & a0 & Ha & ->)|[_ Ha]]; eauto.
  - intros k' Hk'. unfold at_rest. destruct (decide (k = k')) as [<-|Hne].
    + rewrite abilityState_setState by done. destruct Hto as [->|[-> ?]]; auto.
    + rewrite abilityState_setState_ne by done. apply Hr. set_solver.
Qed.

Section stop.
Context `{E : Env} {MI : ManagerIface} {ML : ManagerLaws MI}.
Context (L : option StateListener) (HL : listener_ok L).
Context (Hcalm : ∀ to k, to = NOT_LOADED ∨ to = LOADING → respects calm (OnEnter L to k)).
Context (m0 : gmap Z SystemAbilityContext) (p0 : SystemProcessContext) (pn : u16string).
Abbreviation l := (saList p0).
Abbreviation stopped := (stopped m0 p0 pn).

Lemma wp_mild_stopped {A} ks (m : M A) w :
  respects mild m → respects calm m → stopped ks (w_sched w) → wp m (λ _ w', stopped ks (w_sched w')) w.
Proof.
  intros Hm Hc Hs. destruct (Hm w (st_inv _ _ _ _ _ Hs)) as [HI Hv]. eapply stopped_view; [exact HI|exact Hv|apply Hc|exact Hs].
Qed.

(** A member of the list. *)
Lemma stopped_member ks s k : stopped ks s → k ∈ l → ∃ a p,
  abilityContextMap_ s !! k = Some a ∧ ownProcessContext a = Some pn ∧
  processContextMap_ s !! pn = Some p ∧ saList p = l ∧ p_state p = NOT_STARTED.
Proof.
  intros [HI (p & Hp & Hl & Hst & _) _ _] Hk. rewrite <- Hl in Hk.
  destruct (pk_sas _ _ _ (ci_process _ HI _ _ Hp) k Hk) as (a & Ha & Hown). exists a, p. done.
Qed.

(** A transition to NOT_LOADED, or from NOT_LOADED to LOADING. *)
Lemma transition_stopped ks w k to :
  stopped ks (w_sched w) → k ∈ l → to = NOT_LOADED ∨ to = LOADING ∧ k ∈ ks ∧ reloaded m0 p0 k →
  wp (AbilityStateTransitionLocked L (Some k) to) (λ _ w', stopped (k :: ks) (w_sched w')) w.
Proof.
  intros Hs Hk Hto. destruct (stopped_member _ _ _ Hs Hk) as (a & p & Ha & Hown & Hp & Hl & Hst).
  pose proof (st_inv _ _ _ _ _ Hs) as HI.
  assert (Hk' : to = NOT_LOADED ∨ to = LOADING) by naive_solver.
  assert (Hkeep : at_rest m0 p0 (w_sched w) k → stopped (k :: ks) (w_sched w)).
  { intros Hr. destruct Hs as [H1 H2 H3 H4]. split; [done..|]. intros k' [->|Hk0]%elem_of_cons; auto. }
  assert (Hold : abilityState (w_sched w) k = Some (a_state a)) by (unfold abilityState; by rewrite Ha).
  unfold wp. rewrite (AbilityStateTransition_eq L w k a pn p to) by done.
  destruct (decide (a_state a = to)) as [Heq|Hne].
  { apply Hkeep. unfold at_rest. destruct Hto as [->|(-> & Hin & _)]; [left; congruence|by apply Hs]. }
  destruct (negb (CanEnter to (a_state a))) eqn:HC.
  { apply Hkeep. destruct Hto as [->|(-> & Hin & _)]; [|by apply Hs].
    unfold CanEnter in HC. apply negb_true_iff, negb_false_iff, bool_decide_eq_true in HC. congruence. }
  destruct (decide (pn = SAMGR_PROCESS_NAME)) as [Hsam|Hsam].
  { apply Hkeep. left. apply has_state_abilityState.
    pose proof (pk_counts _ _ _ (ci_process _ HI _ _ Hp)) as Hc. unfold counts_ok in Hc.
    rewrite decide_True in Hc by done. apply Hc. congruence. }
  cbn [fst snd]. assert (HS : ctx_inv (setState k pn (a_state a) to (w_sched w))).
  { eapply ctx_inv_setState; eauto; [|congruence]. by destruct Hk'; subst; intros [|]. }
  assert (Hm : respects mild (OnEnter L to k)) by (apply OnEnter_mild; [done|by destruct Hk'; subst]).
  apply (wp_mild_stopped (k :: ks) (OnEnter L to k)); [done|by apply Hcalm|].
  apply stopped_setState; [done|by eexists| |done]. destruct Hto as [->|(-> & _ & ?)]; auto.
Qed.

Lemma stopped_weaken ks ks' s : (∀ k, k ∈ ks' → k ∈ ks) → stopped ks s → stopped ks' s.
Proof. intros H [H1 H2 H3 H4]. split; eauto. Qed.

(** A load request of an SA that is at rest, in a process that is not running. *)
Lemma HandleLoad_stopped ks w k r :
  stopped ks (w_sched w) → k ∈ l → k ∈ ks → reloaded m0 p0 k →
  wp (HandleLoadAbilityEventLocked L k r) (λ _ w', stopped ks (w_sched w')) w.
Proof.
  intros Hs Hk Hks Hwhy. destruct (stopped_member _ _ _ Hs Hk) as (a & p & Ha & Hown & Hp & Hl & Hst).
  assert (Hr : a_state a = NOT_LOADED ∨ a_state a = LOADING).
  { pose proof (st_rest _ _ _ _ _ Hs k Hks) as H. unfold at_rest, abilityState in H. rewrite Ha in H. simpl in H. naive_solver. }
  assert (HDo : ∀ w, stopped ks (w_sched w) → wp (DoLoadSystemAbilityLocked L k r) (λ _ w', stopped ks (w_sched w')) w).
  { clear w Hs a p Ha Hown Hp Hl Hst Hr. intros w Hs. unfold DoLoadSystemAbilityLocked. wp_steps; try done; wp_frame; wp_steps; try done;
      (eapply wp_mono; [by apply (transition_stopped ks); [done|done|right; split_and!]|]; cbv beta; intros _ w'; apply stopped_weaken;
       intros; by right). }
  unfold HandleLoadAbilityEventLocked. wp_seq. rewrite Ha. simpl. rewrite Hown. simpl. rewrite Hp. simpl. rewrite Hst.
  destruct Hr as [Hr|Hr]; rewrite Hr; cbn [bool_decide orb]; simpl.
  - wp_seq. by apply HDo.
  - wp_seq. eapply wp_mono; [apply wp_mild_stopped; [apply RemovePendingUnload_mild|apply RemovePendingUnload_calm|exact Hs]|]. cbv beta. intros x w' Hs'.
    wp_case; [by apply HDo|done].
Qed.

Lemma HandlePending_stopped ks w k :
  stopped ks (w_sched w) → k ∈ l → k ∈ ks →
  wp (HandlePendingLoadEventLocked L k) (λ _ w', stopped ks (w_sched w')) w.
Proof.
  intros Hs Hk Hks. destruct (stopped_member _ _ _ Hs Hk) as (a & _ & Ha & _). unfold HandlePendingLoadEventLocked. wp_seq.
  rewrite Ha. simpl default. destruct (bool_decide (pendingEvent a = LOAD_ABILITY_EVENT)) eqn:Hpe; cbn [negb]; [|done].
  apply bool_decide_eq_true in Hpe. assert (Hwhy : reloaded m0 p0 k) by (left; by eapply (st_waited _ _ _ _ _ Hs)). wp_seq.
  set (w1 := w <| w_sched ::= _ |>).
  assert (Hs1 : stopped ks (w_sched w1)).
  { apply (wp_mild_stopped ks (storeA k (λ a, a <| pendingEvent := NO_EVENT |>))); [apply setPendingEvent_keeps|auto with respects|done]. }
  clearbody w1. eapply wp_mono.
  { apply (wp_forM (λ w, stopped ks (w_sched w))); [exact Hs1|]. intros r w2 _ Hs2. wp_seq.
    eapply wp_mono; [by apply HandleLoad_stopped|]. by intros. }
  cbv beta. intros _ w2 Hs2. wp_seq.
  apply (wp_mild_stopped ks (storeA k (λ a, a <| pendingLoadEventList := [] |> <| pendingLoadEventCountMap := ∅ |>)));
    [apply clearPending_keeps|auto with respects|done].
Qed.

(** The loop over the SAs brings each to rest. *)
Lemma reset_stopped ks w todo :
  stopped ks (w_sched w) → (∀ k, k ∈ todo → k ∈ l) →
  wp (resetAbilities L todo) (λ _ w', stopped (todo ++ ks) (w_sched w')) w.
Proof.
  revert ks w. induction todo as [|k todo IH]; intros ks w Hs Hsub; [done|]. unfold resetAbilities. simpl forM. wp_seq.
  destruct (stopped_member _ _ _ Hs (Hsub k ltac:(set_solver))) as (a & p & Ha & _).
  apply wp_GetSystemAbilityContext; [apply Hs| |congruence]. intros _ _. wp_seq.
  eapply wp_mono; [apply transition_stopped; [exact Hs|set_solver|by left]|]. cbv beta. intros r w1 Hs1.
  assert (Hrest : ∀ w, stopped (k :: ks) (w_sched w) →
    wp (resetAbilities L todo) (λ _ w', stopped ((k :: todo) ++ ks) (w_sched w')) w).
  { intros w2 Hs2. eapply wp_mono; [apply IH; [exact Hs2|set_solver]|]. cbv beta. intros _ w3.
    apply stopped_weaken. set_solver. }
  apply wp_when; intros _; [|by apply Hrest]. wp_seq.
  eapply wp_mono; [apply HandlePending_stopped; [exact Hs1|set_solver..]|]. cbv beta. intros _ w2 Hs2. by apply Hrest.
Qed.

Lemma CanRestart_stopped ks w :
  stopped ks (w_sched w) →
  wp (CanRestartProcessLocked pn) (λ b w', (b = true → enableRestart p0 = true) ∧ stopped ks (w_sched w')) w.
Proof.
  intros Hs. destruct (st_process _ _ _ _ _ Hs) as (p & Hp & _ & _ & He). unfold CanRestartProcessLocked.
  destruct (enableRestart p) eqn:Hr.
  - eapply wp_mono; [apply wp_mild_stopped; [apply CanRestart_mild| |exact Hs]; unfold CanRestartProcessLocked; solve_respects|].
    cbv beta. auto.
  - wp_seq. rewrite Hp. simpl default. rewrite Hr. cbn [negb]. by apply wp_ret.
Qed.

(** Restarting the SAs that died. *)
Lemma HandleDied_stopped ks w died :
  stopped ks (w_sched w) → (∀ k, k ∈ died → k ∈ l ∧ k ∈ ks ∧ (enableRestart p0 = true → reloaded m0 p0 k)) →
  wp (HandleAbnormallyDiedAbilityLocked L pn died) (λ _ w', stopped ks (w_sched w')) w.
Proof.
  intros Hs Hd. unfold HandleAbnormallyDiedAbilityLocked. destruct died as [|k0 died']; [done|].
  set (died := k0 :: died') in *. wp_seq.
  eapply wp_mono; [by apply CanRestart_stopped|]. cbv beta. intros b w1 [Hb Hs1]. destruct b; cbn [negb]; [|done].
  specialize (Hb eq_refl).
  wp_seq. apply (wp_same w_sched); [solve_respects|]. cbv beta. intros cb w2 H2. rewrite <- H2 in Hs1.
  wp_seq. eapply wp_mono; [|intros ? ? H; exact H].
  apply (wp_forM (λ w, stopped ks (w_sched w))); [exact Hs1|]. intros k w3 Hk Hs3. destruct (Hd k Hk) as (Hkl & Hkk & Hkr).
  wp_seq. apply (wp_same w_sched); [solve_respects|]. cbv beta. intros _ w4 H4. wp_seq. rewrite <- H4 in Hs3.
  eapply wp_mono; [by apply HandleLoad_stopped; auto|]. by intros.
Qed.

(** The process is not running and no SA has been reset. *)
Definition halted (w : World) : Prop := stopped [] (w_sched w) ∧ abilityContextMap_ (w_sched w) = m0.

(** [GetAbnormallyDiedAbilityLocked] lists SAs of the process that were in use and are to be restarted. *)
Lemma GetDied_stopped w :
  halted w →
  wp (GetAbnormallyDiedAbilityLocked pn) (λ died w', halted w' ∧
    ∀ k, k ∈ died → k ∈ l ∧ (enableRestart p0 = true → reloaded m0 p0 k)) w.
Proof.
  intros Hs. unfold GetAbnormallyDiedAbilityLocked. wp_seq. destruct (st_process _ _ _ _ _ (proj1 Hs)) as (p & Hp & Hl & _).
  rewrite Hp. simpl default. rewrite Hl. set (Q := λ k, k ∈ l ∧ (enableRestart p0 = true → reloaded m0 p0 k)).
  apply (wp_foldM_acc (λ died w, halted w ∧ ∀ k, k ∈ died → Q k)); [split; [done|set_solver]|].
  intros acc k w1 Hk [Hs1 Hacc]. wp_seq.
  apply wp_GetSystemAbilityContext; [apply Hs1| |by intros _; wp_seq]. intros a Ha. wp_seq. rewrite Ha. simpl default.
  destruct (negb (bool_decide (a_state a = LOADED)) && negb (bool_decide (a_state a = LOADING))) eqn:Huse; [by wp_seq|].
  assert (Hin : a_state a = LOADED ∨ a_state a = LOADING) by (destruct (a_state a); auto; discriminate Huse).
  rewrite (proj2 Hs1) in Ha. unfold halted in Hs1 |- *. wp_seq.
  apply (wp_same w_sched); [solve_respects|]. cbv beta. intros _ w2 H2. rewrite <- H2 in Hs1. clear H2.
  wp_seq. apply (wp_same w_sched); [solve_respects|]. cbv beta. intros _ w3 H3. rewrite <- H3 in Hs1. clear H3.
  destruct (isAutoRestart a) eqn:Hr; cbn [negb]; [|by wp_seq].
  wp_steps; try done. split; [done|]. intros k' [Hk'|Hk']%elem_of_app; [by apply Hacc|].
  apply list_elem_of_singleton in Hk' as ->. split; [done|]. intros He. right. split; [done|]. by exists a.
Qed.

(** The listener's callback for a process that is no longer running. *)
Lemma OnNotStarted_stopped w : halted w → wp (OnProcessNotStartedLocked L pn) (λ _ w', stopped l (w_sched w')) w.
Proof.
  intros Hs. unfold OnProcessNotStartedLocked. wp_seq. destruct (st_process _ _ _ _ _ (proj1 Hs)) as (p & Hp & Hl & _).
  apply wp_GetSystemProcessContext; [|congruence]. intros _ _. wp_seq. unfold NotifyProcessStopped. unfold halted in Hs.
  do 2 (apply (wp_same w_sched); [solve_respects|]; cbv beta; intros _ ? Hsame; rewrite <- Hsame in Hs, Hp; clear Hsame; wp_seq).
  apply (wp_same w_sched); [solve_respects|]. cbv beta. intros _ w3 Hsame. rewrite <- Hsame in Hs. wp_seq.
  eapply wp_mono; [by apply GetDied_stopped|]. cbv beta. intros died w4 [[Hs4 _] Hdied]. wp_seq.
  destruct (st_process _ _ _ _ _ Hs4) as (p4 & Hp4 & Hl4 & _). rewrite Hp4. simpl default. rewrite Hl4.
  eapply wp_mono; [apply reset_stopped; [exact Hs4|done]|]. cbv beta. intros _ w5 Hs5. rewrite app_nil_r in Hs5. wp_seq.
  eapply wp_mono; [apply HandleDied_stopped; [exact Hs5|]|by intros].
  intros k Hk. by destruct (Hdied k Hk).
Qed.

(** Entering NOT_STARTED, with the scheduler as the machine's listener. *)
Lemma enter_stopped w :
  ctx_inv (w_sched w) → abilityContextMap_ (w_sched w) = m0 → processContextMap_ (w_sched w) !! pn = Some p0 →
  p_state p0 ≠ NOT_STARTED →
  wp (ProcessStateTransitionLocked (Some (asListener L)) (Some pn) NOT_STARTED)
    (λ r w', r = ERR_OK ∧ stopped l (w_sched w')) w.
Proof.
  intros HI Hm Hp Hst. unfold ProcessStateTransitionLocked. wp_seq. rewrite Hp. simpl default.
  rewrite bool_decide_eq_false_2 by done. unfold CanEnterProcess. rewrite bool_decide_eq_false_2 by done. cbn [negb].
  wp_seq. set (w1 := w <| w_sched ::= _ |>).
  assert (Hs1 : halted w1).
  { split; [|done]. split; [by apply (ctx_inv_setProcess (w_sched w) pn NOT_STARTED)| | |set_solver].
    - exists (p0 <| p_state := NOT_STARTED |>). unfold w1. simpl. by rewrite lookup_alter_eq, Hp.
    - intros k a Ha Hpe. exists a. by rewrite <- Hm. }
  clearbody w1. unfold OnEnterProcess, notify. wp_seq. unfold halted in Hs1.
  apply (wp_same w_sched); [solve_respects|]. cbv beta. intros t w2 H2. rewrite <- H2 in Hs1. clear H2 w1. wp_seq.
  set (w3 := w2 <| w_sched ::= _ |>).
  assert (Hs3 : halted w3).
  { split; [|apply Hs1].
    apply (wp_mild_stopped [] (storeP pn (λ p, p <| lastStopTime := t |> <| pendingLoadFirstTimestamp := 0 |>)));
      [by apply storeP_mild|auto with respects|apply Hs1]. }
  clearbody w3. destruct (st_process _ _ _ _ _ (proj1 Hs3)) as (p3 & Hp3 & _). rewrite Hp3. simpl default.
  rewrite (pk_name _ _ _ (ci_process _ (st_inv _ _ _ _ _ (proj1 Hs3)) _ _ Hp3)).
  eapply wp_mono; [exact (OnNotStarted_stopped w3 Hs3)|]. cbv beta. intros _ w4 Hs4. by wp_seq.
Qed.
End stop.

Section theorems.
Context `{E : Env}.

Lemma can_unload_decides w pn p :
  ctx_inv (w_sched w) → processContextMap_ (w_sched w) !! pn = Some p → pn ≠ SAMGR_PROCESS_NAME →
  ∃ b, CanUnloadAllSystemAbilityLocked pn false w = (b, w) ∧
       (b = true ↔ (∃ k, k ∈ saList p ∧ (abilityState (w_sched w) k = Some UNLOADABLE
                                          ∨ abilityState (w_sched w) k = Some UNLOADING)) ∧
                   ∀ k, k ∈ saList p → abilityState (w_sched w) k ≠ Some LOADING
                                      ∧ abilityState (w_sched w) k ≠ Some LOADED).
Proof.
  intros HI Hp Hpn. exists (can_unload (w_sched w) pn). split; [rewrite CanUnloadAll_eq by done; by case_match|].
  unfold can_unload. rewrite Hp, bool_decide_eq_false_2 by done. simpl.
  rewrite andb_true_iff, existsb_exists, forallb_forall. setoid_rewrite <- list_elem_of_In.
  setoid_rewrite orb_true_iff. setoid_rewrite orb_true_iff. setoid_rewrite has_state_abilityState.
  apply and_iff_compat_l. split; intros H k Hk; specialize (H k Hk).
  - destruct H as [H|[H|H]]; rewrite H; done.
  - destruct (pk_sas _ _ _ (ci_process _ HI _ _ Hp) k Hk) as (a & Ha & _). unfold abilityState in *. rewrite Ha in *.
    destruct H as [H1 H2]. simpl in *. destruct (a_state a); naive_solver.
Qed.

(** C14: The state machine on every branch, for an SA with a context in a state that
    satisfies the invariant: staying put is a success without effect; a state that
    cannot be entered from the current one is refused without effect; otherwise the
    counters of the owning process move with the state, the state is set and the
    listener is told.  The counter update cannot fail, except for the entry of samgr
    itself, which is not counted. *)
Theorem transition_spec L w k a pn to :
  ctx_inv (w_sched w) → abilityContextMap_ (w_sched w) !! k = Some a → ownProcessContext a = Some pn →
  AbilityStateTransitionLocked L (Some k) to w =
  if decide (a_state a = to) then (ERR_OK, w)
  else if negb (CanEnter to (a_state a)) then (TRANSIT_SA_STATE_FAIL, w)
  else if decide (pn = SAMGR_PROCESS_NAME) then (UPDATE_STATE_COUNT_FAIL, w)
  else (ERR_OK, (OnEnter L to k (w <| w_sched ::= setState k pn (a_state a) to |>)).2).
Proof.
  intros HI Ha Hown. destruct (ctx_owner _ _ _ HI Ha) as (pn' & p & Hown' & Hp & _).
  apply (AbilityStateTransition_eq L w k a pn p to); congruence.
Qed.

(** [CanKillSystemProcess] reads a counter, and what it decides is that every SA
    of the process is NOT_LOADED; it changes nothing. *)
Theorem can_kill_iff w pn p :
  ctx_inv (w_sched w) → processContextMap_ (w_sched w) !! pn = Some p → pn ≠ SAMGR_PROCESS_NAME →
  ∃ b, CanKillSystemProcess pn w = (b, w) ∧
       (b = true ↔ ∀ k, k ∈ saList p → abilityState (w_sched w) k = Some NOT_LOADED).
Proof.
  intros HI Hp Hpn. exists (can_kill (w_sched w) pn). split; [by apply CanKill_eq|].
  unfold can_kill. rewrite Hp, bool_decide_eq_false_2 by done. simpl.
  rewrite forallb_forall. setoid_rewrite <- list_elem_of_In. by setoid_rewrite has_state_abilityState.
Qed.

(** Some SA of the process is being unloaded, and none is loading or in use. *)
Definition processIdle (s : Sched) (p : SystemProcessContext) : Prop :=
  (∃ k, k ∈ saList p ∧ (abilityState s k = Some UNLOADABLE ∨ abilityState s k = Some UNLOADING)) ∧
  ∀ k, k ∈ saList p → abilityState s k ≠ Some LOADING ∧ abilityState s k ≠ Some LOADED.

(** The manager lives, and some SA of the process has no profile or one that recycles it at once. *)
Definition recycledAtOnce (w : World) (p : SystemProcessContext) : Prop :=
  selfPtr_ (w_mgr w) = true ∧
  ∃ k, k ∈ saList p ∧ ∀ c, saProfileMap_ (w_mgr w) !! k = Some c → c_recycleStrategy c = 0.

Lemma recycle_decides w pn p :
  processContextMap_ (w_sched w) !! pn = Some p →
  ∃ b, CheckProcessImmediatelyRecycle pn w = (b, w) ∧ (b = true ↔ recycledAtOnce w p).
Proof.
  intros Hp. unfold CheckProcessImmediatelyRecycle, lockManager, derefP, getM, gets, mbind, M_bind.
  unfold recycledAtOnce. destruct (selfPtr_ (w_mgr w)); cbn [negb]; [|exists false; naive_solver].
  rewrite Hp. simpl default.
  assert (H : ∀ l b, ∃ b', foldM l b (λ (found : bool) said, if found then mret true else CheckSaIsImmediatelyRecycle said) w = (b', w)
    ∧ (b' = true ↔ b = true ∨ ∃ k, k ∈ l ∧ ∀ c, saProfileMap_ (w_mgr w) !! k = Some c → c_recycleStrategy c = 0)).
  { induction l as [|k l IH]; intros b; [exists b; set_solver|]. cbn [foldM]. unfold mbind, M_bind.
    destruct b; cbn; [destruct (IH true) as (b' & Hb & Hiff); exists b'; split; [exact Hb|]; rewrite Hiff; by split; auto|].
    destruct (IH (match saProfileMap_ (w_mgr w) !! k with Some p => c_recycleStrategy p =? IMMEDIATELY | None => true end))
      as (b' & Hb & Hiff). exists b'. split; [exact Hb|]. rewrite Hiff. setoid_rewrite elem_of_cons.
    destruct (saProfileMap_ (w_mgr w) !! k) as [c|] eqn:Hc; [rewrite Z.eqb_eq; unfold IMMEDIATELY|]; naive_solver. }
  destruct (H (saList p) false) as (b & Hb & Hiff). exists b. split; [exact Hb|]. rewrite Hiff. naive_solver.
Qed.

(** C27: [CanUnloadAllSystemAbility] adds three counters and asks for the recycle strategy, and what it
    decides is that the process is not samgr itself, some SA of it is being unloaded, none is
    loading or in use, the manager lives, and some SA of the process has no profile or one with the
    strategy to recycle at once (0); the 32-bit additions do not wrap, and nothing changes.
    [TryUnloadAllSystemAbility] unloads the process exactly then, and is otherwise a success without effect. *)
Theorem can_unload_all_iff w pn p :
  ctx_inv (w_sched w) → processContextMap_ (w_sched w) !! pn = Some p →
  ∃ b, CanUnloadAllSystemAbility pn w = (b, w) ∧
       (b = true ↔ pn ≠ SAMGR_PROCESS_NAME ∧ processIdle (w_sched w) p ∧ recycledAtOnce w p) ∧
       TryUnloadAllSystemAbility Lsched (Some pn) w =
       if b then UnloadAllSystemAbilityLocked Lsched pn w else (ERR_OK, w).
Proof.
  intros HI Hp. destruct (recycle_decides w pn p Hp) as (r & Hr & Hrec).
  set (b := can_unload (w_sched w) pn && r).
  assert (Hb : CanUnloadAllSystemAbilityLocked pn true w = (b, w)).
  { rewrite CanUnloadAll_eq by done. unfold b. destruct (can_unload _ _); [by rewrite Hr|done]. }
  exists b. split_and!; [exact Hb| |].
  - destruct (decide (pn = SAMGR_PROCESS_NAME)) as [Hs|Hs].
    { unfold b, can_unload. rewrite Hp, bool_decide_eq_true_2 by done. cbn. naive_solver. }
    destruct (can_unload_decides w pn p HI Hp Hs) as (b0 & Hb0 & Hiff). rewrite CanUnloadAll_eq in Hb0 by done.
    assert (can_unload (w_sched w) pn = b0) as Heq by (destruct (can_unload _ _); by injection Hb0).
    unfold b. rewrite Heq, andb_true_iff, Hrec, Hiff. unfold processIdle. tauto.
  - unfold TryUnloadAllSystemAbility, mbind, M_bind. rewrite Hb. by destruct b.
Qed.

(** C25: What an event does to an SA of an ordinary process: an event the SA's state
    accepts succeeds and moves that SA, and only that SA, to the target state; any
    other event is refused and nothing changes. *)
Theorem ability_event_spec w k a pn e :
  ctx_inv (w_sched w) → abilityContextMap_ (w_sched w) !! k = Some a → ownProcessContext a = Some pn →
  pn ≠ SAMGR_PROCESS_NAME →
  match eventTarget e (a_state a) with
  | None => HandleAbilityEventLocked Lsched (Some k) e w = (ERR_INVALID_VALUE, w)
  | Some to =>
      let '(r, w') := HandleAbilityEventLocked Lsched (Some k) e w in
      r = ERR_OK ∧ ctx_inv (w_sched w') ∧ abilityState (w_sched w') k = Some to ∧
      ∀ k', k' ≠ k → abilityState (w_sched w') k' = abilityState (w_sched w) k'
  end.
Proof.
  intros HI Ha Hown Hpn.
  assert (HA : derefA k w = (a, w)) by (unfold derefA, gets; by rewrite Ha).
  set (Post := λ to (r : Z) w', r = ERR_OK ∧ ctx_inv (w_sched w') ∧ abilityState (w_sched w') k = Some to ∧
         ∀ k', k' ≠ k → abilityState (w_sched w') k' = abilityState (w_sched w) k').
  assert (Hgo : ∀ to, (to = NOT_LOADED ∨ to = LOADED) → CanEnter to (a_state a) = true →
    let '(r, w') := AbilityStateTransitionLocked Lsched (Some k) to w in Post to r w').
  { intros to Hto HC. pose proof (transition_state Lsched Lsched_ok w k a pn to HI Ha Hown Hpn Hto HC) as H.
    unfold wp in H. by destruct (AbilityStateTransitionLocked Lsched (Some k) to w). }
  assert (Hdrop : ∀ to, (to = NOT_LOADED ∨ to = LOADED) → CanEnter to (a_state a) = true →
    let '(r, w') := (dropPendingUnload k;; AbilityStateTransitionLocked Lsched (Some k) to) w in Post to r w').
  { intros to Hto HC. pose proof (drop_transition_state Lsched Lsched_ok w k a pn to HI Ha Hown Hpn Hto HC) as H.
    unfold wp in H. by destruct ((dropPendingUnload k;; AbilityStateTransitionLocked Lsched (Some k) to) w). }
  unfold HandleAbilityEventLocked, HandleAbilityLoadFailedEventLocked, HandleAbilityLoadSuccessEventLocked,
    HandleAbilityUnLoadSuccessEventLocked.
  destruct e; destruct (a_state a) eqn:Hst; cbn [eventTarget]; unfold mbind at 1, M_bind at 1; rewrite HA, Hst;
    first [done | apply Hgo; by auto | apply Hdrop; by auto].
Qed.

(** C15: When a running or stopping process is reported dead, the event succeeds, the
    process is NOT_STARTED and each of its SAs is NOT_LOADED, whatever state it was in
    and LOADING included; or it is LOADING again, and then a load request was waiting
    for it, or it was LOADED or LOADING, is to be restarted when it dies and the process
    could still be restarted.  So none is left LOADED, UNLOADABLE or UNLOADING, and
    none stays LOADING that nobody asked for. *)
Theorem process_death_resets w pn p info :
  ctx_inv (w_sched w) → processContextMap_ (w_sched w) !! pn = Some p → p_state p ≠ NOT_STARTED →
  let '(r, w') := HandleProcessEventLocked Lsched (Some pn) info PROCESS_STOPPED_EVENT w in
  r = ERR_OK ∧ ctx_inv (w_sched w') ∧
  (∃ p', processContextMap_ (w_sched w') !! pn = Some p' ∧ saList p' = saList p ∧ p_state p' = NOT_STARTED) ∧
  ∀ k, k ∈ saList p →
    abilityState (w_sched w') k = Some NOT_LOADED ∨
    abilityState (w_sched w') k = Some LOADING ∧
    ∃ a, abilityContextMap_ (w_sched w) !! k = Some a ∧
      (pendingEvent a = LOAD_ABILITY_EVENT ∨
       (a_state a = LOADED ∨ a_state a = LOADING) ∧ isAutoRestart a = true ∧ enableRestart p = true).
Proof.
  intros HI Hp Hst.
  assert (Hwp : wp (HandleProcessEventLocked Lsched (Some pn) info PROCESS_STOPPED_EVENT)
    (λ r w', r = ERR_OK ∧ stopped (abilityContextMap_ (w_sched w)) p pn (saList p) (w_sched w')) w).
  2: { unfold wp in Hwp. destruct (HandleProcessEventLocked _ _ _ _ w) as [r w'].
       destruct Hwp as [Hr [H1 (p' & ? & ? & ? & _) _ H4]]. split_and!; [done|done|by exists p'|].
       intros k Hk. destruct (H4 k Hk) as [Hn|[Hn [(a & ? & ?)|(He & a & ? & ? & ?)]]]; [by left|right; split; [done|]..];
         exists a; auto. }
  unfold HandleProcessEventLocked, HandleProcessStoppedEventLocked. wp_seq. rewrite Hp. simpl default.
  destruct (p_state p) eqn:Hps; [done| |];
    (apply (enter_stopped _ (schedulerListener_ok 1) (scheduler_calm 1)); [done..|congruence]).
Qed.
End theorems.

(** ** The hypotheses hold in a state the system reaches *)

Lemma idle_401 : abilityContextMap_ (w_sched idle) !! 401 = Some (abilityOf idle 401).
Proof. vm_compute. reflexivity. Qed.
Lemma idle_401_own : ownProcessContext (abilityOf idle 401) = Some foo.
Proof. vm_compute. reflexivity. Qed.
Lemma loaded_401 : abilityContextMap_ (w_sched loaded) !! 401 = Some (abilityOf loaded 401).
Proof. vm_compute. reflexivity. Qed.
Lemma loaded_401_own : ownProcessContext (abilityOf loaded 401) = Some foo.
Proof. vm_compute. reflexivity. Qed.
Lemma idle_foo : processContextMap_ (w_sched idle) !! foo = Some (processOf idle foo).
Proof. vm_compute. reflexivity. Qed.
Lemma loaded_foo : processContextMap_ (w_sched loaded) !! foo = Some (processOf loaded foo).
Proof. vm_compute. reflexivity. Qed.
Lemma loaded_401_state : a_state (abilityOf loaded 401) = LOADED.
Proof. vm_compute. reflexivity. Qed.
Lemma idle_401_event : pendingEvent (abilityOf idle 401) = NO_EVENT.
Proof. vm_compute. reflexivity. Qed.
Lemma idle_401_state : a_state (abilityOf idle 401) = UNLOADABLE.
Proof. vm_compute. reflexivity. Qed.
Lemma idle_foo_list : saList (processOf idle foo) = [401; 402].
Proof. vm_compute. reflexivity. Qed.
Lemma foo_samgr : foo ≠ SAMGR_PROCESS_NAME.
Proof. done. Qed.

Lemma transition_spec_witness :
  AbilityStateTransitionLocked Lsched (Some 401) LOADING loaded = (TRANSIT_SA_STATE_FAIL, loaded).
Proof.
  rewrite (transition_spec Lsched loaded 401 _ foo LOADING loaded_inv loaded_401 loaded_401_own).
  rewrite loaded_401_state. reflexivity.
Defined.

Lemma can_kill_iff_witness : ∃ b, CanKillSystemProcess foo loaded = (b, loaded) ∧
  (b = true ↔ ∀ k, k ∈ saList (processOf loaded foo) → abilityState (w_sched loaded) k = Some NOT_LOADED).
Proof. exact (can_kill_iff loaded foo _ loaded_inv loaded_foo foo_samgr). Defined.

Lemma can_unload_all_iff_witness : ∃ b, CanUnloadAllSystemAbility foo idle = (b, idle) ∧ b = true.
Proof.
  destruct (can_unload_all_iff idle foo _ idle_inv idle_foo) as (b & Hb & Hiff & _).
  exists b. split; [exact Hb|]. apply Hiff.
  assert (Hin : 401 ∈ saList (processOf idle foo)) by (rewrite idle_foo_list; by apply elem_of_cons; left).
  split; [exact foo_samgr|]. split; split.
  - exists 401. split; [exact Hin|]. left. vm_compute. reflexivity.
  - intros k Hk. rewrite idle_foo_list in Hk.
    rewrite !elem_of_cons in Hk. destruct Hk as [->|[->|[]%elem_of_nil]]; vm_compute; split; discriminate.
  - vm_compute. reflexivity.
  - exists 401. split; [exact Hin|]. intros c Hc. apply (f_equal (fmap c_recycleStrategy)) in Hc.
    assert (c_recycleStrategy <$> saProfileMap_ (w_mgr idle) !! 401 = Some 0) as Hv by (vm_compute; reflexivity).
    rewrite Hv in Hc. by apply Some_inj in Hc.
Defined.

Lemma ability_event_spec_witness :
  let '(r, w') := HandleAbilityEventLocked Lsched (Some 401) ABILITY_UNLOAD_SUCCESS_EVENT loaded in
  r = ERR_OK ∧ ctx_inv (w_sched w') ∧ abilityState (w_sched w') 401 = Some NOT_LOADED ∧
  ∀ k', k' ≠ 401 → abilityState (w_sched w') k' = abilityState (w_sched loaded) k'.
Proof.
  pose proof (ability_event_spec loaded 401 _ foo ABILITY_UNLOAD_SUCCESS_EVENT loaded_inv loaded_401 loaded_401_own foo_samgr) as H.
  rewrite loaded_401_state in H. exact H.
Defined.

Lemma process_death_resets_witness :
  let '(r, w') := HandleProcessEventLocked Lsched (Some foo) (MkProcessInfo foo (-1) (-1)) PROCESS_STOPPED_EVENT idle in
  r = ERR_OK ∧ ctx_inv (w_sched w') ∧ abilityState (w_sched w') 401 = Some NOT_LOADED.
Proof.
  pose proof (process_death_resets idle foo _ (MkProcessInfo foo (-1) (-1)) idle_inv idle_foo ltac:(by vm_compute)) as H.
  destruct (HandleProcessEventLocked _ _ _ _ idle) as [r w']. destruct H as (Hr & HI & _ & H). split_and!; [exact Hr|exact HI|].
  assert (Hin : 401 ∈ saList (processOf idle foo)) by (rewrite idle_foo_list; by apply elem_of_cons; left).
  destruct (H 401 Hin) as [Hk|(_ & a & Ha & Hwhy)]; [exact Hk|exfalso].
  rewrite idle_401 in Ha. apply Some_inj in Ha. rewrite <- Ha, idle_401_event, idle_401_state in Hwhy.
  destruct Hwhy as [Hw|([Hw|Hw] & _)]; discriminate Hw.
Defined.
