(* ===== verification/RequestSpec.v ===== *)
(** Requests to the scheduler: pending load requests, the restart throttle, events
    that may act only once, unloading. *)
From S2P Require Import Prelude Types World Ffrt Util Contexts Interfaces Hoare ManagerBase StateMachine.
From S2P Require Import EventHandler Scheduler SchedulerQuery SchedulerInv SchedulerProofs SchedulerKeeps.
From S2P Require Import SchedulerBoot SchedulerFrame Subscribers Manager System Registry SystemRegistry Concrete.
From S2P Require Import DBinder DumpStats.
From S2P Require Import SchedulerSpec.

(** ** Restarting a process *)

Definition restartFields (w : World) (pn : u16string) : option (list Z * bool) :=
  (λ p, (restartCountsCtrl p, enableRestart p)) <$> processContextMap_ (w_sched w) !! pn.

Section restart.
Context `{E : Env}.

(** [restarts pn gs w]: in [w], [gs] are the times at which [CanRestartProcessLocked]
    has let process [pn] restart, oldest first; between its runs anything may happen
    that leaves its two members of the process context alone. *)
Inductive restarts (pn : u16string) : list Z → World → Prop :=
  | restarts_none w : restartFields w pn = Some ([], true) → restarts pn [] w
  | restarts_other gs w w' : restarts pn gs w → restartFields w' pn = restartFields w pn → restarts pn gs w'
  | restarts_granted gs w w' : restarts pn gs w → CanRestartProcessLocked pn w = (true, w') →
      restarts pn (gs ++ [env_GetTickCount (w_trace w)]) w'
  | restarts_refused gs w w' : restarts pn gs w → CanRestartProcessLocked pn w = (false, w') → restarts pn gs w'.

(** [CanRestartProcessLocked] in one equation. *)
Lemma CanRestart_eq pn w h :
  restartFields w pn = Some (h, true) →
  let now := env_GetTickCount (w_trace w) in
  let n := Z.of_nat (length h) in
  ∃ b w', CanRestartProcessLocked pn w = (b, w') ∧
    restartFields w' pn = Some
      (if b then (if n <? RESTART_TIMES_LIMIT then h ++ [now] else tail (h ++ [now])) else h,
       b || negb (n =? RESTART_TIMES_LIMIT)) ∧
    b = ((n <? RESTART_TIMES_LIMIT) ||
         ((n =? RESTART_TIMES_LIMIT) && negb (now - default 0 (head h) <? RESTART_TIME_INTERVAL_LIMIT))).
Proof.
  intros Hf now n. unfold restartFields in Hf. apply fmap_Some in Hf as (p & Hp & [= -> He]).
  unfold CanRestartProcessLocked, mbind, M_bind, derefP, gets. rewrite Hp.
  change (default newProcessContext (Some p)) with p. rewrite <- He.
  unfold GetTickCount, ask, mbind, M_bind, gets, emit, modify, storeP, updS, modify, mret, M_ret, restartFields.
  cbn [negb]. cbv beta iota zeta. fold now. fold n.
  destruct (n <? RESTART_TIMES_LIMIT); [|destruct (n =? RESTART_TIMES_LIMIT) eqn:Hn;
    [destruct (now - _ <? RESTART_TIME_INTERVAL_LIMIT)|]]; eexists _, _; (split; [reflexivity|]); simpl;
    rewrite ?lookup_alter_eq, Hp; simpl; rewrite <- ?He; done.
Qed.

Lemma CanRestart_disabled pn w h : restartFields w pn = Some (h, false) → CanRestartProcessLocked pn w = (false, w).
Proof.
  intros Hf. unfold restartFields in Hf. apply fmap_Some in Hf as (p & Hp & [= -> He]).
  unfold CanRestartProcessLocked, mbind, M_bind, derefP, gets. rewrite Hp. simpl. by rewrite <- He.
Qed.

(** The history holds the last four grants, and grants four apart are far apart in time. *)
Definition spaced (gs : list Z) : Prop := ∀ i t t',
  gs !! i = Some t → gs !! (i + 4)%nat = Some t' → RESTART_TIME_INTERVAL_LIMIT ≤ t' - t.

Definition lastFour (gs : list Z) : list Z := drop (length gs - 4) gs.

Lemma lastFour_snoc gs t : lastFour (gs ++ [t]) = if decide (length gs < 4)%nat then gs ++ [t] else tail (lastFour gs ++ [t]).
Proof.
  unfold lastFour. rewrite length_app. simpl. case_decide as Hlt.
  - replace (length gs + 1 - 4)%nat with 0%nat by lia. done.
  - replace (length gs + 1 - 4)%nat with (S (length gs - 4)) by lia.
    assert (Hd : drop (length gs - 4) (gs ++ [t]) = drop (length gs - 4) gs ++ [t]) by (apply drop_app_le; lia).
    rewrite <- Hd. generalize (length gs - 4)%nat (gs ++ [t]). clear. intros n l. revert l.
    induction n as [|n IH]; intros [|x l]; try done. simpl. apply IH.
Qed.

Lemma restarts_inv pn gs w : restarts pn gs w →
  spaced gs ∧ ∃ b, restartFields w pn = Some (lastFour gs, b).
Proof.
  induction 1 as [w Hf|gs w w' _ [IH1 (b & IH2)] Hf|gs w w' _ [IH1 (b & IH2)] Hc|gs w w' _ [IH1 (b & IH2)] Hc].
  - split; [by intros i t t' ?|]. by exists true.
  - split; [done|]. exists b. congruence.
  - destruct b; [|rewrite (CanRestart_disabled _ _ _ IH2) in Hc; done].
    destruct (CanRestart_eq _ _ _ IH2) as (b & w1 & Hc' & Hf & Hb). rewrite Hc in Hc'. injection Hc' as <- <-.
    assert (Hlen : length (lastFour gs) = (length gs `min` 4)%nat) by (unfold lastFour; rewrite length_drop; lia).
    rewrite Hlen in Hf, Hb. unfold RESTART_TIMES_LIMIT in *. set (now := env_GetTickCount (w_trace w)) in *. split.
    + intros i t t' Hi Hi'. destruct (decide (i + 4 < length gs)%nat) as [Hlt|Hge].
      { rewrite lookup_app_l in Hi, Hi' by lia. by eapply IH1. }
      pose proof (lookup_lt_Some _ _ _ Hi') as Hl. rewrite length_app in Hl. simpl in Hl.
      assert (i = (length gs - 4)%nat ∧ (4 ≤ length gs)%nat) as [-> H4] by lia.
      rewrite lookup_app_l in Hi by lia. replace (length gs - 4 + 4)%nat with (length gs + 0)%nat in Hi' by lia.
      rewrite lookup_app_r, Nat.add_sub_swap, Nat.sub_diag in Hi' by lia. simpl in Hi'. injection Hi' as <-.
      assert (Hh : head (lastFour gs) = Some t).
      { unfold lastFour. rewrite head_lookup, lookup_drop, Nat.add_0_r. exact Hi. }
      rewrite Hh in Hb. simpl default in Hb. unfold RESTART_TIME_INTERVAL_LIMIT in *.
      destruct (Z.ltb_spec (Z.of_nat (length gs `min` 4)) 4); [lia|]. simpl in Hb.
      destruct (Z.ltb_spec (now - t) (20 * 1000)); [|lia]. simpl in Hb. by rewrite andb_false_r in Hb.
    + exists true. rewrite Hf. simpl orb. f_equal. f_equal. rewrite lastFour_snoc. case_decide as Hlt.
      * destruct (Z.ltb_spec (Z.of_nat (length gs `min` 4)) 4); [|lia]. unfold lastFour.
        by replace (length gs - 4)%nat with 0%nat by lia.
      * by destruct (Z.ltb_spec (Z.of_nat (length gs `min` 4)) 4); [lia|].
  - split; [done|]. destruct b; [|rewrite (CanRestart_disabled _ _ _ IH2) in Hc; injection Hc as <-; eauto].
    destruct (CanRestart_eq _ _ _ IH2) as (b & w1 & Hc' & Hf & _). rewrite Hc in Hc'. injection Hc' as <- <-. eauto.
Qed.

(** Auto-restart is throttled: of any five consecutive restarts the throttle lets
    a process make, the fifth is at least 20 s after the first, and the history it
    keeps is that of the last four. *)
Theorem restart_throttle pn gs w :
  restarts pn gs w →
  (∀ i t t', gs !! i = Some t → gs !! (i + 4)%nat = Some t' → RESTART_TIME_INTERVAL_LIMIT ≤ t' - t) ∧
  ∃ b, restartFields w pn = Some (lastFour gs, b).
Proof. apply restarts_inv. Qed.

(** Once a restart of a process is refused, the process is never
    restarted again: the refusal is final, and asking again has no effect. *)
Theorem restart_refusal_final pn h w w' :
  restartFields w pn = Some (h, true) → Z.of_nat (length h) ≤ RESTART_TIMES_LIMIT →
  CanRestartProcessLocked pn w = (false, w') →
  ∀ w2, restartFields w2 pn = restartFields w' pn → CanRestartProcessLocked pn w2 = (false, w2).
Proof.
  intros Hf Hlen Hc w2 H2. destruct (CanRestart_eq _ _ _ Hf) as (b & w1 & Hc' & Hf' & Hb).
  rewrite Hc in Hc'. injection Hc' as <- <-. unfold RESTART_TIMES_LIMIT in *.
  destruct (Z.ltb_spec (Z.of_nat (length h)) 4); [done|].
  destruct (Z.eqb_spec (Z.of_nat (length h)) 4); [|lia]. simpl in Hf'.
  apply (CanRestart_disabled _ _ h). by rewrite H2.
Qed.
End restart.

Lemma booted_restarts : restarts bar [] booted.
Proof. apply restarts_none. vm_compute. reflexivity. Qed.
Lemma restart_throttle_witness :
  restarts bar [env_GetTickCount (w_trace booted)] (run (CanRestartProcessLocked bar) booted) ∧
  ∃ b, restartFields (run (CanRestartProcessLocked bar) booted) bar = Some ([env_GetTickCount (w_trace booted)], b).
Proof.
  assert (H : restarts bar ([] ++ [env_GetTickCount (w_trace booted)]) (run (CanRestartProcessLocked bar) booted)).
  { apply restarts_granted; [exact booted_restarts|]. apply injective_projections; [vm_compute; reflexivity|reflexivity]. }
  split; [exact H|]. exact (proj2 (restart_throttle bar _ _ H)).
Defined.

(** Four restarts at once: the fifth is refused for good. *)
Definition exhausted : World :=
  booted <| w_sched ::= λ s, s <| processContextMap_ ::= alter (λ p, p <| restartCountsCtrl := [1; 2; 3; 4] |>) bar |> |>.
Lemma restart_refusal_final_witness :
  CanRestartProcessLocked bar (run (CanRestartProcessLocked bar) exhausted) =
  (false, run (CanRestartProcessLocked bar) exhausted).
Proof.
  apply (restart_refusal_final bar [1; 2; 3; 4] exhausted (run (CanRestartProcessLocked bar) exhausted));
    [vm_compute; reflexivity|by vm_compute| |reflexivity].
  apply injective_projections; [vm_compute; reflexivity|reflexivity].
Defined.

(** ** Pending load requests *)

(** How long the oldest pending request of the process has waited, given the
    trace at the call and the stored time stamp (0: none is waiting yet). *)
Definition pendingElapsed `{E : Env} (tr : Trace) (first : Z) : Z :=
  if first =? 0 then env_GetTickCount (EvTick :: tr) - env_GetTickCount tr else env_GetTickCount tr - first.

Definition alreadyPending (req : LoadRequestInfo) (l : list LoadRequestInfo) : bool :=
  existsb (λ i, cb_eqb (lr_callback req) (lr_callback i)) l.

(** What becomes of the pending list, and the result. *)
Definition pendResult `{E : Env} (alive : bool) (elapsed : Z) (req : LoadRequestInfo) (l : list LoadRequestInfo) : Z * list LoadRequestInfo :=
  match lr_callback req with
  | None => (CALLBACK_NULL, l)
  | Some _ =>
      if alreadyPending req l then (ERR_OK, l)
      else if (MAX_PENDING_LOAD_COUNT <=? pending_of l (lr_callingPid req)) || (PENDING_LOAD_TIMEOUT_MS <=? elapsed)
      then (if alive then PEND_LOAD_EVENT_SIZE_LIMIT else ERR_INVALID_VALUE, l)
      else (ERR_OK, l ++ [req])
  end.

Definition pendingList (s : Sched) (k : Z) : list LoadRequestInfo :=
  match abilityContextMap_ s !! k with Some a => pendingLoadEventList a | None => [] end.

Section pend.
Context `{E : Env}.

Lemma PendLoad_result w k a pn p req :
  ctx_inv (w_sched w) → abilityContextMap_ (w_sched w) !! k = Some a → ownProcessContext a = Some pn →
  processContextMap_ (w_sched w) !! pn = Some p →
  wp (PendLoadEventLocked k req) (λ r w',
    (r, pendingList (w_sched w') k) =
    pendResult (selfPtr_ (w_mgr w)) (pendingElapsed (w_trace w) (pendingLoadFirstTimestamp p)) req (pendingLoadEventList a)) w.
Proof.
  intros HI Ha Hown Hp. unfold PendLoadEventLocked, pendResult.
  destruct (lr_callback req) as [cb|] eqn:Hcb; [|wp_seq; unfold pendingList; by rewrite Ha].
  wp_seq. rewrite Ha. change (default newAbilityContext (Some a)) with a. rewrite Hown. simpl default. rewrite Hp.
  change (default newProcessContext (Some p)) with p.
  set (P := λ w1 : World, abilityContextMap_ (w_sched w1) !! k = Some a ∧ w_mgr w1 = w_mgr w ∧
     env_GetTickCount (w_trace w1) - pendingLoadFirstTimestamp (default newProcessContext (processContextMap_ (w_sched w1) !! pn))
       = pendingElapsed (w_trace w) (pendingLoadFirstTimestamp p)).
  apply (wp_mono _ (λ _, P)).
  { unfold P, pendingElapsed. apply wp_when; intros Hts; rewrite Hts; [|by rewrite Hp].
    unfold GetTickCount, ask. wp_seq. split; [done|]. split; [done|]. simpl. rewrite lookup_alter_eq, Hp. done. }
  intros _ w1 (Ha1 & Hm1 & He1). unfold GetTickCount, ask. wp_seq. simpl w_sched. rewrite He1. rewrite Ha1.
  change (default newAbilityContext (Some a)) with a. unfold alreadyPending. rewrite Hcb.
  destruct (existsb _ _) eqn:Hex; [wp_seq; unfold pendingList; simpl; by rewrite Ha1|]. wp_seq. simpl w_sched. simpl abilityContextMap_. rewrite lookup_alter_eq, Ha1. simpl.

  rewrite default_touch, (po_count _ (al_pending _ (ao_local _ _ _ _ (ci_ability _ HI _ _ Ha)))).
  destruct (_ || _) eqn:Hov.
  - unfold HandlePendingLoadOverflow. wp_seq. simpl w_mgr. rewrite Hm1. destruct (selfPtr_ (w_mgr w)); cbn [negb]; wp_seq.
    + apply (wp_same w_sched); [solve_respects|]. cbv beta. intros _ w2 H2. wp_seq. unfold pendingList. rewrite H2.
      simpl. by rewrite lookup_alter_eq, Ha1.
    + unfold pendingList. simpl. by rewrite lookup_alter_eq, Ha1.
  - wp_seq. unfold pendingList. simpl. by rewrite !lookup_alter_eq, Ha1.
Qed.

(** A load request for an SA that is unloading, or whose process is stopping, is
    pended and nothing else: no SA changes state.  A request without a callback is
    refused; one whose callback already waits is not queued twice; a caller with 50
    waiting requests, or a process that has kept requests waiting for 60 s, gets the
    overflow error and the list stays as it was; any other request is appended. *)
Theorem load_while_unloading w k a pn p req :
  ctx_inv (w_sched w) → lr_systemAbilityId req = k → abilityContextMap_ (w_sched w) !! k = Some a →
  ownProcessContext a = Some pn → processContextMap_ (w_sched w) !! pn = Some p →
  a_state a = UNLOADING ∨ p_state p = STOPPING →
  let '(r, w') := HandleLoadAbilityEvent Lsched req w in
  (r, pendingList (w_sched w') k) =
    pendResult (selfPtr_ (w_mgr w)) (pendingElapsed (w_trace w) (pendingLoadFirstTimestamp p)) req (pendingLoadEventList a)
  ∧ ∀ k', abilityState (w_sched w') k' = abilityState (w_sched w) k'.
Proof.
  intros HI <- Ha Hown Hp Hst. set (k := lr_systemAbilityId req) in *.
  assert (Heq : HandleLoadAbilityEvent Lsched req w = PendLoadEventLocked k req w).
  { unfold HandleLoadAbilityEvent, HandleLoadAbilityEventLocked, GetSystemAbilityContext, ownProcess, derefA, derefP,
      mbind, M_bind, gets, mret, M_ret. fold k. rewrite Ha, Hown, Hp. rewrite bool_decide_eq_true_2 by done.
    rewrite Ha. cbv beta iota. change (default newAbilityContext (Some a)) with a. rewrite Hown.
    change (default [] (Some pn)) with pn. rewrite Hp. change (default newProcessContext (Some p)) with p.
    assert (bool_decide (a_state a = UNLOADING) || bool_decide (p_state p = STOPPING) = true) as ->; [|done].
    apply orb_true_iff. rewrite !bool_decide_eq_true. exact Hst. }
  rewrite Heq. pose proof (PendLoad_result w k a pn p req HI Ha Hown Hp) as H1.
  destruct (PendLoad_mild k req w HI) as [_ Hv]. unfold wp in H1.
  destruct (PendLoadEventLocked k req w) as [r w']. split; [exact H1|]. intros k'. by apply abilityState_view.
Qed.
End pend.

(** SA 401 agrees to unload while its process is stopping. *)
Definition stopping : World := call (OpUnloadProcess [foo]) idle.
Lemma stopping_inv : ctx_inv (w_sched stopping).
Proof.
  apply (reachable_inv profiles0 ∅ stopping profiles0_ok). unfold stopping. apply call_reachable, idle_reachable.
Qed.
Definition request2 : LoadRequestInfo := MkLoadRequest LOCAL_DEVICE (Some callback2) 401 1000 (mkEvent INTERFACE_CALL "load" "").

Lemma load_while_unloading_witness :
  let '(r, w') := HandleLoadAbilityEvent Lsched request2 stopping in r = ERR_OK ∧ pendingList (w_sched w') 401 = [request2].
Proof.
  pose proof (load_while_unloading stopping 401 (abilityOf stopping 401) foo (processOf stopping foo) request2 stopping_inv
    eq_refl ltac:(vm_compute; reflexivity) ltac:(vm_compute; reflexivity) ltac:(vm_compute; reflexivity)
    ltac:(left; vm_compute; reflexivity)) as H.
  destruct (HandleLoadAbilityEvent Lsched request2 stopping) as [r w']. destruct H as [H _].
  replace (pendResult _ _ _ _) with (ERR_OK, [request2]) in H by (vm_compute; reflexivity).
  injection H as -> ->. split; reflexivity.
Defined.

(** ** Events that act once *)

Definition onceMaps (w : World) := (startEnableOnceMap_ (w_sched w), stopEnableOnceMap_ (w_sched w)).

#[export] Instance onceMaps_rest : subrelation frame (same onceMaps).
Proof. intros w w' H. apply rest_sched in H. unfold same, onceMaps. by rewrite H. Qed.

Lemma used_add said e m : usedOnce said e (addOnce said e m) = true.
Proof.
  unfold usedOnce, addOnce. rewrite lookup_insert_eq. unfold IsSameEvent. rewrite existsb_app. simpl.
  rewrite Z.eqb_refl, !bool_decide_eq_true_2 by done. by rewrite orb_true_r.
Qed.

Lemma used_remove said e m : usedOnce said e (removeOnce said e m) = false.
Proof.
  unfold usedOnce, removeOnce. set (l := filter _ _).
  assert (Hl : IsSameEvent e l = false).
  { apply not_true_iff_false. unfold IsSameEvent. rewrite existsb_exists. intros (x & Hx & Heq).
    apply list_elem_of_In, list_elem_of_filter in Hx as [Hne _]. unfold event_eqb in Hne.
    rewrite !andb_true_iff, Z.eqb_eq, !bool_decide_eq_true in Heq. destruct Heq as [[E1 E2] E3].
    rewrite <- E1, <- E2, <- E3, Z.eqb_refl, !bool_decide_eq_true_2 in Hne by done. done. }
  destruct l eqn:El; [by rewrite lookup_delete_eq|]. rewrite lookup_insert_eq. exact Hl.
Qed.

Section once.
Context `{E : Env}.

Lemma writes_once : writes_respect (same onceMaps).
Proof.
  split; [apply _| | | | |]; intros;
    unfold notifyActiveIdle, AddRunningProcessLocked, RemoveRunningProcessLocked, processInfoOf; solve_respects.
Qed.
Lemma iface_once : iface_respects (same onceMaps).
Proof.
  assert (Hs : subrelation (same w_sched) (same onceMaps)).
  { intros w w' H. unfold same, onceMaps. by rewrite H. }
  split; intros; simpl; (apply (respects_sub (same w_sched)); [apply Hs|]); auto with respects; solve_deep.
Qed.
Lemma HandleLoad_once r : respects (same onceMaps) (HandleLoadAbilityEvent Lsched r).
Proof.
  apply HandleLoad_mgr; [apply _|apply writes_once|apply iface_once|].
  intros l. apply (schedulerListener_mgr (same onceMaps) writes_once iface_once 2).
Qed.
Lemma HandleUnload_once r : respects (same onceMaps) (HandleUnloadAbilityEvent Lsched r).
Proof.
  apply HandleUnload_mgr; [apply _|apply writes_once|apply iface_once|].
  intros l. apply (schedulerListener_mgr (same onceMaps) writes_once iface_once 2).
Qed.

(** An enable-once start event acts on an SA at most once: when it was used, it is
    refused and nothing changes; when it was not, it counts as used afterwards exactly
    if the load request was accepted, so a failed start may be tried again. *)
Theorem start_once w event ctl cb :
  ctl_enableOnce ctl = true →
  let '(r, w') := CheckStartEnableOnce Lsched event ctl cb w in
  if usedOnce (ctl_saId ctl) event (startEnableOnceMap_ (w_sched w))
  then r = ERR_INVALID_VALUE ∧ w' = w
  else usedOnce (ctl_saId ctl) event (startEnableOnceMap_ (w_sched w')) = (r =? ERR_OK).
Proof.
  intros Hon. destruct (usedOnce _ _ _) eqn:Hu.
  { unfold CheckStartEnableOnce, mbind, M_bind, getS, gets. rewrite Hon, Hu. by split. }
  assert (Hwp : wp (CheckStartEnableOnce Lsched event ctl cb) (λ r w',
            usedOnce (ctl_saId ctl) event (startEnableOnceMap_ (w_sched w')) = (r =? ERR_OK)) w).
  2: { unfold wp in Hwp. by destruct (CheckStartEnableOnce _ _ _ _ w). }
  unfold CheckStartEnableOnce. wp_seq. rewrite Hon, Hu. cbn [andb when]. wp_seq.
  apply (wp_same onceMaps); [apply HandleLoad_once|]. cbv beta. intros r w1 [= H1 _]. simpl in H1. wp_seq.
  destruct (r =? ERR_OK) eqn:Hr; cbn [negb when]; wp_seq; rewrite ?Hr.
  - rewrite H1. apply used_add.
  - cbn. rewrite H1. apply used_remove.
Qed.

(** The same for enable-once stop events and unload requests. *)
Theorem stop_once w event ctl :
  ctl_enableOnce ctl = true →
  let '(r, w') := CheckStopEnableOnce Lsched event ctl w in
  if usedOnce (ctl_saId ctl) event (stopEnableOnceMap_ (w_sched w))
  then r = ERR_INVALID_VALUE ∧ w' = w
  else usedOnce (ctl_saId ctl) event (stopEnableOnceMap_ (w_sched w')) = (r =? ERR_OK).
Proof.
  intros Hon. destruct (usedOnce _ _ _) eqn:Hu.
  { unfold CheckStopEnableOnce, mbind, M_bind, getS, gets. rewrite Hon, Hu. by split. }
  assert (Hwp : wp (CheckStopEnableOnce Lsched event ctl) (λ r w',
            usedOnce (ctl_saId ctl) event (stopEnableOnceMap_ (w_sched w')) = (r =? ERR_OK)) w).
  2: { unfold wp in Hwp. by destruct (CheckStopEnableOnce _ _ _ w). }
  unfold CheckStopEnableOnce. wp_seq. rewrite Hon, Hu. cbn [andb when]. wp_seq.
  apply (wp_same onceMaps); [apply HandleUnload_once|]. cbv beta. intros r w1 [= _ H1]. simpl in H1. wp_seq.
  destruct (r =? ERR_OK) eqn:Hr; cbn [negb when]; wp_seq; rewrite ?Hr.
  - rewrite H1. apply used_add.
  - cbn. rewrite H1. apply used_remove.
Qed.
End once.

Definition onceEvent : OnDemandEvent := mkEvent COMMON_EVENT "usual.event.BOOT" "".
Definition onceCtl (k : Z) : SaControlInfo := MkSaControl START_ON_DEMAND k true LOW_PRIORITY false.
Lemma start_once_witness :
  let '(r, w') := CheckStartEnableOnce Lsched onceEvent (onceCtl 401) callback1 booted in
  usedOnce 401 onceEvent (startEnableOnceMap_ (w_sched w')) = (r =? ERR_OK).
Proof.
  pose proof (start_once booted onceEvent (onceCtl 401) callback1 eq_refl) as H.
  replace (usedOnce _ _ (startEnableOnceMap_ (w_sched booted))) with false in H by (vm_compute; reflexivity). exact H.
Defined.
Lemma stop_once_witness :
  let '(r, w') := CheckStopEnableOnce Lsched onceEvent (onceCtl 401) loaded in
  usedOnce 401 onceEvent (stopEnableOnceMap_ (w_sched w')) = (r =? ERR_OK).
Proof.
  pose proof (stop_once loaded onceEvent (onceCtl 401) eq_refl) as H.
  replace (usedOnce _ _ (stopEnableOnceMap_ (w_sched loaded))) with false in H by (vm_compute; reflexivity). exact H.
Defined.

(** ** Unloading a whole process *)

Definition procState (s : Sched) (pn : u16string) : option SystemProcessState := p_state <$> processContextMap_ s !! pn.

Lemma procState_view s s' pn : view s' = view s → procState s' pn = procState s pn.
Proof.
  intros Hv. apply (f_equal snd), (f_equal (lookup pn)) in Hv. simpl in Hv. rewrite !lookup_fmap in Hv.
  unfold procState. destruct (processContextMap_ s' !! pn), (processContextMap_ s !! pn); simpl in *; try done.
  unfold viewP in Hv. injection Hv as _ _ ->. done.
Qed.

Lemma procState_setState s k pn from to pn' : procState (setState k pn from to s) pn' = procState s pn'.
Proof.
  unfold procState, setState. simpl. destruct (decide (pn = pn')) as [<-|Hne]; [|by rewrite lookup_alter_ne].
  rewrite lookup_alter_eq. by destruct (_ !! pn).
Qed.

Section unload.
Context `{E : Env}.

(** Unloading one SA changes no process state. *)
Lemma DoUnload_procState w k pn :
  ctx_inv (w_sched w) →
  wp (DoUnloadSystemAbilityLocked Lsched k) (λ _ w', procState (w_sched w') pn = procState (w_sched w) pn) w.
Proof.
  intros HI. unfold DoUnloadSystemAbilityLocked. wp_seq. wp_case; [|by wp_seq]. wp_seq. wp_case; [by wp_seq|].
  wp_seq. apply (wp_same w_sched); [apply (ml_DoUnloadSystemAbility (MI := baseManager))|]. cbv beta. intros r w1 H1.
  rewrite <- H1 in *. wp_case; [|by wp_seq]. eapply wp_mono.
  { apply (AbilityStateTransition_view Lsched Lsched_ok); [done|done| |done].
    intros _ a Ha. rewrite Ha in *. simpl in *. by rewrite Heqo. }
  cbv beta. intros _ w2 [_ [Hv|(a & pn' & Ha & Hown & Hv)]]; rewrite (procState_view _ _ _ Hv); [done|].
  apply procState_setState.
Qed.

Lemma UnloadAll_stopping w pn p :
  ctx_inv (w_sched w) → no_loading (w_sched w) pn → processContextMap_ (w_sched w) !! pn = Some p → p_state p = STARTED →
  wp (UnloadAllSystemAbilityLocked Lsched pn) (λ r w', r = ERR_OK ∧ procState (w_sched w') pn = Some STOPPING) w.
Proof.
  intros HI Hnl Hp Hst. unfold UnloadAllSystemAbilityLocked. wp_seq.
  set (J := λ w', ctx_inv (w_sched w') ∧ no_loading (w_sched w') pn ∧ procState (w_sched w') pn = Some STARTED).
  eapply wp_mono; [apply (wp_forM J)|].
  - split; [done|]. split; [done|]. unfold procState. rewrite Hp. simpl. by rewrite Hst.
  - intros k w' _ (HI' & Hnl' & Hps). wp_seq. apply wp_GetSystemAbilityContext; [done| |done]. intros a Ha. wp_seq.
    wp_case; [|done]. wp_seq. pose proof (DoUnload_wp Lsched Lsched_ok w' k HI') as H1.
    pose proof (DoUnload_procState w' k pn HI') as H2. unfold wp in H1, H2. destruct H1 as [H1 H1'].
    apply (wp_mono _ (λ _, J)); [|intros ? ? HJ; exact HJ]. unfold wp, J.
    split; [exact H1|]. split; [by apply H1'|]. rewrite H2. exact Hps.
  - cbv beta. intros _ w' (HI' & Hnl' & Hps). wp_seq. apply (wp_same w_sched); [solve_deep|]. cbv beta. intros _ w2 H2.
    rewrite <- H2 in HI', Hnl', Hps. unfold procState in Hps. apply fmap_Some in Hps as (p2 & Hp2 & Hst2).
    unfold ProcessStateTransitionLocked. wp_seq. rewrite Hp2. change (default newProcessContext (Some p2)) with p2.
    rewrite <- Hst2. cbn [bool_decide]. rewrite bool_decide_eq_false_2 by done. cbn [CanEnterProcess].
    rewrite bool_decide_eq_true_2 by done. cbn [negb]. wp_seq.
    set (w3 := w2 <| w_sched ::= _ |>).
    assert (HI3 : ctx_inv (w_sched w3)) by (apply (ctx_inv_setProcess (w_sched w2) pn STOPPING); [done|]; intros _ ? ?; by apply Hnl').
    assert (Hps3 : procState (w_sched w3) pn = Some STOPPING).
    { unfold procState, w3. simpl. by rewrite lookup_alter_eq, Hp2. }
    clearbody w3. unfold OnEnterProcess. wp_seq. apply wp_mild; [apply (lo_Stopping _ Lsched_ok)|done|].
    intros _ w4 _ Hv. wp_seq. split; [done|]. by rewrite (procState_view _ _ _ Hv).
Qed.

(** C28: [UnloadProcess] of one process: when some SA of it is in use or loading, or none
    is to be unloaded, nothing at all happens; otherwise a started process is
    stopping afterwards, and its SAs keep the invariant. *)
Theorem unload_process_spec w pn p :
  ctx_inv (w_sched w) → processContextMap_ (w_sched w) !! pn = Some p → pn ≠ SAMGR_PROCESS_NAME → p_state p = STARTED →
  let idle := (∃ k, k ∈ saList p ∧ (abilityState (w_sched w) k = Some UNLOADABLE
                                    ∨ abilityState (w_sched w) k = Some UNLOADING)) ∧
              ∀ k, k ∈ saList p → abilityState (w_sched w) k ≠ Some LOADING ∧ abilityState (w_sched w) k ≠ Some LOADED in
  let '(r, w') := UnloadProcess Lsched [pn] w in
  r = ERR_OK ∧ ctx_inv (w_sched w') ∧ (idle → procState (w_sched w') pn = Some STOPPING) ∧ ((idle → False) → w' = w).
Proof.
  intros HI Hp Hpn Hst idle.
  assert (Hidle : can_unload (w_sched w) pn = true ↔ idle).
  { destruct (can_unload_decides w pn p HI Hp Hpn) as (b & Hb & Hiff). rewrite CanUnloadAll_eq in Hb by done.
    etrans; [|exact Hiff]. destruct (can_unload _ _); by injection Hb as <-. }
  pose proof (UnloadProcess_keeps Lsched Lsched_ok [pn] w HI) as HI'.
  assert (Heq : UnloadProcess Lsched [pn] w =
    if can_unload (w_sched w) pn then let '(r, w') := UnloadAllSystemAbilityLocked Lsched pn w in (if r =? ERR_OK then ERR_OK else r, w')
    else (ERR_OK, w)).
  { unfold UnloadProcess. cbn [foldM]. unfold mbind, M_bind, unloadOne, GetSystemProcessContext, getS, gets, mret, M_ret, mbind, M_bind.
    rewrite Hp, bool_decide_eq_true_2 by done. rewrite CanUnloadAll_eq by done. destruct (can_unload _ _); [|done].
    by destruct (UnloadAllSystemAbilityLocked Lsched pn w). }
  rewrite Heq in HI' |- *. destruct (can_unload (w_sched w) pn) eqn:Hc.
  - pose proof (UnloadAll_stopping w pn p HI (can_unload_no_loading _ _ Hc) Hp Hst) as [H1 H2].
    destruct (UnloadAllSystemAbilityLocked Lsched pn w) as [r w']. simpl in H1, H2, HI'. rewrite H1.
    split; [done|]. split; [exact HI'|]. split; [done|]. intros Hno. destruct Hno. by apply Hidle.
  - split; [done|]. split; [exact HI|]. split; [|done]. intros Hid. apply Hidle in Hid. done.
Qed.
End unload.

Lemma unload_process_spec_witness :
  let '(r, w') := UnloadProcess Lsched [foo] idle in r = ERR_OK ∧ procState (w_sched w') foo = Some STOPPING.
Proof.
  pose proof (unload_process_spec idle foo _ idle_inv idle_foo foo_samgr ltac:(vm_compute; reflexivity)) as H. cbv zeta in H.
  destruct (UnloadProcess Lsched [foo] idle) as [r w']. destruct H as (Hr & _ & Hs & _). split; [exact Hr|]. apply Hs. split.
  - exists 401. rewrite idle_foo_list. split; [by apply elem_of_cons; left|]. left. vm_compute. reflexivity.
  - intros k Hk. rewrite idle_foo_list in Hk.
    rewrite !elem_of_cons in Hk. destruct Hk as [->|[->|[]%elem_of_nil]]; vm_compute; split; discriminate.
Defined.
