(* ===== verification/ManagerSpec.v ===== *)
(** What the manager's operations do to the SA table, the listeners and the load
    callbacks. *)
From S2P Require Import Prelude Types World Ffrt Util Contexts Interfaces Hoare ManagerBase StateMachine.
From S2P Require Import EventHandler Scheduler SchedulerQuery SchedulerInv SchedulerProofs SchedulerBoot.
From S2P Require Import SchedulerFrame Subscribers Manager Registry System SystemRegistry Concrete.
From S2P Require Import DBinder DumpStats.

(** ** The SA table *)

(** [GetSaProfile] of an SA says whether it is distributed. *)
Definition distributedOf (m : Mgr) (said : Z) : bool :=
  match saProfileMap_ m !! said with Some p => c_distributed p | None => false end.

Definition accepts (m : Mgr) (said : Z) (prop : SAExtraProp) : bool :=
  CheckInputSysAbilityId said && eqb (isDistributed prop) (distributedOf m said)
  && (Z.of_nat (size (abilityMap_ m)) <? MAX_SERVICES).

Section table.
Context `{E : Env}.

(** The events that registration sends touch no member of the manager. *)
Lemma enterLoaded_mgr k : respects (same w_mgr) (OnEnter Lsched LOADED k).
Proof. unfold OnEnter, notify, Lsched. cbn [schedulerListener asListener OnAbilityLoaded]. solve_deep. Qed.
Lemma enterNotLoaded_mgr k : respects (same w_mgr) (OnEnter Lsched NOT_LOADED k).
Proof. unfold OnEnter, notify, Lsched. cbn [schedulerListener asListener OnAbilityNotLoaded]. solve_deep. Qed.
Hint Resolve enterLoaded_mgr enterNotLoaded_mgr : respects.
Lemma AbilityEvent_same k e : respects (same w_mgr) (SendAbilityStateEvent Lsched k e).
Proof. solve_deep. Qed.
Hint Resolve AbilityEvent_same : respects.

Lemma AddSystemAbility_table w said obj prop :
  abilityStateScheduler_ (w_mgr w) = true →
  wp (AddSystemAbility Lsched said (Some obj) prop) (λ r w',
    r = (if accepts (w_mgr w) said prop then ERR_OK else ERR_INVALID_VALUE) ∧
    abilityMap_ (w_mgr w') =
      if accepts (w_mgr w) said prop
      then <[said := MkSAInfo (Some obj) (isDistributed prop)]> (abilityMap_ (w_mgr w)) else abilityMap_ (w_mgr w)) w.
Proof.
  intros Hs. unfold AddSystemAbility, accepts. destruct (CheckInputSysAbilityId said); [|done]. cbn [negb andb].
  set (π := λ w : World, (abilityMap_ (w_mgr w), abilityStateScheduler_ (w_mgr w), saProfileMap_ (w_mgr w))).
  apply wp_bind, (wp_same π); [solve_deep|]. cbv beta. intros _ w1 [= H1 H1' H1'']. unfold IsDistributedSystemAbility, GetSaProfile.
  wp_seq. unfold distributedOf. rewrite H1''.
  destruct (eqb (isDistributed prop) _) eqn:He; cbn [negb andb]; [|by split].
  wp_seq. rewrite H1. destruct (Z.ltb_spec (Z.of_nat (size (abilityMap_ (w_mgr w)))) MAX_SERVICES) as [Hlt|Hge];
    destruct (Z.leb_spec MAX_SERVICES (Z.of_nat (size (abilityMap_ (w_mgr w))))); try lia; [|by split].
  wp_seq. apply (wp_same π); [solve_deep|]. cbv beta. intros _ w2 [= H2 H2' _]. wp_seq.
  apply (wp_same π); [solve_deep|]. cbv beta. intros _ w3 [= H3 H3' _]. simpl in H3, H3'. rewrite H2, H1 in H3. wp_seq.
  apply (wp_same π); [solve_deep|]. cbv beta. intros _ w4 [= H4 H4' _]. rewrite H3 in H4. wp_seq.
  apply (wp_same π); [solve_deep|]. cbv beta. intros _ w5 [= H5 H5' _]. rewrite H4 in H5. unfold withScheduler. wp_seq.
  rewrite H5', H4', H3', H2', H1', Hs. cbn [negb]. wp_seq.
  do 3 (apply (wp_same w_mgr); [solve_deep|]; cbv beta; intros _ ? Hm; rewrite <- Hm in H5; clear Hm; wp_seq).
  by split.
Qed.

Lemma RemoveSystemAbility_table w said :
  abilityStateScheduler_ (w_mgr w) = true →
  wp (RemoveSystemAbility Lsched said) (λ r w',
    let ok := CheckInputSysAbilityId said && bool_decide (is_Some (abilityMap_ (w_mgr w) !! said)) in
    r = (if ok then ERR_OK else ERR_INVALID_VALUE) ∧
    abilityMap_ (w_mgr w') = if ok then delete said (abilityMap_ (w_mgr w)) else abilityMap_ (w_mgr w)) w.
Proof.
  intros Hs. unfold RemoveSystemAbility. destruct (CheckInputSysAbilityId said); [|done]. cbn [negb andb]. wp_seq.
  destruct (abilityMap_ (w_mgr w) !! said) as [info|] eqn:Hi; [|by rewrite bool_decide_eq_false_2 by (by intros [? [=]])].
  rewrite bool_decide_eq_true_2 by done. wp_seq. apply (wp_same w_mgr); [solve_deep|]. cbv beta. intros _ w1 H1. wp_seq.
  unfold withScheduler. wp_seq. simpl w_mgr. rewrite H1. simpl. rewrite Hs. cbn [negb]. wp_seq.
  set (w2 := w1 <| w_mgr ::= _ |>).
  assert (H2 : abilityMap_ (w_mgr w2) = delete said (abilityMap_ (w_mgr w))) by (unfold w2; simpl; by rewrite H1).
  clearbody w2.
  do 4 (apply (wp_same w_mgr); [solve_deep|]; cbv beta; intros _ ? Hm; rewrite <- Hm in H2; clear Hm; wp_seq).
  by split.
Qed.


Lemma Add_scheduler said o p : respects (same (λ w, abilityStateScheduler_ (w_mgr w))) (AddSystemAbility Lsched said o p).
Proof.
  assert (He : ∀ k e, respects (same (λ w, abilityStateScheduler_ (w_mgr w))) (SendAbilityStateEvent Lsched k e)).
  { intros k e w. unfold same. by rewrite (AbilityEvent_same k e w). }
  solve_deep.
Qed.

(** Registering a new SA and removing it again restores the table: the removal
    succeeds, the SA is not found any more, and every entry is as before. *)
Theorem register_unregister w said obj prop :
  abilityStateScheduler_ (w_mgr w) = true → accepts (w_mgr w) said prop = true → abilityMap_ (w_mgr w) !! said = None →
  let w1 := (AddSystemAbility Lsched said (Some obj) prop w).2 in
  let '(r, w2) := RemoveSystemAbility Lsched said w1 in
  r = ERR_OK ∧ abilityMap_ (w_mgr w2) = abilityMap_ (w_mgr w) ∧ (CheckSystemAbility said w2).1 = None.
Proof.
  intros Hs Ha Hn w1. pose proof (AddSystemAbility_table w said obj prop Hs) as [_ H1]. fold w1 in H1. rewrite Ha in H1.
  pose proof (Add_scheduler said (Some obj) prop w) as Hs1. fold w1 in Hs1. unfold same in Hs1. rewrite Hs in Hs1.
  pose proof (RemoveSystemAbility_table w1 said (eq_sym Hs1)) as [H2 H3].
  destruct (RemoveSystemAbility Lsched said w1) as [r w2]. cbn [fst snd] in H2, H3.
  assert (Hid : CheckInputSysAbilityId said = true) by (unfold accepts in Ha; by destruct (CheckInputSysAbilityId said)).
  rewrite Hid, H1, lookup_insert_eq, bool_decide_eq_true_2 in H2, H3 by done. cbn [andb] in H2, H3.
  rewrite delete_insert_eq, delete_id in H3 by done. split; [done|]. split; [done|].
  change (wp (CheckSystemAbility said) (λ o _, o = None) w2). unfold CheckSystemAbility. rewrite Hid. cbn [negb]. wp_seq.
  apply (wp_same (λ w, abilityMap_ (w_mgr w))); [solve_deep|]. cbv beta. intros _ w3 H4. wp_seq.
  by rewrite H4, H3, Hn.
Qed.

(** When the object of an SA dies, the first SA registered with that object (in the
    order of the ids) leaves the table, and no other; an unknown object changes nothing. *)
Theorem object_death_unregisters w obj :
  let m := abilityMap_ (w_mgr w) in
  let '(r, w') := RemoveSystemAbilityRemote (Some obj) w in
  match list_find (λ k, m !! k ≫= remoteObj = Some obj) (sorted_keys Z.le m) with
  | None => r = ERR_OK ∧ w' = w ∧ ∀ k, m !! k ≫= remoteObj ≠ Some obj
  | Some (_, k) => m !! k ≫= remoteObj = Some obj ∧ abilityMap_ (w_mgr w') = delete k m
  end.
Proof.
  intros m. destruct (list_find _ _) as [[i k]|] eqn:Hf.
  - assert (Hwp : wp (RemoveSystemAbilityRemote (Some obj)) (λ _ w', abilityMap_ (w_mgr w') = delete k m) w).
    { unfold RemoveSystemAbilityRemote. wp_seq. fold m. rewrite Hf. wp_seq. set (w1 := w <| w_mgr ::= _ |>).
      assert (H1 : abilityMap_ (w_mgr w1) = delete k m) by done. clearbody w1.
      apply (wp_same w_mgr); [solve_deep|]. cbv beta. intros _ w2 H2. wp_seq. rewrite <- H2 in H1. wp_case; wp_seq; [done|].
      do 2 (apply (wp_same w_mgr); [solve_deep|]; cbv beta; intros _ ? Hm; rewrite <- Hm in H1; clear Hm; wp_seq).
      apply (wp_same w_mgr); [solve_deep|]. cbv beta. intros _ w6 Hm. rewrite Hm. exact H1. }
    unfold wp in Hwp. destruct (RemoveSystemAbilityRemote (Some obj) w). split; [|exact Hwp].
    by apply list_find_Some in Hf as (_ & Hk & _).
  - assert (Hwp : wp (RemoveSystemAbilityRemote (Some obj)) (λ r w', r = ERR_OK ∧ w' = w) w).
    { unfold RemoveSystemAbilityRemote. wp_seq. fold m. rewrite Hf. wp_seq. cbn [Z.eqb]. by wp_seq. }
    unfold wp in Hwp. destruct (RemoveSystemAbilityRemote (Some obj) w) as [r w']. cbn [fst snd] in Hwp.
    destruct Hwp as [Hr Hw]. split; [exact Hr|]. split; [exact Hw|]. intros k Hk. apply list_find_None in Hf. rewrite Forall_forall in Hf. apply (Hf k); [|done].
    apply elem_of_sorted_keys. destruct (m !! k); [done|]. done.
Qed.
End table.

Definition prop0 : SAExtraProp := MkSAExtraProp false 8 [] [].
Lemma register_unregister_witness :
  let w1 := (AddSystemAbility Lsched 402 (Some 33%positive) prop0 loaded).2 in
  let '(r, w2) := RemoveSystemAbility Lsched 402 w1 in
  r = ERR_OK ∧ abilityMap_ (w_mgr w2) = abilityMap_ (w_mgr loaded) ∧ (CheckSystemAbility 402 w2).1 = None.
Proof. apply register_unregister; vm_compute; reflexivity. Defined.

(** ** Status listeners *)

(** A loop whose body only adds events. *)
Lemma forM_events {A} (l : list A) (f : A → M unit) (g : A → Trace) w :
  (∀ x w, f x w = (tt, w <| w_trace ::= app (g x) |>)) →
  forM l f w = (tt, w <| w_trace ::= app (rev l ≫= g) |>).
Proof.
  intros Hf. revert w. induction l as [|x l IH]; intros w; [by destruct w|].
  simpl. unfold mbind at 1, M_bind at 1. rewrite Hf, IH. f_equal. destruct w. unfold set_with. simpl. f_equal.
  rewrite bind_app, bind_singleton, <- app_assoc. done.
Qed.

(** The notifications an item gives rise to. *)
Definition addedTo (said : Z) (dev : string) (i : SAListener) : Trace :=
  if bool_decide (sal_state i = L_INIT)
  then match sal_listener i with Some l => [EvOnAddSystemAbility l said dev] | None => [] end else [].
Definition removedTo (said : Z) (dev : string) (i : SAListener) : Trace :=
  match sal_listener i with Some l => [EvOnRemoveSystemAbility l said dev] | None => [] end.
Definition setAll (st : ListenerState) (ls : list SAListener) : list SAListener := (λ i, i <| sal_state := st |>) <$> ls.

Section notify.
Context `{E : Env}.
Context (said : Z) (dev : string).

(** The subscriptions to the SA a user's manager holds, and what decides whom it tells. *)
Definition subscribersAt (w : World) : list SubscriberInfo := default [] (subscriberInfoMap_ (w_mgr w) !! said).
Definition audience (w : World) := (dynamicClass (w_mgr w), userId_ (w_mgr w), w_foreground w, subscribersAt w).

(** None of the subscribed objects has died. *)
Definition subscribersLive (w : World) : Prop :=
  dynamicClass (w_mgr w) = KMultiSystemAbilityManager →
  ∀ i tr, i ∈ subscribersAt w → env_promote tr (si_remoteObject i) = true.

(** A manager of another class tells every listener. A user's manager tells a listener whose object subscribed
    to this user, and one that subscribed to the foreground user while this user is that. *)
Definition tells (w : World) (i : SAListener) : bool :=
  match dynamicClass (w_mgr w), sal_listener i with
  | KMultiSystemAbilityManager, Some l =>
      match filter (λ s, si_remoteObject s = sc_AsObject l) (subscribersAt w) with
      | s :: _ => si_hasDirectSubscription s || negb (si_hasForegroundSubscription s) || (userId_ (w_mgr w) =? w_foreground w)
      | [] => false
      end
  | _, _ => true
  end.
Definition toldBy (w : World) (g : SAListener → Trace) (i : SAListener) : Trace := if tells w i then g i else [].

(** A manager of the base class that belongs to a background user is silent. *)
Definition silent (w : World) : bool :=
  match dynamicClass (w_mgr w) with
  | KMultiSystemAbilityManager => false
  | _ => SUPPORT_MULTI_INSTANCE && negb (userId_ (w_mgr w) =? BASE_USER) && negb (userId_ (w_mgr w) =? w_foreground w)
  end.

Lemma audience_tells w w' i : audience w' = audience w → tells w' i = tells w i.
Proof. unfold audience, tells. intros [= -> -> -> ->]. done. Qed.
Lemma audience_silent w w' : audience w' = audience w → silent w' = silent w.
Proof. unfold audience, silent. intros [= -> -> -> _]. done. Qed.
Lemma audience_live w w' : audience w' = audience w → subscribersLive w → subscribersLive w'.
Proof. unfold audience, subscribersLive. intros [= -> _ _ ->]. done. Qed.

Lemma scan_live alive obj l :
  (∀ i, i ∈ l → alive (si_remoteObject i) = true) →
  let '(kept, r) := scanSubscribers alive obj l in
  kept ++ match r with Some (i, rest) => i :: rest | None => [] end = l ∧
  fst <$> r = head (filter (λ s, si_remoteObject s = obj) l).
Proof.
  induction l as [|i l IH]; intros Hl; [done|]. cbn [scanSubscribers]. rewrite (Hl i) by set_solver. cbn [negb].
  rewrite filter_cons. case_bool_decide as Hi; [by rewrite decide_True|]. rewrite decide_False by done.
  specialize (IH ltac:(set_solver)). destruct (scanSubscribers alive obj l) as [kept r]. destruct IH as [IH1 IH2].
  cbn. by rewrite IH1.
Qed.

(** Whether a user's manager tells a listener. *)
Lemma ShouldNotify_tells w i l :
  dynamicClass (w_mgr w) = KMultiSystemAbilityManager → subscribersLive w → sal_listener i = Some l →
  wp (ShouldNotifySubscriber said (Some l)) (λ b w', b = tells w i ∧ w_trace w' = w_trace w ∧ audience w' = audience w ∧
    listenerMap_ (w_mgr w') = listenerMap_ (w_mgr w)) w.
Proof.
  intros Hk Hlive Hi. unfold ShouldNotifySubscriber, tells, storeSubscribers. rewrite Hk, Hi. wp_seq.
  specialize (Hlive Hk). unfold audience, subscribersAt in *.
  destruct (subscriberInfoMap_ (w_mgr w) !! said) as [infos|] eqn:Hm; [|wp_seq; by rewrite Hm]. cbn [default from_option id] in *.
  pose proof (scan_live (env_promote (w_trace w)) (sc_AsObject l) infos (λ i, Hlive i (w_trace w))) as Hs.
  destruct (scanSubscribers _ _ infos) as [kept [[j rest]|]]; destruct Hs as [Hs1 Hs2]; cbn in Hs2.
  - wp_seq. destruct (filter _ infos) as [|j' ?]; [done|]. injection Hs2 as ->. cbn. rewrite Hs1, lookup_insert_eq. done.
  - rewrite app_nil_r in Hs1. subst kept. wp_seq. destruct (filter _ infos); [|done]. cbn.
    case_bool_decide as Hn; [by rewrite lookup_delete_eq, Hn|by rewrite lookup_insert_eq].
Qed.

(** One listener is told, or passed over. *)
Lemma notify_told code g w i :
  subscribersLive w → (∀ l w, sal_listener i = Some l →
    NotifySystemAbilityChanged said dev code (Some l) w = (tt, w <| w_trace ::= app (g i) |>)) →
  (sal_listener i = None → g i = []) →
  wp (virtualNotifyChanged said dev code (sal_listener i)) (λ _ w', w_trace w' = toldBy w g i ++ w_trace w ∧
    audience w' = audience w ∧ listenerMap_ (w_mgr w') = listenerMap_ (w_mgr w)) w.
Proof.
  intros Hlive Hg Hnone. unfold virtualNotifyChanged, override, MultiNotifySystemAbilityChanged. wp_seq.
  assert (Hbase : ∀ w, wp (NotifySystemAbilityChanged said dev code (sal_listener i)) (λ _ w', w_trace w' = g i ++ w_trace w ∧
    audience w' = audience w ∧ listenerMap_ (w_mgr w') = listenerMap_ (w_mgr w)) w).
  { intros w1. destruct (sal_listener i) as [l|] eqn:Hl; [unfold wp; by rewrite (Hg l w1 eq_refl)|].
    unfold wp, NotifySystemAbilityChanged. by rewrite Hnone. }
  assert (Ht : dynamicClass (w_mgr w) ≠ KMultiSystemAbilityManager → tells w i = true).
  { unfold tells. by destruct (dynamicClass (w_mgr w)). }
  unfold toldBy. destruct (dynamicClass (w_mgr w)) eqn:Hk;
    [rewrite Ht by done; apply Hbase|rewrite Ht by done; apply Hbase|]. clear Ht.
  destruct (sal_listener i) as [l|] eqn:Hl.
  - wp_seq. eapply wp_mono; [by apply (ShouldNotify_tells w i l)|]. cbv beta. intros b w1 (-> & H1 & H2 & H3).
    destruct (tells w i); cbn [negb]; [|by wp_seq].
    eapply wp_mono; [apply Hbase|]. cbv beta. intros _ w2 (G1 & G2 & G3). by rewrite G1, G2, G3, H1, H2, H3.
  - unfold ShouldNotifySubscriber. wp_seq. cbn [negb]. wp_seq. unfold tells. rewrite Hk, Hl, Hnone by done. done.
Qed.

(** The loop over the listeners. *)
Lemma forM_told (f : SAListener → M unit) g ls w :
  (∀ i w1, audience w1 = audience w → wp (f i) (λ _ w', w_trace w' = toldBy w1 g i ++ w_trace w1 ∧
    audience w' = audience w1 ∧ listenerMap_ (w_mgr w') = listenerMap_ (w_mgr w1)) w1) →
  wp (forM ls f) (λ _ w', w_trace w' = (rev ls ≫= toldBy w g) ++ w_trace w ∧ audience w' = audience w ∧
    listenerMap_ (w_mgr w') = listenerMap_ (w_mgr w)) w.
Proof.
  revert w. induction ls as [|i ls IH]; intros w Hf; [done|]. cbn [forM]. apply wp_bind.
  eapply wp_mono; [by apply Hf|]. cbv beta. intros _ w1 (H1 & H2 & H3).
  eapply wp_mono; [apply IH; intros j w' Hw'; apply Hf; congruence|]. cbv beta. intros _ w2 (G1 & G2 & G3).
  rewrite G1, G2, G3, H1, H2, H3. split_and!; [|done..]. cbn [rev]. rewrite bind_app, bind_singleton, <- app_assoc. f_equal.
  assert (∀ l, l ≫= toldBy w1 g = l ≫= toldBy w g) as ->; [|done].
  induction l as [|x l IHl]; [done|]. rewrite !bind_cons, IHl. f_equal. unfold toldBy. by rewrite (audience_tells w w1 x H2).
Qed.

(** The class decides which body runs for each listener. *)
Lemma virtual_base code l w : dynamicClass (w_mgr w) ≠ KMultiSystemAbilityManager →
  virtualNotifyChanged said dev code l w = NotifySystemAbilityChanged said dev code l w.
Proof. intros Hk. unfold virtualNotifyChanged, override, getM, gets, mbind, M_bind. by destruct (dynamicClass (w_mgr w)). Qed.
Lemma virtual_multi code l w : dynamicClass (w_mgr w) = KMultiSystemAbilityManager →
  virtualNotifyChanged said dev code l w = MultiNotifySystemAbilityChanged said dev code l w.
Proof. intros Hk. unfold virtualNotifyChanged, override, getM, gets, mbind, M_bind. by rewrite Hk. Qed.
Lemma audience_class w w1 : audience w1 = audience w → dynamicClass (w_mgr w1) = dynamicClass (w_mgr w).
Proof. unfold audience. congruence. Qed.

Lemma tell_added i w :
  subscribersLive w →
  wp (when (bool_decide (sal_state i = L_INIT)) (virtualNotifyChanged said dev ADD_SYSTEM_ABILITY_TRANSACTION (sal_listener i)))
    (λ _ w', w_trace w' = toldBy w (addedTo said dev) i ++ w_trace w ∧
    audience w' = audience w ∧ listenerMap_ (w_mgr w') = listenerMap_ (w_mgr w)) w.
Proof.
  intros Hlive. apply wp_when; intros Hb.
  - apply notify_told; [done| |]; unfold addedTo; rewrite Hb; [intros l w1 -> | intros ->]; done.
  - unfold toldBy, addedTo. rewrite Hb. by destruct (tells w i).
Qed.
Lemma tell_removed i w :
  subscribersLive w →
  wp (virtualNotifyChanged said dev REMOVE_SYSTEM_ABILITY_TRANSACTION (sal_listener i))
    (λ _ w', w_trace w' = toldBy w (removedTo said dev) i ++ w_trace w ∧
    audience w' = audience w ∧ listenerMap_ (w_mgr w') = listenerMap_ (w_mgr w)) w.
Proof. intros Hlive. apply notify_told; [done| |]; unfold removedTo; [intros l w1 -> | intros ->]; done. Qed.

(** The announcement of an addition or a removal. *)
Lemma FindNotify_told add ls w :
  silent w = false → subscribersLive w → listenerMap_ (w_mgr w) !! said = Some ls →
  let code := if add : bool then ADD_SYSTEM_ABILITY_TRANSACTION else REMOVE_SYSTEM_ABILITY_TRANSACTION in
  wp (virtualFindNotify said dev code) (λ _ w',
    w_trace w' = (rev ls ≫= toldBy w (if add then addedTo said dev else removedTo said dev)) ++ w_trace w ∧
    audience w' = audience w ∧
    listenerMap_ (w_mgr w') = alter (setAll (if add then L_NOTIFIED else L_INIT)) said (listenerMap_ (w_mgr w))) w.
Proof.
  intros Hs Hlive Hl code.
  assert (Hend : ∀ st (m : M unit) T, wp m (λ _ w', w_trace w' = T ∧ audience w' = audience w ∧
      listenerMap_ (w_mgr w') = listenerMap_ (w_mgr w)) w →
    wp ((m;; updM listenerMap_ (alter (fmap (λ i, i <| sal_state := st |>)) said));; mret ERR_OK) (λ _ w', w_trace w' = T ∧
      audience w' = audience w ∧ listenerMap_ (w_mgr w') = alter (setAll st) said (listenerMap_ (w_mgr w))) w).
  { intros st m T Hm. wp_seq. eapply wp_mono; [exact Hm|]. cbv beta. intros _ w1 (H1 & H2 & H3). wp_seq.
    split_and!; [done|exact H2|cbn; by rewrite H3]. }
  assert (Hlive' : ∀ w1, audience w1 = audience w → subscribersLive w1) by (intros w1 Hw; by eapply audience_live).
  unfold virtualFindNotify, override. wp_seq. unfold silent in Hs.
  assert (dynamicClass (w_mgr w) = KMultiSystemAbilityManager ∨ dynamicClass (w_mgr w) ≠ KMultiSystemAbilityManager)
    as [Hk|Hk] by (destruct (dynamicClass (w_mgr w)); auto).
  - rewrite Hk. unfold MultiFindSystemAbilityNotify. wp_seq. rewrite Hl. unfold code. destruct add; cbn [Z.eqb Pos.eqb].
    + apply Hend, forM_told. intros i w1 Hw. pose proof (tell_added i w1 (Hlive' w1 Hw)) as Ht. unfold wp in Ht |- *.
      destruct (bool_decide _); cbn [when] in Ht |- *; [|exact Ht].
      rewrite virtual_multi in Ht by (rewrite (audience_class w w1); done). exact Ht.
    + apply Hend, forM_told. intros i w1 Hw. pose proof (tell_removed i w1 (Hlive' w1 Hw)) as Ht. unfold wp in Ht |- *.
      rewrite virtual_multi in Ht by (rewrite (audience_class w w1); done). exact Ht.
  - assert (Hbase : wp (FindSystemAbilityNotify said dev code) (λ _ w',
      w_trace w' = (rev ls ≫= toldBy w (if add then addedTo said dev else removedTo said dev)) ++ w_trace w ∧
      audience w' = audience w ∧
      listenerMap_ (w_mgr w') = alter (setAll (if add then L_NOTIFIED else L_INIT)) said (listenerMap_ (w_mgr w))) w).
    2: by destruct (dynamicClass (w_mgr w)).
    unfold FindSystemAbilityNotify, GetUserId. wp_seq.
    replace (_ && _ && _) with false by (by destruct (dynamicClass (w_mgr w))).
    wp_seq. rewrite Hl. unfold code. destruct add; cbn [Z.eqb Pos.eqb].
    + apply Hend, forM_told. intros i w1 Hw. pose proof (tell_added i w1 (Hlive' w1 Hw)) as Ht. unfold wp in Ht |- *.
      destruct (bool_decide _); cbn [when] in Ht |- *; [|exact Ht].
      rewrite virtual_base in Ht by (rewrite (audience_class w w1); done). exact Ht.
    + apply Hend, forM_told. intros i w1 Hw. pose proof (tell_removed i w1 (Hlive' w1 Hw)) as Ht. unfold wp in Ht |- *.
      rewrite virtual_base in Ht by (rewrite (audience_class w w1); done). exact Ht.
Qed.

Lemma FindNotify_silent code w : silent w = true → (virtualFindNotify said dev code w).2 = w.
Proof.
  unfold silent, virtualFindNotify, override, FindSystemAbilityNotify, GetUserId, getM, gets, mbind, M_bind.
  destruct (dynamicClass (w_mgr w)); [intros ->; done..|done].
Qed.

Lemma added_again w ls : (rev (setAll L_NOTIFIED ls) ≫= toldBy w (addedTo said dev)) = [].
Proof.
  unfold setAll. rewrite <- map_rev. generalize (rev ls). clear. intros ls. induction ls as [|i ls IH]; [done|].
  change (map ?f (i :: ls)) with (f i :: map f ls). rewrite bind_cons, IH. unfold toldBy. by destruct (tells _ _).
Qed.
Lemma removed_any w w' st ls :
  audience w' = audience w →
  (rev (setAll st ls) ≫= toldBy w' (removedTo said dev)) = (rev ls ≫= toldBy w (removedTo said dev)).
Proof.
  intros Hw. unfold setAll. rewrite <- map_rev. generalize (rev ls). clear ls. intros ls. induction ls as [|i ls IH]; [done|].
  change (map ?f (i :: ls)) with (f i :: map f ls). rewrite !bind_cons, IH. f_equal. unfold toldBy.
  by rewrite (audience_tells w w') by done.
Qed.

(** C31: Telling the listeners of an SA. The managers of the service and of the base user
    tell every listener; the manager of a user tells those whose object subscribed to that user,
    and those that subscribed to the foreground user while the user is in the foreground. When an SA
    is added, each listener to be told that was not told yet is told once, in order of
    subscription, and announcing the SA again tells nobody; when it is removed every listener
    to be told is told, and all can be told of the next addition. This supposes that none of the
    objects that subscribed to a user's manager has died. A manager of the base class
    that belongs to a background user tells nobody and changes nothing. *)
Theorem notify_once ls w :
  subscribersLive w → listenerMap_ (w_mgr w) !! said = Some ls →
  let added w := (virtualFindNotify said dev ADD_SYSTEM_ABILITY_TRANSACTION w).2 in
  let removed w := (virtualFindNotify said dev REMOVE_SYSTEM_ABILITY_TRANSACTION w).2 in
  if silent w then added w = w ∧ removed w = w
  else
    w_trace (added w) = (rev ls ≫= toldBy w (addedTo said dev)) ++ w_trace w ∧
    w_trace (added (added w)) = w_trace (added w) ∧
    w_trace (removed (added w)) = (rev ls ≫= toldBy w (removedTo said dev)) ++ w_trace (added w) ∧
    listenerMap_ (w_mgr (removed (added w))) !! said = Some (setAll L_INIT ls).
Proof.
  intros Hlive Hl added removed. destruct (silent w) eqn:Hs; [split; by apply FindNotify_silent|].
  destruct (FindNotify_told true ls w Hs Hlive Hl) as (H1 & H2 & H3). fold (added w) in H1, H2, H3.
  assert (Hl1 : listenerMap_ (w_mgr (added w)) !! said = Some (setAll L_NOTIFIED ls)) by (by rewrite H3, lookup_alter_eq, Hl).
  assert (Hs1 : silent (added w) = false) by (by rewrite (audience_silent w)).
  assert (Hlive1 : subscribersLive (added w)) by (by eapply audience_live).
  destruct (FindNotify_told true _ _ Hs1 Hlive1 Hl1) as (G1 & _). fold (added (added w)) in G1.
  destruct (FindNotify_told false _ _ Hs1 Hlive1 Hl1) as (K1 & _ & K3). fold (removed (added w)) in K1, K3.
  split_and!; [exact H1|by rewrite G1, added_again|by rewrite K1, (removed_any w)|].
  rewrite K3, lookup_alter_eq, Hl1. cbn. f_equal. unfold setAll. by rewrite <- list_fmap_compose.
Qed.
End notify.
(** ** Subscribing and unsubscribing *)

Definition listenersAt (m : Mgr) (said : Z) : list SAListener := default [] (listenerMap_ m !! said).
Definition countAt (m : Mgr) (pid : Z) : Z := default 0 (subscribeCountMap_ m !! pid).

Section subscribe.
Context `{E : Env}.

Lemma listenersAt_touch m said :
  default [] (map_touch said [] (listenerMap_ m) !! said) = listenersAt m said.
Proof. rewrite lookup_map_touch, decide_True by done. done. Qed.

Lemma find_last {A} (P : A → Prop) `{!∀ x, Decision (P x)} (l : list A) x :
  (∀ y, y ∈ l → ¬ P y) → P x → list_find P (l ++ [x]) = Some (length l, x).
Proof.
  intros Hl Hx. apply list_find_Some. split; [by apply list_lookup_middle|]. split; [done|].
  intros j y Hy Hj. rewrite lookup_app_l in Hy by done. apply Hl. by eapply list_elem_of_lookup_2.
Qed.

(** The new listener, the last of its list, may be told at once. *)
Lemma CheckListenerNotify_wp w said sc l i :
  listenersAt (w_mgr w) said = l ++ [i] → isSAListener (sc_AsObject sc) i = true →
  (∀ y, y ∈ l → isSAListener (sc_AsObject sc) y = false) →
  wp (CheckListenerNotify said sc) (λ _ w', (∃ st, listenersAt (w_mgr w') said = l ++ [i <| sal_state := st |>]) ∧
    ∀ pid, countAt (w_mgr w') pid = countAt (w_mgr w) pid) w.
Proof.
  intros Hl Hi Hno. unfold CheckListenerNotify. apply wp_bind.
  apply (wp_same (λ w, (listenerMap_ (w_mgr w), subscribeCountMap_ (w_mgr w)))); [solve_deep|]. cbv beta.
  intros [obj|] w1 [= H1 H1']; [|wp_seq; split; [exists (sal_state i)|intros; unfold countAt; by rewrite H1']].
  2: { unfold listenersAt. rewrite H1. fold (listenersAt (w_mgr w) said). rewrite Hl. by destruct i. }
  wp_seq. cbn. rewrite H1. rewrite listenersAt_touch, Hl.
  rewrite (find_last (λ i, isSAListener (sc_AsObject sc) i = true)) by (try done; intros y Hy; by rewrite (Hno y Hy)).
  apply wp_when; intros Hst; [|split; [exists (sal_state i)|intros; unfold countAt; cbn; by rewrite H1']].
  2: { unfold listenersAt. cbn. rewrite H1, listenersAt_touch, Hl. by destruct i. }
  wp_seq. unfold NotifySystemAbilityAddedByAsync. apply (wp_same w_mgr); [solve_deep|]. cbv beta. intros _ w2 H2. wp_seq.
  split.
  - exists L_NOTIFIED. unfold listenersAt. cbn. rewrite H2. cbn. rewrite H1, lookup_alter_eq, lookup_map_touch, decide_True by done.
    change (default [] (listenerMap_ (w_mgr w) !! said)) with (listenersAt (w_mgr w) said). rewrite Hl. simpl.
    by rewrite alter_app_r_alt, Nat.sub_diag by lia.
  - intros pid. unfold countAt. cbn. rewrite H2. cbn. by rewrite default_touch, H1'.
Qed.

Lemma Subscribe_wp w said sc :
  sub_ok (w_mgr w) → CheckInputSysAbilityId said = true →
  Some (sc_AsObject sc) ∉ listener_object <$> listenersAt (w_mgr w) said →
  countAt (w_mgr w) (callingPid (w_caller w)) < MAX_SUBSCRIBE_COUNT →
  wp (SubscribeSystemAbility said (Some sc)) (λ r w', r = ERR_OK ∧ sub_ok (w_mgr w') ∧
    (∃ st, listenersAt (w_mgr w') said =
       listenersAt (w_mgr w) said ++ [MkSAListener (Some sc) (callingPid (w_caller w)) st]) ∧
    ∀ pid, countAt (w_mgr w') pid = countAt (w_mgr w) pid + if callingPid (w_caller w) =? pid then 1 else 0) w.
Proof.
  intros HI Hid Hnew Hlim. pose proof (Subscribe_sub said (Some sc) w HI) as HI'.
  assert (Hwp : wp (SubscribeSystemAbility said (Some sc)) (λ r w', r = ERR_OK ∧
    (∃ st, listenersAt (w_mgr w') said =
       listenersAt (w_mgr w) said ++ [MkSAListener (Some sc) (callingPid (w_caller w)) st]) ∧
    ∀ pid, countAt (w_mgr w') pid = countAt (w_mgr w) pid + if callingPid (w_caller w) =? pid then 1 else 0) w).
  2: { destruct Hwp as (H1 & H2 & H3). split; [exact H1|]. split; [exact HI'|]. split; [exact H2|exact H3]. }
  clear HI'. unfold SubscribeSystemAbility, SubscribeSystemAbilityInner. wp_seq. rewrite Hid. cbn [negb]. wp_seq. cbn.
  rewrite listenersAt_touch. set (pid := callingPid (w_caller w)) in *. set (l := listenersAt (w_mgr w) said) in *.
  assert (Hno : ∀ y, y ∈ l → isSAListener (sc_AsObject sc) y = false).
  { intros y Hy. apply bool_decide_eq_false. intros Ho. apply Hnew. apply list_elem_of_fmap. by exists y. }
  replace (existsb _ l) with false.
  2: { symmetry. apply not_true_iff_false. rewrite existsb_exists. intros (y & Hy & Hyo).
       apply list_elem_of_In in Hy. rewrite (Hno y Hy) in Hyo. done. }
  wp_seq. cbn. rewrite default_touch. fold (countAt (w_mgr w) pid).
  destruct (Z.leb_spec MAX_SUBSCRIBE_COUNT (countAt (w_mgr w) pid)); [lia|]. wp_seq.
  destruct HI as [Hd _]. cbn. rewrite Hd. cbn [when]. wp_seq.
  apply (wp_same w_mgr); [solve_deep|]. cbv beta. intros _ w1 H1. wp_seq. set (w2 := w1 <| w_mgr ::= _ |>).
  assert (Hl2 : listenersAt (w_mgr w2) said = l ++ [MkSAListener (Some sc) pid L_INIT]).
  { unfold listenersAt, w2. cbn. rewrite H1. cbn. by rewrite lookup_alter_eq, lookup_map_touch, decide_True. }
  assert (Hc2 : ∀ pid', countAt (w_mgr w2) pid' = countAt (w_mgr w) pid' + if pid =? pid' then 1 else 0).
  { intros pid'. unfold countAt at 1, w2. cbn. rewrite H1. cbn. destruct (Z.eqb_spec pid pid') as [<-|Hne].
    - by rewrite lookup_insert_eq.
    - rewrite lookup_insert_ne, default_touch by done. unfold countAt. lia. }
  clearbody w2. eapply wp_mono; [apply (CheckListenerNotify_wp w2 said sc l _ Hl2); [|exact Hno]|].
  { by apply bool_decide_eq_true. }
  cbv beta. intros _ w3 [(st & Hl3) Hc3]. wp_seq. split; [done|]. split; [by exists st|]. intros pid'. by rewrite Hc3, Hc2.
Qed.

Lemma findListener_last obj l i :
  (∀ y, y ∈ l → is_Some (sal_listener y)) → Some obj ∉ listener_object <$> l → listener_object i = Some obj →
  findListener obj (l ++ [i]) = Some (length l, i).
Proof.
  intros Hs Hno Hi. induction l as [|y l IH]; simpl.
  - unfold listener_object in Hi. destruct (sal_listener i) as [s|]; [|done]. simpl in Hi. injection Hi as <-.
    by rewrite bool_decide_eq_true_2.
  - destruct (Hs y) as [s Hy]; [set_solver|]. rewrite fmap_cons, not_elem_of_cons in Hno. destruct Hno as [Hne Hno].
    unfold listener_object in Hne. rewrite Hy in Hne |- *. rewrite bool_decide_eq_false_2 by (simpl in Hne; congruence).
    rewrite IH; [done|set_solver|done].
Qed.

(** C34: Subscribing a new listener below the limit adds it, at the end of the list of its
    SA and counted for the caller; unsubscribing it restores the list and every
    process' count. *)
Theorem subscribe_unsubscribe w said sc :
  sub_ok (w_mgr w) → CheckInputSysAbilityId said = true →
  Some (sc_AsObject sc) ∉ listener_object <$> listenersAt (w_mgr w) said →
  countAt (w_mgr w) (callingPid (w_caller w)) < MAX_SUBSCRIBE_COUNT →
  let '(r1, w1) := SubscribeSystemAbility said (Some sc) w in
  let '(r2, w2) := UnSubscribeSystemAbility said (Some sc) w1 in
  r1 = ERR_OK ∧ r2 = ERR_OK ∧
  (∃ st, listenersAt (w_mgr w1) said =
     listenersAt (w_mgr w) said ++ [MkSAListener (Some sc) (callingPid (w_caller w)) st]) ∧
  listenersAt (w_mgr w2) said = listenersAt (w_mgr w) said ∧
  ∀ pid, countAt (w_mgr w2) pid = countAt (w_mgr w) pid.
Proof.
  intros HI Hid Hnew Hlim. pose proof (Subscribe_wp w said sc HI Hid Hnew Hlim) as Hwp. unfold wp in Hwp.
  destruct (SubscribeSystemAbility said (Some sc) w) as [r1 w1]. cbn [fst snd] in Hwp. destruct Hwp as (Hr1 & HI1 & (st & Hl1) & Hc1).
  assert (Hwp : wp (UnSubscribeSystemAbility said (Some sc)) (λ r2 w2, r2 = ERR_OK ∧
      listenersAt (w_mgr w2) said = listenersAt (w_mgr w) said ∧ ∀ pid, countAt (w_mgr w2) pid = countAt (w_mgr w) pid) w1).
  2: { unfold wp in Hwp. destruct (UnSubscribeSystemAbility said (Some sc) w1) as [r2 w2]. cbn [fst snd] in Hwp.
       destruct Hwp as (Hr2 & Hl2 & Hc2). split; [exact Hr1|]. split; [exact Hr2|]. split; [by exists st|]. by split. }
  set (i := MkSAListener (Some sc) (callingPid (w_caller w)) st) in *. set (l := listenersAt (w_mgr w) said) in *.
  destruct HI1 as [Hd1 HI1]. apply (sub_touch _ _ said) in HI1.
  assert (Hlk : map_touch said [] (listenerMap_ (w_mgr w1)) !! said = Some (l ++ [i])).
  { rewrite lookup_map_touch, decide_True by done. f_equal. exact Hl1. }
  unfold UnSubscribeSystemAbility. rewrite Hid. cbn [negb]. wp_seq.
  unfold wp at 1. rewrite UnSubscribeLocked_eq. cbn -[lookup alter]. rewrite Hlk. cbn -[lookup alter findListener app].
  rewrite findListener_last; [|intros y Hy; eapply (si_some _ _ HI1); [exact Hlk|set_solver]|done|done].
  cbv beta iota. wp_seq. apply (wp_same w_mgr); [solve_deep|]. cbv beta. intros _ w2 H2. wp_seq.
  split; [done|]. rewrite H2. split.
  - unfold listenersAt. cbn -[lookup alter app]. rewrite lookup_alter_eq, Hlk. simpl.
    rewrite delete_middle, app_nil_r. done.
  - intros pid. unfold countAt at 1. cbn -[lookup].
    assert (H0 : 0 ≤ countAt (w_mgr w) (callingPid (w_caller w))).
    { unfold countAt. destruct HI as [_ HI]. rewrite (si_count _ _ HI). apply msum_nonneg. intros. apply countb_nonneg. }
    pose proof (Hc1 (callingPid (w_caller w))) as Hp. rewrite Z.eqb_refl in Hp. unfold countAt at 1 in Hp.
    rewrite default_decr by (cbn [sal_callingPid]; rewrite Hp; lia).
    fold (countAt (w_mgr w1) pid). rewrite Hc1. cbn [sal_callingPid]. lia.
Qed.
End subscribe.

Lemma subscribe_unsubscribe_witness :
  let '(r1, w1) := SubscribeSystemAbility 401 (Some listener1) loaded in
  let '(r2, w2) := UnSubscribeSystemAbility 401 (Some listener1) w1 in
  r1 = ERR_OK ∧ r2 = ERR_OK ∧
  (∃ st, listenersAt (w_mgr w1) 401 = listenersAt (w_mgr loaded) 401 ++ [MkSAListener (Some listener1) (callingPid (w_caller loaded)) st]) ∧
  listenersAt (w_mgr w2) 401 = listenersAt (w_mgr loaded) 401 ∧ ∀ pid, countAt (w_mgr w2) pid = countAt (w_mgr loaded) pid.
Proof.
  apply subscribe_unsubscribe.
  - exact (ro_listeners _ (reachable_registry profiles0 ∅ loaded loaded_reachable)).
  - reflexivity.
  - replace (listenersAt (w_mgr loaded) 401) with (@nil SAListener) by (vm_compute; reflexivity). apply not_elem_of_nil.
  - vm_compute. reflexivity.
Defined.

(** One listener, subscribed before the SA was registered. *)
Definition watching : World := call (OpSubscribeSystemAbility 401 (Some listener1)) booted.
Lemma notify_once_witness :
  w_trace (virtualFindNotify 401 "" ADD_SYSTEM_ABILITY_TRANSACTION watching).2 =
  (rev [MkSAListener (Some listener1) 1000 L_INIT] ≫= toldBy 401 watching (addedTo 401 "")) ++ w_trace watching.
Proof.
  assert (Hk : dynamicClass (w_mgr watching) = KSystemAbilityManager) by (vm_compute; reflexivity).
  assert (Hl : listenerMap_ (w_mgr watching) !! 401 = Some [MkSAListener (Some listener1) 1000 L_INIT]) by (vm_compute; reflexivity).
  assert (Hs : silent watching = false) by (vm_compute; reflexivity).
  assert (Hlive : subscribersLive 401 watching) by (intros Hm; rewrite Hk in Hm; discriminate Hm).
  pose proof (notify_once 401 "" _ watching Hlive Hl) as H. cbv zeta in H. rewrite Hs in H. exact (proj1 H).
Defined.
