(* ===== verification/SystemSpec.v ===== *)
(** The service as a whole: what holds in every state it can reach. *)
From S2P Require Import Prelude Types World Ffrt Util Contexts Interfaces Hoare ManagerBase StateMachine.
From S2P Require Import EventHandler Scheduler SchedulerQuery SchedulerInv SchedulerProofs SchedulerKeeps.
From S2P Require Import SchedulerBoot SchedulerFrame Subscribers Manager Registry System SystemRegistry Concrete.
From S2P Require Import DBinder DumpStats.
From S2P Require Import SchedulerSpec.

Section theorems.
Context `{E : Env}.

(** C1: In every state the service reaches from boot with well-formed profiles, through
    any sequence of calls, queue tasks and death notices and whatever the other
    processes answer: every SA context belongs to the process that lists it, the
    per-process counters count the SAs in each state, an SA being unloaded has its
    request, pending load requests are distinct, counted and at most 50 per caller,
    a stopping process has no loading SA, and delays and restart histories are bounded. *)
Theorem reachable_contexts profiles multi w :
  profiles_ok profiles → reachable profiles multi w → ctx_inv (w_sched w).
Proof. apply reachable_inv. Qed.

(** C2: In every reachable state the manager's registries are consistent: listener and
    callback counts per process are exact and at most 256, no listener is registered
    twice for an SA, the SA and process tables hold at most 1000 entries, and the
    access counters stay in their range. *)
Theorem reachable_registries profiles multi w : reachable profiles multi w → registry_ok (w_mgr w).
Proof. apply reachable_registry. Qed.

(** In every reachable state the list of running processes names each process once. *)
Theorem reachable_running_list profiles multi w :
  reachable profiles multi w → NoDup (spi_processName <$> runningProcessList_ (w_sched w)).
Proof. apply reachable_running. Qed.

(** C26: The state machine notifies the scheduler, which drives the state machine again;
    the mutual recursion stops after two levels: a deeper knot behaves exactly like
    the one of depth two, for every state that is entered. *)
Theorem callback_depth n : listener_eq (schedulerListener (2 + n)) (schedulerListener 2).
Proof. apply schedulerListener_depth. Qed.

(** The requests to stop an SA that were sent to hosting processes, the last one first. *)
Definition stopRequests (tr : Trace) : list (RemoteObject * Z * string) :=
  omap (λ e, match e with EvStopAbility host said reason => Some (host, said, reason) | _ => None end) tr.

(** The object of a registered SA, and the process that hosts it. *)
Definition registeredObject (w : World) (said : Z) : option RemoteObject :=
  if CheckInputSysAbilityId said then abilityMap_ (w_mgr w) !! said ≫= remoteObj else None.
Definition hostingProcess (w : World) (pn : u16string) : option RemoteObject :=
  if bool_decide (pn = []) then None
  else systemProcessMap_ (w_mgr w) !! pn ≫= λ o, if env_iface_cast o then Some o else None.

(** What an attempt to unload SA [said] of process [pn] sends, and whether it succeeds. *)
Definition stopSent (w : World) (said : Z) (pn : u16string) (e : OnDemandEvent) : list (RemoteObject * Z * string) :=
  match registeredObject w said, hostingProcess w pn with
  | Some _, Some host => [(host, said, EventToStr e)]
  | _, _ => []
  end.
Definition stopAccepted (w : World) (said : Z) (pn : u16string) : bool :=
  match registeredObject w said, hostingProcess w pn with
  | None, _ => true
  | Some _, None => false
  | Some _, Some _ => env_StopAbility (w_trace w)
  end.

Lemma Check_registered said w :
  wp (CheckSystemAbility said) (λ o w', o = registeredObject w said ∧ w_trace w' = w_trace w ∧
    systemProcessMap_ (w_mgr w') = systemProcessMap_ (w_mgr w)) w.
Proof.
  unfold CheckSystemAbility, registeredObject. destruct (CheckInputSysAbilityId said); cbn [negb]; [|by apply wp_ret].
  unfold UpdateSaFreMap. wp_seq. destruct (_ <? 0); wp_seq; done.
Qed.

Lemma DoUnload_sends said pn e w :
  wp (DoUnloadSystemAbility said pn e) (λ r w', w_sched w' = w_sched w ∧
    r = (if stopAccepted w said pn then ERR_OK else ERR_INVALID_VALUE) ∧
    stopRequests (w_trace w') = stopSent w said pn e ++ stopRequests (w_trace w)) w.
Proof.
  split; [symmetry; apply DoUnloadSystemAbility_sched|].
  change (wp (DoUnloadSystemAbility said pn e) (λ r w',
    r = (if stopAccepted w said pn then ERR_OK else ERR_INVALID_VALUE) ∧
    stopRequests (w_trace w') = stopSent w said pn e ++ stopRequests (w_trace w)) w).
  unfold DoUnloadSystemAbility, stopAccepted, stopSent. apply wp_bind.
  eapply wp_mono; [apply Check_registered|]. cbv beta. intros o w1 (-> & Ht & Hm). rewrite <- Ht.
  destruct (registeredObject w said) as [o|]; [|by apply wp_ret].
  unfold StopOnDemandAbilityInner, GetLocalAbilityManager, GetSystemProcess, hostingProcess, ask. rewrite <- Hm. clear Ht Hm.
  destruct (bool_decide (pn = [])); wp_seq; [done|].
  destruct (_ ≫= _) as [host|]; wp_seq; [|done].
  destruct (env_StopAbility (w_trace w1)); cbn [negb]; wp_seq; [|done].
  apply (wp_same (λ w, stopRequests (w_trace w))); [solve_deep|]. cbv beta. intros _ w2 H2. wp_seq. by rewrite H2.
Qed.

(** C29: In a reachable state, an SA that is ready to unload or being unloaded is unloaded
    with the request that made it so. If the SA is registered and its process known,
    that process is asked, once and with the request's event, to stop the SA; if it
    accepts, the SA is UNLOADING, and if it does not, or the process is not known, the
    result is an error and no state changes. An SA that is not registered is UNLOADING
    without a request. No other SA changes state. With the manager destroyed
    nothing happens. *)
Theorem unloadable_has_request profiles multi w k a :
  profiles_ok profiles → reachable profiles multi w → abilityContextMap_ (w_sched w) !! k = Some a →
  a_state a = UNLOADABLE ∨ a_state a = UNLOADING →
  ∃ req pn, unloadRequest a = Some req ∧ ownProcessContext a = Some pn ∧
    let '(r, w') := DoUnloadSystemAbilityLocked Lsched k w in
    if selfPtr_ (w_mgr w) then
      stopRequests (w_trace w') = stopSent w k pn (unloadEvent req) ++ stopRequests (w_trace w) ∧
      (∀ k', k' ≠ k → abilityState (w_sched w') k' = abilityState (w_sched w) k') ∧
      if stopAccepted w k pn then r = ERR_OK ∧ abilityState (w_sched w') k = Some UNLOADING
      else r = ERR_INVALID_VALUE ∧ w_sched w' = w_sched w
    else r = ERR_INVALID_VALUE ∧ w' = w.
Proof.
  intros Hpr Hr Ha Hst. pose proof (reachable_inv profiles multi w Hpr Hr) as HI.
  destruct (ci_ability _ HI _ _ Ha) as [Hid (pn & p & Hown & Hp & Hk) Hl].
  destruct (al_unload _ Hl Hst) as [req Hreq]. exists req, pn. split_and!; [done..|].
  pose proof (pk_name _ _ _ (ci_process _ HI _ _ Hp)) as Hn.
  unfold DoUnloadSystemAbilityLocked, lockManager, ownProcess, getM, derefA, derefP, mbind, M_bind, gets, mret, M_ret.
  rewrite Ha. change (default newAbilityContext (Some a)) with a. rewrite Hreq. destruct (selfPtr_ (w_mgr w)); [|done].
  cbn [negb]. cbv beta iota. rewrite Ha. change (default newAbilityContext (Some a)) with a. rewrite Hown.
  change (default [] (Some pn)) with pn. rewrite Hp.
  change (default newProcessContext (Some p)) with p. rewrite Hn, Hid. simpl mi_DoUnloadSystemAbility.
  pose proof (DoUnload_sends k pn (unloadEvent req) w) as Hs. unfold wp in Hs.
  destruct (DoUnloadSystemAbility k pn (unloadEvent req) w) as [r w1]. cbn [fst snd] in Hs.
  destruct Hs as (Hs & -> & Ht).
  destruct (stopAccepted w k pn); [change (ERR_OK =? ERR_OK) with true | rewrite (proj2 (Z.eqb_neq _ _) ERR_INVALID_VALUE_nz)];
    cbv iota; [|by rewrite Ht, Hs].
  rewrite (AbilityStateTransition_eq Lsched w1 k a pn p UNLOADING) by congruence.
  case_decide as Heq.
  { rewrite Ht, Hs. split_and!; [done..|]. unfold abilityState. by rewrite Ha, <- Heq. }
  destruct Hst as [Hst|Hst]; [|by destruct Heq]. rewrite Hst. cbn [CanEnter bool_decide negb].
  rewrite bool_decide_eq_true_2 by done. cbn [negb]. rewrite decide_False.
  2: { intros Hsam. pose proof (pk_counts _ _ _ (ci_process _ HI _ _ Hp)) as Hc. unfold counts_ok in Hc.
       rewrite decide_True in Hc by done. destruct Hc as [_ Hc]. specialize (Hc k Hk).
       apply has_state_abilityState in Hc. unfold abilityState in Hc. rewrite Ha in Hc. simpl in Hc. congruence. }
  change (stopRequests (w_trace w1) = stopSent w k pn (unloadEvent req) ++ stopRequests (w_trace w) ∧
    (∀ k', k' ≠ k → abilityState (setState k pn UNLOADABLE UNLOADING (w_sched w1)) k' = abilityState (w_sched w) k') ∧
    ERR_OK = ERR_OK ∧ abilityState (setState k pn UNLOADABLE UNLOADING (w_sched w1)) k = Some UNLOADING).
  rewrite Ht, Hs. split_and!; [done| |done|].
  - intros k' Hk'. by apply abilityState_setState_ne.
  - apply abilityState_setState. by exists a.
Qed.
End theorems.

Lemma reachable_contexts_witness : reachable profiles0 ∅ idle ∧ ctx_inv (w_sched idle).
Proof.
  split; [exact idle_reachable|]. exact (reachable_contexts profiles0 ∅ idle profiles0_ok idle_reachable).
Defined.
Lemma reachable_registries_witness : reachable profiles0 ∅ idle ∧ registry_ok (w_mgr idle).
Proof. split; [exact idle_reachable|]. exact (reachable_registries profiles0 ∅ idle idle_reachable). Defined.
Lemma reachable_running_list_witness : NoDup (spi_processName <$> runningProcessList_ (w_sched idle)).
Proof. exact (reachable_running_list profiles0 ∅ idle idle_reachable). Defined.
Lemma unloadable_has_request_witness : ∃ req pn, unloadRequest (abilityOf idle 401) = Some req ∧
  ownProcessContext (abilityOf idle 401) = Some pn ∧
  let '(r, w') := DoUnloadSystemAbilityLocked Lsched 401 idle in
  stopRequests (w_trace w') = stopSent idle 401 pn (unloadEvent req) ++ stopRequests (w_trace idle) ∧
  abilityState (w_sched w') 401 = Some UNLOADING.
Proof.
  destruct (unloadable_has_request profiles0 ∅ idle 401 (abilityOf idle 401) profiles0_ok idle_reachable)
    as (req & pn & Hreq & Hpn & H); [vm_compute; reflexivity|left; vm_compute; reflexivity|].
  exists req, pn. split; [exact Hreq|]. split; [exact Hpn|].
  assert (Hs : selfPtr_ (w_mgr idle) = true) by (vm_compute; reflexivity).
  assert (Hacc : stopAccepted idle 401 pn = true).
  { assert (ownProcessContext (abilityOf idle 401) = Some foo) as Hf by (vm_compute; reflexivity).
    rewrite Hf in Hpn. apply Some_inj in Hpn as <-. vm_compute. reflexivity. }
  rewrite Hs, Hacc in H. destruct (DoUnloadSystemAbilityLocked Lsched 401 idle) as [r w'].
  destruct H as (H1 & _ & _ & H2). exact (conj H1 H2).
Defined.
