(* ===== verification/CallbackSpec.v ===== *)
(** Load callbacks: who is told, and what is left behind. *)
From S2P Require Import Prelude Types World Ffrt Util Contexts Interfaces Hoare ManagerBase StateMachine.
From S2P Require Import EventHandler Scheduler SchedulerQuery SchedulerInv SchedulerProofs SchedulerBoot.
From S2P Require Import SchedulerFrame Subscribers Manager Registry System SystemRegistry Concrete.
From S2P Require Import DBinder DumpStats.

(** The load results of a trace, latest first: callback, SA and the object or the error. *)
Definition loadResult (e : Ev) : option (LoadCallback * Z * (RemoteObject + Z)) :=
  match e with
  | EvOnLoadSuccess cb said obj => Some (cb, said, inl obj)
  | EvOnLoadFail cb said err => Some (cb, said, inr err)
  | _ => None
  end.
Definition loadResults (tr : Trace) := omap loadResult tr.

Section callbacks.
Context `{E : Env}.

Lemma RemoveStarting_results c : respects (same (λ w, loadResults (w_trace w))) (RemoveStartingAbilityCallbackLocked c).
Proof. solve_deep. Qed.

(** Each callback of the list is told once, in order, and nobody else. *)
Lemma release_results (l : CallbackList) (f : LoadCallback → M unit) (g : LoadCallback → Ev) w :
  (∀ c w, f c w = (tt, w <| w_trace ::= cons (g c) |>)) → (∀ c, is_Some (loadResult (g c))) →
  loadResults (w_trace (forM l (λ c, f c.1;; RemoveStartingAbilityCallbackLocked c) w).2) =
  rev (omap (λ c, loadResult (g c.1)) l) ++ loadResults (w_trace w).
Proof.
  intros Hf Hg. revert w. induction l as [|c l IH]; intros w; [done|].
  change (wp (forM (c :: l) (λ c, f c.1;; RemoveStartingAbilityCallbackLocked c)) (λ _ w', loadResults (w_trace w') =
    rev (omap (λ c, loadResult (g c.1)) (c :: l)) ++ loadResults (w_trace w)) w).
  cbn [forM]. wp_seq. unfold wp at 1. rewrite Hf. cbn [fst snd].
  apply (wp_same (λ w, loadResults (w_trace w))); [apply RemoveStarting_results|]. cbv beta. intros _ w2 H2.
  unfold wp. rewrite IH, H2. destruct (Hg c.1) as [x Hx]. cbn. rewrite Hx. cbn. by rewrite <- app_assoc.
Qed.

Lemma release_starting (l : CallbackList) (f : LoadCallback → M unit) w :
  (∀ c, respects (same w_mgr) (f c)) →
  startingAbilityMap_ (w_mgr (forM l (λ c, f c.1;; RemoveStartingAbilityCallbackLocked c) w).2) = startingAbilityMap_ (w_mgr w).
Proof. intros Hf. by rewrite releaseAll_mgr. Qed.

Lemma results_fmap said (r : RemoteObject + Z) (g : LoadCallback → Ev) (l : CallbackList) :
  (∀ c, loadResult (g c) = Some (c, said, r)) → omap (λ c, loadResult (g c.1)) l = (λ c, (c.1, said, r)) <$> l.
Proof. intros Hg. induction l as [|c l IH]; [done|]. cbn. by rewrite Hg, IH. Qed.

(** The callbacks that wait for an SA: those of every device that has a list, the devices in the order of
    their names and each once, those of a device in the order of its list. *)
Definition waiting (item : AbilityItem) (cbs : CallbackList) : Prop :=
  ∃ devices : list string,
    (∀ dev, dev ∈ devices ↔ is_Some (callbackMap item !! dev)) ∧
    NoDup devices ∧ Sorted (λ a b, String.leb a b = true) devices ∧
    cbs = concat ((λ dev, default [] (callbackMap item !! dev)) <$> devices).

Lemma callbacksInOrder_waiting item : waiting item (callbacksInOrder item).
Proof.
  exists (sorted_keys str_le (callbackMap item)). split_and!.
  - intros dev. apply elem_of_sorted_keys.
  - apply NoDup_sorted_keys.
  - apply Sorted_merge_sort. intros x y. apply String.leb_total.
  - unfold callbacksInOrder. induction (sorted_keys _ _) as [|dev l IH]; [done|]. by rewrite bind_cons, IH.
Qed.

(** What the callbacks in [cbs] are told, the last one first. *)
Definition told (cbs : CallbackList) (said : Z) (r : RemoteObject + Z) : list (LoadCallback * Z * (RemoteObject + Z)) :=
  rev ((λ c, (c.1, said, r)) <$> cbs).

(** C32: When an SA is loaded, every callback waiting for it, of this device and of every
    remote one, receives the object exactly once, in the order of the devices' names and
    of their lists, and nobody else is told anything; the SA is no longer waited for, other
    SAs are, and without anyone waiting nothing happens. *)
Theorem loaded_notifies_all w said obj :
  let w' := (NotifySystemAbilityLoaded said obj w).2 in
  match startingAbilityMap_ (w_mgr w) !! said with
  | None => w' = w
  | Some item =>
      (∃ cbs, waiting item cbs ∧ loadResults (w_trace w') = told cbs said (inl obj) ++ loadResults (w_trace w)) ∧
      startingAbilityMap_ (w_mgr w') = delete said (startingAbilityMap_ (w_mgr w))
  end.
Proof.
  intros w'. destruct (startingAbilityMap_ (w_mgr w) !! said) as [item|] eqn:Hi.
  - pose proof (callbacksInOrder_waiting item) as Hcbs. set (cbs := callbacksInOrder item) in Hcbs.
    change (wp (NotifySystemAbilityLoaded said obj) (λ _ w',
      (∃ cbs, waiting item cbs ∧ loadResults (w_trace w') = told cbs said (inl obj) ++ loadResults (w_trace w)) ∧
      startingAbilityMap_ (w_mgr w') = delete said (startingAbilityMap_ (w_mgr w))) w).
    unfold NotifySystemAbilityLoaded. wp_seq. rewrite Hi. fold cbs. wp_seq.
    set (f := λ c, NotifyLoadedCallback said obj (Some c)).
    pose proof (release_results cbs f (λ c, EvOnLoadSuccess c said obj) w) as H1.
    pose proof (release_starting cbs f w) as H2.
    unfold wp at 1. apply wp_modify. unfold f in H1, H2. split.
    + exists cbs. split; [exact Hcbs|]. refine (eq_trans (H1 _ _) _); [done|by intros|].
      apply (f_equal (λ l, rev l ++ loadResults (w_trace w))), results_fmap with (g := λ c, EvOnLoadSuccess c said obj). done.
    + exact (f_equal (λ m : gmap Z AbilityItem, delete said m) (H2 ltac:(intros c w0; reflexivity))).
  - unfold w', NotifySystemAbilityLoaded, mbind, M_bind, getM, gets. by rewrite Hi.
Qed.

(** The object of a registered SA. *)
Definition objectOf (m : Mgr) (said : Z) : option RemoteObject :=
  if CheckInputSysAbilityId said then abilityMap_ m !! said ≫= remoteObj else None.

Lemma CheckSystemAbility_object said w :
  wp (CheckSystemAbility said) (λ o w1, o = objectOf (w_mgr w) said ∧ w_trace w1 = w_trace w ∧ w_caller w1 = w_caller w ∧
    saProfileMap_ (w_mgr w1) = saProfileMap_ (w_mgr w) ∧ startingAbilityMap_ (w_mgr w1) = startingAbilityMap_ (w_mgr w)) w.
Proof.
  unfold CheckSystemAbility, objectOf. destruct (CheckInputSysAbilityId said); cbn [negb]; [|by wp_seq].
  unfold UpdateSaFreMap. wp_seq. destruct (_ <? 0); wp_seq; done.
Qed.

(** The failure of an SA that is not registered, announced by its process. *)
Lemma failStart_told w said err p :
  saProfileMap_ (w_mgr w) !! said = Some p →
  Str16ToStr8 (c_process p) = GetProcessNameFromCmdline (w_trace w) (callingPid (w_caller w)) →
  wp (failStart said err) (λ r w', r = ERR_OK ∧ startingAbilityMap_ (w_mgr w') = delete said (startingAbilityMap_ (w_mgr w)) ∧
    match startingAbilityMap_ (w_mgr w) !! said with
    | Some item => ∃ cbs, waiting item cbs ∧ loadResults (w_trace w') = told cbs said (inr err) ++ loadResults (w_trace w)
    | None => w_trace w' = w_trace w
    end) w.
Proof.
  intros Hp Hcall. unfold failStart, GetSaProfile. wp_seq. rewrite Hp. cbv iota. wp_seq.
  rewrite bool_decide_eq_true_2 by done. cbn [negb]. wp_seq.
  cbn -[lookup]. destruct (startingAbilityMap_ (w_mgr w) !! said) as [item|] eqn:Hi; wp_seq.
  - pose proof (callbacksInOrder_waiting item) as Hcbs. set (cbs := callbacksInOrder item) in Hcbs |- *.
    apply (wp_same (λ w, (w_mgr w, loadResults (w_trace w)))); [solve_deep|]. cbv beta. intros _ w2 H2.
    injection H2 as Hm2 Ht2. wp_seq. set (f := λ c, NotifySystemAbilityLoadFail said (Some c) err).
    pose proof (release_results cbs f (λ c, EvOnLoadFail c said err) w2) as H3.
    pose proof (release_starting cbs f w2) as H4. unfold wp at 1. wp_seq.
    unfold f in H3, H4. split; [done|]. split.
    + refine (eq_trans (f_equal (λ m : gmap Z AbilityItem, delete said m) (H4 ltac:(intros c w0; reflexivity))) _).
      by rewrite Hm2.
    + exists cbs. split; [exact Hcbs|]. refine (eq_trans (H3 _ _) _); [done|by intros|]. rewrite Ht2.
      apply (f_equal (λ l, rev l ++ loadResults (w_trace w))).
      apply results_fmap with (g := λ c, EvOnLoadFail c said err). done.
  - split; [done|]. cbn. by rewrite delete_id.
Qed.

(** C33: When a process reports that it could not start an SA, whoever asks: for an SA that is
    registered the report is a success without effect, whoever the caller is; for an id without
    a profile it is refused; a caller other than the process of the SA's profile is refused;
    in these cases nothing is announced and nobody stops waiting. Otherwise every callback waiting
    for the SA, of this device and of every remote one, receives the error code exactly
    once, in the order of the devices' names and of their lists, nobody else is told
    anything, and the SA is no longer waited for. The scheduler's contexts are left as they are. *)
Theorem start_failure_notifies_all w said err :
  let '(r, w') := OnStartSystemAbilityFail said err w in
  let nothing := startingAbilityMap_ (w_mgr w') = startingAbilityMap_ (w_mgr w) ∧ w_trace w' = w_trace w in
  w_sched w' = w_sched w ∧
  match objectOf (w_mgr w) said, saProfileMap_ (w_mgr w) !! said with
  | Some _, _ => r = ERR_OK ∧ nothing
  | None, None => r = ERR_INVALID_VALUE ∧ nothing
  | None, Some p =>
      if bool_decide (Str16ToStr8 (c_process p) = GetProcessNameFromCmdline (w_trace w) (callingPid (w_caller w)))
      then r = ERR_OK ∧
        startingAbilityMap_ (w_mgr w') = delete said (startingAbilityMap_ (w_mgr w)) ∧
        match startingAbilityMap_ (w_mgr w) !! said with
        | Some item => ∃ cbs, waiting item cbs ∧ loadResults (w_trace w') = told cbs said (inr err) ++ loadResults (w_trace w)
        | None => w_trace w' = w_trace w
        end
      else r = INVALID_CALL_PROC ∧ nothing
  end.
Proof.
  pose proof (OnStartFail_sched said err w) as Hs. unfold same in Hs.
  pose proof (CheckSystemAbility_object said w) as Hc. unfold OnStartSystemAbilityFail in *. unfold mbind, M_bind in *.
  unfold wp in Hc. destruct (CheckSystemAbility said w) as [o w1]. cbn [fst snd] in Hc. destruct Hc as (-> & Ht & Hcl & Hp & Hst).
  rewrite <- Ht, <- Hcl, <- Hp, <- Hst. destruct (objectOf (w_mgr w) said) as [o|]; [by split|].
  destruct (saProfileMap_ (w_mgr w1) !! said) as [p|] eqn:Hprof.
  - case_bool_decide as Hcall.
    + pose proof (failStart_told w1 said err p Hprof Hcall) as Hwp. unfold wp in Hwp.
      destruct (failStart said err w1) as [r w']. split; [by rewrite Hs|exact Hwp].
    + destruct (failStart said err w1) as [r w'] eqn:Hf.
      unfold failStart, GetSaProfile, GetCallingPid, getM, gets, mbind, M_bind in Hf. rewrite Hprof in Hf. cbn [mret M_ret] in Hf.
      rewrite bool_decide_eq_false_2 in Hf by done. cbn [negb] in Hf. injection Hf as <- <-. by split.
  - destruct (failStart said err w1) as [r w'] eqn:Hf. unfold failStart, GetSaProfile, getM, gets, mbind, M_bind in Hf.
    rewrite Hprof in Hf. injection Hf as <- <-. by split.
Qed.
End callbacks.

(** A report from the process of SA 401 while a callback waits. *)
Example failure_reported :
  loadResults (w_trace (OnStartSystemAbilityFail 401 7 asked).2) = [(callback1, 401, inr 7)].
Proof. vm_compute. reflexivity. Qed.
