(* ===== verification/QuerySpec.v ===== *)
(** Access counters, initialisation from the profiles, and the list of idle processes. *)
From S2P Require Import Prelude Types World Ffrt Util TimeHandler CollectManager CollectFrame CollectTasks Contexts Interfaces Hoare ManagerBase StateMachine.
From S2P Require Import EventHandler Scheduler SchedulerQuery SchedulerInv SchedulerProofs SchedulerBoot.
From S2P Require Import SchedulerFrame Subscribers Manager Registry System SystemRegistry Concrete SchedulerSpec.
From S2P Require Import DBinder DumpStats.

(** ** Access counters *)

(** The two halves of the key. *)
Lemma key_high uid said : 0 ≤ uid < 2 ^ 31 → Z.shiftr (GenerateFreKey uid said) 32 = uid.
Proof.
  intros Hu. unfold GenerateFreKey, SHFIT_BIT, u64. rewrite (Z.mod_small uid), Z.shiftl_mul_pow2 by lia.
  rewrite Z.mod_small by lia. pose proof (u32_range said) as Hs. unfold is_u32 in Hs.
  rewrite Z.shiftr_lor, (Z.shiftr_div_pow2 (uid * _)), (Z.shiftr_div_pow2 (u32 said)), Z.div_mul, Z.div_small by lia.
  apply Z.lor_0_r.
Qed.

Lemma key_low uid said : 0 ≤ uid < 2 ^ 31 → Z.land (GenerateFreKey uid said) (Z.ones 32) = u32 said.
Proof.
  intros Hu. unfold GenerateFreKey, SHFIT_BIT, u64. rewrite (Z.mod_small uid), Z.shiftl_mul_pow2 by lia.
  rewrite Z.mod_small by lia. pose proof (u32_range said) as Hs. unfold is_u32 in Hs.
  rewrite Z.land_lor_distr_l, !Z.land_ones, Z.mod_mul, (Z.mod_small (u32 said)) by lia. apply Z.lor_0_l.
Qed.

Lemma key_inj uid said uid' said' :
  0 ≤ uid < 2 ^ 31 → 0 ≤ uid' < 2 ^ 31 → is_i32 said → is_i32 said' →
  GenerateFreKey uid said = GenerateFreKey uid' said' → uid = uid' ∧ said = said'.
Proof.
  intros Hu Hu' Hs Hs' Hk. split.
  - by rewrite <- (key_high uid said), <- (key_high uid' said'), Hk.
  - apply u32_inj; [done..|]. by rewrite <- (key_low uid said), <- (key_low uid' said'), Hk.
Qed.

(** How often user [uid] asked for SA [said]. *)
Definition accessCount (m : Mgr) (uid said : Z) : Z := default 0 (saFrequencyMap_ m !! GenerateFreKey uid said).

Section counters.
Context `{E : Env}.

(** Access counts are kept per user and SA and do not interfere: an access adds one to
    the count of that user and SA, up to the ceiling, which leaves a 32-bit counter room
    to spare, and to no other; the result is the new count. *)
Theorem access_counted w uid said uid' said' :
  0 ≤ uid < 2 ^ 31 → 0 ≤ uid' < 2 ^ 31 → is_i32 said → is_i32 said' → freq_ok (saFrequencyMap_ (w_mgr w)) →
  let '(r, w') := UpdateSaFreMap uid said w in
  r = Z.min (accessCount (w_mgr w) uid said + 1) MAX_SA_FREQUENCY_COUNT ∧ is_i32 r ∧
  accessCount (w_mgr w') uid' said' =
    if decide (uid = uid' ∧ said = said') then r else accessCount (w_mgr w) uid' said'.
Proof.
  intros Hu Hu' Hs Hs' Hf. unfold UpdateSaFreMap. destruct (Z.ltb_spec uid 0); [lia|].
  unfold mbind, M_bind, getM, gets, updM, modify, mret, M_ret. cbv beta iota zeta.
  fold (accessCount (w_mgr w) uid said). set (c := accessCount (w_mgr w) uid said).
  assert (Hc : 0 ≤ c ≤ MAX_SA_FREQUENCY_COUNT).
  { unfold c, accessCount. destruct (_ !! _) eqn:Hl; [apply Hf in Hl; simpl; lia|done]. }
  assert (Hr : (if c <? MAX_SA_FREQUENCY_COUNT then c + 1 else c) = Z.min (c + 1) MAX_SA_FREQUENCY_COUNT).
  { destruct (Z.ltb_spec c MAX_SA_FREQUENCY_COUNT); lia. }
  rewrite Hr. split; [done|]. split; [unfold is_i32, MAX_SA_FREQUENCY_COUNT, INT32_MAX in *; lia|].
  unfold accessCount. cbn -[GenerateFreKey lookup insert]. case_decide as Hd.
  - destruct Hd as [<- <-]. by rewrite lookup_insert_eq.
  - rewrite lookup_insert_ne; [done|]. intros Hk. apply Hd. by apply key_inj.
Qed.
End counters.

Lemma access_counted_witness :
  let '(r, w') := UpdateSaFreMap 2000 401 booted in r = 1 ∧ accessCount (w_mgr w') 2000 401 = 1.
Proof.
  pose proof (access_counted booted 2000 401 2000 401 ltac:(lia) ltac:(lia) ltac:(by unfold is_i32) ltac:(by unfold is_i32)
    (proj2 (proj2 (ro_limits _ (reachable_registry profiles0 ∅ booted booted_reachable))))) as H.
  replace (accessCount (w_mgr booted) 2000 401) with 0 in H by (vm_compute; reflexivity).
  destruct (UpdateSaFreMap 2000 401 booted) as [r w']. destruct H as (-> & _ & Ha). split; [reflexivity|].
  rewrite decide_True in Ha by done. exact Ha.
Defined.

(** ** Initialisation from the profiles *)

Definition saListOf (s : Sched) (pn : u16string) : list Z :=
  match processContextMap_ s !! pn with Some p => saList p | None => [] end.

(** The context of a profile's SA. *)
Definition freshAbility (sp : SaProfile) : SystemAbilityContext :=
  newAbilityContext <| systemAbilityId := saId sp |> <| isAutoRestart := autoRestart sp |>
    <| a_independentUnload := independentUnload sp |>
    <| delayUnloadTime := LimitDelayUnloadTime (delayTime (stopOnDemand sp)) |> <| ownProcessContext := Some (process sp) |>.

Lemma initOne_list s sp pn :
  process sp ≠ [] → saListOf (initOne s sp) pn = saListOf s pn ++ (if decide (process sp = pn) then [saId sp] else []).
Proof.
  intros Hne. destruct (initOne_maps s sp Hne) as [_ Hp]. unfold saListOf. rewrite Hp. case_decide as Heq.
  - subst pn. rewrite lookup_insert_eq. cbn. by destruct (processContextMap_ s !! process sp).
  - rewrite lookup_insert_ne by done. by rewrite app_nil_r.
Qed.

Lemma init_lists l s pn :
  pn ≠ [] → saListOf (foldl initOne s l) pn = saListOf s pn ++ (saId <$> filter (λ p, process p = pn) l).
Proof.
  intros Hpn. revert s. induction l as [|sp l IH]; intros s; [by rewrite app_nil_r|]. cbn [foldl]. rewrite IH, filter_cons.
  destruct (decide (process sp = [])) as [He|He].
  - unfold initOne. rewrite bool_decide_eq_true_2 by done. rewrite decide_False by congruence. done.
  - rewrite initOne_list by done. rewrite <- app_assoc. f_equal. by case_decide.
Qed.

Lemma init_abilities l s sp :
  NoDup (saId <$> l) → sp ∈ l → process sp ≠ [] → abilityContextMap_ (foldl initOne s l) !! saId sp = Some (freshAbility sp).
Proof.
  revert s. induction l as [|sp' l IH] using rev_ind; intros s Hnd Hin Hne; [set_solver|].
  rewrite foldl_snoc. rewrite fmap_app in Hnd. apply NoDup_app in Hnd as (Hnd & Hdis & _).
  destruct (decide (process sp' = [])) as [He|He].
  - unfold initOne at 1. rewrite bool_decide_eq_true_2 by done. apply IH; [done| |done].
    apply elem_of_app in Hin as [Hin|Hin]; [done|]. apply list_elem_of_singleton in Hin as ->. done.
  - destruct (initOne_maps (foldl initOne s l) sp' He) as [-> _]. apply elem_of_app in Hin as [Hin|Hin].
    + rewrite lookup_insert_ne; [by apply IH|]. intros Heq.
      apply (Hdis (saId sp)); [by apply list_elem_of_fmap_2|]. rewrite <- Heq. set_solver.
    + apply list_elem_of_singleton in Hin as ->. by rewrite lookup_insert_eq.
Qed.

(** The processes that wait for low memory. *)
Lemma lowmem_fold l pn :
  foldl lowmemState ∅ l !! pn =
  if decide (pn = []) then None
  else if decide (filter (λ p, process p = pn) l = []) then None
  else Some (forallb (λ p, negb (recycleStrategy p =? IMMEDIATELY)) (filter (λ p, process p = pn) l)).
Proof.
  induction l as [|sp l IH] using rev_ind; [cbn [foldl]; rewrite lookup_empty; by repeat case_decide|].
  rewrite foldl_snoc, filter_app, filter_cons, filter_nil. unfold lowmemState at 1.
  destruct (decide (process sp = [])) as [He|He].
  { rewrite bool_decide_eq_true_2 by done. rewrite IH. destruct (decide (pn = [])); [done|].
    rewrite (decide_False (P := process sp = pn)) by congruence. by rewrite app_nil_r. }
  rewrite bool_decide_eq_false_2 by done. destruct (decide (process sp = pn)) as [<-|Hne].
  - rewrite (decide_False (P := process sp = [])) by done. rewrite forallb_app. cbn [forallb].
    rewrite decide_False by (by destruct (filter _ l)). destruct (recycleStrategy sp =? IMMEDIATELY); cbn [negb andb].
    + by rewrite lookup_insert_eq, andb_false_r.
    + rewrite lookup_map_touch, decide_True, IH by done. rewrite decide_False by done. rewrite !andb_true_r.
      clear IH. destruct (decide _) as [Hf|Hf]; [by rewrite Hf|reflexivity].
  - rewrite app_nil_r. rewrite <- IH. destruct (_ =? _); [by rewrite lookup_insert_ne|].
    rewrite lookup_map_touch. by rewrite decide_False.
Qed.

Lemma foldl_initOne_lowmem l s : lowMemoryProcessList_ (foldl initOne s l) = lowMemoryProcessList_ s.
Proof. revert s. induction l as [|p l IH]; intros s; [done|]. simpl. rewrite IH. unfold initOne. by case_bool_decide. Qed.

(** The map holds [true] for a process exactly if it has SAs and none is recycled immediately. *)
Lemma lowmem_true l pn :
  foldl lowmemState ∅ l !! pn = Some true ↔
  pn ≠ [] ∧ (∃ p, p ∈ l ∧ process p = pn) ∧ ∀ p, p ∈ l → process p = pn → recycleStrategy p ≠ IMMEDIATELY.
Proof.
  rewrite lowmem_fold. destruct (decide (pn = [])) as [|Hne]; [naive_solver|].
  assert (Hf : ∀ p, p ∈ filter (λ p, process p = pn) l ↔ process p = pn ∧ p ∈ l) by (intros p; by rewrite list_elem_of_filter).
  destruct (decide _) as [Hn|Hn].
  - split; [done|]. intros (_ & (p & H1 & H2) & _). rewrite Hn in Hf. pose proof (proj2 (Hf p) (conj H2 H1)) as H3. by apply elem_of_nil in H3.
  - split.
    + intros [= Hall]. rewrite forallb_forall in Hall. split_and!; [done| |].
      * destruct (filter _ l) as [|p ?]; [done|]. exists p. apply and_comm, Hf. left.
      * intros p H1 H2. specialize (Hall p (proj1 (list_elem_of_In _ _) (proj2 (Hf p) (conj H2 H1)))). lia.
    + intros (_ & _ & Hall). f_equal. apply forallb_forall. intros p Hp%list_elem_of_In. apply Hf in Hp as [H1 H2].
      specialize (Hall p H2 H1). lia.
Qed.

Section init.
Context `{E : Env}.

(** Initialisation from well-formed profiles: every SA with a process name gets a
    context, not loaded, with the profile's settings and its delay limited; every process
    lists its SAs in the order of the profiles; and a process is told of low memory
    exactly if it has SAs and none of them is recycled immediately. *)
Theorem init_contexts profiles w :
  profiles_ok profiles → w_sched w = emptySched →
  let s := w_sched (SchedulerInit profiles w).2 in
  (∀ sp, sp ∈ profiles → process sp ≠ [] → abilityContextMap_ s !! saId sp = Some (freshAbility sp)) ∧
  (∀ pn, pn ≠ [] → saListOf s pn = saId <$> filter (λ p, process p = pn) profiles) ∧
  (∀ pn, pn ∈ lowMemoryProcessList_ s ↔
     pn ≠ [] ∧ (∃ p, p ∈ profiles ∧ process p = pn) ∧
     ∀ p, p ∈ profiles → process p = pn → recycleStrategy p ≠ IMMEDIATELY).
Proof.
  intros [Hnd _ _] Hw. set (s0 := foldl initOne emptySched profiles).
  set (lm := filter (λ pn, foldl lowmemState ∅ profiles !! pn = Some true) (sorted_keys u16_le (foldl lowmemState ∅ profiles))).
  assert (Hs : wp (SchedulerInit profiles) (λ _ w', ctxs w' = (abilityContextMap_ s0, processContextMap_ s0) ∧
                 lowMemoryProcessList_ (w_sched w') = lowMemoryProcessList_ s0 ++ lm) w).
  { unfold SchedulerInit, InitStateContext, InitLowMemProcessList. wp_seq.
    do 3 (try wp_seq; apply (wp_same (λ w, (ctxs w, lowMemoryProcessList_ (w_sched w)))); [solve_deep|]; cbv beta;
          let w1 := fresh "w" in let H := fresh "H" in intros _ w1 H).
    rewrite H0 in H1. rewrite H in H1. clear H H0. injection H1 as H1 H2 H3. rewrite Hw in H1, H2, H3. cbn in H1, H2, H3.
    unfold ctxs. rewrite H1, H2. by split. }
  pose proof Hs as Hw'. unfold wp in Hw'. destruct (SchedulerInit profiles w) as [r w']. cbn in Hw' |- *.
  destruct Hw' as [Hc Hl]. unfold ctxs in Hc. injection Hc as Ha Hp. unfold saListOf at 1. rewrite Ha, Hp. split_and!.
  - intros sp Hin Hne. by apply init_abilities.
  - intros pn Hpn. by apply (init_lists profiles emptySched pn).
  - intros pn. rewrite Hl. subst s0. rewrite foldl_initOne_lowmem. cbn [lowMemoryProcessList_ emptySched app]. subst lm.
    rewrite list_elem_of_filter, elem_of_sorted_keys. rewrite <- lowmem_true. split; [by intros [H _]|].
    intros H. split; [done|by rewrite H].
Qed.
End init.

Lemma init_contexts_witness :
  let s := w_sched (SchedulerInit profiles0 (emptyWorld KSystemAbilityManager 0 caller0)).2 in
  saListOf s foo = [401; 402].
Proof.
  destruct (init_contexts profiles0 (emptyWorld KSystemAbilityManager 0 caller0) profiles0_ok eq_refl) as (_ & H & _).
  cbv zeta. rewrite H by done. vm_compute. reflexivity.
Defined.

(** ** Idle processes *)

Section lru.
Context `{E : Env}.

(** SA [k] of the list waits to be unloaded, in a process that is running or stopping. *)
Definition idleSa (s : Sched) (listed : list Z) (pn : u16string) (k : Z) (a : SystemAbilityContext)
    (p : SystemProcessContext) : Prop :=
  k ∈ listed ∧ abilityContextMap_ s !! k = Some a ∧ a_state a = UNLOADABLE ∧ ownProcessContext a = Some pn ∧
  processContextMap_ s !! pn = Some p ∧ p_state p ≠ NOT_STARTED.

(** The process never stopped before, or not within the two minutes before the clock is read. *)
Definition settledAt (p : SystemProcessContext) (now : Z) : Prop := lastStopTime p = -1 ∨ 120000 ≤ now - lastStopTime p.
(** ... whenever the clock is read. *)
Definition settled (p : SystemProcessContext) : Prop := ∀ tr, settledAt p (env_GetTickCount tr).

(** An entry is right: it is of an SA of the list that is idle since the time of the entry. *)
Definition idleOf (s : Sched) (listed : list Z) (info : IdleProcessInfo) : Prop :=
  ∃ k a p, idleSa s listed (ipi_processName info) k a p ∧ (∃ tr, settledAt p (env_GetTickCount tr)) ∧
    info = MkIdleProcessInfo (pid p) (ipi_processName info) (lastIdleTime a).

Lemma GetIdle_wp w said listed :
  ctx_inv (w_sched w) → said ∈ listed →
  wp (GetIdleProcessInfo said) (λ o w', w_sched w' = w_sched w ∧ (∀ info, o = Some info → idleOf (w_sched w) listed info) ∧
    ∀ pn a p, idleSa (w_sched w) listed pn said a p → settled p → o = Some (MkIdleProcessInfo (pid p) pn (lastIdleTime a))) w.
Proof.
  intros HI Hin. unfold GetIdleProcessInfo, GetSystemAbilityContext. wp_seq.
  destruct (abilityContextMap_ (w_sched w) !! said) as [a|] eqn:Ha.
  2: { wp_seq. split_and!; [done|done|]. intros pn a p (_ & Ha' & _). congruence. }
  destruct (ctx_owner _ _ _ HI Ha) as (pn & p & Hown & Hp & _ & Hok). rewrite Hown, Hp. cbn.
  unfold ownProcess. wp_seq. rewrite Ha. cbn [default from_option id].
  rewrite Hown. cbn [default from_option id]. rewrite Hp. cbn [default from_option id].
  assert (Huniq : ∀ pn' a' p', idleSa (w_sched w) listed pn' said a' p' →
    pn' = pn ∧ a' = a ∧ p' = p ∧ a_state a = UNLOADABLE ∧ p_state p ≠ NOT_STARTED).
  { intros pn' a' p' (_ & Ha' & Hst & Hown' & Hp' & Hps). assert (a' = a) as -> by congruence.
    assert (pn' = pn) as -> by congruence. assert (p' = p) as -> by congruence. done. }
  destruct (negb _ || _) eqn:Hst.
  { wp_seq. split_and!; [done|done|]. intros pn' a' p' Hidle. destruct (Huniq _ _ _ Hidle) as (_ & _ & _ & H1 & H2).
    rewrite (bool_decide_eq_true_2 (a_state a = UNLOADABLE)), (bool_decide_eq_false_2 (p_state p = NOT_STARTED)) in Hst by done. done. }
  apply orb_false_iff in Hst as [Hs1 Hs2].
  apply negb_false_iff, bool_decide_eq_true in Hs1. apply bool_decide_eq_false in Hs2. apply wp_bind.
  eapply (wp_mono _ (λ (recent : bool) w1, w_sched w1 = w_sched w ∧
    ∃ tr, recent = true ↔ ¬ settledAt p (env_GetTickCount tr))).
  { unfold settledAt. destruct (Z.eqb_spec (lastStopTime p) (-1)); cbn [negb].
    - wp_seq. split; [done|]. exists []. naive_solver.
    - unfold GetTickCount, ask. wp_seq. split; [done|]. exists (w_trace w). rewrite Z.ltb_lt. unfold TWO_MINUTES_MS. lia. }
  cbv beta. intros recent w1 [Hw (tr & Hrec)]. destruct recent; wp_seq; (split; [exact Hw|split]).
  - done.
  - intros pn' a' p' Hidle Hset. destruct (Huniq _ _ _ Hidle) as (_ & _ & -> & _). by destruct (proj1 Hrec eq_refl).
  - intros info [= <-]. exists said, a, p. cbn. rewrite (pk_name _ _ _ Hok). split_and!; [done| |done]. exists tr.
    unfold settledAt in *. destruct (decide (lastStopTime p = -1 ∨ 120000 ≤ env_GetTickCount tr - lastStopTime p)) as [?|Hn]; [done|].
    apply Hrec in Hn. done.
  - intros pn' a' p' Hidle _. destruct (Huniq _ _ _ Hidle) as (-> & -> & -> & _). by rewrite (pk_name _ _ _ Hok).
Qed.

(** The first loop keeps one entry per process, the latest. *)
Definition latest_ok (s : Sched) (listed : list Z) (m : gmap u16string IdleProcessInfo) : Prop :=
  ∀ pn info, m !! pn = Some info → ipi_processName info = pn ∧ idleOf s listed info.

(** The table has an entry of the process, of that time or later. *)
Definition covers (m : gmap u16string IdleProcessInfo) (pn : u16string) (t : Z) : Prop :=
  ∃ info, m !! pn = Some info ∧ t ≤ ipi_lastIdleTime info.

Lemma keepLatest_ok s listed m info : latest_ok s listed m → idleOf s listed info → latest_ok s listed (keepLatest m info).
Proof.
  intros Hm Hi pn i. unfold keepLatest.
  assert (Hins : <[ipi_processName info := info]> m !! pn = Some i → ipi_processName i = pn ∧ idleOf s listed i).
  { rewrite lookup_insert_Some. intros [[<- <-]|[_ H]]; [done|by apply Hm]. }
  destruct (m !! ipi_processName info); [case_match; [exact Hins|apply Hm]|exact Hins].
Qed.
Lemma keepLatest_covers m info pn t :
  covers m pn t ∨ pn = ipi_processName info ∧ t = ipi_lastIdleTime info → covers (keepLatest m info) pn t.
Proof.
  unfold covers, keepLatest. intros H.
  destruct (m !! ipi_processName info) as [old|] eqn:Ho; [destruct (Z.ltb_spec (ipi_lastIdleTime old) (ipi_lastIdleTime info))|].
  all: destruct (decide (pn = ipi_processName info)) as [->|Hne].
  all: rewrite ?lookup_insert_eq, ?lookup_insert_ne by done.
  all: destruct H as [(i & Hi & Ht)|[? ->]]; simplify_eq; eexists; (split; [by eauto|lia]).
Qed.

(** The first loop over the list. *)
Lemma collect_wp (listed todo : list Z) (m : gmap u16string IdleProcessInfo) w :
  ctx_inv (w_sched w) → (∀ k, k ∈ todo → k ∈ listed) → latest_ok (w_sched w) listed m →
  wp (foldM todo m (λ m said, o ← GetIdleProcessInfo said; mret (match o with Some info => keepLatest m info | None => m end)))
    (λ r w', w_sched w' = w_sched w ∧ latest_ok (w_sched w) listed r ∧
       (∀ pn t, covers m pn t → covers r pn t) ∧
       ∀ pn k a p, k ∈ todo → idleSa (w_sched w) listed pn k a p → settled p → covers r pn (lastIdleTime a)) w.
Proof.
  revert m w. induction todo as [|k todo IH]; intros m w HI Hin Hm.
  { split_and!; [done..|]. by intros ? ? ? ? []%elem_of_nil. }
  cbn [foldM]. wp_seq. eapply wp_mono; [apply (GetIdle_wp w k listed); [done|apply Hin; left]|]. cbv beta.
  intros o w1 (Hw1 & Ho & Hc). wp_seq. rewrite <- Hw1 in HI, Hm, Ho.
  set (m1 := match o with Some info => keepLatest m info | None => m end).
  assert (Hm1 : latest_ok (w_sched w1) listed m1) by (unfold m1; destruct o; [apply keepLatest_ok|]; auto).
  assert (Hmono : ∀ pn t, covers m pn t → covers m1 pn t).
  { intros pn t H. unfold m1. destruct o; [|done]. apply keepLatest_covers. by left. }
  eapply wp_mono; [apply (IH m1 w1 HI); [intros; apply Hin; by right|exact Hm1]|]. cbv beta. rewrite Hw1.
  intros r w2 (Hw2 & Hr & Hmr & Hall). split_and!; [done|done|auto|].
  intros pn k' a p [->|Hk']%elem_of_cons Hidle Hset; [|by eapply Hall].
  apply Hmr. unfold m1. rewrite (Hc _ _ _ Hidle Hset). apply keepLatest_covers. by right.
Qed.

(** None of the SAs of the process is loading or in use. *)
Definition unused (s : Sched) (pn : u16string) : Prop :=
  ∀ p k, processContextMap_ s !! pn = Some p → k ∈ saList p → abilityState s k ≠ Some LOADING ∧ abilityState s k ≠ Some LOADED.

Lemma idle_not_samgr s listed info : ctx_inv s → idleOf s listed info → ipi_processName info ≠ SAMGR_PROCESS_NAME.
Proof.
  intros HI (k & a & p & (_ & Ha & Hst & Hown & Hp & _) & _) Heq.
  destruct (ctx_owner _ _ _ HI Ha) as (pn & p' & Hown' & Hp' & Hk & Hok). pose proof (pk_counts _ _ _ Hok) as Hc.
  unfold counts_ok in Hc. rewrite decide_True in Hc by congruence. destruct Hc as [_ Hc]. specialize (Hc k Hk).
  rewrite (has_state_lookup _ _ _ _ Ha), Hst in Hc. by apply bool_decide_eq_true in Hc.
Qed.

Lemma CanUnload_wp w pn listed info :
  ctx_inv (w_sched w) → ipi_processName info = pn → idleOf (w_sched w) listed info →
  wp (IsSystemProcessCanUnload pn) (λ b w', w_sched w' = w_sched w ∧ (b = true ↔ unused (w_sched w) pn)) w.
Proof.
  intros HI Hpn Hid. pose proof (idle_not_samgr _ _ _ HI Hid) as Hne. unfold IsSystemProcessCanUnload, GetSystemProcessContext.
  pose proof Hid as (k & a & p & (_ & Ha & Hst & Hown & Hp & _) & _). rewrite Hpn in Hp, Hne, Hown. wp_seq. rewrite Hp. cbn.
  destruct (can_unload_decides w pn p HI Hp Hne) as (b & Hb & Hiff). unfold wp. rewrite Hb. cbn. split; [done|].
  rewrite Hiff. unfold unused. rewrite Hp. split.
  - intros [_ H] p' k' [= <-]. apply H.
  - intros H. split; [|intros k' Hk'; by apply (H p)]. exists k. destruct (ctx_owner _ _ _ HI Ha) as (pn' & p' & Hown' & Hp' & Hk & _).
    assert (pn' = pn) as -> by congruence. assert (p' = p) as -> by congruence.
    split; [done|]. left. unfold abilityState. by rewrite Ha, <- Hst.
Qed.

Lemma reclaim_wp (m : gmap u16string IdleProcessInfo) listed l acc w :
  ctx_inv (w_sched w) → latest_ok (w_sched w) listed m → (∀ pn, pn ∈ l → is_Some (m !! pn)) →
  wp (foldM l acc (λ acc pn, b ← IsSystemProcessCanUnload pn;
                             mret (if (b : bool) then acc ++ option_list (m !! pn) else acc)))
    (λ r w', w_sched w' = w_sched w ∧
       ∃ l', r = acc ++ l' ∧ sublist (ipi_processName <$> l') l ∧
         ∀ i, i ∈ l' ↔ ∃ pn, pn ∈ l ∧ m !! pn = Some i ∧ unused (w_sched w) pn) w.
Proof.
  revert acc w. induction l as [|pn l IH]; intros acc w HI Hm Hkeys.
  { split; [done|]. exists []. rewrite app_nil_r. split_and!; [done|constructor|]. set_solver. }
  cbn [foldM]. wp_seq. destruct (Hkeys pn) as [info Hi]; [left|]. rewrite Hi. cbn [option_list].
  destruct (Hm _ _ Hi) as [Hn Hid]. eapply wp_mono; [by apply (CanUnload_wp w pn listed info)|]. cbv beta.
  intros b w1 [Hw1 Hb]. wp_seq. rewrite <- Hw1 in HI, Hm.
  eapply wp_mono; [apply IH; [done|done|intros; apply Hkeys; by right]|]. cbv beta.
  intros r w2. rewrite Hw1. intros (Hw2 & l' & -> & Hsub & Hall). split; [congruence|]. destruct b.
  - exists (info :: l'). rewrite <- app_assoc. split_and!; [done|cbn; rewrite Hn; by constructor|].
    intros i. rewrite elem_of_cons, Hall. setoid_rewrite elem_of_cons. pose proof (proj1 Hb eq_refl). naive_solver.
  - exists l'. split_and!; [done|by constructor|]. intros i. rewrite Hall. setoid_rewrite elem_of_cons. split.
    + naive_solver.
    + intros (pn' & [->|Hin] & Hi' & Hu); [by apply Hb in Hu|eauto].
Qed.

(** C39: The processes offered to the memory manager. They are ordered by the time since which they
    have been idle, the earliest first, and appear once each. Every one of them is running or stopping, holds
    an SA of the low-memory list that waits to be unloaded, since the time of the entry, has no SA that is
    loading or in use, and has not stopped within the last two minutes. And every process of which an SA of the
    list waits to be unloaded, of which no SA is loading or in use, and which has not stopped within two
    minutes of any reading of the clock, is offered, with a time no earlier than that of any of its
    waiting SAs of the list: the time is that of the last of them.  The query changes nothing in the scheduler. *)
Theorem lru_idle w :
  ctx_inv (w_sched w) → collectManager_ (w_mgr w) = true → abilityStateScheduler_ (w_mgr w) = true →
  let listed := (GetLowMemPrepareList w).1 in
  let '((r, l), w') := GetLruIdleSystemAbilityProc w in
  r = ERR_OK ∧ w_sched w' = w_sched w ∧
  Sorted (λ i j, ipi_lastIdleTime i ≤ ipi_lastIdleTime j) l ∧ NoDup (ipi_processName <$> l) ∧
  (∀ info, info ∈ l → idleOf (w_sched w) listed info ∧ unused (w_sched w) (ipi_processName info)) ∧
  (∀ pn k a p, idleSa (w_sched w) listed pn k a p → settled p → unused (w_sched w) pn →
     ∃ info, info ∈ l ∧ ipi_processName info = pn ∧ lastIdleTime a ≤ ipi_lastIdleTime info).
Proof.
  intros HI Hc Hs listed.
  assert (Hwp : wp GetLruIdleSystemAbilityProc (λ rl w', rl.1 = ERR_OK ∧ w_sched w' = w_sched w ∧
    Sorted (λ i j, ipi_lastIdleTime i ≤ ipi_lastIdleTime j) rl.2 ∧ NoDup (ipi_processName <$> rl.2) ∧
    (∀ info, info ∈ rl.2 → idleOf (w_sched w) listed info ∧ unused (w_sched w) (ipi_processName info)) ∧
    (∀ pn k a p, idleSa (w_sched w) listed pn k a p → settled p → unused (w_sched w) pn →
       ∃ info, info ∈ rl.2 ∧ ipi_processName info = pn ∧ lastIdleTime a ≤ ipi_lastIdleTime info)) w).
  2: { unfold wp in Hwp. by destruct (GetLruIdleSystemAbilityProc w) as [[r l] w']. }
  unfold GetLruIdleSystemAbilityProc. wp_seq. rewrite Hc, Hs. cbn [negb orb]. apply wp_bind. unfold wp at 1. fold listed.
  assert (Hw0 : w_sched (GetLowMemPrepareList w).2 = w_sched w) by (symmetry; apply rest_sched, GetLowMemPrepareList_rest).
  rewrite <- Hw0 in HI |- *. revert Hw0 HI. generalize ((GetLowMemPrepareList w).2). intros w0 Hw0 HI. apply wp_bind.
  eapply wp_mono; [apply (collect_wp listed listed ∅ w0 HI); [done|intros pn info; by rewrite lookup_empty]|]. cbv beta.
  intros m w1 (Hw1 & Hm & _ & Hcov). wp_seq. rewrite <- Hw1 in HI, Hm, Hcov.
  eapply wp_mono; [apply (reclaim_wp m listed); [done|done|intros pn; apply elem_of_sorted_keys]|]. cbv beta.
  intros r w2 (Hw2 & l' & -> & Hsub & Hall). wp_seq. cbn [fst snd app]. rewrite <- Hw1. split_and!; [done|done| | | |].
  - match goal with |- Sorted _ ?x => change (Sorted idle_le x) end. apply Sorted_merge_sort. intros x y. unfold idle_le. lia.
  - rewrite merge_sort_Permutation. eapply sublist_NoDup; [exact (NoDup_sorted_keys u16_le m)|exact Hsub].
  - intros info. rewrite merge_sort_Permutation, Hall. intros (pn & _ & Hi & Hu). by destruct (Hm _ _ Hi) as [-> ?].
  - intros pn k a p Hidle Hset Hu. destruct (Hcov pn k a p (proj1 Hidle) Hidle Hset) as (info & Hi & Ht). exists info.
    rewrite merge_sort_Permutation, Hall. split_and!; [|by apply (Hm _ _ Hi)|done]. exists pn. split_and!; [|done..].
    apply elem_of_sorted_keys. by rewrite Hi.
Qed.
End lru.

Lemma lru_idle_witness :
  (ipi_processName <$> (GetLruIdleSystemAbilityProc idle).1.2) = [foo] ∧
  ∀ info, info ∈ (GetLruIdleSystemAbilityProc idle).1.2 →
    idleOf (w_sched idle) (GetLowMemPrepareList idle).1 info ∧ unused (w_sched idle) (ipi_processName info).
Proof.
  split; [vm_compute; reflexivity|].
  pose proof (lru_idle idle idle_inv ltac:(vm_compute; reflexivity) ltac:(vm_compute; reflexivity)) as H.
  cbv zeta in H. destruct (GetLruIdleSystemAbilityProc idle) as [[r l] w']. destruct H as (_ & _ & _ & _ & H & _). exact H.
Defined.
