(* ===== verification/LifetimeSpec.v ===== *)
(** Ends of lifetimes: what the death of a listener's process and the destruction of
    the manager leave behind. *)
From S2P Require Import Prelude Types World Ffrt Util TimeHandler CollectFrame CollectTasks Contexts Interfaces Hoare ManagerBase StateMachine.
From S2P Require Import EventHandler Scheduler SchedulerQuery SchedulerInv SchedulerFrame Subscribers Manager Registry.
From S2P Require Import DBinder DumpStats.
From S2P Require Import System SystemRegistry Concrete ManagerSpec.

(** ** The death of a listener *)

Definition isOf (obj : RemoteObject) (i : SAListener) : Prop := listener_object i = Some obj.
#[local] Instance isOf_dec obj i : Decision (isOf obj i) := decide (listener_object i = Some obj).
Abbreviation others obj l := (filter (λ i, ¬ isOf obj i) l).

Lemma others_delete obj (l : list SAListener) k i :
  NoDup (listener_object <$> l) → l !! k = Some i → isOf obj i → delete k l = others obj l.
Proof.
  revert k. induction l as [|j l IH]; intros k Hnd Hk Hi; [done|]. rewrite fmap_cons in Hnd.
  apply NoDup_cons in Hnd as [Hj Hnd]. destruct k as [|k]; simpl in Hk.
  - injection Hk as ->. rewrite filter_cons, decide_False by auto. cbn. symmetry. apply filter_id.
    intros x Hx Hx'. apply Hj. rewrite Hi, <- Hx'. by apply list_elem_of_fmap_2.
  - change (delete (S k) (j :: l)) with (j :: delete k l). rewrite filter_cons. rewrite decide_True; [f_equal; by apply IH|]. intros Hj'. apply Hj. rewrite Hj', <- Hi.
    apply list_elem_of_fmap_2. by eapply list_elem_of_lookup_2.
Qed.

Lemma others_absent obj (l : list SAListener) : Some obj ∉ listener_object <$> l → others obj l = l.
Proof. intros H. apply filter_id. intros x Hx Hx'. apply H. rewrite <- Hx'. by apply list_elem_of_fmap_2. Qed.

(** A function applied at the keys of a list. *)
Lemma foldl_alter {A} (f : A → A) (l : list Z) (m : gmap Z A) k :
  (∀ x, f (f x) = f x) →
  foldl (λ m k, alter f k m) m l !! k = if decide (k ∈ l) then f <$> m !! k else m !! k.
Proof.
  intros Hf. revert m. induction l as [|k' l IH]; intros m; [done|]. cbn [foldl]. rewrite IH.
  destruct (decide (k = k')) as [<-|Hne].
  - rewrite (decide_True (P := k ∈ k :: l)) by left. rewrite lookup_alter_eq. case_decide; [|done].
    destruct (m !! k); [|done]. cbn. by rewrite Hf.
  - rewrite lookup_alter_ne by done. do 2 case_decide; try done; set_solver.
Qed.

Section death.
Context `{E : Env}.

Lemma UnSubscribeLocked_others said obj w :
  sub_ok (w_mgr w) →
  listenerMap_ (w_mgr (UnSubscribeSystemAbilityLocked said obj w).2) =
  alter (λ l, others obj l) said (listenerMap_ (w_mgr w)).
Proof.
  intros [_ HI]. rewrite UnSubscribeLocked_eq. destruct (listenerMap_ (w_mgr w) !! said) as [l|] eqn:Hl; cbn [default from_option id].
  - destruct (findListener obj l) as [[k i]|] eqn:Hf; cbn.
    + apply findListener_Some in Hf as [Hk Hi]. apply map_eq. intros k'. destruct (decide (said = k')) as [<-|Hne].
      * rewrite !lookup_alter_eq, Hl. cbn. f_equal. eapply others_delete; [by eapply si_nodup|done|done].
      * by rewrite !lookup_alter_ne.
    + apply findListener_None in Hf; [|by intros; eapply si_some]. symmetry. apply alter_id.
      intros l' Hl'. rewrite Hl in Hl'. injection Hl' as <-. by apply others_absent.
  - cbn. symmetry. apply alter_id. intros l' Hl'. by rewrite Hl in Hl'.
Qed.

Lemma unsubscribeAll_wp obj l w :
  sub_ok (w_mgr w) →
  wp (forM l (λ said, UnSubscribeSystemAbilityLocked said obj))
    (λ _ w', sub_ok (w_mgr w') ∧
             listenerMap_ (w_mgr w') = foldl (λ m k, alter (λ l, others obj l) k m) (listenerMap_ (w_mgr w)) l) w.
Proof.
  revert w. induction l as [|said l IH]; intros w HI; [by split|]. apply wp_bind. unfold wp at 1.
  eapply wp_mono; [apply IH; by apply (UnSubscribeLocked_sub said obj)|]. cbv beta. intros _ w' [H1 H2]. split; [done|].
  rewrite H2. by rewrite UnSubscribeLocked_others.
Qed.

(** C35: When the process of a status listener dies, the listener leaves the list of every SA
    it was subscribed to, the other listeners stay where they are, and the counters per
    process still count the listeners exactly. *)
Theorem listener_death_cleans w obj :
  sub_ok (w_mgr w) →
  let w' := (UnSubscribeSystemAbilityRemote obj w).2 in
  sub_ok (w_mgr w') ∧ ∀ said, listenersAt (w_mgr w') said = others obj (listenersAt (w_mgr w) said).
Proof.
  intros HI. set (Q (_ : unit) w' := sub_ok (w_mgr w') ∧
    ∀ said, listenersAt (w_mgr w') said = others obj (listenersAt (w_mgr w) said)).
  assert (Hwp : wp (UnSubscribeSystemAbilityRemote obj) Q w); [|exact Hwp].
  unfold UnSubscribeSystemAbilityRemote. wp_seq. eapply wp_mono; [by apply unsubscribeAll_wp|]. cbv beta.
  intros _ w1 [H1 H2]. apply (wp_same w_mgr); [solve_respects|]. intros [] w2 H3. unfold Q. rewrite H3. split; [done|].
  intros said. unfold listenersAt. rewrite H2, foldl_alter by (intros; apply list_filter_filter_r; auto).
  case_decide as Hin; [by destruct (_ !! said)|].
  destruct (listenerMap_ (w_mgr w) !! said) eqn:Hs; [|done]. destruct Hin. apply elem_of_sorted_keys. by rewrite Hs.
Qed.
End death.

Lemma listener_death_cleans_witness :
  listenersAt (w_mgr watching) 401 ≠ [] ∧
  listenersAt (w_mgr (UnSubscribeSystemAbilityRemote (sc_AsObject listener1) watching).2) 401 = [].
Proof.
  assert (Hr : reachable profiles0 ∅ watching) by (apply call_reachable, booted_reachable).
  split; [vm_compute; discriminate|].
  rewrite (proj2 (listener_death_cleans watching (sc_AsObject listener1) (ro_listeners _ (reachable_registry _ _ _ Hr))) 401).
  vm_compute. reflexivity.
Defined.

(** ** The end of the manager *)

Section destroy.
Context `{E : Env}.









(** Traces only grow. *)
Definition later : relation World := λ w w', w_trace w ⊆ w_trace w'.
#[local] Instance later_preorder : PreOrder later.
Proof. split; [intros w e He; exact He|]. intros x y z H1 H2 e He. by apply H2, H1. Qed.
Lemma emit_later e : respects later (emit e).
Proof. intros w e' He. by right. Qed.
Lemma modify_later f : (∀ w, w_trace (f w) = w_trace w) → respects later (modify f).
Proof. intros Hf w e He. cbn. by rewrite Hf. Qed.
#[local] Hint Resolve emit_later : respects.
#[local] Hint Extern 1 (respects later (updM _ _)) => (apply modify_later; reflexivity) : respects.
#[local] Hint Extern 1 (respects later (updS _ _)) => (apply modify_later; reflexivity) : respects.
#[local] Hint Extern 1 (respects later (modify _)) => (apply modify_later; reflexivity) : respects.










End destroy.

