(* ===== verification/AccessSpec.v ===== *)
(** Who may call what, and who is told of processes. *)
From S2P Require Import Prelude Types World Ffrt Util Contexts Interfaces Hoare ManagerBase StateMachine.
From S2P Require Import EventHandler Scheduler SchedulerQuery SchedulerInv SchedulerFrame Subscribers Manager Registry.
From S2P Require Import DBinder DumpStats.
From S2P Require Import System SystemRegistry Concrete ManagerSpec.

(** ** Callers *)

Section callers.
Context `{E : Env}.

(** The native process that calls, as the access token tells it. *)
Definition callerName (w : World) : option string :=
  let '(res, name) := env_GetNativeTokenInfo (w_trace w) (callingTokenID (w_caller w)) in
  if res =? ERR_OK then Some name else None.

Lemma CheckCaller_eq name w : CheckCallerProcessName name w = (bool_decide (callerName w = Some name), w).
Proof.
  unfold CheckCallerProcessName, callerName, mbind, M_bind, gets. cbn.
  destruct (env_GetNativeTokenInfo _ _) as [res pname]. cbn. f_equal. destruct (res =? ERR_OK); cbn.
  - apply bool_decide_ext. naive_solver.
  - symmetry. by apply bool_decide_eq_false_2.
Qed.

Lemma GetSaProfile_eq said w : GetSaProfile said w = (saProfileMap_ (w_mgr w) !! said, w).
Proof. reflexivity. Qed.

(** C37: Privileged requests are checked before anything else happens: an SA can be unloaded, and
    its unload cancelled, only by the process that hosts it; idle SAs can be unloaded together
    only by the memory manager; strategies are sent only for the resource scheduler. Any other
    caller gets an error and the whole state is as it was. *)
Theorem callers_checked w said p :
  saProfileMap_ (w_mgr w) !! said = Some p → callerName w ≠ Some (Str16ToStr8 (c_process p)) →
  UnloadSystemAbility Lsched said w = (INVALID_CALL_PROC, w) ∧
  CancelUnloadSystemAbility Lsched said w = (ERR_INVALID_VALUE, w) ∧
  (callerName w ≠ Some "memmgrservice"%string → ManagerUnloadAllIdle Lsched w = (ERR_PERMISSION_DENIED, w)) ∧
  ∀ type l level action, callerName w ≠ Some RESOURCE_SCHEDULE_PROCESS_NAME →
    SendStrategy type l level action w = (ERR_PERMISSION_DENIED, w).
Proof.
  intros Hp Hc. split_and!.
  - unfold UnloadSystemAbility, mbind at 1, M_bind. rewrite GetSaProfile_eq, Hp. cbn.
    unfold CheckCallerProcess, mbind, M_bind. rewrite CheckCaller_eq. by rewrite bool_decide_eq_false_2.
  - unfold CancelUnloadSystemAbility. destruct (CheckInputSysAbilityId said); [|done]. cbn [negb].
    unfold mbind at 1, M_bind. rewrite GetSaProfile_eq, Hp. cbn.
    unfold CheckCallerProcess, mbind, M_bind. rewrite CheckCaller_eq. by rewrite bool_decide_eq_false_2.
  - intros Hm. unfold ManagerUnloadAllIdle, mbind, M_bind. rewrite CheckCaller_eq. by rewrite bool_decide_eq_false_2.
  - intros type l level action Hm. unfold SendStrategy, mbind, M_bind. rewrite CheckCaller_eq.
    by rewrite bool_decide_eq_false_2.
Qed.
End callers.

Lemma callers_checked_witness :
  UnloadSystemAbility Lsched 501 loaded = (INVALID_CALL_PROC, loaded).
Proof.
  refine (proj1 (callers_checked loaded 501 (FilterCommonSaProfile (profile bar 501 LOW_MEMORY)) _ _)).
  - vm_compute. reflexivity.
  - vm_compute. discriminate.
Defined.

(** ** Listeners of processes *)

Definition procObject (i : ProcessListener) : option RemoteObject := psc_AsObject (pl_listener i).
Definition flag (foregroundOnly : bool) (i : ProcessListener) : bool :=
  if foregroundOnly then hasForegroundSubscription i else hasDirectSubscription i.

(** The abstract state: which objects subscribe to what. *)
Definition subscribes (ls : list ProcessListener) (obj : RemoteObject) (fg : bool) : Prop :=
  ∃ i, i ∈ ls ∧ procObject i = Some obj ∧ flag fg i = true.

Record plist_ok (ls : list ProcessListener) : Prop := {
  pl_objects i : i ∈ ls → is_Some (procObject i);
  pl_nodup : NoDup (procObject <$> ls);
  pl_used i : i ∈ ls → hasDirectSubscription i || hasForegroundSubscription i = true;
}.

(** Items are identified by their objects. *)
Lemma object_inj ls i j : NoDup (procObject <$> ls) → i ∈ ls → j ∈ ls → procObject i = procObject j → i = j.
Proof.
  intros Hnd [k Hi]%list_elem_of_lookup_1 [k' Hj]%list_elem_of_lookup_1 Heq.
  enough (k = k') as -> by congruence.
  eapply (NoDup_lookup _ k k' (procObject i) Hnd); rewrite list_lookup_fmap, ?Hi, ?Hj; cbn; congruence.
Qed.

Lemma elem_of_item_delete ls k i j :
  NoDup (procObject <$> ls) → ls !! k = Some i → (j ∈ delete k ls ↔ j ∈ ls ∧ procObject j ≠ procObject i).
Proof.
  intros Hnd Hk. pose proof (delete_Permutation ls k i Hk) as Hp.
  assert (Hin : j ∈ ls ↔ j ∈ i :: delete k ls) by (split; intros H; [by rewrite <- Hp|by rewrite Hp]).
  apply (fmap_Permutation procObject) in Hp. rewrite Hp, fmap_cons in Hnd.
  apply NoDup_cons in Hnd as [Hi Hnd]. rewrite Hin, elem_of_cons. split.
  - intros Hj. split; [by right|]. intros Heq. apply Hi. rewrite <- Heq. by apply list_elem_of_fmap_2.
  - intros [[->|Hj] Hne]; [done|done].
Qed.

Lemma alter_item (ls : list ProcessListener) k i f : ls !! k = Some i → alter f k ls = <[k := f i]> ls.
Proof.
  revert k. induction ls as [|j ls IH]; intros [|k] Hk; try done; cbn in Hk |- *; [congruence|]. f_equal. by apply IH.
Qed.
Lemma insert_item_Permutation ls k (i x : ProcessListener) : ls !! k = Some i → <[k := x]> ls ≡ₚ x :: delete k ls.
Proof.
  intros Hk. rewrite insert_take_drop by (by eapply lookup_lt_Some). rewrite delete_take_drop.
  symmetry. apply Permutation_middle.
Qed.

Lemma plist_delete ls k i : plist_ok ls → ls !! k = Some i → plist_ok (delete k ls).
Proof.
  intros [Ho Hn Hu] Hk. split.
  - intros j [Hj _]%(elem_of_item_delete ls k i); auto.
  - eapply sublist_NoDup; [exact Hn|]. apply fmap_sublist, sublist_delete.
  - intros j [Hj _]%(elem_of_item_delete ls k i); auto.
Qed.

Lemma plist_cons ls x :
  plist_ok ls → is_Some (procObject x) → hasDirectSubscription x || hasForegroundSubscription x = true →
  procObject x ∉ procObject <$> ls → plist_ok (x :: ls).
Proof.
  intros [Ho Hn Hu] Hx Hf Hne. split; [|rewrite fmap_cons; by constructor|]; intros j [->|Hj]%elem_of_cons; auto.
Qed.

Lemma plist_perm ls ls' : ls ≡ₚ ls' → plist_ok ls → plist_ok ls'.
Proof.
  intros Hp [Ho Hn Hu]. split; [intros i; rewrite <- Hp; apply Ho| |intros i; rewrite <- Hp; apply Hu].
  by rewrite <- Hp.
Qed.

(** What the three changes of the list do to the subscriptions. *)
Lemma subscribes_cons x ls obj fg :
  subscribes (x :: ls) obj fg ↔ (procObject x = Some obj ∧ flag fg x = true) ∨ subscribes ls obj fg.
Proof. unfold subscribes. setoid_rewrite elem_of_cons. naive_solver. Qed.
Lemma subscribes_perm ls ls' obj fg : ls ≡ₚ ls' → subscribes ls obj fg ↔ subscribes ls' obj fg.
Proof. intros Hp. unfold subscribes. by setoid_rewrite Hp. Qed.
Lemma subscribes_delete ls k i obj fg :
  plist_ok ls → ls !! k = Some i → subscribes (delete k ls) obj fg ↔ subscribes ls obj fg ∧ procObject i ≠ Some obj.
Proof.
  intros [_ Hn _] Hk. unfold subscribes. split.
  - intros (j & [Hj Hne]%(elem_of_item_delete ls k i) & Ho & Hf); [|done..]. split; [by exists j|congruence].
  - intros [(j & Hj & Ho & Hf) Hne]. exists j. split; [|done]. apply (elem_of_item_delete ls k i); [done..|].
    split; [done|congruence].
Qed.

(** Replacing an item by one with the same object. *)
Lemma subscribes_insert ls k i x obj :
  plist_ok ls → ls !! k = Some i → procObject i = Some obj → procObject x = Some obj →
  hasDirectSubscription x || hasForegroundSubscription x = true →
  plist_ok (<[k := x]> ls) ∧
  ∀ obj' fg', subscribes (<[k := x]> ls) obj' fg' ↔
    if decide (obj' = obj) then flag fg' x = true else subscribes ls obj' fg'.
Proof.
  intros HI Hk Hi Hx Hf. pose proof (insert_item_Permutation ls k i x Hk) as Hp. split.
  - eapply plist_perm; [symmetry; exact Hp|]. apply plist_cons; [by eapply plist_delete|by rewrite Hx|done|].
    intros (j & Hj & Hin)%list_elem_of_fmap. apply (elem_of_item_delete ls k i) in Hin as [_ Hne]; [|apply HI|done].
    congruence.
  - intros obj' fg'. rewrite (subscribes_perm _ _ _ _ Hp), subscribes_cons, (subscribes_delete ls k i) by done.
    rewrite Hx, Hi. case_decide; subst; naive_solver.
Qed.

(** The item found for an object. *)
Lemma found_item ls obj k i :
  list_find (λ i, isListener obj i = true) ls = Some (k, i) → ls !! k = Some i ∧ procObject i = Some obj.
Proof. intros (Hk & Hi & _)%list_find_Some. split; [done|]. unfold isListener in Hi. by apply bool_decide_eq_true in Hi. Qed.
Lemma not_found_item ls obj :
  list_find (λ i, isListener obj i = true) ls = None → Some obj ∉ procObject <$> ls.
Proof.
  rewrite list_find_None, Forall_forall. intros H (i & Hi & Hin)%list_elem_of_fmap. apply (H i Hin).
  unfold isListener. by apply bool_decide_eq_true.
Qed.
Lemma not_found_subscribes ls obj fg : Some obj ∉ procObject <$> ls → ¬ subscribes ls obj fg.
Proof. intros H (i & Hi & Ho & _). apply H. rewrite <- Ho. by apply list_elem_of_fmap_2. Qed.
Lemma flag_subscribeFlag fg b i fg' : flag fg' (subscribeFlag fg b i) = if decide (fg' = fg) then b else flag fg' i.
Proof. by destruct i, fg, fg'. Qed.
Lemma object_subscribeFlag fg b i : procObject (subscribeFlag fg b i) = procObject i.
Proof. by destruct fg. Qed.
Lemma subscribes_at ls k i obj fg :
  plist_ok ls → ls !! k = Some i → procObject i = Some obj → subscribes ls obj fg ↔ flag fg i = true.
Proof.
  intros HI Hk Hi. apply list_elem_of_lookup_2 in Hk. split; [|by exists i].
  intros (j & Hj & Ho & Hf). rewrite (object_inj ls i j); [done|apply HI|done|done|congruence].
Qed.

Abbreviation plisteners w := (processListeners_ (w_sched w)).

Section processes.
Context `{E : Env}.

Lemma Subscribe_refines w l obj fg :
  plist_ok (plisteners w) → psc_AsObject l = Some obj →
  wp (SubscribeSystemProcess (Some l) fg) (λ r w', r = ERR_OK ∧ plist_ok (plisteners w') ∧
    ∀ obj' fg', subscribes (plisteners w') obj' fg' ↔ subscribes (plisteners w) obj' fg' ∨ (obj' = obj ∧ fg' = fg)) w.
Proof.
  intros HI Hobj. unfold SubscribeSystemProcess, listenerObject. rewrite Hobj. cbn [fmap option_fmap option_map].
  wp_seq. destruct (list_find _ _) as [[k i]|] eqn:Hf; wp_seq.
  - apply found_item in Hf as [Hk Hi]. split; [done|]. cbn. rewrite (alter_item _ _ _ _ Hk).
    edestruct (subscribes_insert (plisteners w) k i (subscribeFlag fg true i) obj HI Hk Hi) as [H1 H2];
      [by rewrite object_subscribeFlag|by destruct fg; cbn; rewrite ?orb_true_r|].
    split; [exact H1|]. intros obj' fg'. rewrite H2, flag_subscribeFlag. case_decide as Ho; [subst obj'|naive_solver].
    rewrite (subscribes_at _ _ _ _ _ HI Hk Hi). case_decide; naive_solver.
  - apply not_found_item in Hf. apply (wp_same w_sched); [solve_respects|]. intros [] w1 Hw. wp_seq. split; [done|].
    cbn. rewrite Hw.
    assert (Hp : plisteners w ++ [newProcessListener l fg] ≡ₚ newProcessListener l fg :: plisteners w)
      by (rewrite Permutation_app_comm; done).
    split.
    + eapply plist_perm; [symmetry; exact Hp|]. apply plist_cons; [done|by exists obj|by destruct fg|].
      unfold procObject at 1. cbn. by rewrite Hobj.
    + intros obj' fg'. rewrite (subscribes_perm _ _ _ _ Hp), subscribes_cons. unfold procObject. cbn. rewrite Hobj.
      destruct fg, fg'; naive_solver.
Qed.

Lemma UnSubscribe_refines w l obj fg :
  plist_ok (plisteners w) → psc_AsObject l = Some obj →
  wp (UnSubscribeSystemProcess (Some l) fg) (λ r w', r = ERR_OK ∧ plist_ok (plisteners w') ∧
    ∀ obj' fg', subscribes (plisteners w') obj' fg' ↔ subscribes (plisteners w) obj' fg' ∧ ¬ (obj' = obj ∧ fg' = fg)) w.
Proof.
  intros HI Hobj. unfold UnSubscribeSystemProcess, listenerObject. rewrite Hobj. cbn [fmap option_fmap option_map].
  wp_seq. destruct (list_find _ _) as [[k i]|] eqn:Hf; wp_seq.
  2: { apply not_found_item in Hf. split_and!; [done|done|]. intros obj' fg'.
       pose proof (not_found_subscribes _ _ fg' Hf). naive_solver. }
  apply found_item in Hf as [Hk Hi]. set (x := subscribeFlag fg false i).
  assert (Hx : procObject x = Some obj) by (unfold x; by rewrite object_subscribeFlag).
  destruct (negb (hasDirectSubscription x) && negb (hasForegroundSubscription x)) eqn:Hb; wp_seq.
  - apply (wp_same w_sched); [solve_respects|]. intros [] w1 Hw. wp_seq. split; [done|]. cbn. rewrite Hw.
    split; [by eapply plist_delete|]. intros obj' fg'. rewrite (subscribes_delete _ _ _ _ _ HI Hk), Hi.
    destruct (decide (obj' = obj)) as [->|]; [|naive_solver]. rewrite (subscribes_at _ _ _ _ _ HI Hk Hi).
    assert (Hfx : flag fg' x = false) by (destruct fg'; cbn; destruct (hasDirectSubscription x), (hasForegroundSubscription x); done).
    unfold x in Hfx. rewrite flag_subscribeFlag in Hfx. split; [by intros [_ []]|]. intros [H1 H2].
    case_decide; [by destruct H2|congruence].
  - split; [done|]. cbn. destruct (subscribes_insert _ k i x obj HI Hk Hi Hx) as [H1 H2].
    { by destruct (hasDirectSubscription x), (hasForegroundSubscription x). }
    split; [exact H1|]. intros obj' fg'. rewrite H2. case_decide as Ho; [subst obj'|naive_solver].
    unfold x. rewrite flag_subscribeFlag, (subscribes_at _ _ _ _ _ HI Hk Hi). case_decide; naive_solver.
Qed.

Lemma UnSubscribeRemote_refines w obj :
  plist_ok (plisteners w) →
  wp (UnSubscribeSystemProcessRemote (Some obj)) (λ _ w', plist_ok (plisteners w') ∧
    ∀ obj' fg', subscribes (plisteners w') obj' fg' ↔ subscribes (plisteners w) obj' fg' ∧ obj' ≠ obj) w.
Proof.
  intros HI. unfold UnSubscribeSystemProcessRemote. wp_seq. unfold wp. cbn.
  assert (Hin : ∀ i, i ∈ filter (λ i, isListener obj i = false) (plisteners w) ↔ i ∈ plisteners w ∧ procObject i ≠ Some obj).
  { intros i. rewrite list_elem_of_filter. unfold isListener. rewrite bool_decide_eq_false. naive_solver. }
  destruct HI as [Ho Hn Hu]. split; [split|].
  - intros i [Hi _]%Hin. auto.
  - eapply sublist_NoDup; [exact Hn|]. apply fmap_sublist, sublist_filter.
  - intros i [Hi _]%Hin. auto.
  - intros obj' fg'. unfold subscribes. split.
    + intros (i & [Hi Hne]%Hin & Hp & Hf). split; [by exists i|congruence].
    + intros [(i & Hi & Hp & Hf) Hne]. exists i. split; [|done]. apply Hin. split; [done|congruence].
Qed.

(** C38: The list of process listeners refines a set of subscriptions, each of an object, to all
    processes or to those of the foreground user: subscribing adds one, unsubscribing removes
    that one and leaves the other kind, the death of the listener removes both. Each object has
    one item, and an item without subscriptions is dropped. *)
Theorem process_subscriptions w l obj fg :
  plist_ok (plisteners w) → psc_AsObject l = Some obj →
  let '(r1, w1) := SubscribeSystemProcess (Some l) fg w in
  let '(r2, w2) := UnSubscribeSystemProcess (Some l) fg w in
  let w3 := (UnSubscribeSystemProcessRemote (Some obj) w).2 in
  r1 = ERR_OK ∧ r2 = ERR_OK ∧ plist_ok (plisteners w1) ∧ plist_ok (plisteners w2) ∧ plist_ok (plisteners w3) ∧
  ∀ obj' fg',
    (subscribes (plisteners w1) obj' fg' ↔ subscribes (plisteners w) obj' fg' ∨ (obj' = obj ∧ fg' = fg)) ∧
    (subscribes (plisteners w2) obj' fg' ↔ subscribes (plisteners w) obj' fg' ∧ ¬ (obj' = obj ∧ fg' = fg)) ∧
    (subscribes (plisteners w3) obj' fg' ↔ subscribes (plisteners w) obj' fg' ∧ obj' ≠ obj).
Proof.
  intros HI Hobj. pose proof (Subscribe_refines w l obj fg HI Hobj) as H1.
  pose proof (UnSubscribe_refines w l obj fg HI Hobj) as H2. pose proof (UnSubscribeRemote_refines w obj HI) as H3.
  unfold wp in H1, H2, H3. destruct (SubscribeSystemProcess (Some l) fg w) as [r1 w1].
  destruct (UnSubscribeSystemProcess (Some l) fg w) as [r2 w2]. cbn in H1, H2.
  destruct H1 as (? & ? & S1), H2 as (? & ? & S2), H3 as (? & S3). cbv zeta. split_and!; try done.
Qed.

Lemma filter_iff_in {A} (P Q : A → Prop) `{!∀ x, Decision (P x), !∀ x, Decision (Q x)} (l : list A) :
  (∀ x, x ∈ l → P x ↔ Q x) → filter P l = filter Q l.
Proof.
  induction l as [|x l IH]; intros Hl; [done|]. rewrite !filter_cons, IH by (intros; apply Hl; by right).
  pose proof (Hl x ltac:(left)). do 2 case_decide; naive_solver.
Qed.

Lemma bind_rev {A B} (f : A → B) (l : list A) : (rev l ≫= λ x, [f x]) = rev (f <$> l).
Proof. induction l as [|x l IH]; [done|]. cbn [rev]. rewrite bind_app, IH. done. Qed.

(** The notification of one item. *)
Definition processEvent (n : ProcessNotification) (p : SystemProcessContext) (i : ProcessListener) : Ev :=
  EvProcess n (pl_listener i) (MkSystemProcessInfo (Str16ToStr8 (processName p)) (pid p) (uid p)).

(** Those that are told: direct subscribers, and foreground subscribers of the foreground user. *)
Definition told (foreground : bool) (i : ProcessListener) : bool :=
  hasDirectSubscription i || (hasForegroundSubscription i && foreground).

Lemma isForegroundUser_world w : (isForegroundUser w).2 = w.
Proof. unfold isForegroundUser. by destruct SUPPORT_MULTI_INSTANCE. Qed.

Lemma notifyStartStop_eq n w pn p :
  plist_ok (plisteners w) → processContextMap_ (w_sched w) !! pn = Some p →
  notifyStartStop n pn w =
  (tt, w <| w_trace ::= app (rev (processEvent n p <$> filter (λ i, told (isForegroundUser w).1 i = true) (plisteners w))) |>).
Proof.
  intros HI Hp. unfold notifyStartStop. unfold mbind at 1, M_bind.
  pose proof (isForegroundUser_world w) as Hw. destruct (isForegroundUser w) as [fg w']. cbn in Hw |- *. subst w'.
  unfold processInfoOf, derefP, mbind, M_bind, getS, gets. cbn. rewrite Hp. cbn.
  assert (Hl : filter (λ i, negb (skipListener fg i) && bool_decide (is_Some (psc_AsObject (pl_listener i))) = true) (plisteners w)
             = filter (λ i, told fg i = true) (plisteners w)).
  { apply filter_iff_in. intros i Hi. destruct (pl_objects _ HI i Hi) as [o Ho]. unfold procObject in Ho.
    pose proof (pl_used _ HI i Hi). rewrite Ho, (bool_decide_eq_true_2 (is_Some _)) by done. unfold skipListener, told.
    by destruct (hasDirectSubscription i), (hasForegroundSubscription i), fg. }
  rewrite Hl. erewrite (forM_events _ _ (λ i, [processEvent n p i])) by (intros; reflexivity).
  by rewrite bind_rev.
Qed.

(** When a process starts or stops, the listeners that are told are the direct subscribers and,
    if the scheduler serves the foreground user, the foreground subscribers; each is told once,
    in the order of subscription, with the process' name, pid and uid. *)
Theorem process_notified w pn p :
  plist_ok (plisteners w) → processContextMap_ (w_sched w) !! pn = Some p →
  let listeners := filter (λ i, told (isForegroundUser w).1 i = true) (plisteners w) in
  w_trace (NotifyProcessStarted pn w).2 = rev (processEvent ProcStarted p <$> listeners) ++ w_trace w ∧
  w_trace (NotifyProcessStopped pn w).2 = rev (processEvent ProcStopped p <$> listeners) ++ w_trace w.
Proof.
  intros HI Hp. unfold NotifyProcessStarted, NotifyProcessStopped.
  by rewrite (notifyStartStop_eq ProcStarted w pn p), (notifyStartStop_eq ProcStopped w pn p).
Qed.
End processes.

Definition watcher : ProcessStatusChange := MkProcessStatusChange 41 (Some 41%positive).
Lemma process_subscriptions_witness :
  plist_ok (plisteners loaded) ∧ subscribes (plisteners (SubscribeSystemProcess (Some watcher) true loaded).2) 41%positive true.
Proof.
  assert (Hn : plist_ok (plisteners loaded)).
  { replace (plisteners loaded) with (@nil ProcessListener) by (vm_compute; reflexivity).
    split; [by intros i []%elem_of_nil|constructor|by intros i []%elem_of_nil]. }
  split; [exact Hn|]. pose proof (process_subscriptions loaded watcher 41%positive true Hn eq_refl) as H.
  destruct (SubscribeSystemProcess (Some watcher) true loaded) as [r1 w1].
  destruct (UnSubscribeSystemProcess (Some watcher) true loaded) as [r2 w2].
  destruct H as (_ & _ & _ & _ & _ & H). apply (H 41%positive true). by right.
Defined.

Definition listening : World := run (SubscribeSystemProcess (Some watcher) false) loaded.
Lemma process_notified_witness :
  ∃ p, processContextMap_ (w_sched listening) !! foo = Some p ∧
       w_trace (NotifyProcessStarted foo listening).2 =
       processEvent ProcStarted p (newProcessListener watcher false) :: w_trace listening.
Proof.
  assert (Hl : plisteners listening = [newProcessListener watcher false]) by (vm_compute; reflexivity).
  assert (Hok : plist_ok (plisteners listening)).
  { rewrite Hl. split; [|by apply NoDup_singleton|]; intros i ->%list_elem_of_singleton; [by exists 41%positive|done]. }
  assert (Hp : is_Some (processContextMap_ (w_sched listening) !! foo)) by (vm_compute; eexists; reflexivity).
  destruct Hp as [p Hp]. exists p. split; [exact Hp|]. rewrite (proj1 (process_notified listening foo p Hok Hp)), Hl.
  reflexivity.
Defined.
