(* ===== verification/CollectSpec.v ===== *)
(** The collect manager: which SAs an event starts and stops, and the changes of
    their policies. *)
From S2P Require Import Prelude Types World ParseUtil Ffrt Util TimeHandler CommonEvent TimedCollect DevicePlugins.
From S2P Require Import CollectManager CollectFrame Contexts Interfaces Hoare ManagerBase CollectTasks.
From S2P Require Import StateMachine EventHandler Scheduler SchedulerQuery Subscribers Manager System Concrete.
From S2P Require Import DBinder DumpStats.

(** ** The stable sort *)

Section sort.
Context {A : Type} (key : A → Z).
Definition key_le (x y : A) : Prop := key x ≤ key y.

Lemma insertBy_perm x l : insertBy key x l ≡ₚ x :: l.
Proof.
  induction l as [|y l IH]; [done|]. cbn. destruct (key x <=? key y); [done|]. rewrite IH. apply Permutation_swap.
Qed.
Lemma sortBy_perm l : sortBy key l ≡ₚ l.
Proof. induction l as [|x l IH]; [done|]. cbn. rewrite insertBy_perm. by constructor. Qed.

Lemma insertBy_sorted x l : StronglySorted key_le l → StronglySorted key_le (insertBy key x l).
Proof.
  induction 1 as [|y l Hl IH Hy]; cbn; [by repeat constructor|]. destruct (Z.leb_spec (key x) (key y)) as [H|H].
  - constructor; [by constructor|]. constructor; [done|]. eapply Forall_impl; [exact Hy|]. unfold key_le. lia.
  - constructor; [done|]. rewrite insertBy_perm. constructor; [unfold key_le; lia|done].
Qed.
Lemma sortBy_sorted l : StronglySorted key_le (sortBy key l).
Proof. induction l as [|x l IH]; [constructor|]. by apply insertBy_sorted. Qed.

Lemma insertBy_stable n x l :
  filter (λ y, key y = n) (insertBy key x l) = filter (λ y, key y = n) (x :: l).
Proof.
  induction l as [|y l IH]; [done|]. cbn [insertBy]. destruct (Z.leb_spec (key x) (key y)) as [H|H]; [done|].
  rewrite filter_cons, IH, !filter_cons. repeat case_decide; try done. lia.
Qed.
(** Elements with the same key keep their order. *)
Lemma sortBy_stable n l : filter (λ y, key y = n) (sortBy key l) = filter (λ y, key y = n) l.
Proof.
  induction l as [|x l IH]; [done|]. cbn [sortBy foldr]. rewrite insertBy_stable, !filter_cons. fold (sortBy key l).
  by rewrite IH.
Qed.
End sort.

Section controls.
Context `{E : Env}.

(** ** What decides whether an event matches *)

(** A condition holds: the parameter has the value; a device is online or none is;
    the last common event of that name had the code and the parameters, and the
    state of the device is the one it names. *)
Definition commonHolds (s : CommonEventCollect) (c : OnDemandCondition) : bool :=
  checkMessages (default ∅ (commonEventConditionExtraData_ s !! cond_name c)) (cond_extraMessages c)
  && (bool_decide (default "" (commonEventConditionValue_ s !! cond_name c) = cond_value c) || bool_decide (cond_value c = ""))
  && (bool_decide (cond_name c ∉ stateEvents) || bool_decide (cond_name c ∈ commonEventWhitelist s)).
Definition online (s : DeviceNetworkingCollect) : bool := bool_decide (default ∅ (stateCallback_ s) ≠ ∅).

Definition condHolds (w : World) (c : OnDemandCondition) : bool :=
  bool_decide (cond_eventId c ∈ collectPluginMap_ (w_collect w)) &&
  if cond_eventId c =? PARAM then bool_decide (env_GetParameter (w_trace w) (cond_name c) "" = cond_value c)
  else if cond_eventId c =? DEVICE_ONLINE then
    (bool_decide (cond_value c = "on") && online (c_networking (w_collect w)))
    || (bool_decide (cond_value c = "off") && negb (online (c_networking (w_collect w))))
  else if cond_eventId c =? COMMON_EVENT then commonHolds (c_common (w_collect w)) c
  else false.

(** The data of the event satisfies what the profile asks of it. *)
Definition dataHolds (w : World) (event e : OnDemandEvent) : bool :=
  bool_decide (eventId event ∈ collectPluginMap_ (w_collect w)) &&
  (negb (eventId event =? COMMON_EVENT) ||
   match extraDatas_ (c_common (w_collect w)) !! extraDataId event with
   | Some d => checkMessages (ed_want d) (ev_extraMessages e)
   | None => false
   end).

Definition matches (w : World) (event e : OnDemandEvent) : bool :=
  CollectIsSameEvent event e && forallb (condHolds w) (conditions e) && dataHolds w event e.

Definition first {A} (f : A → bool) (l : list A) : option A := snd <$> list_find (λ x, f x = true) l.

Definition profileControls (w : World) (event : OnDemandEvent) (p : CollMgrSaProfile) : list SaControlInfo :=
  option_list (controlOf START_ON_DEMAND p <$> first (matches w event) (startOnDemandEvents p)) ++
  option_list (controlOf STOP_ON_DEMAND p <$> first (matches w event) (stopOnDemandEvents p)).

(** What a restart kept for the event. *)
Definition persistedControls (w : World) (event : OnDemandEvent) : list SaControlInfo :=
  let path := GetPathForUser (userId_ (w_mgr w)) in
  if PREFERENCES_ENABLE && selfPtr_ (w_mgr w) && env_GetPreferences (w_trace w) path then
    let value := default "" (env_PreferencesGetString (w_trace w) path (event_ToString event)) in
    if bool_decide (value = "") then [] else persistedControl <$> SplitStr value "+"
  else [].

Definition expectedControls (w : World) (event : OnDemandEvent) : list SaControlInfo :=
  (onDemandSaProfiles_ (w_collect w) ≫= profileControls w event) ++ persistedControls w event.

(** ** Looking creates entries with default values, and changes nothing that is looked at *)

Definition blank (c : Collect) : Collect :=
  c <| c_common ::= λ s, s <| commonEventConditionExtraData_ := ∅ |> <| commonEventConditionValue_ := ∅ |> |>.
Record touched (w w' : World) : Prop := {
  to_rest : w_trace w = w_trace w' ∧ w_mgr w = w_mgr w' ∧ w_sched w = w_sched w' ∧ w_handlers w = w_handlers w';
  to_collect : blank (w_collect w) = blank (w_collect w');
  to_extra k : default ∅ (commonEventConditionExtraData_ (c_common (w_collect w)) !! k) =
               default ∅ (commonEventConditionExtraData_ (c_common (w_collect w')) !! k);
  to_value k : default "" (commonEventConditionValue_ (c_common (w_collect w)) !! k) =
               default "" (commonEventConditionValue_ (c_common (w_collect w')) !! k);
}.
#[export] Instance touched_preorder : PreOrder touched.
Proof.
  split; [by split|]. intros x y z [(?&?&?&?) Hc He Hv] [(?&?&?&?) Hc' He' Hv'].
  split; [split_and!; congruence|congruence|intros k; by rewrite He|intros k; by rewrite Hv].
Qed.

Lemma blank_fields c c' : blank c = blank c' →
  collectPluginMap_ c = collectPluginMap_ c' ∧ onDemandSaProfiles_ c = onDemandSaProfiles_ c' ∧
  c_networking c = c_networking c' ∧ commonEventWhitelist (c_common c) = commonEventWhitelist (c_common c') ∧
  extraDatas_ (c_common c) = extraDatas_ (c_common c').
Proof. unfold blank. destruct c as [? ? [] ? ? ? ? ?], c' as [? ? [] ? ? ? ? ?]. cbn. intros H. by simplify_eq. Qed.

Lemma touched_condHolds w w' c : touched w w' → condHolds w c = condHolds w' c.
Proof.
  intros [(Ht & _) Hc He Hv]. destruct (blank_fields _ _ Hc) as (Hp & _ & Hn & Hw & _).
  unfold condHolds, commonHolds. by rewrite Hp, Hn, Ht, He, Hv, Hw.
Qed.
Lemma touched_matches w w' ev e : touched w w' → matches w ev e = matches w' ev e.
Proof.
  intros H. pose proof H as [(Ht & _) Hc _ _]. destruct (blank_fields _ _ Hc) as (Hp & _ & _ & _ & Hx).
  unfold matches, dataHolds. rewrite Hp, Hx. f_equal. f_equal. induction (conditions e) as [|c l IH]; [done|].
  cbn. by rewrite IH, (touched_condHolds w w').
Qed.

(** [decides m f]: [m] answers [f] of the world and leaves what is looked at as it was. *)
Definition decides {A} (m : M A) (f : World → A) : Prop := ∀ w, wp m (λ r w', r = f w ∧ touched w w') w.

Lemma touch_default {K V} `{Countable K} (d : V) (m : gmap K V) k j :
  default d (m !! j) = default d (map_touch k d m !! j).
Proof.
  unfold map_touch. destruct (m !! k) eqn:Hk; [done|]. destruct (decide (k = j)) as [->|Hne].
  - by rewrite Hk, lookup_insert_eq.
  - by rewrite lookup_insert_ne.
Qed.

Lemma touch_extra w k : touched w (updCE commonEventConditionExtraData_ (map_touch k ∅) w).2.
Proof. split; [done| |intros j; cbn; apply touch_default|done]. cbn. by destruct (w_collect w) as [? ? [] ? ? ? ? ?]. Qed.
Lemma touch_value w k : touched w (updCE commonEventConditionValue_ (map_touch k "") w).2.
Proof. split; [done| |done|intros j; cbn; apply touch_default]. cbn. by destruct (w_collect w) as [? ? [] ? ? ? ? ?]. Qed.

Lemma touched_common w w' c :
  touched w w' → commonHolds (c_common (w_collect w)) c = commonHolds (c_common (w_collect w')) c.
Proof.
  intros [_ Hc He Hv]. destruct (blank_fields _ _ Hc) as (_ & _ & _ & Hw & _).
  unfold commonHolds. by rewrite He, Hv, Hw.
Qed.

Lemma wp_touch {A} (m : M unit) (k : M A) (Q : A → World → Prop) w :
  touched w (m w).2 → (∀ w', touched w w' → wp k Q w') → wp (m;; k) Q w.
Proof. intros H Hk. apply wp_bind. by apply Hk. Qed.

Lemma CommonCheckCondition_decides c :
  decides (CommonCheckCondition c) (λ w, commonHolds (c_common (w_collect w)) c).
Proof.
  intros w. unfold CommonCheckCondition. apply wp_touch; [apply touch_extra|]. intros w1 H1.
  apply wp_bind, wp_gets. rewrite (touched_common w w1 c H1). unfold commonHolds.
  destruct (checkMessages _ _); cbn [negb andb]; [|by apply wp_ret].
  apply wp_touch; [apply touch_value|]. intros w2 H2. assert (H : touched w w2) by by etrans.
  apply wp_bind, wp_gets. destruct H2 as [_ Hb _ Hv]. destruct (blank_fields _ _ Hb) as (_&_&_&Hw&_). rewrite Hv, Hw.
  rewrite bool_decide_not. set (v := bool_decide (_ = cond_value c)). destruct v, (bool_decide (cond_value c = "")),
    (bool_decide (cond_name c ∈ stateEvents)); cbn [negb andb orb]; by split.
Qed.

Lemma pure_decides {A} (f : World → A) : decides (gets f) f.
Proof. intros w. by apply wp_gets. Qed.

Lemma hasPlugin_decides k : decides (hasPlugin k) (λ w, bool_decide (k ∈ collectPluginMap_ (w_collect w))).
Proof. intros w. by split. Qed.

Lemma pluginCheckCondition_decides c w :
  cond_eventId c ∈ collectPluginMap_ (w_collect w) →
  wp (pluginCheckCondition c) (λ r w', r = condHolds w c ∧ touched w w') w.
Proof.
  intros Hp. unfold pluginCheckCondition, condHolds. rewrite bool_decide_eq_true_2 by done. cbn [andb].
  destruct (_ =? PARAM); [by split|]. destruct (_ =? DEVICE_ONLINE).
  { unfold wp. change (NetworkingCheckCondition c w) with
      (if bool_decide (cond_value c = "on") && online (c_networking (w_collect w)) then true
       else if bool_decide (cond_value c = "off") && negb (online (c_networking (w_collect w))) then true else false, w).
    split; [|done]. by destruct (bool_decide (_ = "on")), (bool_decide (_ = "off")), (online _). }
  destruct (_ =? COMMON_EVENT); [apply CommonCheckCondition_decides|by split].
Qed.

(** Loops of such questions. *)
Lemma allM_decides {A} (f : A → M bool) (g : World → A → bool) l :
  (∀ x, decides (f x) (λ w, g w x)) → (∀ w w' x, touched w w' → g w x = g w' x) →
  decides (allM f l) (λ w, forallb (g w) l).
Proof.
  intros Hf Hg. induction l as [|x l IH]; intros w; [by split|]. cbn [allM forallb].
  apply wp_bind. eapply wp_mono; [apply Hf|]. cbv beta. intros b w1 [-> H1].
  destruct (g w x); cbn [negb andb]; [|by apply wp_ret]. eapply wp_mono; [apply IH|]. cbv beta. intros b w2 [-> H2].
  split; [|by etrans]. clear -H1 Hg. induction l as [|y l IH]; [done|]. cbn. by rewrite IH, (Hg w w1).
Qed.

Lemma condition_decides c :
  decides (b ← hasPlugin (cond_eventId c); if negb b then mret false else pluginCheckCondition c) (λ w, condHolds w c).
Proof.
  intros w. apply wp_bind. eapply wp_mono; [apply hasPlugin_decides|]. cbv beta. intros b w1 [-> H1].
  case_bool_decide as Hp; cbn [negb].
  - destruct (blank_fields _ _ (to_collect _ _ H1)) as (Hpl & _). rewrite Hpl in Hp.
    rewrite (touched_condHolds w w1) by done. eapply wp_mono; [by apply pluginCheckCondition_decides|]. cbv beta.
    intros b w2 [-> H2]. split; [done|by etrans].
  - apply wp_ret. split; [|done]. unfold condHolds. by rewrite bool_decide_eq_false_2.
Qed.

Lemma CheckConditions_decides l : decides (CheckConditions l) (λ w, forallb (condHolds w) l).
Proof. apply allM_decides; [apply condition_decides|]. intros. by apply touched_condHolds. Qed.

Lemma CheckExtraMessages_decides event e : decides (CheckExtraMessages event e) (λ w, dataHolds w event e).
Proof.
  intros w. unfold CheckExtraMessages, dataHolds. apply wp_bind. eapply wp_mono; [apply hasPlugin_decides|]. cbv beta.
  intros b w1 [-> H1]. destruct (blank_fields _ _ (to_collect _ _ H1)) as (Hp & _ & _ & _ & Hx). rewrite Hp, Hx.
  case_bool_decide; cbn [negb andb]; [|by apply wp_ret]. unfold pluginCheckExtraMessage.
  destruct (_ =? COMMON_EVENT); cbn [negb orb]; by split.
Qed.

Lemma matchEvent_decides event e : decides (matchEvent event e) (λ w, matches w event e).
Proof.
  intros w. unfold matchEvent, matches. destruct (CollectIsSameEvent event e); cbn [negb andb]; [|by split].
  apply wp_bind. eapply wp_mono; [apply CheckConditions_decides|]. cbv beta. intros b w1 [-> H1].
  destruct (forallb _ _); cbn [negb andb]; [|by apply wp_ret].
  eapply wp_mono; [apply CheckExtraMessages_decides|]. cbv beta. intros b w2 [-> H2]. split; [|by etrans].
  destruct (blank_fields _ _ (to_collect _ _ H1)) as (Hp & _ & _ & _ & Hx). unfold dataHolds. by rewrite Hp, Hx.
Qed.

Lemma first_cons {A} (f : A → bool) x l : first f (x :: l) = if f x then Some x else first f l.
Proof.
  unfold first. cbn. destruct (f x) eqn:Hf; [by rewrite decide_True|]. rewrite decide_False by congruence.
  by destruct (list_find _ l) as [[? ?]|].
Qed.
Lemma first_ext {A} (f g : A → bool) l : (∀ x, f x = g x) → first f l = first g l.
Proof. intros H. induction l as [|x l IH]; [done|]. rewrite !first_cons, H. by rewrite IH. Qed.

Lemma firstMatch_decides event l : decides (firstMatch event l) (λ w, first (matches w event) l).
Proof.
  unfold firstMatch. induction l as [|e l IH]; intros w; [by split|]. cbn [findM]. rewrite first_cons.
  apply wp_bind, wp_bind. eapply wp_mono; [apply matchEvent_decides|]. cbv beta. intros b w1 [-> H1]. apply wp_ret.
  destruct (matches w event e); [by split|]. eapply wp_mono; [apply IH|]. cbv beta. intros r w2 [-> H2].
  split; [|by etrans]. apply first_ext. intros x. symmetry. by apply touched_matches.
Qed.

Lemma touched_profile w w' event p : touched w w' → profileControls w event p = profileControls w' event p.
Proof.
  intros H. unfold profileControls.
  by rewrite !(first_ext (matches w event) (matches w' event)) by (intros; by apply touched_matches).
Qed.

Lemma GetSaControlListByEvent_decides event acc :
  decides (GetSaControlListByEvent event acc) (λ w, acc ++ (onDemandSaProfiles_ (w_collect w) ≫= profileControls w event)).
Proof.
  intros w. unfold GetSaControlListByEvent. apply wp_bind, wp_gets. generalize (onDemandSaProfiles_ (w_collect w)).
  intros l. revert acc w. induction l as [|p l IH]; intros acc w; [rewrite app_nil_r; by split|].
  cbn [foldM]. apply wp_bind. apply wp_bind. eapply wp_mono; [apply firstMatch_decides|]. cbv beta. intros r w1 [-> H1].
  apply wp_bind. eapply wp_mono; [apply firstMatch_decides|]. cbv beta. intros r w2 [-> H2]. apply wp_ret.
  assert (H : touched w w2) by by etrans. eapply wp_mono; [apply IH|]. cbv beta. intros r w3 [-> H3].
  split; [|by etrans]. rewrite <- app_assoc. f_equal. rewrite bind_cons. f_equal.
  - unfold profileControls. do 2 f_equal. f_equal. apply first_ext. intros x. symmetry. by apply touched_matches.
  - apply list_bind_ext; [|done]. intros q. symmetry. by apply touched_profile.
Qed.

Lemma GetSaControlListByPersistEvent_decides event acc :
  decides (GetSaControlListByPersistEvent event acc) (λ w, acc ++ persistedControls w event).
Proof.
  intros w. unfold GetSaControlListByPersistEvent, persistedControls.
  destruct PREFERENCES_ENABLE; cbn [negb andb]; [|rewrite app_nil_r; by split].
  unfold CreatePreferencesUtil. wp_seq. destruct (selfPtr_ (w_mgr w)); cbn [andb]; [|rewrite app_nil_r; by split].
  unfold ObtainString, GetPreference, newPreferencesUtil. wp_seq. cbn [ptr_ path_]. wp_seq.
  destruct (env_GetPreferences _ _); cbn [negb]; wp_seq; [|rewrite app_nil_r; by split].
  cbn [path_]. split; [|done]. case_bool_decide; by rewrite ?app_nil_r.
Qed.

(** C7: The SAs an event reaches, in full.  The list the manager is asked to process holds, for
    every SA with on-demand events, a start when one of its start events matches (the same event,
    its conditions hold, the data is as asked) and a stop when one of its stop events does, each
    with the settings of the first that matches, then what was kept over a restart for the event.
    It is ordered by load priority, and SAs of one priority keep the order of the profiles.
    Looking changes nothing that is looked at. *)
Theorem reported_controls event w :
  let '(l, w') := reportTask event w in
  StronglySorted (key_le ctl_loadPriority) l ∧ l ≡ₚ expectedControls w event ∧
  (∀ n, filter (λ c, ctl_loadPriority c = n) l = filter (λ c, ctl_loadPriority c = n) (expectedControls w event)) ∧
  touched w w'.
Proof.
  assert (H : wp (reportTask event) (λ r w', r = sortBy ctl_loadPriority (expectedControls w event) ∧ touched w w') w).
  { apply wp_bind. eapply wp_mono; [apply GetSaControlListByEvent_decides|]. cbv beta. intros r w1 [-> H1].
    apply wp_bind. eapply wp_mono; [apply GetSaControlListByPersistEvent_decides|]. cbv beta. intros r w2 [-> H2].
    apply wp_ret. split; [|by etrans]. unfold SortSaControlListByLoadPriority, expectedControls, persistedControls.
    destruct H1 as [(Ht & Hm & _) _ _ _]. by rewrite Ht, Hm. }
  unfold wp in H. destruct (reportTask event w) as [l w']. cbn [fst snd] in H. destruct H as [-> H]. split_and!; [apply sortBy_sorted|apply sortBy_perm| |done].
  intros n. apply sortBy_stable.
Qed.
End controls.
