(* ===== verification/PolicySpec.v ===== *)
(** Changes of the on-demand events of an SA. *)
From S2P Require Import Prelude Types World ParseUtil Ffrt Util TimeHandler CommonEvent TimedCollect DevicePlugins.
From S2P Require Import CollectManager CollectFrame Contexts Interfaces Hoare ManagerBase CollectTasks.
From S2P Require Import StateMachine EventHandler Scheduler SchedulerQuery Subscribers Manager System Concrete.
From S2P Require Import DBinder DumpStats.

Section policies.
Context `{E : Env}.

Definition profilesOf (w : World) : list CollMgrSaProfile := onDemandSaProfiles_ (w_collect w).

(** ** Only [UpdateOnDemandEvents] writes the profiles *)

Hint Extern 1 (respects (same profilesOf) (modify _)) => (intros ?; reflexivity) : respects.

Lemma AddCollectEvents_profiles l : respects (same profilesOf) (AddCollectEvents l).
Proof. solve_deep. Qed.
Lemma Persist_profiles said type l : respects (same profilesOf) (PersistOnDemandEvent said type l).
Proof. solve_deep. Qed.
Lemma RemoveUnused_profiles l : respects (same profilesOf) (RemoveUnusedEventsLocked l).
Proof. solve_deep. Qed.

(** ** The profile of an SA *)

Lemma findProfile_cons said p l : findProfile said (p :: l) = if cm_saId p =? said then Some p else findProfile said l.
Proof.
  unfold findProfile. cbn. destruct (Z.eqb_spec (cm_saId p) said); [by rewrite decide_True|]. rewrite decide_False by done.
  by destruct (list_find _ l) as [[? ?]|].
Qed.
Lemma findProfile_update said f k l :
  (∀ p, cm_saId (f p) = cm_saId p) →
  findProfile k (updateProfile said f l) = if k =? said then f <$> findProfile k l else findProfile k l.
Proof.
  intros Hf. induction l as [|p l IH]; [by destruct (k =? said)|]. cbn [updateProfile].
  destruct (Z.eqb_spec (cm_saId p) said) as [Hp|Hp]; rewrite !findProfile_cons, ?Hf.
  - destruct (Z.eqb_spec k said) as [->|Hk]; [by rewrite Hp, Z.eqb_refl|].
    by rewrite (proj2 (Z.eqb_neq (cm_saId p) k)) by congruence.
  - rewrite IH. destruct (Z.eqb_spec (cm_saId p) k), (Z.eqb_spec k said); try done. congruence.
Qed.

Definition eventsFor (w : World) (said type : Z) : Z * list OnDemandEvent := (GetOnDemandEvents said type w).1.

Lemma eventsFor_eq w k t :
  eventsFor w k t = match findProfile k (profilesOf w) with
                    | None => (ERR_INVALID_VALUE, [])
                    | Some p => if negb (isPolicy t) then (ERR_INVALID_VALUE, []) else (ERR_OK, eventsOf t p)
                    end.
Proof. reflexivity. Qed.
Lemma eventsFor_same w w' k t : profilesOf w' = profilesOf w → eventsFor w' k t = eventsFor w k t.
Proof. rewrite !eventsFor_eq. by intros ->. Qed.

Lemma setEvents_saId type events p : cm_saId (setEvents type events p) = cm_saId p.
Proof. unfold setEvents. by destruct (type =? START_POLICY). Qed.

(** The events of the new profiles. *)
Lemma eventsFor_updated w w' said type events p :
  isPolicy type = true → findProfile said (profilesOf w) = Some p →
  profilesOf w' = updateProfile said (setEvents type events) (profilesOf w) →
  eventsFor w' said type = (ERR_OK, events) ∧
  ∀ k t, (k, t) ≠ (said, type) → eventsFor w' k t = eventsFor w k t.
Proof.
  intros Ht Hf Hp.
  assert (Hu := findProfile_update said (setEvents type events)). split.
  - rewrite eventsFor_eq, Hp, Hu by apply setEvents_saId. rewrite Z.eqb_refl, Hf. cbn. rewrite Ht. cbn. f_equal.
    unfold eventsOf, setEvents. by destruct (type =? START_POLICY).
  - intros k t Hne. rewrite !eventsFor_eq, Hp, Hu by apply setEvents_saId. destruct (Z.eqb_spec k said) as [->|]; [|done].
    rewrite Hf. cbn. destruct (isPolicy t) eqn:Hpt; [|done]. cbn. f_equal.
    assert (t ≠ type) by congruence. unfold isPolicy, eventsOf, setEvents, START_POLICY, STOP_POLICY in *.
    destruct (Z.eqb_spec t 0), (Z.eqb_spec type 0); try done; try lia.
Qed.

(** An event no plugin collects. *)
Definition uncollected (w : World) (events : list OnDemandEvent) : Prop :=
  ∃ e, e ∈ events ∧ eventId e ∉ collectPluginMap_ (w_collect w).

Lemma allSupported_eq l w :
  allSupported l w = (forallb (λ e, bool_decide (eventId e ∈ collectPluginMap_ (w_collect w))) l, w).
Proof.
  unfold allSupported. induction l as [|e l IH]; [done|]. cbn [allM forallb].
  unfold mbind, M_bind, hasPlugin, mbind, M_bind, getC, gets. cbn. case_bool_decide; [exact IH|done].
Qed.

Lemma AddCollectEvents_uncollected events w :
  wp (AddCollectEvents events) (λ r w', profilesOf w' = profilesOf w ∧ (uncollected w events → r = ERR_INVALID_VALUE)) w.
Proof.
  split; [symmetry; apply AddCollectEvents_profiles|]. intros (e & He & Hn). unfold AddCollectEvents, mbind, M_bind.
  rewrite allSupported_eq. replace (forallb _ _) with false; [done|]. symmetry. apply not_true_iff_false. intros Hall.
  apply Hn. rewrite forallb_forall in Hall. by apply (bool_decide_unpack _), Is_true_eq_left, Hall, list_elem_of_In.
Qed.

(** C18: Changing the on-demand events of an SA.  When it succeeds, the SA has exactly the new
    events of that kind, while its events of the other kind and the events of every other SA are
    as before; when it fails, no SA's events change.  It fails for an SA without on-demand events,
    for a kind that is neither start nor stop, and for an event of a kind that is not collected. *)
Theorem policy_update said type events w :
  let '(r, w') := UpdateOnDemandEvents said type events w in
  (r = ERR_OK → eventsFor w' said type = (ERR_OK, events) ∧
     ∀ k t, (k, t) ≠ (said, type) → eventsFor w' k t = eventsFor w k t) ∧
  (r ≠ ERR_OK → ∀ k t, eventsFor w' k t = eventsFor w k t) ∧
  (findProfile said (profilesOf w) = None ∨ isPolicy type = false ∨ uncollected w events → r = ERR_INVALID_VALUE).
Proof.
  assert (H : wp (UpdateOnDemandEvents said type events) (λ r w',
    (r = ERR_OK ∧ isPolicy type = true ∧ ¬ uncollected w events ∧ (∃ p, findProfile said (profilesOf w) = Some p) ∧
     profilesOf w' = updateProfile said (setEvents type events) (profilesOf w)) ∨
    (r = ERR_INVALID_VALUE ∧ profilesOf w' = profilesOf w)) w).
  { unfold UpdateOnDemandEvents. apply wp_bind, wp_gets. fold (profilesOf w).
    destruct (findProfile said (profilesOf w)) as [p|] eqn:Hf; [|by right].
    apply wp_bind. eapply wp_mono; [apply AddCollectEvents_uncollected|]. cbv beta. intros added w1 [H1 Hu].
    destruct (Z.eqb_spec added ERR_OK) as [->|]; cbn [negb]; [|by right].
    assert (¬ uncollected w events). { intros H'. by apply (ERR_INVALID_VALUE_nz), symmetry, Hu. }
    destruct (isPolicy type) eqn:Ht; cbn [negb]; [|by right]. apply wp_bind, wp_modify.
    apply wp_bind, (wp_same profilesOf); [apply Persist_profiles|]. intros _ w2 H2.
    apply wp_bind, (wp_same profilesOf); [apply RemoveUnused_profiles|]. intros _ w3 H3. apply wp_ret. left.
    split_and!; [done..|by exists p|]. rewrite H3, H2. unfold profilesOf in *. cbn. by rewrite H1. }
  unfold wp in H. destruct (UpdateOnDemandEvents said type events w) as [r w']. cbn [fst snd] in H.
  destruct H as [(-> & Ht & Hu & [p Hf] & Hp)|[-> Hp]].
  - split_and!; [intros _; by eapply eventsFor_updated|done|]. intros [H|[H|H]]; congruence || done.
  - pose proof ERR_INVALID_VALUE_nz. split_and!; [by intros ?| |done]. intros _ k t. by apply eventsFor_same.
Qed.
End policies.
