(* ===== verification/PersistSpec.v ===== *)
(** What is kept over a restart: the text of a policy is read back as it was
    written, and every user has a file of its own. *)
From Stdlib Require Import Ascii.
From stdpp Require Import pretty.
From S2P Require Import Prelude Types World ParseUtil Ffrt Util TimeHandler CommonEvent TimedCollect DevicePlugins.
From S2P Require Import CollectManager Contexts Interfaces Hoare Concrete.

(** ** Decimal numbers *)

Lemma digit_char n : (n < 10)%N →
  digitOf (pretty_N_char n) = Some (Z.of_N n) ∧
  ∀ s, skipBlanks (String (pretty_N_char n) s) = String (pretty_N_char n) s ∧
       signed (String (pretty_N_char n) s) = digits (String (pretty_N_char n) s) 0.
Proof.
  intros H. assert (n = 0 ∨ n = 1 ∨ n = 2 ∨ n = 3 ∨ n = 4 ∨ n = 5 ∨ n = 6 ∨ n = 7 ∨ n = 8 ∨ n = 9)%N as Hn by lia.
  by destruct Hn as [->|[->|[->|[->|[->|[->|[->|[->|[->| ->]]]]]]]]].
Qed.

Lemma go_digits x s : digits (pretty_N_go x s) 0 = digits s (Z.of_N x).
Proof.
  revert s. induction (N.lt_wf_0 x) as [x _ IH]; intros s. destruct (decide (x = 0)%N) as [->|Hx]; [done|].
  rewrite pretty_N_go_step by lia. rewrite IH by (apply N.div_lt; lia). cbn [digits].
  destruct (digit_char (x mod 10)) as [-> _]; [apply N.mod_lt; lia|]. f_equal.
  rewrite <- (N2Z.inj_mul _ 10), <- N2Z.inj_add. f_equal. pose proof (N.div_mod x 10). lia.
Qed.

Lemma go_app x s t : pretty_N_go x s +:+ t = pretty_N_go x (s +:+ t).
Proof.
  revert s. induction (N.lt_wf_0 x) as [x _ IH]; intros s. destruct (decide (x = 0)%N) as [->|Hx]; [done|].
  rewrite !(pretty_N_go_step x) by lia. by rewrite IH by (apply N.div_lt; lia).
Qed.

Lemma go_head x s : (0 < x)%N → ∃ n s', (n < 10)%N ∧ pretty_N_go x s = String (pretty_N_char n) s'.
Proof.
  revert s. induction (N.lt_wf_0 x) as [x _ IH]; intros s Hx. rewrite pretty_N_go_step by done.
  destruct (decide (x < 10)%N) as [H|H].
  - rewrite N.div_small, pretty_N_go_0 by done. eexists _, _. split; [|done]. apply N.mod_lt. lia.
  - apply IH; [by apply N.div_lt|]. apply N.div_str_pos. lia.
Qed.

(** The text of a number that is followed by [#]. *)
Lemma unsigned_number x t : digits ("#" +:+ t) (Z.of_N x) = Z.of_N x.
Proof. done. Qed.

Lemma positive_number x t : (0 < x)%N → signed (skipBlanks (pretty_N_go x ("#" +:+ t))) = Z.of_N x.
Proof.
  intros Hx. destruct (go_head x ("#" +:+ t) Hx) as (n & s' & Hn & Hs). rewrite Hs.
  destruct (digit_char n Hn) as [_ Hd]. destruct (Hd s') as [-> ->]. rewrite <- Hs, go_digits. apply unsigned_number.
Qed.

Lemma atoi_number n t : is_i32 n → atoi (to_string n +:+ "#" +:+ t) = n.
Proof.
  intros Hn. unfold atoi. rewrite <- (i32_id n) at 2 by done. f_equal. destruct n as [|p|p]; [done|..].
  - change (to_string (Z.pos p)) with (pretty_N_go (N.pos p) ""). rewrite go_app. change ("" +:+ ?x) with x.
    by rewrite positive_number by lia.
  - change (to_string (Z.neg p)) with (String "-" (pretty_N_go (N.pos p) "")).
    change (String "-" ?a +:+ ?b) with (String "-" (a +:+ b)). rewrite go_app. change ("" +:+ ?x) with x.
    cbn [skipBlanks]. change (isBlank "-") with false. cbv iota. cbn [signed]. by rewrite go_digits.
Qed.

(** ** The text of a policy *)

Lemma policy_text type said t0 s0 :
  isPolicy type = true → is_i32 said → StringToTypeAndSaid (TypeAndSaidToString type said) t0 s0 = (type, said).
Proof.
  intros Ht Hn. unfold TypeAndSaidToString, isPolicy in *.
  assert (Hnum : ∀ s, s = to_string said +:+ "#" → atoi (String.substring 0 (String.length s) s) = said).
  { intros s ->. rewrite substring_all by done. exact (atoi_number said "" Hn). }
  destruct (Z.eqb_spec type START_POLICY) as [->|_].
  - change ("start#" +:+ ?s) with (String "s" (String "t" (String "a" (String "r" (String "t" (String "#" s)))))).
    unfold StringToTypeAndSaid. replace (String.index _ _ _) with (Some 5%nat) by (by destruct (to_string said +:+ "#")).
    cbn -[atoi]. by rewrite Nat.sub_0_r, Hnum.
  - cbn [orb] in Ht. rewrite Ht. apply Z.eqb_eq in Ht as ->.
    change ("stop#" +:+ ?s) with (String "s" (String "t" (String "o" (String "p" (String "#" s))))).
    unfold StringToTypeAndSaid. replace (String.index _ _ _) with (Some 4%nat) by (by destruct (to_string said +:+ "#")).
    cbn -[atoi]. by rewrite Nat.sub_0_r, Hnum.
Qed.

(** *** Texts without the separator *)

Definition plain (s : string) : Prop := s ≠ "" ∧ "+"%char ∉ String.list_ascii_of_string s.

Lemma chars_app s t : String.list_ascii_of_string (s +:+ t) = String.list_ascii_of_string s ++ String.list_ascii_of_string t.
Proof. induction s as [|c s IH]; [done|]. change (String c s +:+ t) with (String c (s +:+ t)). cbn. by rewrite IH. Qed.

Lemma digit_plain n : (n < 10)%N → pretty_N_char n ≠ "+"%char.
Proof. intros H. unfold pretty_N_char. by repeat case_match. Qed.

Lemma go_plain x s : "+"%char ∉ String.list_ascii_of_string s → "+"%char ∉ String.list_ascii_of_string (pretty_N_go x s).
Proof.
  revert s. induction (N.lt_wf_0 x) as [x _ IH]; intros s Hs. destruct (decide (x = 0)%N) as [->|Hx]; [done|].
  rewrite pretty_N_go_step by lia. apply IH; [apply N.div_lt; lia|]. cbn. apply not_elem_of_cons. split; [|done].
  apply not_eq_sym, digit_plain, N.mod_lt. lia.
Qed.

Lemma number_plain n : "+"%char ∉ String.list_ascii_of_string (to_string n).
Proof.
  destruct n as [|p|p].
  - cbn. apply (bool_decide_unpack _). by vm_compute.
  - change (to_string (Z.pos p)) with (pretty_N_go (N.pos p) ""). apply go_plain. apply not_elem_of_nil.
  - change (to_string (Z.neg p)) with (String "-" (pretty_N_go (N.pos p) "")). cbn. apply not_elem_of_cons.
    split; [done|]. apply go_plain, not_elem_of_nil.
Qed.

Lemma policy_plain type said : isPolicy type = true → plain (TypeAndSaidToString type said).
Proof.
  intros Ht. unfold TypeAndSaidToString, isPolicy in *.
  assert (H : ∀ k, k ≠ "" → "+"%char ∉ String.list_ascii_of_string k → plain (k +:+ to_string said +:+ "#")).
  { intros k Hk Hp. split; [by destruct k|]. rewrite !chars_app, !not_elem_of_app. split_and!; [done|apply number_plain|].
    apply (bool_decide_unpack _). by vm_compute. }
  destruct (type =? START_POLICY); [|cbn [orb] in Ht; rewrite Ht];
    apply H; try done; apply (bool_decide_unpack _); by vm_compute.
Qed.

(** *** Several policies in one text *)

(** What a new policy makes of the text kept so far. *)
Definition appendPolicy (text : option string) (new : string) : string :=
  match text with Some org => org +:+ "+" +:+ new | None => new end.
Definition textOf (l : list string) : option string := foldl (λ t s, Some (appendPolicy t s)) None l.

(** [SplitStr] of string_ex.h: the parts between the separators. *)
Definition splits (split : string → string → list string) : Prop :=
  ∀ l text, Forall plain l → textOf l = Some text → split text "+" = l.

Definition tails (l : list string) : string := foldr (λ s t, "+" +:+ s +:+ t) "" l.
Lemma foldl_text l t : foldl (λ t s, Some (appendPolicy t s)) (Some t) l = Some (t +:+ tails l).
Proof.
  revert t. induction l as [|s l IH]; intros t; cbn [foldl tails foldr]; [by rewrite string_app_nil_r|].
  rewrite IH. cbn [appendPolicy]. by rewrite !string_app_assoc.
Qed.

(** The concrete [splitStr] of Concrete.v is one. *)
Lemma splitOn_plain s t cur :
  "+"%char ∉ String.list_ascii_of_string s → splitOn "+" (s +:+ t) cur = splitOn "+" t (cur +:+ s).
Proof.
  revert cur. induction s as [|c s IH]; intros cur Hs; [by rewrite string_app_nil_r|].
  change (String c s +:+ t) with (String c (s +:+ t)). cbn in Hs. apply not_elem_of_cons in Hs as [Hc Hs].
  cbn [splitOn]. rewrite (proj2 (Ascii.eqb_neq c "+")) by congruence. rewrite IH by done. by rewrite string_app_assoc.
Qed.
Lemma splitOn_tails s l : plain s → Forall plain l → splitOn "+" (s +:+ tails l) "" = s :: l.
Proof.
  intros Hs Hl. revert s Hs. induction Hl as [|s' l Hs' Hl IH]; intros s [Hs Hp]; rewrite splitOn_plain by done;
    change ("" +:+ s) with s.
  - cbn. by rewrite bool_decide_eq_false_2.
  - cbn [tails foldr]. fold (tails l). change ("+" +:+ ?x) with (String "+" x). cbn [splitOn].
    change (Ascii.eqb "+" "+") with true. cbv iota. rewrite bool_decide_eq_false_2 by done. by rewrite IH.
Qed.
Lemma splitStr_splits : splits splitStr.
Proof.
  intros l text Hl Ht. destruct l as [|s l]; [done|]. cbn [textOf foldl appendPolicy] in Ht. rewrite foldl_text in Ht.
  injection Ht as <-. inversion_clear Hl. by apply splitOn_tails.
Qed.

(** ** Persisting *)

Section persist.
Context `{E : Env}.

(** A policy is added to the text its event has in the file. *)
Lemma persistOne_appends said type u event w :
  NeedPersistOnDemandEvent event = true → ptr_ u = true →
  let key := event_ToString event in
  let old := if env_PreferencesHasKey (w_trace w) (path_ u) key
             then Some (default "" (env_PreferencesGetString (w_trace w) (path_ u) key)) else None in
  EvPreferences (path_ u) (PutString key (appendPolicy old (TypeAndSaidToString type said)))
    ∈ w_trace (persistOne said type u event w).2.
Proof.
  intros Hn Hu key old.
  change (wp (persistOne said type u event) (λ _ w', EvPreferences (path_ u) (PutString key
    (appendPolicy old (TypeAndSaidToString type said))) ∈ w_trace w') w).
  unfold persistOne. rewrite Hn. cbn [negb].
  unfold IsExist, ObtainString, SaveString, Save, RefreshSync, GetPreference, ask. fold key. wp_seq. rewrite Hu. wp_seq.
  cbn [negb]. wp_seq. unfold old. destruct (env_PreferencesHasKey _ _ _).
  - wp_seq. rewrite Hu. wp_seq. cbn [negb]. wp_seq. rewrite Hu. wp_seq. cbn [negb]. wp_seq.
    destruct (env_PreferencesPut _); cbn [negb]; wp_seq; [rewrite Hu; wp_seq; cbn [negb]; wp_seq|]; cbn.
    + right. left.
    + left.
  - wp_seq. rewrite Hu. wp_seq. cbn [negb]. wp_seq.
    destruct (env_PreferencesPut _); cbn [negb]; wp_seq; [rewrite Hu; wp_seq; cbn [negb]; wp_seq|]; cbn.
    + right. left.
    + left.
Qed.

Definition policyTexts (l : list (Z * Z)) : list string := (λ ts, TypeAndSaidToString ts.1 ts.2) <$> l.
Definition policyControls (l : list (Z * Z)) : list SaControlInfo :=
  (λ ts, MkSaControl (if ts.1 =? START_POLICY then START_ON_DEMAND else STOP_ON_DEMAND) ts.2 false LOW_PRIORITY false) <$> l.
Definition policy_ok (ts : Z * Z) : Prop := isPolicy ts.1 = true ∧ is_i32 ts.2.

Lemma textOf_snoc l s : textOf (l ++ [s]) = Some (appendPolicy (textOf l) s).
Proof. unfold textOf. by rewrite foldl_app. Qed.

Lemma persistedControl_text ts : policy_ok ts →
  persistedControl (TypeAndSaidToString ts.1 ts.2) =
  MkSaControl (if ts.1 =? START_POLICY then START_ON_DEMAND else STOP_ON_DEMAND) ts.2 false LOW_PRIORITY false.
Proof. intros [Ht Hn]. unfold persistedControl. by rewrite policy_text. Qed.

Lemma split_policies l text :
  splits SplitStr → Forall policy_ok l → textOf (policyTexts l) = Some text →
  persistedControl <$> SplitStr text "+" = policyControls l.
Proof.
  intros Hsp Hl Ht. rewrite (Hsp (policyTexts l)); [|apply Forall_fmap; eapply Forall_impl; [exact Hl|]|done].
  - unfold policyTexts, policyControls. rewrite <- list_fmap_compose. clear Ht.
    induction Hl as [|ts l Hts Hl IH]; [done|]. cbn. by rewrite persistedControl_text, IH.
  - intros ts [Hp _]. by apply policy_plain.
Qed.

Lemma textOf_nonempty l text : Forall policy_ok l → textOf (policyTexts l) = Some text → text ≠ "".
Proof.
  intros Hl Ht ->. induction l as [|ts l _] using rev_ind; [done|].
  unfold policyTexts in Ht. rewrite fmap_app in Ht. cbn in Ht. rewrite textOf_snoc in Ht. injection Ht as Ht.
  apply Forall_app in Hl as [_ [[Hp _] _]%Forall_cons]. destruct (policy_plain ts.1 ts.2 Hp) as [Hne _].
  destruct (textOf _) as [t|]; cbn in Ht; [|done]. apply (f_equal String.list_ascii_of_string) in Ht.
  rewrite chars_app in Ht. by apply app_nil in Ht as [_ ?].
Qed.

(** C19: Policies kept over a restart.  When the user's file holds, for a persistent timed event,
    the text of a list of policies, the event asks for exactly these SAs, started or stopped as
    their policy says and in this order; and persisting one more policy for the event writes the
    text of the list with that policy at its end. *)
Theorem persisted_policies event l text w :
  let path := GetPathForUser (userId_ (w_mgr w)) in
  let key := event_ToString event in
  splits SplitStr → PREFERENCES_ENABLE = true → selfPtr_ (w_mgr w) = true → env_GetPreferences (w_trace w) path = true →
  Forall policy_ok l → textOf (policyTexts l) = Some text → env_PreferencesHasKey (w_trace w) path key = true →
  env_PreferencesGetString (w_trace w) path key = Some text →
  (GetSaControlListByPersistEvent event [] w).1 = policyControls l ∧
  (NeedPersistOnDemandEvent event = true → ∀ type said, ∃ text',
     textOf (policyTexts (l ++ [(type, said)])) = Some text' ∧
     EvPreferences path (PutString key text')
       ∈ w_trace (persistOne said type (MkPreferencesUtil path true) event w).2).
Proof.
  intros path key Hsp He Ha Ho Hl Ht Hk Hg. split.
  - unfold GetSaControlListByPersistEvent, CreatePreferencesUtil, ObtainString, GetPreference, newPreferencesUtil.
    rewrite He. unfold mbind, M_bind, lockManager, getM, gets. cbn. rewrite Ha. cbn. fold path. rewrite Ho. cbn.
    fold path key. rewrite Hg. cbn. rewrite bool_decide_eq_false_2 by (by eapply textOf_nonempty). by apply split_policies.
  - intros Hn type said. eexists. split.
    + unfold policyTexts. rewrite fmap_app. cbn. by rewrite textOf_snoc.
    + fold (policyTexts l). rewrite Ht. pose proof (persistOne_appends said type (MkPreferencesUtil path true) event w Hn eq_refl) as H.
      cbn [path_] in H. fold key in H. rewrite Hk, Hg in H. exact H.
Qed.

(** ** Files of users *)

Lemma append_cancel_r (a b s : string) : a +:+ s = b +:+ s → a = b.
Proof.
  intros H. apply (f_equal String.list_ascii_of_string) in H. rewrite !chars_app in H. apply app_inv_tail in H.
  rewrite <- (String.string_of_list_ascii_of_string a), <- (String.string_of_list_ascii_of_string b). by rewrite H.
Qed.
Lemma paths_apart u v : GetPathForUser u = GetPathForUser v → u = v.
Proof.
  assert (Hb : ∀ n, PREFERENCES_PATH ≠ MULTI_USER_PREFERENCES_PATH_PREFIX +:+ to_string n +:+ PREFERENCES_PATH_SUFFIX) by done.
  unfold GetPathForUser. destruct (Z.eqb_spec u BASE_USER), (Z.eqb_spec v BASE_USER); [congruence|..]; intros H.
  - by apply Hb in H.
  - symmetry in H. by apply Hb in H.
  - apply (inj (String.append MULTI_USER_PREFERENCES_PATH_PREFIX)) in H. apply append_cancel_r in H. by apply (inj pretty) in H.
Qed.

(** Every user has a file of persisted events of its own: the paths of different users
    differ, and deleting a user's file deletes neither another user's nor the base user's, and
    nothing at all when asked for the base user. *)
Theorem user_files_apart u w :
  (∀ v, GetPathForUser u = GetPathForUser v → u = v) ∧
  ∃ l, w_trace (DeleteUserPreferences u w).2 = l ++ w_trace w ∧
       (∀ v, EvDeletePreferences (GetPathForUser v) ∈ l → v = u ∧ v ≠ BASE_USER).
Proof.
  split; [apply paths_apart|]. unfold DeleteUserPreferences. destruct (Z.eqb_spec u BASE_USER) as [->|Hu].
  { exists []. split; [done|]. by intros v []%elem_of_nil. }
  destruct (u =? SAMGR_INVALID_USER_ID); cbn [orb].
  - exists []. split; [done|]. by intros v []%elem_of_nil.
  - eexists [_]. split; [reflexivity|]. intros v Hv. apply list_elem_of_singleton in Hv. injection Hv as Hv.
    apply paths_apart in Hv as ->. done.
Qed.
End persist.

(** The file of the base user holds two policies for a timed event. *)
Definition timed0 : OnDemandEvent := MkEvent TIMED_EVENT "timedevent" "2026-01-01-00:00:00" (-1) true [] false LOW_PRIORITY ∅.
Definition persisted0 : World :=
  booted <| w_trace ::= cons (EvPreferences PREFERENCES_PATH (PutString (event_ToString timed0) "start#401#+stop#402#")) |>.

Lemma persisted_policies_witness :
  (GetSaControlListByPersistEvent timed0 [] persisted0).1 = policyControls [(START_POLICY, 401); (STOP_POLICY, 402)].
Proof.
  apply (persisted_policies timed0 [(START_POLICY, 401); (STOP_POLICY, 402)] "start#401#+stop#402#" persisted0);
    first [exact splitStr_splits | by repeat constructor; vm_compute | vm_compute; reflexivity].
Defined.
