(* ===== verification/CollectInv.v ===== *)
(** The invariant of the collect manager's plugins, over every way they are run:
    their tasks, what the system tells them, what the manager asks, in any order and
    whatever else happens in between. *)
From S2P Require Import Prelude Types World ParseUtil Ffrt Util TimeHandler CommonEvent TimedCollect DevicePlugins.
From S2P Require Import CollectManager CollectFrame Contexts Interfaces Hoare ManagerBase CollectTasks.
From S2P Require Import StateMachine EventHandler Scheduler SchedulerQuery Subscribers Manager System Concrete.
From S2P Require Import DBinder DumpStats.

(** ** The ways the collect manager is run *)

Inductive CollectOp :=
  | CoTask (t : CollectTask)
  | CoInput (i : CollectInput)
  | CoReport (event : OnDemandEvent)
  | CoUpdateOnDemandEvents (said type : Z) (events : list OnDemandEvent)
  | CoSaveExtraId (event : OnDemandEvent) (l : list SaControlInfo)
  | CoClearSaExtraDataId (said : Z)
  | CoRemoveWhiteCommonEvent
  | CoCleanFfrt
  | CoSetFfrt
  | CoUnInit.

Section steps.
Context `{E : Env}.

Definition runCollectOp (o : CollectOp) : M unit :=
  match o with
  | CoTask t => ignore (runCollectTask t)
  | CoInput i => runCollectInput i
  | CoReport event => ReportEvent event
  | CoUpdateOnDemandEvents said type events => ignore (UpdateOnDemandEvents said type events)
  | CoSaveExtraId event l => CollectSaveExtraId event l
  | CoClearSaExtraDataId said => CollectClearSaExtraDataId said
  | CoRemoveWhiteCommonEvent => CollectRemoveWhiteCommonEvent
  | CoCleanFfrt => CollectCleanFfrt
  | CoSetFfrt => CollectSetFfrt
  | CoUnInit => CollectUnInit
  end.

(** The collect manager of a manager that started with [profiles] and ran [Init]; in
    between, all but its own members may change. *)
Inductive collected (profiles : list SaProfile) : Collect → Prop :=
  | collected_init w : collected profiles (w_collect ((newCollectManager;; CollectInit profiles) w).2)
  | collected_run w o : collected profiles (w_collect w) → collected profiles (w_collect (runCollectOp o w).2).

(** Preservation of a predicate on its members. *)
Definition keepsC (I : Collect → Prop) : relation World := λ w w', I (w_collect w) → I (w_collect w').
#[local] Instance keepsC_preorder I : PreOrder (keepsC I).
Proof. split; [by intros w H|]. intros x y z H1 H2 H. auto. Qed.
#[local] Instance mgr_keepsC I : subrelation (same w_collect) (keepsC I).
Proof. intros w w' H Hw. by rewrite <- H. Qed.

(** ** The common events *)

(** At most one of two opposite states is recorded. *)
Definition exclusive (s : gset string) (a b : string) : Prop := ¬ (a ∈ s ∧ b ∈ s).

Record common_ok (s : CommonEventCollect) : Prop := {
  co_id : 0 ≤ extraDataId_ s ≤ MAX_EXTRA_DATA_ID;
  co_datas : map_Forall (λ i _, 1 ≤ i ≤ MAX_EXTRA_DATA_ID) (extraDatas_ s);
  co_lists : map_Forall (λ _ l, l ≠ []) (saExtraDataIdMap_ s);
  co_screen : exclusive (commonEventWhitelist s) (SCREEN_ON ces) (SCREEN_OFF ces);
  co_charging : exclusive (commonEventWhitelist s) (CHARGING ces) (DISCHARGING ces);
  co_power : exclusive (commonEventWhitelist s) (POWER_CONNECTED ces) (POWER_DISCONNECTED ces);
}.

(** The names of the states the device is in are different. *)
Definition events_distinct : Prop := NoDup stateEvents.

Lemma newCommon_ok : common_ok newCommonEventCollect.
Proof. split; cbn; try done; unfold exclusive; set_solver. Qed.

Lemma exclusive_swap s ins del a b :
  del = a ∨ del = b ∨ (ins ≠ a ∧ ins ≠ b) → exclusive s a b → exclusive (({[ins]} ∪ s) ∖ {[del]}) a b.
Proof. unfold exclusive. set_solver. Qed.
Lemma exclusive_add s x a b : x ≠ a → x ≠ b → exclusive s a b → exclusive ({[x]} ∪ s) a b.
Proof. unfold exclusive. set_solver. Qed.
Lemma exclusive_sub s s' a b : s' ⊆ s → exclusive s a b → exclusive s' a b.
Proof. unfold exclusive. set_solver. Qed.

Definition commonC (c : Collect) : Prop := common_ok (c_common c).

Section common.
Context (HD : events_distinct).

Hint Extern 1 (respects (keepsC commonC) (modify _)) => (let H := fresh in intros ? H; exact H) : respects.
Hint Extern 1 (respects (keepsC commonC) (updC _ _)) =>
  (let H := fresh in intros ? H; first [exact H | destruct H; split; assumption]) : respects.

(** *** Writes to the members of the invariant *)

Lemma SaveAction_common a : respects (keepsC commonC) (SaveAction a).
Proof.
  pose proof HD as Hd. unfold events_distinct, stateEvents in Hd. rewrite !NoDup_cons, !not_elem_of_cons in Hd.
  destruct_and! Hd. unfold SaveAction. cbv zeta.
  repeat match goal with
  | |- respects _ (if bool_decide _ then _ else _) => case_bool_decide
  end; try apply respects_ret; intros w []; split; cbn; try assumption;
    first [apply exclusive_swap; auto | apply exclusive_add; auto].
Qed.

Lemma RemoveWhite_common : respects (keepsC commonC) CommonRemoveWhiteCommonEvent.
Proof. intros w []. split; cbn; try assumption; (eapply exclusive_sub; [|eassumption]; set_solver). Qed.

Lemma SaveSaExtra_common said i : respects (keepsC commonC) (CommonSaveSaExtraDataId said i).
Proof.
  intros w []. split; cbn; try assumption. apply map_Forall_insert_2; [|assumption].
  by intros [_ ?]%app_nil.
Qed.
Lemma RemoveSaExtra_common i : respects (keepsC commonC) (RemoveSaExtraDataId i).
Proof.
  intros w []. split; cbn; try assumption. intros said l Hl. apply lookup_omap_Some in Hl as (l0 & Hl & _).
  unfold dropExtraId in Hl. destruct (erase_first _ l0) eqn:He; [done|]. by injection Hl as <-.
Qed.
Lemma ClearSa_common said : respects (keepsC commonC) (CommonClearSaExtraDataId said).
Proof. intros w []. split; cbn; try assumption. by apply map_Forall_delete. Qed.
Lemma dropData_common i : respects (keepsC commonC) (updCE extraDatas_ (delete i)).
Proof. intros w []. split; cbn; try assumption. by apply map_Forall_delete. Qed.
Hint Resolve SaveAction_common RemoveWhite_common SaveSaExtra_common RemoveSaExtra_common ClearSa_common dropData_common : respects.

Lemma SaveReason_common data : respects (keepsC commonC) (SaveOnDemandReasonExtraData data).
Proof.
  unfold SaveOnDemandReasonExtraData. intros w Hw.
  change (wp (i ← GenerateExtraDataIdLocked; updCE extraDatas_ <[i:=MkExtraData (GetCode data) (GetData data)
    (wantMap (GetWant data))]>;; b ← isHandler commonWorkHandler; if negb b then mret (-1)
    else _ ← sendEventDelay commonWorkHandler REMOVE_EXTRA_DATA_EVENT i REMOVE_EXTRA_DATA_DELAY_TIME; mret i)
    (λ _ w', commonC (w_collect w')) w).
  unfold GenerateExtraDataIdLocked. apply wp_bind, wp_bind, wp_modify, wp_gets, wp_bind, wp_modify.
  match goal with |- wp ?m _ _ => assert (Hm : respects (keepsC commonC) m) by solve_deep end.
  apply Hm. destruct Hw. split; cbn; try assumption.
  - destruct (Z.ltb_spec MAX_EXTRA_DATA_ID (extraDataId_ (c_common (w_collect w)) + 1)); unfold MAX_EXTRA_DATA_ID in *; lia.
  - apply map_Forall_insert_2; [|assumption].
    destruct (Z.ltb_spec MAX_EXTRA_DATA_ID (extraDataId_ (c_common (w_collect w)) + 1)); unfold MAX_EXTRA_DATA_ID in *; lia.
Qed.
Hint Resolve SaveReason_common : respects.

(** [CheckSystemAbility] is the manager's: it writes none of these members. *)
Lemma runCollectOp_common o : respects (keepsC commonC) (runCollectOp o).
Proof. destruct o as [[]|[| | | | | | | | | |[]]| | | | | | | |]; solve_deep. Qed.
End common.

(** ** The timed events *)

Definition loop_task (persistence : bool) (i : Z) (t : CollectTask) : Prop :=
  MIN_INTERVAL ≤ i ∧ (t = CtLoop i persistence ∨ t = CtEmptyFunction).
Definition time_info (i : Z) (info : TimeInfo) : Prop :=
  MIN_INTERVAL ≤ i ∧ (ti_awake info = true → MIN_AWAKE_INTERVAL ≤ i) ∧ (ti_normal info || ti_awake info) = true.

Record timed_ok (s : DeviceTimedCollect) : Prop := {
  ti_set : ∀ i, i ∈ nonPersitenceLoopEventSet_ s → MIN_INTERVAL ≤ i;
  ti_pset : ∀ i, i ∈ persitenceLoopEventSet_ s → MIN_INTERVAL ≤ i;
  ti_tasks : map_Forall (loop_task false) (nonPersitenceLoopTasks_ s);
  ti_ptasks : map_Forall (loop_task true) (persitenceLoopTasks_ s);
  ti_infos : map_Forall time_info (timeInfos_ s);
}.
Definition timedC (c : Collect) : Prop := timed_ok (c_timed c).

(** What is read satisfies the invariant of the state it is read from. *)
Lemma respects_read {A B} I (f : World → A) (k : A → M B) :
  (∀ w, I (w_collect w) → respects (keepsC I) (k (f w))) → respects (keepsC I) (gets f ≫= k).
Proof. intros H w Hw. exact (H w Hw w Hw). Qed.

Lemma respects_when_true {R} `{!PreOrder R} b (m : M unit) : (b = true → respects R m) → respects R (when b m).
Proof. intros H. destruct b; [by apply H|]. apply respects_ret. Qed.

Section timed.
Hint Extern 1 (respects (keepsC timedC) (modify _)) => (let H := fresh in intros ? H; exact H) : respects.
Hint Extern 1 (respects (keepsC timedC) (updC _ _)) =>
  (let H := fresh in intros ? H; first [exact H | destruct H; split; assumption]) : respects.

Lemma touch_task b i m : MIN_INTERVAL ≤ i → map_Forall (loop_task b) m → map_Forall (loop_task b) (map_touch i CtEmptyFunction m).
Proof.
  intros Hi Hm. unfold map_touch. destruct (m !! i); [done|]. apply map_Forall_insert_2; [|done]. split; [done|by right].
Qed.

Lemma loopTask_timed b i : MIN_INTERVAL ≤ i → respects (keepsC timedC) (loopTask b i).
Proof.
  intros Hi. unfold loopTask. destruct b; (apply respects_bind; [|intros; solve_deep]);
    intros w []; split; cbn; try assumption; by apply touch_task.
Qed.
Lemma insertTask_timed i : MIN_INTERVAL ≤ i → respects (keepsC timedC) (updT nonPersitenceLoopTasks_ <[i := CtLoop i false]>).
Proof. intros Hi w []. split; cbn; try assumption. apply map_Forall_insert_2; [|done]. split; [done|by left]. Qed.
Lemma insertPTask_timed i : MIN_INTERVAL ≤ i → respects (keepsC timedC) (updT persitenceLoopTasks_ <[i := CtLoop i true]>).
Proof. intros Hi w []. split; cbn; try assumption. apply map_Forall_insert_2; [|done]. split; [done|by left]. Qed.
Lemma insertSet_timed i : MIN_INTERVAL ≤ i → respects (keepsC timedC) (updT nonPersitenceLoopEventSet_ (λ s, {[i]} ∪ s)).
Proof. intros Hi w []. split; cbn; try assumption. intros j [->%elem_of_singleton|?]%elem_of_union; auto. Qed.
Lemma insertPSet_timed i : MIN_INTERVAL ≤ i → respects (keepsC timedC) (updT persitenceLoopEventSet_ (λ s, {[i]} ∪ s)).
Proof. intros Hi w []. split; cbn; try assumption. intros j [->%elem_of_singleton|?]%elem_of_union; auto. Qed.
Lemma removeSet_timed i : respects (keepsC timedC) (updT nonPersitenceLoopEventSet_ (λ s, s ∖ {[i]})).
Proof. intros w []. split; cbn; try assumption. intros j [? _]%elem_of_difference. auto. Qed.
Lemma removePSet_timed i : respects (keepsC timedC) (updT persitenceLoopEventSet_ (λ s, s ∖ {[i]})).
Proof. intros w []. split; cbn; try assumption. intros j [? _]%elem_of_difference. auto. Qed.
Lemma removeTask_timed i : respects (keepsC timedC) (updT nonPersitenceLoopTasks_ (delete i)).
Proof. intros w []. split; cbn; try assumption. by apply map_Forall_delete. Qed.
Lemma removePTask_timed i : respects (keepsC timedC) (updT persitenceLoopTasks_ (delete i)).
Proof. intros w []. split; cbn; try assumption. by apply map_Forall_delete. Qed.
Lemma RemoveTimesInfo_timed e i : respects (keepsC timedC) (RemoveTimesInfo e i).
Proof.
  intros w []. split; cbn; try assumption. destruct (timeInfos_ _ !! i) as [info|] eqn:Hi; [|done].
  destruct (ti_infos0 _ _ Hi) as (H1 & H2 & _).
  destruct (_ || _) eqn:Hk; [|by apply map_Forall_delete]. apply map_Forall_insert_2; [|done].
  split_and!; [done| |done]. cbn. intros [Ha _]%andb_true_iff. auto.
Qed.
Lemma SaveTimedInfos_timed e i :
  isLoopName (ev_name e) = true → badInterval (ev_name e) i = false → respects (keepsC timedC) (SaveTimedInfos e i).
Proof.
  intros Hn Hb w []. split; cbn; try assumption. apply map_Forall_insert_2; [|done].
  unfold badInterval in Hb. apply orb_false_iff in Hb as [H1%Z.ltb_ge H2].
  assert (Hold : ti_awake (default (MkTimeInfo false false) (timeInfos_ (c_timed (w_collect w)) !! i)) = true → MIN_AWAKE_INTERVAL ≤ i).
  { destruct (timeInfos_ _ !! i) as [info|] eqn:Hi; [|done]. by destruct (ti_infos0 _ _ Hi) as (_ & ? & _). }
  split_and!; [done| |]; cbn.
  - intros [Ha|Ha]%orb_true_iff; [auto|]. rewrite Ha, andb_true_r in H2. by apply Z.ltb_ge in H2.
  - unfold isLoopName in Hn. apply orb_true_iff in Hn as [-> | ->]; by rewrite !orb_true_r.
Qed.
Hint Resolve removeSet_timed removePSet_timed removeTask_timed removePTask_timed RemoveTimesInfo_timed : respects.

Lemma badInterval_min name i : badInterval name i = false → MIN_INTERVAL ≤ i.
Proof. unfold badInterval. by intros [?%Z.ltb_ge _]%orb_false_iff. Qed.
Lemma ltb_min i : (i <? MIN_INTERVAL) = false → MIN_INTERVAL ≤ i.
Proof. apply Z.ltb_ge. Qed.
Hint Extern 1 (MIN_INTERVAL ≤ _) => (eapply badInterval_min; eassumption) : respects.
Hint Resolve ltb_min loopTask_timed insertTask_timed insertPTask_timed insertSet_timed insertPSet_timed SaveTimedInfos_timed : respects.

Lemma PostNonPersistence_timed i : MIN_INTERVAL ≤ i → respects (keepsC timedC) (PostNonPersistenceLoopTaskLocked i).
Proof. intros Hi. unfold PostNonPersistenceLoopTaskLocked. solve_deep. Qed.
Lemma PostPersistence_timed i : MIN_INTERVAL ≤ i → respects (keepsC timedC) (PostPersistenceLoopTaskLocked i).
Proof. intros Hi. unfold PostPersistenceLoopTaskLocked. solve_deep. Qed.
Hint Resolve PostNonPersistence_timed PostPersistence_timed : respects.

(** Loops over what is in the state. *)
Lemma sorted_min (s : gset Z) i : (∀ i, i ∈ s → MIN_INTERVAL ≤ i) → i ∈ sorted_set Z.le s → MIN_INTERVAL ≤ i.
Proof. intros H Hi. apply H. by apply elem_of_sorted_set in Hi. Qed.
Lemma PostLoops_timed : respects (keepsC timedC) PostNonPersistenceLoopTasks.
Proof.
  apply respects_read. intros w []. apply respects_forM. intros i Hi. apply PostNonPersistence_timed. exact (sorted_min _ _ ti_set0 Hi).
Qed.
Lemma PostPLoops_timed : respects (keepsC timedC) PostPersistenceLoopTasks.
Proof.
  apply respects_read. intros w []. apply respects_forM. intros i Hi. apply PostPersistence_timed. exact (sorted_min _ _ ti_pset0 Hi).
Qed.
Lemma runLoop_timed i b : respects (keepsC timedC) (runLoop i b).
Proof.
  unfold runLoop. destruct b; apply respects_read; intros w []; apply respects_when_true; intros Hi%bool_decide_eq_true.
  - destruct Hi as [t Ht]. destruct (ti_ptasks0 _ _ Ht) as [Hm _]. solve_deep.
  - apply ti_set0 in Hi. solve_deep.
Qed.
Lemma ProcessLoop_timed d t s : respects (keepsC timedC) (ProcessPersistenceLoopTask d t s).
Proof. unfold ProcessPersistenceLoopTask. solve_deep. Qed.
Hint Resolve PostLoops_timed PostPLoops_timed runLoop_timed ProcessLoop_timed : respects.
Lemma TimedAdd_timed l : respects (keepsC timedC) (TimedAddCollectEvent l).
Proof.
  unfold TimedAddCollectEvent. apply respects_whileOk. intros e.
  destruct (isLoopName (ev_name e)) eqn:Hn, (bool_decide (ev_name e = ORDER_TIMED_EVENT)); cbn [negb andb]; solve_deep.
Qed.
Lemma SaveTimedEvent_timed e : respects (keepsC timedC) (SaveTimedEvent e).
Proof.
  unfold SaveTimedEvent. destruct (eventId e =? TIMED_EVENT); [|apply respects_ret].
  destruct (isLoopName (ev_name e)) eqn:Hn; cbn [andb]; solve_deep.
Qed.
Hint Resolve TimedAdd_timed SaveTimedEvent_timed : respects.

Lemma newTimed_timed : respects (keepsC timedC) (updC c_timed (λ _, newDeviceTimedCollect)).
Proof. intros w _. by split. Qed.
Hint Resolve newTimed_timed : respects.
Lemma CollectInit_timed l : respects (keepsC timedC) (CollectInit l).
Proof. solve_deep. Qed.

Lemma runCollectOp_timed o : respects (keepsC timedC) (runCollectOp o).
Proof. destruct o as [[]|[| | | | | | | | | |[]]| | | | | | | |]; solve_deep. Qed.
End timed.

(** ** The start *)

(** No state but those of a new device is recorded. *)
Definition freshC (c : Collect) : Prop :=
  commonC c ∧ ∀ a, a ∈ commonEventWhitelist (c_common c) → a ∈ [SCREEN_ON ces; DISCHARGING ces; POWER_DISCONNECTED ces].

Section start.
Context (HD : events_distinct).
Hint Extern 1 (respects (keepsC freshC) (modify _)) => (let H := fresh in intros ? H; exact H) : respects.
Hint Extern 1 (respects (keepsC freshC) (updC _ _)) =>
  (let H := fresh in intros ? H; first [exact H | destruct H as [[] ?]; split; [split; assumption|assumption]]) : respects.

Lemma exclusive_fresh s a b :
  (∀ x, x ∈ s → x ∈ [SCREEN_ON ces; DISCHARGING ces; POWER_DISCONNECTED ces]) →
  (a, b) ∈ [(SCREEN_ON ces, SCREEN_OFF ces); (CHARGING ces, DISCHARGING ces); (POWER_CONNECTED ces, POWER_DISCONNECTED ces)] →
  exclusive s a b.
Proof.
  pose proof HD as Hd. unfold events_distinct, stateEvents in Hd. rewrite !NoDup_cons, !not_elem_of_cons in Hd. destruct_and! Hd.
  intros Hs Hab [Ha%Hs Hb%Hs]. rewrite !elem_of_cons, elem_of_nil in Ha, Hb. set_solver.
Qed.

Lemma whitelist_fresh :
  respects (keepsC freshC)
    (updCE commonEventWhitelist (λ s, {[SCREEN_ON ces; DISCHARGING ces; POWER_DISCONNECTED ces]} ∪ s)).
Proof.
  intros w [[] Hf].
  assert (H : ∀ a, a ∈ ({[SCREEN_ON ces; DISCHARGING ces; POWER_DISCONNECTED ces]} ∪ commonEventWhitelist (c_common (w_collect w)) : gset string) →
                   a ∈ [SCREEN_ON ces; DISCHARGING ces; POWER_DISCONNECTED ces]) by set_solver.
  split; [|exact H]. split; cbn; try assumption; (apply exclusive_fresh; [exact H|]; set_solver).
Qed.
Lemma newCommon_fresh : respects (keepsC freshC) (updC c_common (λ _, newCommonEventCollect)).
Proof. intros w _. split; [apply newCommon_ok|]. by intros a ?%elem_of_empty. Qed.
Hint Resolve whitelist_fresh newCommon_fresh : respects.
Lemma CollectInit_fresh l : respects (keepsC freshC) (CollectInit l).
Proof. solve_deep. Qed.
End start.

(** C6: The invariant of the collect plugins.  However their tasks, the events of the system and
    the manager's requests interleave, from the start of the collect manager and whatever the other
    components do in between: the ids of event data are in [1, 10^9], an SA in the table of ids has at
    least one, the device is never recorded in two opposite states at once (screen on and off, charging
    and not, power connected and not), no loop event has an interval under 30 s, and none that
    wakes the device has one under an hour. *)
Theorem collect_invariant profiles c :
  events_distinct → collected profiles c → common_ok (c_common c) ∧ timed_ok (c_timed c).
Proof.
  intros HD. induction 1 as [w|w o _ [IH1 IH2]].
  - unfold mbind, M_bind. cbn [newCollectManager modify]. set (w0 := w <| w_collect := newCollect |>).
    split; [|by apply (CollectInit_timed profiles w0)]. apply (CollectInit_fresh HD profiles w0).
    split; [apply newCommon_ok|]. by intros a ?%elem_of_empty.
  - split; [by apply (runCollectOp_common HD o w)|by apply (runCollectOp_timed o w)].
Qed.
End steps.

(** The plugins of a device whose screen was turned off after the start. *)
Definition want0 (action : string) : Want :=
  MkWant action "" {["key"]} (λ k d, if bool_decide (k = "key") then 7 else d) (λ _, "") (λ _ d, d).
Definition screenOff : CommonEventData := MkCommonEventData (want0 (SCREEN_OFF ces)) 0 "".
Definition collect0 : World := ((newCollectManager;; CollectInit profiles0) (emptyWorld KSystemAbilityManager 0 caller0)).2.
Definition screenIsOff : World := (runCollectOp (CoInput (CiCommonEvent screenOff)) collect0).2.

Lemma env0_distinct : events_distinct.
Proof. apply (bool_decide_unpack _). by vm_compute. Qed.

Lemma collect_invariant_witness :
  SCREEN_OFF ces ∈ commonEventWhitelist (c_common (w_collect screenIsOff)) ∧ common_ok (c_common (w_collect screenIsOff)).
Proof.
  split; [apply (bool_decide_unpack _); by vm_compute|].
  apply (collect_invariant profiles0); [exact env0_distinct|]. apply collected_run, collected_init.
Defined.
