(* ===== verification/EventSpec.v ===== *)
(** What the plugins record of the events they see. *)
From S2P Require Import Prelude Types World ParseUtil Ffrt Util TimeHandler CommonEvent TimedCollect DevicePlugins.
From S2P Require Import CollectManager CollectFrame Contexts Interfaces Hoare ManagerBase CollectTasks.
From S2P Require Import StateMachine EventHandler Scheduler SchedulerQuery Subscribers Manager System Concrete.
From S2P Require Import DBinder DumpStats.
From S2P Require Import CollectSpec CollectInv.

Section events.
Context `{E : Env}.

(** ** Common events *)

(** The states that exclude each other. *)
Definition opposite (a : string) : option string :=
  if bool_decide (a = SCREEN_ON ces) then Some (SCREEN_OFF ces)
  else if bool_decide (a = SCREEN_OFF ces) then Some (SCREEN_ON ces)
  else if bool_decide (a = CHARGING ces) then Some (DISCHARGING ces)
  else if bool_decide (a = DISCHARGING ces) then Some (CHARGING ces)
  else if bool_decide (a = POWER_CONNECTED ces) then Some (POWER_DISCONNECTED ces)
  else if bool_decide (a = POWER_DISCONNECTED ces) then Some (POWER_CONNECTED ces)
  else None.

(** The states recorded after an event. *)
Definition recorded (a : string) (s s' : gset string) : Prop :=
  ∀ x, x ∈ s' ↔ (x = a ∧ a ∈ stateEvents) ∨ (x ∈ s ∧ opposite a ≠ Some x).

Section common.
Context (HD : events_distinct).

Lemma recorded_swap a b s :
  a ∈ stateEvents → opposite a = Some b → a ≠ b → recorded a s (({[a]} ∪ s) ∖ {[b]}).
Proof.
  intros Ha Hb Hne x. rewrite Hb, elem_of_difference, elem_of_union, !elem_of_singleton.
  split; [intros [[->|?] ?]; [by left|right; split; congruence]|].
  intros [[-> _]|[? Hx]]; split; [by left|done|by right|]. intros ->. by apply Hx.
Qed.
Lemma recorded_add a s : a ∈ stateEvents → opposite a = None → recorded a s ({[a]} ∪ s).
Proof. intros Ha Hb x. rewrite Hb, elem_of_union, elem_of_singleton. naive_solver. Qed.
Lemma recorded_other a s : a ∉ stateEvents → opposite a = None → recorded a s s.
Proof. intros Ha Hb x. rewrite Hb. naive_solver. Qed.

Ltac distinct := pose proof HD as Hd; unfold events_distinct, stateEvents in Hd;
  rewrite !NoDup_cons, !not_elem_of_cons in Hd; destruct_and! Hd.
Ltac in_states := unfold stateEvents; repeat first [left | right].
Ltac opp := unfold opposite; by repeat case_bool_decide.

Lemma updCE_id w : updCE commonEventWhitelist (λ _, commonEventWhitelist (c_common (w_collect w))) w = (tt, w).
Proof. by destruct w as [? ? ? ? ? ? ? [? ? [] ? ? ? ? ?] ?]. Qed.

Lemma SaveAction_records a w :
  ∃ s', SaveAction a w = updCE commonEventWhitelist (λ _, s') w ∧
        recorded a (commonEventWhitelist (c_common (w_collect w))) s'.
Proof.
  distinct. unfold SaveAction. cbv zeta.
  repeat (case_bool_decide; [subst a; eexists; split;
    [reflexivity|first [apply recorded_swap; [in_states|opp|congruence] | apply recorded_add; [in_states|opp]]]|]).
  exists (commonEventWhitelist (c_common (w_collect w))). rewrite updCE_id. split; [done|]. apply recorded_other; [|opp].
  unfold stateEvents. rewrite !not_elem_of_cons. split_and!; try done. apply not_elem_of_nil.
Qed.

(** *** An event that arrives *)

Definition records (w : World) :=
  let s := c_common (w_collect w) in
  (commonEventWhitelist s, commonEventConditionExtraData_ s, commonEventConditionValue_ s, extraDatas_ s).
Hint Extern 1 (respects (same records) (modify _)) => (intros ?; reflexivity) : respects.

Definition nextId (s : CommonEventCollect) : Z := if MAX_EXTRA_DATA_ID <? extraDataId_ s + 1 then 1 else extraDataId_ s + 1.
Definition eventData (data : CommonEventData) : OnDemandReasonExtraData :=
  MkExtraData (GetCode data) (GetData data) (wantMap (GetWant data)).

(** The parameters of the event that conditions ask for. *)
Definition askedParams (data : CommonEventData) (s : CommonEventCollect) : gmap string string :=
  map_imap (λ k _, Some (GetParamFromWant k (GetWant data)))
    (default ∅ (commonEventConditionExtraData_ s !! GetAction (GetWant data))).

Lemma OnReceiveEvent_records data w :
  COMMON_EVENT ∈ collectPluginMap_ (w_collect w) →
  let s := c_common (w_collect w) in
  let action := GetAction (GetWant data) in
  wp (CommonOnReceiveEvent data) (λ _ w', ∃ wl, recorded action (commonEventWhitelist s) wl ∧
    records w' = (wl, <[action := askedParams data s]> (commonEventConditionExtraData_ s),
                  <[action := to_string (GetCode data)]> (commonEventConditionValue_ s),
                  <[nextId s := eventData data]> (extraDatas_ s))) w.
Proof.
  intros Hp s action. unfold CommonOnReceiveEvent. apply wp_bind, wp_gets. rewrite bool_decide_eq_true_2 by done.
  cbn [when]. fold action. apply wp_bind. destruct (SaveAction_records action w) as (wl & Hs & Hr).
  unfold wp at 1. rewrite Hs. cbn [fst snd]. unfold SaveOnDemandReasonExtraData, GenerateExtraDataIdLocked.
  do 3 apply wp_bind. apply wp_modify, wp_gets, wp_bind, wp_modify.
  apply wp_bind, (wp_same records); [solve_deep|]. intros b w1 H1.
  apply (wp_same records); [solve_deep|]. intros id w2 H2. apply wp_bind. unfold SaveOnDemandConditionExtraData.
  apply wp_bind, wp_modify, wp_modify. apply (wp_same records); [solve_deep|]. intros _ w3 H3. exists wl. split; [done|].
  rewrite H3. rewrite H1 in H2. unfold records in *. injection H2 as E1 E2 E3 E4. cbn. by rewrite E1, E2, E3, E4.
Qed.

Definition pluginsOf (w : World) : gset Z := collectPluginMap_ (w_collect w).
Hint Extern 1 (respects (same pluginsOf) (modify _)) => (intros ?; reflexivity) : respects.
Lemma OnReceiveEvent_plugins data : respects (same pluginsOf) (CommonOnReceiveEvent data).
Proof. solve_deep. Qed.

(** What the conditions are after the event. *)
Lemma commonHolds_after data s s' wl c :
  let action := GetAction (GetWant data) in
  recorded action (commonEventWhitelist s) wl →
  commonEventWhitelist s' = wl →
  commonEventConditionExtraData_ s' = <[action := askedParams data s]> (commonEventConditionExtraData_ s) →
  commonEventConditionValue_ s' = <[action := to_string (GetCode data)]> (commonEventConditionValue_ s) →
  commonHolds s' c =
  if bool_decide (cond_name c = action) then
    checkMessages (askedParams data s) (cond_extraMessages c)
    && (bool_decide (cond_value c = to_string (GetCode data)) || bool_decide (cond_value c = ""))
  else if bool_decide (opposite action = Some (cond_name c)) then false
  else commonHolds s c.
Proof.
  intros action Hr Hw He Hv. unfold commonHolds. rewrite Hw, He, Hv. destruct (decide (cond_name c = action)) as [Hn|Hn].
  - rewrite (bool_decide_eq_true_2 (cond_name c = action)) by done. rewrite Hn, !lookup_insert_eq.
    change (default ?d (Some ?x)) with x.
    rewrite (bool_decide_ext (to_string _ = cond_value c) (cond_value c = to_string (GetCode data))) by done.
    match goal with |- ?b && _ = _ => transitivity (b && true); [f_equal|apply andb_true_r] end.
    rewrite bool_decide_not. destruct (decide (action ∈ stateEvents)) as [Hst|Hst].
    + rewrite (bool_decide_eq_true_2 (action ∈ stateEvents)) by done. apply bool_decide_eq_true_2, Hr. by left.
    + by rewrite (bool_decide_eq_false_2 (action ∈ stateEvents)).
  - rewrite (bool_decide_eq_false_2 (cond_name c = action)), !lookup_insert_ne by done.
    destruct (decide (opposite action = Some (cond_name c))) as [Ho|Ho].
    + rewrite (bool_decide_eq_true_2 (opposite action = _)) by done. rewrite andb_false_iff. right. apply orb_false_iff.
      split; apply bool_decide_eq_false_2.
      * intros Hst. apply Hst. revert Ho. unfold opposite. repeat case_bool_decide; intros [= <-]; in_states.
      * intros [[? _]|[_ ?]]%Hr; done.
    + rewrite (bool_decide_eq_false_2 (opposite action = _)) by done. do 2 f_equal. apply bool_decide_ext. specialize (Hr (cond_name c)). naive_solver.
Qed.

(** C20: A common event that arrives is recorded: its data is kept under a new id, from which it is read
    back; a condition on that event holds if and only if it asks for the code of the event, or for none, and for
    parameters the event has; a condition on the opposite state does not hold any more; and every
    other condition on common events is as it was. *)
Theorem common_event_recorded data w :
  COMMON_EVENT ∈ collectPluginMap_ (w_collect w) →
  let s := c_common (w_collect w) in
  let action := GetAction (GetWant data) in
  let w' := (CommonOnReceiveEvent data w).2 in
  (CollectGetReasonExtraData (nextId s) w').1 = (ERR_OK, eventData data) ∧
  ∀ c, commonHolds (c_common (w_collect w')) c =
    if bool_decide (cond_name c = action) then
      checkMessages (askedParams data s) (cond_extraMessages c)
      && (bool_decide (cond_value c = to_string (GetCode data)) || bool_decide (cond_value c = ""))
    else if bool_decide (opposite action = Some (cond_name c)) then false
    else commonHolds s c.
Proof.
  intros Hp s action w'. destruct (OnReceiveEvent_records data w Hp) as (wl & Hr & Hs). fold s w' in Hr, Hs.
  unfold records in Hs. injection Hs as E1 E2 E3 E4. split.
  - assert (Hpl : collectPluginMap_ (w_collect w') = collectPluginMap_ (w_collect w)) by (symmetry; apply OnReceiveEvent_plugins).
    unfold CollectGetReasonExtraData, withCommon, IsExistInPluginMap, hasPlugin, CommonGetExtraData, mbind, M_bind, getC, getCE, gets.
    cbn -[bool_decide]. rewrite Hpl, bool_decide_eq_true_2 by done. cbn. rewrite E4. by rewrite lookup_insert_eq.
  - intros c. by apply (commonHolds_after data s _ wl).
Qed.
End common.

(** ** Devices *)

Inductive DeviceNotice := DeviceOnline (id : string) | DeviceOffline (id : string).

Definition runNotice (n : DeviceNotice) : M unit :=
  match n with DeviceOnline id => OnDeviceOnline id | DeviceOffline id => OnDeviceOffline id end.

(** The devices that are online, from the notices alone. *)
Definition noticeDevices (s : gset string) (n : DeviceNotice) : gset string :=
  match n with DeviceOnline id => {[id]} ∪ s | DeviceOffline id => s ∖ {[id]} end.

Definition networkOf (w : World) : gset Z * option (gset string) :=
  (collectPluginMap_ (w_collect w), stateCallback_ (c_networking (w_collect w))).
Hint Extern 1 (respects (same networkOf) (modify _)) => (intros ?; reflexivity) : respects.
Lemma ReportEvent_network e : respects (same networkOf) (ReportEvent e).
Proof. solve_deep. Qed.

Lemma runNotice_spec s n w :
  stateCallback_ (c_networking (w_collect w)) = Some s →
  networkOf (runNotice n w).2 = (collectPluginMap_ (w_collect w), Some (noticeDevices s n)).
Proof.
  intros Hs. change (wp (runNotice n) (λ _ w', networkOf w' = (collectPluginMap_ (w_collect w), Some (noticeDevices s n))) w).
  destruct n as [i|i]; cbn [runNotice noticeDevices]; unfold OnDeviceOnline, OnDeviceOffline; apply wp_bind, wp_gets;
    unfold getN; rewrite Hs.
  - apply wp_bind, wp_gets, wp_bind, (wp_same networkOf); [solve_deep|]. intros _ w1 H1. apply wp_bind, wp_modify.
    apply (wp_same networkOf); [apply ReportEvent_network|]. intros _ w2 H2. rewrite H2. unfold networkOf in *. cbn.
    injection H1 as -> ->. by rewrite Hs.
  - apply wp_bind, wp_modify. apply wp_bind, wp_bind, wp_gets, wp_ret. apply (wp_same networkOf); [solve_deep|].
    intros _ w2 H2. rewrite H2. unfold networkOf. cbn. by rewrite Hs.
Qed.

(** C21: The devices that are online are those of the notices: after any sequence of notices, from any set
    of devices, the plugin holds exactly the devices whose last notice was that they came online, and
    those it began with that had none; the condition that a device is online holds if and only if there is
    such a device, the condition that none is if and only if there is none, and no other value holds. *)
Theorem devices_tracked (ns : list DeviceNotice) s w :
  stateCallback_ (c_networking (w_collect w)) = Some s → DEVICE_ONLINE ∈ collectPluginMap_ (w_collect w) →
  let w' := (forM ns runNotice w).2 in
  let devices := foldl noticeDevices s ns in
  stateCallback_ (c_networking (w_collect w')) = Some devices ∧
  ∀ c, cond_eventId c = DEVICE_ONLINE →
    (pluginCheckCondition c w').1 =
    bool_decide ((cond_value c = "on" ∧ devices ≠ ∅) ∨ (cond_value c = "off" ∧ devices = ∅)).
Proof.
  revert s w. induction ns as [|n ns IH]; intros s w Hs Hp.
  - split; [done|]. intros c Hc. cbn [forM foldl]. unfold pluginCheckCondition. rewrite Hc.
    change ((NetworkingCheckCondition c w).1 = bool_decide ((cond_value c = "on" ∧ s ≠ ∅) ∨ (cond_value c = "off" ∧ s = ∅))).
    unfold NetworkingCheckCondition, IsOnline, mbind, M_bind, getN, gets. cbn. rewrite Hs. cbn.
    repeat case_bool_decide; naive_solver.
  - pose proof (runNotice_spec s n w Hs) as Hn. cbn [forM foldl]. unfold mbind, M_bind.
    destruct (runNotice n w) as [[] w1]. unfold networkOf in Hn. cbn in Hn. injection Hn as Hp1 Hs1.
    apply IH; [done|]. by rewrite Hp1.
Qed.
End events.

(** The screen of the device of CollectInv.v is turned off. *)
Lemma common_event_recorded_witness :
  commonHolds (c_common (w_collect (CommonOnReceiveEvent screenOff collect0).2))
    (MkCondition COMMON_EVENT (SCREEN_ON ces) "" ∅) = false.
Proof.
  destruct (common_event_recorded env0_distinct screenOff collect0) as [_ H].
  - apply (bool_decide_unpack _). by vm_compute.
  - rewrite H. vm_compute. reflexivity.
Defined.

(** Two devices come online, one leaves. *)
Definition networking0 : World := (runCollectTask CtStart collect0).2.
Lemma devices_tracked_witness :
  (pluginCheckCondition (MkCondition DEVICE_ONLINE SA_TAG_DEVICE_ON_LINE "on" ∅)
    (forM [DeviceOnline "a"; DeviceOnline "b"; DeviceOffline "a"] runNotice networking0).2).1 = true.
Proof.
  destruct (devices_tracked [DeviceOnline "a"; DeviceOnline "b"; DeviceOffline "a"] ∅ networking0) as [_ H].
  - vm_compute. reflexivity.
  - apply (bool_decide_unpack _). by vm_compute.
  - rewrite H by reflexivity. vm_compute. reflexivity.
Defined.

(** ** Two runs of the timed plugin *)

(** SA 401 has a loop of an hour, SA 402 one of an hour that wakes the device.  When SA 401 drops its
    event, the loop both share ends: the next turn does nothing, though SA 402 still has its event. *)
Definition loopProfile (said : Z) (name : string) : SaProfile :=
  MkSaProfile foo said "libsa.so" [] 0 false false true false 1 1
    (MkStartOnDemand true [mkEvent TIMED_EVENT name "3600"]) (MkStopOnDemand false false 20000 0 []) IMMEDIATELY [] false false.
Definition looping : World :=
  (runCollectTask CtStart ((newCollectManager;; CollectInit [loopProfile 401 LOOP_EVENT; loopProfile 402 AWAKE_LOOP_EVENT])
    (emptyWorld KSystemAbilityManager 0 caller0)).2).2.
Definition dropped : World := (UpdateOnDemandEvents 401 START_POLICY [] looping).2.

Example shared_interval_ends :
  CheckEventUsedLocked (mkEvent TIMED_EVENT AWAKE_LOOP_EVENT "3600") (onDemandSaProfiles_ (w_collect dropped)) = true ∧
  length (w_trace (runLoop 3600 false looping).2) ≠ length (w_trace looping) ∧
  length (w_trace (runLoop 3600 false dropped).2) = length (w_trace dropped).
Proof. vm_compute. done. Qed.

(** The file holds two timed events when the process starts: only the first is set again. *)
Definition twoTimed : World :=
  (emptyWorld KSystemAbilityManager 0 caller0) <| w_trace :=
    [EvPreferences PREFERENCES_PATH (PutLong "2026-02-01-00:00:00" 9000);
     EvPreferences PREFERENCES_PATH (PutLong "2026-01-01-00:00:00" 8000)] |>.
Example second_timed_lost :
  (map_to_list (w_timeFunc (runCollectTask CtStart ((newCollectManager;; CollectInit []) twoTimed).2).2)).*2 =
  [TCollect (CtTimed "2026-01-01-00:00:00" true)].
Proof. vm_compute. reflexivity. Qed.

(** ** The load of the processors *)

Section load.
Context `{E : Env}.



























End load.

