(* ===== verification/DumpSpec.v ===== *)
(** What the dumper shows and whom it asks: the statistics of ffrt as a machine of three
    states, the parser of process ids, who may dump, and the counts of listeners. *)
From S2P Require Import Prelude Types World Parcel Ffrt Util CommonEvent TimedCollect CollectFrame Contexts Interfaces Hoare.
From S2P Require Import ManagerBase StateMachine EventHandler Scheduler SchedulerQuery Subscribers DumpStats Manager.
From S2P Require Import IpcInterface Stub StubFrame Policy MultiManager UserLifecycle GlobalSubscriptions Samgr Dumper.
From S2P Require Import DBinder System Service Concrete ConcreteService.

(** ** The statistics of ffrt *)

(** What a user of the commands sees: nothing collected, a collection that runs, or one whose
    results wait to be shown. *)
Inductive StatState := Idle | Collecting | Collected.
Inductive StatInput := StatStart | StatStop | StatGet | StatTimeout.

Definition statOf (d : Dumper) : StatState :=
  if collectEnable d then Collecting else if ffrtMetricBuffer d then Collected else Idle.

(** The machine: [ok] is the answer of the ffrt library, where it is asked. *)
Definition statNext (ok : bool) (i : StatInput) (s : StatState) : StatState :=
  match i, s with
  | StatStart, Collecting => Collecting
  | StatStart, _ => if ok then Collecting else Idle
  | StatStop, Collecting => if ok then Collected else Idle
  | StatGet, Collected => Idle
  | StatTimeout, _ => Idle
  | _, s => s
  end.
Definition statDone (ok : bool) (i : StatInput) (s : StatState) : bool :=
  match i, s with
  | StatStart, Collecting => false
  | StatStart, _ | StatStop, Collecting => ok
  | StatGet, Collected | StatTimeout, _ => true
  | _, _ => false
  end.
(** The calls of the library, with their answers. *)
Definition statAsks (ok : bool) (i : StatInput) (s : StatState) : list (FfrtDumpCmd * bool) :=
  match i, s with
  | StatStart, Collecting => []
  | StatStart, _ => [(DUMP_START_STAT, ok)]
  | StatStop, Collecting | StatTimeout, Collecting => [(DUMP_STOP_STAT, ok)]
  | _, _ => []
  end.

Section stats.
Context `{E : Env}.

Definition statCmd (i : StatInput) : option Z :=
  match i with
  | StatStart => Some FFRT_STAT_CMD_START
  | StatStop => Some FFRT_STAT_CMD_STOP
  | StatGet => Some FFRT_STAT_CMD_GET
  | StatTimeout => None
  end.
(** A command with the text so far, or the task of the timeout. *)
Definition runStat (i : StatInput) (text : string) : M bool :=
  match statCmd i with
  | Some cmd => '(ret, _) ← CollectFfrtStatistics cmd text; mret ret
  | None => ClearFfrtStatistics;; mret true
  end.

(** The statistics calls of a trace, the last one first. *)
Fixpoint libLog (tr : Trace) : list (FfrtDumpCmd * bool) :=
  match tr with
  | [] => []
  | EvDump (FfrtDump DUMP_INFO_ALL) :: tr' => libLog tr'
  | EvDump (FfrtDump c) :: tr' => (c, env_ffrt_dump tr' =? ERR_OK) :: libLog tr'
  | _ :: tr' => libLog tr'
  end.

Definition statView (w : World) := (w_dumper w, libLog (w_trace w)).
Hint Extern 1 (respects (same statView) (modify _)) => (intros ?; reflexivity) : respects.
Hint Extern 1 (respects (same statView) (emit _)) => (intros ?; reflexivity) : respects.

Lemma RemoveTask_view h n : respects (same statView) (RemoveTask h n).
Proof. unfold RemoveTask. solve_deep. Qed.
Lemma newHandler_view h : respects (same statView) (newFFRTHandler h).
Proof. solve_deep. Qed.
Lemma PostTask_view h t n d : respects (same statView) (PostTaskNamed h t n d).
Proof. solve_deep. Qed.
Lemma CleanFfrt_view h : respects (same statView) (CleanFfrt h).
Proof. solve_deep. Qed.
Lemma dropHandler_view h : respects (same statView) (dropHandler h).
Proof. solve_deep. Qed.
Hint Resolve RemoveTask_view newHandler_view PostTask_view CleanFfrt_view dropHandler_view : respects.

Lemma ClearBuffer_view w Q :
  (∀ w', statView w' = ((w_dumper w) <| ffrtMetricBuffer := false |>, libLog (w_trace w)) → Q tt w') →
  wp ClearFfrtStatisticsBufferLocked Q w.
Proof.
  intros H. unfold ClearFfrtStatisticsBufferLocked. apply wp_bind. unfold updDump. apply wp_modify.
  apply (wp_same statView); [solve_deep|]. intros [] w' Hw. by apply H.
Qed.

(** The buffer the library writes to is there as long as it collects. *)
Definition statInv (w : World) : Prop := collectEnable (w_dumper w) = true → ffrtMetricBuffer (w_dumper w) = true.

Lemma view_eq w d l : statView w = (d, l) → w_dumper w = d ∧ libLog (w_trace w) = l.
Proof. unfold statView. by intros [= -> ->]. Qed.

(** What one input does, as the machine says. *)
Definition statSpec (i : StatInput) (w : World) (ret : bool) (w' : World) : Prop :=
  ∃ ok, let s := statOf (w_dumper w) in
    statInv w' ∧ statOf (w_dumper w') = statNext ok i s ∧ ret = statDone ok i s ∧
    libLog (w_trace w') = statAsks ok i s ++ libLog (w_trace w).

Lemma Start_spec text w : statInv w → wp (StartFfrtStatistics text) (λ r w', statSpec StatStart w r.1 w') w.
Proof.
  intros HI. unfold StartFfrtStatistics, getDump. apply wp_bind, wp_gets.
  destruct (collectEnable (w_dumper w)) eqn:Hc.
  - apply wp_ret. exists true. unfold statOf. by rewrite Hc.
  - apply wp_bind, ClearBuffer_view. intros w1 [H1 H2]%view_eq. apply wp_bind. unfold updDump. apply wp_modify.
    unfold ffrt_dump, ask. apply wp_bind, wp_bind, wp_gets, wp_bind, wp_modify, wp_ret.
    set (ok := env_ffrt_dump _ =? ERR_OK). destruct ok eqn:Hok; cbn [negb].
    + apply wp_bind, wp_modify, wp_bind, wp_gets, wp_bind.
      apply (wp_same statView); [solve_deep|]. intros [] w2 H3. apply wp_bind.
      apply (wp_same statView); [solve_deep|]. intros b w3 H4. apply wp_ret. rewrite H3 in H4. apply view_eq in H4 as [H5 H6].
      exists true. unfold statInv, statOf. rewrite H5, H6, Hc. cbn. rewrite H2. cbn in Hok. unfold ok in Hok. cbn in Hok.
      rewrite Hok. by destruct (ffrtMetricBuffer (w_dumper w)).
    + apply wp_bind, ClearBuffer_view. intros w2 [H3 H4]%view_eq. apply wp_ret. exists false.
      unfold statInv, statOf. rewrite H3, H4, Hc. cbn. rewrite H1, H2. cbn. rewrite Hc. unfold ok in Hok. cbn in Hok.
      rewrite Hok. by destruct (ffrtMetricBuffer (w_dumper w)).
Qed.

Lemma Stop_spec text w : statInv w → wp (StopFfrtStatistics text) (λ r w', statSpec StatStop w r.1 w') w.
Proof.
  intros HI. unfold StopFfrtStatistics, getDump. apply wp_bind, wp_gets.
  destruct (collectEnable (w_dumper w)) eqn:Hc; cbn [negb].
  - apply wp_bind. unfold updDump. apply wp_modify. unfold ffrt_dump, ask.
    apply wp_bind, wp_bind, wp_gets, wp_bind, wp_modify, wp_ret.
    set (ok := env_ffrt_dump _ =? ERR_OK). destruct ok eqn:Hok; cbn [negb].
    + apply wp_ret. exists true. unfold statInv, statOf. cbn in Hok |- *. unfold ok in Hok. cbn in Hok.
      by rewrite Hc, (HI Hc), Hok.
    + apply wp_bind, ClearBuffer_view. intros w2 [H3 H4]%view_eq. apply wp_ret. exists false. unfold ok in Hok. cbn in Hok.
      unfold statInv, statOf. rewrite H3, H4, Hc. cbn. by rewrite Hok.
  - apply wp_ret. exists true. unfold statOf. rewrite Hc. by destruct (ffrtMetricBuffer (w_dumper w)).
Qed.

Lemma Get_spec text w : statInv w → wp (GetFfrtStatistics text) (λ r w', statSpec StatGet w r.1 w') w.
Proof.
  intros HI. unfold GetFfrtStatistics, getDump. apply wp_bind, wp_gets.
  destruct (collectEnable (w_dumper w)) eqn:Hc.
  - apply wp_ret. exists true. unfold statOf. by rewrite Hc.
  - apply wp_bind, wp_gets. destruct (ffrtMetricBuffer (w_dumper w)) eqn:Hb; cbn [negb].
    + apply wp_bind, wp_gets. cbv zeta. apply wp_bind, ClearBuffer_view. intros w1 H1. apply wp_bind.
      apply (wp_same statView); [solve_deep|]. intros [] w2 H2. apply wp_bind.
      apply (wp_same statView); [solve_deep|]. intros [] w3 H3. apply wp_ret. rewrite H2, H1 in H3.
      apply view_eq in H3 as [H3 H4]. exists true. unfold statInv, statOf. rewrite H3, H4. cbn. by rewrite Hc, Hb.
    + apply wp_ret. exists true. unfold statOf. by rewrite Hc, Hb.
Qed.

Lemma Timeout_spec w : statInv w → wp ClearFfrtStatistics (λ _ w', statSpec StatTimeout w true w') w.
Proof.
  intros HI. unfold ClearFfrtStatistics, getDump. apply wp_bind, wp_gets, wp_bind.
  destruct (collectEnable (w_dumper w)) eqn:Hc; cbn [when].
  - unfold ffrt_dump, ask. apply wp_bind, wp_bind, wp_gets, wp_bind, wp_modify, wp_ret. unfold updDump. apply wp_modify.
    apply ClearBuffer_view. intros w2 [H3 H4]%view_eq. exists (env_ffrt_dump (w_trace w) =? ERR_OK).
    unfold statInv, statOf. rewrite H3, H4, Hc. done.
  - apply wp_ret, ClearBuffer_view. intros w2 [H3 H4]%view_eq. exists true.
    unfold statInv, statOf. rewrite H3, H4. cbn. rewrite Hc. by destruct (ffrtMetricBuffer (w_dumper w)).
Qed.

Lemma runStat_spec i text w : statInv w → wp (runStat i text) (statSpec i w) w.
Proof.
  intros HI. destruct i; unfold runStat, statCmd, CollectFfrtStatistics; cbn [Z.eqb FFRT_STAT_CMD_START FFRT_STAT_CMD_STOP
    FFRT_STAT_CMD_GET Pos.eqb]; apply wp_bind.
  1: eapply wp_mono; [by apply Start_spec|]. 2: eapply wp_mono; [by apply Stop_spec|].
  3: eapply wp_mono; [by apply Get_spec|]. 4: eapply wp_mono; [by apply Timeout_spec|].
  all: cbv beta; first [intros [] w' Hw | intros [ret t] w' Hw]; exact Hw.
Qed.

(** *** Runs *)

(** Commands and timeouts in any order, and between them whatever the rest of the service does,
    which leaves the dumper's members and the statistics of the library alone. *)
Inductive statRun : World → World → Prop :=
  | stat_nil w : statRun w w
  | stat_input i text w w' : statRun (runStat i text w).2 w' → statRun w w'
  | stat_other w w1 w' : statView w1 = statView w → statRun w1 w' → statRun w w'.

(** The library is started only when it does not collect, stopped only when it does. *)
Fixpoint logOk (l : list (FfrtDumpCmd * bool)) : Prop :=
  match l with
  | [] => True
  | (DUMP_START_STAT, _) :: l' => head l' ≠ Some (DUMP_START_STAT, true) ∧ logOk l'
  | (DUMP_STOP_STAT, _) :: l' => head l' = Some (DUMP_START_STAT, true) ∧ logOk l'
  | (DUMP_INFO_ALL, _) :: _ => False
  end.
Definition logInv (w : World) : Prop :=
  (collectEnable (w_dumper w) = true ↔ head (libLog (w_trace w)) = Some (DUMP_START_STAT, true)) ∧
  logOk (libLog (w_trace w)).

Lemma statOf_collecting d : collectEnable d = true ↔ statOf d = Collecting.
Proof. unfold statOf. by destruct (collectEnable d), (ffrtMetricBuffer d). Qed.

Lemma statSpec_log i w r w' : statSpec i w r w' → logInv w → logInv w'.
Proof.
  intros (ok & _ & Hs & _ & Hl) [Hh Ho]. unfold logInv. rewrite Hl, statOf_collecting, Hs. rewrite statOf_collecting in Hh.
  clear Hl Hs. destruct (statOf (w_dumper w)), i, ok; cbn; naive_solver.
Qed.

Lemma statRun_inv w w' : statRun w w' → statInv w → logInv w → statInv w' ∧ logInv w'.
Proof.
  induction 1 as [w|i text w w' _ IH|w w1 w' [H1 H2]%view_eq _ IH]; intros HI HL; [done| |].
  - pose proof (runStat_spec i text w HI) as Hs. apply IH; [by destruct Hs as (? & ? & _)|by eapply statSpec_log].
  - apply IH; unfold statInv, logInv in *; by rewrite ?H1, ?H2.
Qed.

(** C10: the commands [--start-stat], [--stop-stat] and [--stat] of the dumper, and the task of
    the timeout, refine a machine of three states (nothing collected, collecting, collected): in
    every state each of them answers and changes the state as the machine says, and makes exactly
    the calls of the ffrt library the machine makes. In every run from a state in which nothing
    is collected, with anything else the service does in between, the buffer is allocated as long
    as the library collects, and the library is started only when it does not collect and stopped
    only when it does. *)
Theorem ffrt_statistics_machine w w' :
  statInv w → logInv w → statRun w w' →
  statInv w' ∧ logInv w' ∧
  ∀ i text, ∃ ok, let s := statOf (w_dumper w') in let '(ret, w'') := runStat i text w' in
    statOf (w_dumper w'') = statNext ok i s ∧ ret = statDone ok i s ∧
    libLog (w_trace w'') = statAsks ok i s ++ libLog (w_trace w').
Proof.
  intros HI HL Hr. destruct (statRun_inv _ _ Hr HI HL) as [HI' HL']. split_and!; [done..|].
  intros i text. destruct (runStat_spec i text w' HI') as (ok & _ & H). exists ok. cbv zeta.
  by destruct (runStat i text w').
Qed.
End stats.

(** ** The process ids of a command *)

Definition verticalBar : Ascii.ascii := Ascii.ascii_of_nat 124.

(** The parts of a text between the bars. *)
Fixpoint splitBar (s : string) : list string :=
  match s with
  | EmptyString => [""]
  | String c s' =>
      if Ascii.eqb c verticalBar then "" :: splitBar s'
      else match splitBar s' with p :: l => String c p :: l | [] => [String c ""] end
  end.

Lemma findSep_app p r : findSep p = None → findSep (p +:+ String verticalBar r) = Some (String.length p).
Proof.
  induction p as [|c p IH]; [done|]. rewrite string_app_cons. cbn. destruct (Ascii.eqb c _); [done|].
  intros H. rewrite IH; [done|]. by destruct (findSep p).
Qed.

(** A text is its first part, or its first part, a bar and the rest. *)
Lemma splitBar_case s :
  (findSep s = None ∧ splitBar s = [s]) ∨
  (∃ p s', s = p +:+ String verticalBar s' ∧ findSep p = None ∧ splitBar s = p :: splitBar s').
Proof.
  induction s as [|c s IH]; [by left|]. cbn [splitBar findSep]. destruct (Ascii.eqb_spec c verticalBar) as [->|Hc].
  - right. by exists "", s.
  - assert (Hb : Ascii.eqb c (Ascii.ascii_of_nat 124) = false) by by apply Ascii.eqb_neq.
    destruct IH as [[H1 H2]|(p & s' & -> & H1 & H2)].
    + left. by rewrite Hb, H1, H2.
    + right. exists (String c p), s'. rewrite string_app_cons, H2. cbn [findSep]. by rewrite Hb, H1.
Qed.

Lemma substring_prefix p r : String.substring 0 (String.length p) (p +:+ r) = p.
Proof.
  induction p as [|c p IH]; [by destruct r|]. rewrite string_app_cons. cbn. by rewrite IH.
Qed.

Section parser.
Context `{E : Env}.

Definition positiveId (part : string) : option Z :=
  match StrToInt part with Some n => if 0 <? n then Some n else None | None => None end.

Lemma ffrtPids_round fuel p r :
  findSep p = None →
  ffrtPids (S fuel) (p +:+ String verticalBar r) =
  match positiveId p with Some n => n :: ffrtPids fuel r | None => ffrtPids fuel r end.
Proof.
  intros Hp. cbn [ffrtPids]. rewrite (findSep_app p r Hp), substring_prefix. unfold positiveId.
  assert (Hs : String.substring (String.length p + 1)
                 (String.length (p +:+ String verticalBar r) - String.length p - 1) (p +:+ String verticalBar r) = r).
  { change (String verticalBar r) with (String verticalBar "" +:+ r). rewrite <- string_app_assoc.
    assert (Hl : (String.length p + 1)%nat = String.length (p +:+ String verticalBar "")) by by rewrite string_length_app.
    rewrite Hl, substring_skip, !string_length_app. apply substring_all. cbn. lia. }
  rewrite Hs. destruct (StrToInt p) as [n|]; [|done]. by destruct (0 <? n).
Qed.

Lemma ffrtPids_split s fuel :
  (String.length s < fuel)%nat → ffrtPids fuel (s +:+ String verticalBar "") = omap positiveId (splitBar s).
Proof.
  revert s. induction fuel as [|fuel IH]; intros s Hf; [lia|].
  destruct (splitBar_case s) as [[Hs ->]|(p & s' & -> & Hp & ->)].
  - rewrite ffrtPids_round by done. cbn [omap list_omap]. by destruct fuel; destruct (positiveId s).
  - rewrite string_app_assoc, string_app_cons, ffrtPids_round by done. rewrite IH.
    + cbn [omap list_omap]. by destruct (positiveId p).
    + rewrite string_length_app in Hf. cbn in Hf. lia.
Qed.

(** C24: [FfrtDumpParser] ends and gives, for every text, the numbers of its parts between bars,
    in order; a part that is no number, and a number that is not positive, is skipped. More
    rounds than the length of the text change nothing: the loop has ended by itself. *)
Theorem ffrt_pids_parsed s :
  FfrtDumpParser s = omap positiveId (splitBar s) ∧
  (∀ fuel, (String.length s < fuel)%nat → ffrtPids fuel (s +:+ ARGS_FFRT_SEPARATOR) = FfrtDumpParser s) ∧
  Forall (λ pid, 0 < pid) (FfrtDumpParser s).
Proof.
  assert (H : ∀ fuel, (String.length s < fuel)%nat → ffrtPids fuel (s +:+ ARGS_FFRT_SEPARATOR) = omap positiveId (splitBar s))
    by (intros fuel; apply ffrtPids_split).
  assert (Hp : FfrtDumpParser s = omap positiveId (splitBar s)).
  { apply H. rewrite string_length_app. cbn. lia. }
  rewrite Hp. split_and!; [done..|]. apply Forall_forall. intros pid (part & _ & Hpart)%list_elem_of_omap.
  unfold positiveId in Hpart. destruct (StrToInt part) as [n|]; [|done]. destruct (Z.ltb_spec 0 n); naive_solver.
Qed.
End parser.

(** ** Who may dump, and what a dump changes *)

Section permission.
Context `{E : Env} `{IE : !IpcEnv}.

(** The managers of the service: registries and contexts, of the base user and of every user. *)
Definition managersOf (s : Service) :=
  (rest (sv_base s),
   (λ u, (um_sched u, um_mgr u)) <$> multiUserManagers_ (sv_users s),
   (userStateMap_ (sv_users s), userStoppingContexts_ (sv_users s), validUserIds_ (sv_users s),
    globalSubscriptions_ (sv_users s))).
Definition sameManagers : relation Service := λ s s', managersOf s = managersOf s'.
#[local] Instance sameManagers_preorder : PreOrder sameManagers.
Proof. split; [done|]. intros x y z H1 H2. unfold sameManagers in *. congruence. Qed.

Lemma liftW_managers {A} (m : M A) : respects frame m → keepsS sameManagers (liftW m : ST Service A).
Proof.
  intros Hm s. specialize (Hm (sv_base s)) as [Hr _]. unfold liftW, sameManagers, managersOf. cbn in *.
  destruct (m (sv_base s)) as [a w]. cbn in *. by rewrite Hr.
Qed.

Lemma onManager_managers {A} u (m : M A) : respects frame m → keepsS sameManagers (onManager u m).
Proof.
  intros Hm s. unfold onManager. destruct (multiUserManagers_ (sv_users s) !! u) as [um|] eqn:Hu; [|done].
  unfold runUser. destruct (Hm (enterUser um (sv_base s))) as [Hr _]. destruct (m _) as [a w].
  unfold sameManagers, managersOf. cbn in *. unfold rest in Hr |- *. injection Hr as H1 H2 H3 H4 H5. cbn in *.
  rewrite fmap_insert. cbn. rewrite H3, H4, H5, <- H1, <- H2, insert_id; [done|]. by rewrite lookup_fmap, Hu.
Qed.

Lemma foreground_managers (q : M string) : respects frame q → keepsS sameManagers (GetForegroundUserScheduler q).
Proof.
  intros Hq. unfold GetForegroundUserScheduler. apply (keepsS_bind sameManagers); [apply liftW_managers; solve_deep|].
  intros u. apply (keepsS_bind sameManagers); [apply onManager_managers; solve_respects|].
  intros r. apply (keepsS_ret sameManagers).
Qed.

Hint Extern 1 (keepsS sameManagers (liftW _)) => (apply liftW_managers; solve_deep) : keeps.
Hint Extern 1 (keepsS sameManagers (GetForegroundUserScheduler _)) => (apply foreground_managers; solve_deep) : keeps.

Lemma Dump_managers fd args : keepsS sameManagers (Dump fd args).
Proof.
  unfold Dump, DumperDump, ShowAllSystemAbilityInfo, ShowProcessInfo, ShowAllSystemAbilityInfoInState, showSchedulers,
    ShowSystemAbilityInfo, ShowMultiInstanceSaIds, IsMultiInstanceSaId. solve_keeps.
Qed.

Lemma CanDump_world w : (CanDump w).2 = w.
Proof. unfold CanDump, mbind, M_bind, gets. by destruct (env_GetNativeTokenInfo _ _). Qed.
Lemma denied {A} (k : bool → M A) w : (CanDump w).1 = false → (CanDump ≫= k) w = k false w.
Proof.
  intros Hc. unfold mbind, ST_bind. pose proof (CanDump_world w) as Hw. destruct (CanDump w). cbn in Hc, Hw. by subst.
Qed.
Lemma denied_lift {A} (k : bool → ST Service A) s :
  (CanDump (sv_base s)).1 = false → (liftW CanDump ≫= k) s = k false s.
Proof.
  intros Hc. unfold mbind, ST_bind, liftW. pose proof (CanDump_world (getWorld s)) as Hw. cbn in Hw |- *.
  destruct (CanDump (sv_base s)). cbn in Hc, Hw. subst. by destruct s.
Qed.
Lemma CanDump_false w :
  env_GetNativeTokenInfo (w_trace w) (callingTokenID (w_caller w)) ≠ (ERR_OK, HIDUMPER_PROCESS_NAME) →
  (CanDump w).1 = false.
Proof.
  cbv [CanDump mbind ST_bind M_bind gets]. destruct (env_GetNativeTokenInfo _ _) as [r n]. intros H. change
    ((r =? ERR_OK) && bool_decide (n = HIDUMPER_PROCESS_NAME) = false).
  destruct (Z.eqb_spec r ERR_OK); [|done]. case_bool_decide; [|done]. subst. done.
Qed.

(** C13: who may dump, and what a dump changes. Whatever the command, the registries, the
    subscriptions and the contexts of the base manager and of every user's manager are as before.
    A caller whose native token is not that of [hidumper_service] learns nothing: no process is
    asked, no statistics are started, the members of the service are untouched, and nothing but
    an empty text is written; the commands for ffrt, listeners and IPC return an error. *)
Theorem dump_guarded fd args s :
  let '(ret, s') := Dump fd args s in
  managersOf s' = managersOf s ∧
  (env_GetNativeTokenInfo (w_trace (sv_base s)) (callingTokenID (w_caller (sv_base s))) ≠ (ERR_OK, HIDUMPER_PROCESS_NAME) →
   let first := head (Str16ToStr8 <$> args) in
   if bool_decide (first = Some ARGS_FFRT_PARAM) || bool_decide (first = Some ARGS_LISTENER_PARAM)
   then ret = ERR_PERMISSION_DENIED ∧ s' = s
   else if bool_decide (first = Some IPC_STAT_DUMP_PREFIX) then ret = ERR_INVALID_VALUE ∧ s' = s
   else s' = s <| sv_base ::= λ w, w <| w_trace ::= cons (EvDump (SaveStringToFd fd "")) |> |>).
Proof.
  pose proof (Dump_managers fd args s) as Hm. destruct (Dump fd args s) as [ret s'] eqn:Hd. split; [by symmetry|].
  intros Hc%CanDump_false. cbv zeta. clear Hm. revert Hd. unfold Dump. cbv zeta.
  destruct (bool_decide (_ = Some ARGS_FFRT_PARAM)); cbn [orb].
  { unfold FfrtDumpProc, liftW. rewrite denied by exact Hc. intros [= <- <-]. by destruct s. }
  destruct (bool_decide (_ = Some ARGS_LISTENER_PARAM)).
  { unfold ListenerDumpProc, liftW, mbind, ST_bind. unfold getM, gets at 1. rewrite denied by (destruct s; exact Hc).
    intros [= <- <-]. by destruct s. }
  destruct (bool_decide (_ = Some IPC_STAT_DUMP_PREFIX)).
  { unfold IpcDumpProc, IpcDumpCmdParser, liftW. unfold mbind at 1, ST_bind at 1. rewrite denied by exact Hc.
    intros [= <- <-]. by destruct s. }
  unfold DumperDump. unfold mbind at 1, ST_bind at 1. rewrite denied_lift by exact Hc.
  intros [= <- <-]. by destruct s as [[] ? ?].
Qed.
End permission.

(** ** The lists of listeners *)

Section listeners.
Context (L : Listeners).

(** The subscriptions of process [pid] to SA [said]. *)
Definition subscribed (said pid : Z) : list SAListener :=
  filter (λ i, sal_callingPid i = pid) (default [] (L !! said)).
Definition subCount (said pid : Z) : Z := Z.of_nat (length (subscribed said pid)).

(** A row for each number of the list, in ascending order, with its count. *)
Definition countRows (label : string) (l : list Z) (count : Z → Z) (result : string) : string :=
  foldl (λ r k, r +:+ NL +:+ label +:+ to_string k +:+ ", cnt:" +:+ to_string (count k))
    result (merge_sort Z.le (elements (list_to_set l : gset Z))).

Definition occurrences (l : list Z) (k : Z) : Z := Z.of_nat (length (filter (k =.) l)).

Lemma countKeys_lookup l cnt k :
  default 0 (countKeys l cnt !! k) = default 0 (cnt !! k) + occurrences l k.
Proof.
  unfold countKeys, occurrences. revert cnt. induction l as [|x l IH]; intros cnt; [cbn; lia|]. cbn [foldl].
  rewrite IH, filter_cons. destruct (decide (k = x)) as [->|Hx].
  - rewrite lookup_insert_eq. cbn. lia.
  - by rewrite lookup_insert_ne by done.
Qed.
Lemma countKeys_dom l cnt : dom (countKeys l cnt) = list_to_set l ∪ dom cnt.
Proof.
  unfold countKeys. revert cnt. induction l as [|x l IH]; intros cnt; [set_solver|]. cbn [foldl].
  rewrite IH, dom_insert_L. set_solver.
Qed.

Lemma foldl_ext {A B} (f g : A → B → A) l a : (∀ a b, b ∈ l → f a b = g a b) → foldl f a l = foldl g a l.
Proof.
  revert a. induction l as [|x l IH]; intros a H; [done|]. cbn. rewrite H by set_solver. apply IH. set_solver.
Qed.

Lemma showCounts_rows label l (count : Z → Z) r :
  (∀ k, occurrences l k = count k) → showCounts label (countKeys l ∅) r = countRows label l count r.
Proof.
  intros Hc. unfold showCounts, countRows, sorted_keys. rewrite countKeys_dom, dom_empty_L, union_empty_r_L.
  apply foldl_ext. intros a k _. by rewrite countKeys_lookup, lookup_empty, Z.add_0_l, Hc.
Qed.

(** The subscriptions of a process, in the order of the loop. *)
Definition ownSubscriptions (pid : Z) : list (Z * SAListener) :=
  filter (λ p, sal_callingPid p.2 = pid) (subscriptions L).

Lemma occ_pids said pid : occurrences (sal_callingPid <$> default [] (L !! said)) pid = subCount said pid.
Proof.
  unfold occurrences, subCount, subscribed. induction (default [] (L !! said)) as [|i l IH]; [done|].
  cbn [fmap list_fmap]. rewrite !filter_cons. destruct (decide (pid = sal_callingPid i)) as [->|Hi].
  - rewrite decide_True by done. cbn [length]. lia.
  - by rewrite decide_False by congruence.
Qed.

Lemma occ_block (said pid k : Z) l :
  filter (said =.) (filter (λ p, sal_callingPid p.2 = pid) ((λ i : SAListener, (k, i)) <$> l)).*1 =
  (if decide (k = said) then (λ _, said) <$> filter (λ i, sal_callingPid i = pid) l else []).
Proof.
  induction l as [|i l IH]; [by destruct (decide _)|]. cbn [fmap list_fmap]. rewrite !filter_cons. cbn [snd].
  destruct (decide (sal_callingPid i = pid)); [|exact IH]. cbn [fmap list_fmap fst]. rewrite filter_cons.
  destruct (decide (k = said)) as [->|Hk]; [by rewrite decide_True by done; rewrite IH|by rewrite decide_False by congruence].
Qed.

Lemma occ_sas said pid : occurrences (ownSubscriptions pid).*1 said = subCount said pid.
Proof.
  unfold occurrences, subCount, ownSubscriptions, subscriptions, inOrder.
  set (n := length (subscribed said pid)).
  assert (H : ∀ ks, NoDup ks →
    length (filter (said =.) (filter (λ p, sal_callingPid p.2 = pid)
      (((λ k, (k, default [] (L !! k))) <$> ks) ≫= λ '(k, l), (k,.) <$> l)).*1) =
    if decide (said ∈ ks) then n else 0%nat).
  { induction 1 as [|k ks Hk _ IH]; [done|]. cbn [fmap list_fmap mbind list_bind].
    rewrite !filter_app, fmap_app, filter_app, length_app, IH, occ_block. clear IH.
    destruct (decide (k = said)) as [->|Hne].
    - rewrite length_fmap, decide_False, decide_True by set_solver. unfold n, subscribed. lia.
    - cbn. destruct (decide (said ∈ ks)), (decide (said ∈ k :: ks)); set_solver. }
  f_equal. rewrite H by apply NoDup_sorted_keys. destruct (decide _) as [Hin|Hin]; [done|].
  unfold n, subscribed. rewrite elem_of_sorted_keys in Hin. destruct (L !! said); [|done]. by destruct Hin.
Qed.

Lemma subscribeMap_own pid : default [] (subscribeMap L !! pid) = (ownSubscriptions pid).*1.
Proof.
  unfold subscribeMap, ownSubscriptions.
  assert (H : ∀ (l : list (Z * SAListener)) (m : gmap Z (list Z)), default [] (foldl (λ m '(said, i), <[sal_callingPid i := default [] (m !! sal_callingPid i) ++ [said]]> m) m l !! pid)
    = default [] (m !! pid) ++ (filter (λ p, sal_callingPid p.2 = pid) l).*1); [|by rewrite H, lookup_empty].
  induction l as [|[said i] l IH]; intros m; [by rewrite app_nil_r|]. cbn [foldl]. rewrite IH, filter_cons. cbn [snd].
  destruct (decide (sal_callingPid i = pid)) as [->|Hi]; [|by rewrite lookup_insert_ne by done].
  rewrite lookup_insert_eq. cbn. by rewrite <- app_assoc.
Qed.

Lemma listenersOf_cons i l : listenersOf (i :: l) = listenersOf [i] ∪ listenersOf l.
Proof. unfold listenersOf. cbn. destruct (sal_listener i); cbn; set_solver. Qed.

Lemma pidListenerMap_own pid :
  pidListenerMap L !! pid = (if decide (ownSubscriptions pid = []) then None else Some (listenersOf (ownSubscriptions pid).*2)).
Proof.
  unfold pidListenerMap, ownSubscriptions.
  assert (H : ∀ (l : list (Z * SAListener)) (m : gmap Z (gset RemoteObject)), foldl (λ m '(_, i), <[sal_callingPid i := listenersOf [i] ∪ default ∅ (m !! sal_callingPid i)]> m) m l !! pid
    = let own := filter (λ p, sal_callingPid p.2 = pid) l in
      if decide (own = []) then m !! pid else Some (listenersOf own.*2 ∪ default ∅ (m !! pid))).
  { induction l as [|[said i] l IH]; intros m; [done|]. cbn [foldl]. rewrite IH, filter_cons. cbn [snd].
    destruct (decide (sal_callingPid i = pid)) as [->|Hi]; cbv zeta.
    - rewrite lookup_insert_eq, (decide_False (P := _ :: _ = [])) by done. cbn [fmap list_fmap snd].
      destruct (decide _) as [->|_]; apply (f_equal Some); [done|]. cbn [default].
      rewrite (listenersOf_cons i (_ <$> _)). unfold id. set_solver.
    - by rewrite lookup_insert_ne by done. }
  rewrite H. cbv zeta. destruct (decide _); [done|]. apply (f_equal Some). rewrite lookup_empty. cbn [default]. set_solver.
Qed.

(** The total of a column. *)
Lemma sum_indicator (ks : list Z) x : NoDup ks → x ∈ ks → sum_list_with (λ k, if decide (k = x) then 1 else 0)%nat ks = 1%nat.
Proof.
  induction 1 as [|k ks Hk _ IH]; [by intros ?%elem_of_nil|]. intros [->|Hin]%elem_of_cons; cbn.
  - rewrite decide_True by done. f_equal. clear IH. induction ks as [|k' ks IH]; [done|]. cbn.
    rewrite decide_False by set_solver. apply IH. set_solver.
  - rewrite decide_False by (intros ->; done). by apply IH.
Qed.
Lemma sum_occurrences ks (l : list Z) :
  NoDup ks → l ⊆ ks → sum_list_with (λ k, length (filter (k =.) l)) ks = length l.
Proof.
  intros Hn. induction l as [|x l IH]; intros Hl.
  - clear. induction ks; [done|]. exact IHks.
  - assert (Hi := sum_indicator ks x Hn ltac:(set_solver)). specialize (IH ltac:(set_solver)). cbn [length].
    rewrite <- IH, <- Nat.add_1_r, <- Hi. clear. induction ks as [|k ks IH]; [done|].
    cbn [sum_list_with]. rewrite IH, filter_cons. destruct (decide (k = x)); cbn [length]; lia.
Qed.
Lemma foldl_sum (f : Z → Z) (g : Z → nat) ks n :
  (∀ k, f k = Z.of_nat (g k)) → foldl (λ sum k, sum + f k) n ks = n + Z.of_nat (sum_list_with g ks).
Proof.
  intros H. revert n. induction ks as [|k ks IH]; intros n; cbn [foldl sum_list_with]; [lia|]. rewrite IH, H. lia.
Qed.

Lemma countKeys_total l :
  foldl (λ sum k, sum + default 0 (countKeys l ∅ !! k)) 0 (sorted_keys Z.le (countKeys l ∅)) = Z.of_nat (length l).
Proof.
  rewrite (foldl_sum _ (λ k, length (filter (k =.) l))) by (intros k; by rewrite countKeys_lookup, lookup_empty).
  rewrite sum_occurrences; [lia|apply NoDup_sorted_keys|].
  intros k Hk. apply elem_of_sorted_keys, elem_of_dom. rewrite countKeys_dom. set_solver.
Qed.
End listeners.

(** What the standard promises of [std::sort]: the result is a permutation, and no element comes
    before one that is less, where the comparison is a strict weak order. *)
Definition weakOrder {A} (cmp : A → A → bool) : Prop :=
  (∀ x, cmp x x = false) ∧
  (∀ x y z, cmp x y = true → cmp y z = true → cmp x z = true) ∧
  (∀ x y z, cmp x y = false → cmp y z = false → cmp x z = false).
Class SortLaws `(E : Env) : Prop := {
  sort_perm : ∀ A cmp (l : list A), std_sort cmp l ≡ₚ l;
  sort_sorted : ∀ A cmp (l : list A), weakOrder cmp → StronglySorted (λ x y, cmp y x = false) (std_sort cmp l);
}.

Section views.
Context `{E : Env} {SL : SortLaws E}.
Context (L : Listeners).

Definition listenerCount (pid : Z) : nat := size (listenersOf (ownSubscriptions L pid).*2).

(** The block of a process in the list of all processes. *)
Definition pidBlock (r : string) (pid : Z) : string :=
  countRows "SA:" (ownSubscriptions L pid).*1 (λ said, subCount L said pid)
    (r +:+ NL +:+ NL +:+ dashes +:+ "CallingPid:" +:+ to_string pid +:+ ", ListenerCnt:"
       +:+ to_string (Z.of_nat (listenerCount pid)) +:+ dashes).

Lemma own_subCount pid : ownSubscriptions L pid ≠ [] ↔ ∃ said, 0 < subCount L said pid.
Proof.
  split.
  - intros Hn. destruct (ownSubscriptions L pid) as [|[said i] l] eqn:Ho; [done|]. exists said.
    rewrite <- (occ_sas L said pid), Ho. unfold occurrences. cbn [fmap list_fmap fst]. rewrite filter_cons, decide_True by done.
    cbn [length]. lia.
  - intros [said Hs] Hn. rewrite <- (occ_sas L said pid), Hn in Hs. by cbn in Hs.
Qed.

(** The order of the processes. *)
Lemma pid_vector :
  let pids := pidListenerMap L in
  let vec := (λ k, (k, default ∅ (pids !! k))) <$> sorted_keys Z.le pids in
  ∃ ps, std_sort (λ p1 p2 : Z * gset RemoteObject, (size p2.2 <? size p1.2)%nat) vec =
          (λ k, (k, listenersOf (ownSubscriptions L k).*2)) <$> ps ∧
        NoDup ps ∧ (∀ pid, pid ∈ ps ↔ ∃ said, 0 < subCount L said pid) ∧
        StronglySorted (λ x y, (listenerCount y ≤ listenerCount x)%nat) ps.
Proof.
  intros pids vec. set (cmp := λ p1 p2 : Z * gset RemoteObject, (size p2.2 <? size p1.2)%nat).
  assert (Hv : vec = (λ k, (k, listenersOf (ownSubscriptions L k).*2)) <$> sorted_keys Z.le pids).
  { apply list_fmap_ext. intros i k Hk%list_elem_of_lookup_2%elem_of_sorted_keys. f_equal. unfold pids in *.
    rewrite pidListenerMap_own in *. destruct (decide _); [by destruct Hk|done]. }
  pose proof (sort_perm _ cmp vec) as Hp. rewrite Hv in Hp at 2. destruct (Permutation_map_inv _ _ Hp) as (ps & Hs & Hps).
  exists ps. split; [exact Hs|]. split; [|split].
  - rewrite <- Hps. apply NoDup_sorted_keys.
  - intros pid. rewrite <- Hps, elem_of_sorted_keys, <- own_subCount. unfold pids. rewrite pidListenerMap_own.
    destruct (decide _); split; [by intros []|done|done|by eexists].
  - assert (Hw : weakOrder cmp).
    { unfold cmp. split_and!; [intros x; apply Nat.ltb_irrefl|intros x y z; rewrite !Nat.ltb_lt; lia|].
      intros x y z; rewrite !Nat.ltb_ge; lia. }
    pose proof (sort_sorted _ cmp vec Hw) as Hss. rewrite Hs in Hss. clear -Hss.
    induction ps as [|p ps IH]; [constructor|]. cbn [map] in Hss. apply StronglySorted_inv in Hss as [H1 H2].
    constructor; [by apply IH|]. apply Forall_forall. intros q Hq. apply Nat.ltb_ge.
    apply Forall_map in H2. exact (proj1 (Forall_forall _ _) H2 q Hq).
Qed.

Lemma foldl_blocks {A} (f : string → A → string) (g : A → Z) (l : list A) r n :
  foldl (λ '(r, sum) x, (f r x, sum + g x)) (r, n) l = (foldl f r l, foldl (λ sum x, sum + g x) n l).
Proof. revert r n. induction l as [|x l IH]; intros; [done|]. cbn [foldl]. apply IH. Qed.
Lemma foldl_map {A B C} (f : A → B → A) (g : C → B) l a : foldl f a (g <$> l) = foldl (λ a x, f a (g x)) a l.
Proof. revert a. induction l as [|x l IH]; intros a; [done|]. apply IH. Qed.

(** C23: the lists of listeners count the subscriptions. The list of an SA has a row for each
    process that subscribed to it, with the number of its subscriptions, and their total; the list
    of a process has a row for each SA it subscribed to, with the same numbers, and the number of
    its listener objects; the list of all processes has a block for each process with a
    subscription, once, those with more listener objects first, with the same rows. *)
Theorem listener_dump_counts result :
  (∀ said,
    ShowCallingPidBySA L said result =
    countRows "callingPid:" (sal_callingPid <$> default [] (L !! said)) (subCount L said)
      (result +:+ stars +:+ "ShowCallingPidBySA" +:+ stars +:+ NL +:+ dashes +:+ "SA:" +:+ to_string said +:+ dashes)
    +:+ NL +:+ dashes +:+ "TotalSubCnt:" +:+ to_string (Z.of_nat (length (default [] (L !! said)))) +:+ dashes
    +:+ NL +:+ "**********************************************************************************" +:+ NL) ∧
  (∀ pid,
    ShowSAByCallingPid L pid result =
    countRows "SA:" (ownSubscriptions L pid).*1 (λ said, subCount L said pid)
      (result +:+ stars +:+ "ShowSAByCallingPid" +:+ stars +:+ NL +:+ dashes +:+ "CallingPid:" +:+ to_string pid +:+ dashes)
    +:+ NL +:+ dashes +:+ "ListenerCnt:" +:+ to_string (Z.of_nat (listenerCount pid)) +:+ dashes
    +:+ NL +:+ "**********************************************************************************" +:+ NL) ∧
  (∃ pids,
    NoDup pids ∧ (∀ pid, pid ∈ pids ↔ ∃ said, 0 < subCount L said pid) ∧
    StronglySorted (λ x y, (listenerCount y ≤ listenerCount x)%nat) pids ∧
    ShowAllByCallingPid L result =
    foldl pidBlock (result +:+ stars +:+ "ShowAllByCallingPid" +:+ stars) pids
    +:+ NL +:+ dashes +:+ "TotalListenerCnt:" +:+ to_string (Z.of_nat (sum_list_with listenerCount pids)) +:+ dashes
    +:+ NL +:+ "***********************************************************************************" +:+ NL).
Proof.
  split_and!.
  - intros said. unfold ShowCallingPidBySA. cbv zeta. rewrite countKeys_total, length_fmap.
    by rewrite (showCounts_rows _ _ (subCount L said)) by apply occ_pids.
  - intros pid. unfold ShowSAByCallingPid. cbv zeta. fold (ownSubscriptions L pid).
    by rewrite (showCounts_rows _ _ (λ said, subCount L said pid)) by (intros; apply occ_sas).
  - destruct pid_vector as (ps & Hv & Hn & Hi & Hs). exists ps. split_and!; [done..|].
    unfold ShowAllByCallingPid. cbv zeta in Hv |- *. rewrite Hv, foldl_map.
    set (step := λ _ _, _).
    rewrite (foldl_ext step (λ '(r, sum) x, (pidBlock r x, sum + Z.of_nat (listenerCount x)))).
    + rewrite foldl_blocks. by rewrite (foldl_sum _ listenerCount) by done.
    + intros [r n] pid _. unfold step, pidBlock, listenerCount. rewrite subscribeMap_own.
      by rewrite (showCounts_rows _ _ (λ said, subCount L said pid)) by (intros; apply occ_sas).
Qed.
End views.

(** ** Witnesses *)

Lemma ffrt_statistics_machine_witness :
  let w := run (runStat StatStop "") (run (runStat StatStart "") booted) in
  statOf (w_dumper w) = Collected ∧ statInv w ∧ logInv w ∧ libLog (w_trace w) = [(DUMP_STOP_STAT, true); (DUMP_START_STAT, true)].
Proof.
  cbv zeta. set (w := run (runStat StatStop "") (run (runStat StatStart "") booted)).
  destruct (ffrt_statistics_machine booted w) as (H1 & H2 & _).
  - intros H. by vm_compute in H.
  - split; [|by vm_compute]. by split; intros H; vm_compute in H.
  - apply (stat_input StatStart ""), (stat_input StatStop ""), stat_nil.
  - split; [by vm_compute|]. split; [exact H1|]. split; [exact H2|by vm_compute].
Defined.

Lemma ffrt_pids_parsed_witness :
  FfrtDumpParser "12|x|-3|0|7" = [12; 7] ∧ ffrtPids 50 ("12|x|-3|0|7" +:+ ARGS_FFRT_SEPARATOR) = FfrtDumpParser "12|x|-3|0|7".
Proof. split; [by vm_compute|]. apply (ffrt_pids_parsed "12|x|-3|0|7"). vm_compute. lia. Defined.

Lemma dump_guarded_witness :
  Dump 3 [unitsOf "--listener"] serviceBooted = (ERR_PERMISSION_DENIED, serviceBooted).
Proof.
  pose proof (dump_guarded 3 [unitsOf "--listener"] serviceBooted) as H.
  destruct (Dump 3 [unitsOf "--listener"] serviceBooted) as [ret s']. destruct H as [_ H]. cbv zeta in H.
  rewrite bool_decide_eq_false_2 in H by (by vm_compute). rewrite bool_decide_eq_true_2 in H by (by vm_compute).
  destruct H as [-> ->]; [by vm_compute|done].
Defined.

(** The stable sort of the concrete environment. *)
Lemma insertWith_perm {A} cmp (x : A) l : insertWith cmp x l ≡ₚ x :: l.
Proof. induction l as [|y l IH]; [done|]. cbn. destruct (cmp y x); [|done]. by rewrite IH, Permutation_swap. Qed.
Lemma sortWith_perm {A} cmp (l : list A) : sortWith cmp l ≡ₚ l.
Proof. induction l as [|x l IH]; [done|]. cbn. by rewrite insertWith_perm, IH. Qed.

Lemma insertWith_sorted {A} cmp (x : A) l :
  weakOrder cmp → StronglySorted (λ x y, cmp y x = false) l → StronglySorted (λ x y, cmp y x = false) (insertWith cmp x l).
Proof.
  intros (Hi & Ht & Hn) Hl. induction Hl as [|y l Hl IH Hy]; cbn; [by repeat constructor|].
  destruct (cmp y x) eqn:Hc.
  - constructor; [done|]. apply Forall_forall. intros z Hz. rewrite insertWith_perm in Hz.
    apply elem_of_cons in Hz as [->|Hz]; [|by apply (proj1 (Forall_forall _ _) Hy)].
    destruct (cmp x y) eqn:Hx; [|done]. rewrite <- (Hi y). symmetry. by apply (Ht y x y).
  - constructor; [by constructor|]. constructor; [done|]. apply Forall_forall. intros z Hz.
    apply (Hn z y x); [by apply (proj1 (Forall_forall _ _) Hy)|done].
Qed.
#[export] Instance concrete_sort multi delay t c : SortLaws (concreteEnv multi delay t c).
Proof.
  split; [intros; apply sortWith_perm|]. intros A cmp l Hw. induction l as [|x l IH]; [constructor|].
  cbn. by apply insertWith_sorted.
Qed.

(** Process 2100 subscribed to two SAs, process 2000 to one. *)
Definition listeners0 : Listeners :=
  {[401 := [MkSAListener (Some listener1) 2000 L_INIT; MkSAListener (Some (MkStatusChange 22 22)) 2100 L_INIT];
    402 := [MkSAListener (Some (MkStatusChange 23 23)) 2100 L_INIT]]}.

Lemma listener_dump_counts_witness :
  SortLaws env1 ∧
  ∃ pids, pids ≡ₚ [2100; 2000] ∧ StronglySorted (λ x y, (listenerCount listeners0 y ≤ listenerCount listeners0 x)%nat) pids ∧
    ∃ total, ShowAllByCallingPid listeners0 "" =
      foldl (pidBlock listeners0) ("" +:+ stars +:+ "ShowAllByCallingPid" +:+ stars) pids +:+ total.
Proof.
  split; [apply _|]. destruct (listener_dump_counts listeners0 "") as (_ & _ & pids & Hn & Hi & Hs & Ht).
  exists pids. split_and!; [|exact Hs|eexists; exact Ht]. apply NoDup_Permutation; [done|by apply (bool_decide_unpack _)|].
  intros pid. rewrite Hi, <- own_subCount.
  assert (Hl : subscriptions listeners0 = [(401, MkSAListener (Some listener1) 2000 L_INIT);
    (401, MkSAListener (Some (MkStatusChange 22 22)) 2100 L_INIT); (402, MkSAListener (Some (MkStatusChange 23 23)) 2100 L_INIT)])
    by (vm_compute; reflexivity).
  unfold ownSubscriptions. rewrite Hl, !filter_cons, filter_nil. cbn [snd sal_callingPid].
  rewrite !elem_of_cons, elem_of_nil.
  repeat destruct (decide _); first [split; [intros _; lia|done] | split; [done|lia]].
Defined.
