(* ===== verification/DBinderSpec.v ===== *)
(** The distributed binder: which SAs of this device it knows, and which process the watchdog of
    a binder call stops. *)
From S2P Require Import Prelude Types World Ffrt Util CommonEvent TimedCollect CollectFrame Contexts Interfaces.
From S2P Require Import Hoare ManagerBase DBinder System Concrete.

(** ** The SAs the binder service knows *)

Section distributed.
Context `{E : Env}.

(** The SAs registered with the binder service, the first one first. *)
Definition proxies (tr : Trace) : list Z :=
  reverse (omap (λ e, match e with EvDBinder (RegisterRemoteProxy said) => Some said | _ => None end) tr).

#[local] Arguments proxies : simpl never.

Definition dView (w : World) :=
  let d := w_distributed w in
  (dBinderService_ d, isDbinderServiceInit_ d, distributedSaList_ d, proxies (w_trace w), dynamicClass (w_mgr w)).

(** A registration of an SA, and a device that comes online: what [GetInstance] would answer then. *)
Inductive DOp := DRegister (said : Z) (isDistributed : bool) | DInit (instance : bool).

#[export] Instance DOp_eq_dec : EqDecision DOp.
Proof. solve_decision. Defined.

(** Registrations and devices in any order, and between them whatever else the service does. *)
Inductive dRun : World → list DOp → World → Prop :=
  | d_nil w : dRun w [] w
  | d_register said isDistributed w ops w' :
      dRun (RegisterDistribute said isDistributed w).2 ops w' → dRun w (DRegister said isDistributed :: ops) w'
  | d_init w ops w' :
      SAMGR_ENABLE_DELAY_DBINDER = true → dRun (InitDbinderService w).2 ops w' →
      dRun w (DInit (env_dBinderService (w_trace w)) :: ops) w'
  | d_other w w1 ops w' : dView w1 = dView w → dRun w1 ops w' → dRun w ops w'.

(** The promise: SAs wait for the service, or it knows them, or there is no service and there
    will be none; then those that waited go on waiting. *)
Inductive Binder := BWaits (sas : list Z) | BKnows (sas : list Z) | BGone (sas : list Z).
Definition bStart : Binder :=
  if SAMGR_ENABLE_DELAY_DBINDER then BWaits [] else if env_dBinderService [] then BKnows [] else BGone [].
Definition bStep (b : Binder) (op : DOp) : Binder :=
  match op, b with
  | DRegister said true, BWaits l => BWaits (l ++ [said])
  | DRegister said true, BKnows l => BKnows (l ++ [said])
  | DInit true, BWaits l => BKnows l
  | DInit false, BWaits l => BGone l
  | _, _ => b
  end.

Definition registered (ops : list DOp) : list Z :=
  omap (λ op, match op with DRegister said true => Some said | _ => None end) ops.

Definition implements (w : World) (b : Binder) : Prop :=
  let delay := SAMGR_ENABLE_DELAY_DBINDER in
  match b with
  | BWaits l => delay = true ∧ dView w = (false, false, l, [], KSystemAbilityManager)
  | BKnows l => dView w = (true, delay, [], l, KSystemAbilityManager)
  | BGone l => dView w = (false, delay, l, [], KSystemAbilityManager)
  end.

Lemma proxies_register said tr : proxies (EvDBinder (RegisterRemoteProxy said) :: tr) = proxies tr ++ [said].
Proof. unfold proxies. cbn [omap list_omap]. by rewrite reverse_cons. Qed.
Lemma startDBinder_view : respects (same dView) startDBinder.
Proof. unfold startDBinder. solve_deep. Qed.
Lemma registerAll_view l w :
  dView (forM l (λ said, emit (EvDBinder (RegisterRemoteProxy said))) w).2 =
  let '(s, i, q, p, k) := dView w in (s, i, q, p ++ l, k).
Proof.
  revert w. induction l as [|said l IH]; intros w; [by unfold dView; rewrite app_nil_r|]. cbn [forM].
  unfold mbind, M_bind. cbn [emit modify]. rewrite IH. unfold dView. cbn. by rewrite proxies_register, <- app_assoc.
Qed.

Lemma implements_view b w w' : dView w' = dView w → implements w b → implements w' b.
Proof. unfold implements. by intros ->. Qed.

Lemma Register_implements said d w b :
  implements w b → implements (RegisterDistribute said d w).2 (bStep b (DRegister said d)).
Proof.
  intros HI. change (wp (RegisterDistribute said d) (λ _ w', implements w' (bStep b (DRegister said d))) w).
  unfold RegisterDistribute, getD. apply wp_bind, wp_gets, wp_bind.
  assert (Hk : ∀ b1 w1, implements w1 b1 →
    wp (when (said =? SOFTBUS_SERVER_SA_ID) startDBinder) (λ _ w', implements w' b1) w1).
  { intros b1 w1 H1. apply (wp_same dView); [apply respects_when, startDBinder_view|]. intros _ w2 H2. by eapply implements_view. }
  destruct d; cbn [when]; [|apply wp_ret, Hk; by destruct b].
  unfold implements, dView in HI. destruct b as [l|l|l]; cbn [bStep].
  - destruct HI as [Hd HI]; injection HI as H1 H2 H3 H4 H5. rewrite H1, Hd. apply wp_bind, wp_gets. rewrite H2. cbn [negb when].
    unfold updD. apply wp_modify, Hk. split; [done|]. unfold dView. cbn. by rewrite H1, H2, H3, H4, H5.
  - injection HI as H1 H2 H3 H4 H5. rewrite H1. apply wp_modify, Hk. unfold implements, dView. cbn.
    by rewrite proxies_register, H1, H2, H3, H4, H5.
  - injection HI as H1 H2 H3 H4 H5. rewrite H1.
    assert (implements w (BGone l)) by (unfold implements, dView; by rewrite H1, H2, H3, H4, H5).
    destruct SAMGR_ENABLE_DELAY_DBINDER; [|by apply wp_ret, Hk]. apply wp_bind, wp_gets. rewrite H2. cbn [negb when].
    by apply wp_ret, Hk.
Qed.

Lemma checkStart_view :
  respects (same dView) (softbus ← CheckSystemAbility SOFTBUS_SERVER_SA_ID; when (bool_decide (is_Some softbus)) startDBinder).
Proof.
  apply respects_bind; [solve_deep|]. intros o. apply respects_when, startDBinder_view.
Qed.

Lemma Init_implements w b :
  SAMGR_ENABLE_DELAY_DBINDER = true → implements w b →
  implements (InitDbinderService w).2 (bStep b (DInit (env_dBinderService (w_trace w)))).
Proof.
  intros Hdelay HI.
  change (wp InitDbinderService (λ _ w', implements w' (bStep b (DInit (env_dBinderService (w_trace w))))) w).
  unfold InitDbinderService. apply wp_bind, wp_gets.
  assert (Hk : dynamicClass (w_mgr w) = KSystemAbilityManager).
  { unfold implements, dView in HI. destruct b; naive_solver. }
  rewrite Hk. unfold getD. apply wp_bind, wp_gets, wp_bind.
  assert (Hend : ∀ b1 w1, implements w1 b1 →
    wp (softbus ← CheckSystemAbility SOFTBUS_SERVER_SA_ID; when (bool_decide (is_Some softbus)) startDBinder)
      (λ _ w', implements w' b1) w1).
  { intros b1 w1 H1. apply (wp_same dView); [apply checkStart_view|]. intros _ w2 H2. by eapply implements_view. }
  unfold implements, dView in HI. destruct b as [l|l|l]; cbn [bStep].
  - destruct HI as [_ HI]; injection HI as H1 H2 H3 H4 H5. rewrite H2. cbn [negb when].
    apply wp_bind, wp_gets, wp_bind. unfold updD. apply wp_modify, wp_bind, wp_modify, wp_bind, wp_gets.
    cbn [set_with w_distributed dBinderService_]. cbn. destruct (env_dBinderService (w_trace w)) eqn:He; cbn [when].
    + apply wp_bind, wp_bind, wp_gets, wp_bind.
      match goal with |- wp (forM ?l ?f) _ ?w0 => pose proof (registerAll_view l w0) as Hv; unfold wp at 1;
        set (w1 := (forM l f w0).2) in Hv |- * end.
      unfold dView in Hv. cbn in Hv. injection Hv as G1 G2 G3 G4 G5.
      apply wp_modify, wp_modify, Hend. unfold implements, dView. cbn. by rewrite Hdelay, G1, G4, G5, H3, H4, H5.
    + apply wp_bind, wp_ret, wp_modify, Hend. unfold implements, dView. cbn. by rewrite Hdelay, H3, H4, H5.
  - injection HI as H1 H2 H3 H4 H5. rewrite H2, Hdelay. cbn [negb when]. apply wp_ret, Hend.
    destruct (env_dBinderService _); unfold implements, dView; by rewrite H1, H2, H3, H4, H5.
  - injection HI as H1 H2 H3 H4 H5. rewrite H2, Hdelay. cbn [negb when]. apply wp_ret, Hend.
    destruct (env_dBinderService _); unfold implements, dView; by rewrite H1, H2, H3, H4, H5.
Qed.

Lemma dRun_implements w ops w' : dRun w ops w' → ∀ b, implements w b → implements w' (foldl bStep b ops).
Proof.
  induction 1 as [w|said d w ops w' _ IH|w ops w' Hd _ IH|w w1 ops w' Hv _ IH]; intros b H0; cbn [foldl].
  - done.
  - by apply IH, Register_implements.
  - by apply IH, Init_implements.
  - apply IH. by eapply implements_view.
Qed.

(** While [GetInstance] gives the service, the promise loses no SA. *)
Lemma bStep_kept ops l b :
  DInit false ∉ ops →
  (b = BWaits l → foldl bStep b ops =
     if bool_decide (DInit true ∈ ops) then BKnows (l ++ registered ops) else BWaits (l ++ registered ops)) ∧
  (b = BKnows l → foldl bStep b ops = BKnows (l ++ registered ops)).
Proof.
  revert l b. induction ops as [|op ops IH]; intros l b Hn; [by split; intros ->; cbn; rewrite app_nil_r|].
  apply not_elem_of_cons in Hn as [Hop Hn].
  assert (Hr : ∀ said, l ++ registered (DRegister said true :: ops) = (l ++ [said]) ++ registered ops).
  { intros said. by rewrite <- app_assoc. }
  split; intros ->; destruct op as [said [|]|[|]]; try done; cbn [foldl bStep]; rewrite ?Hr;
    rewrite ?(bool_decide_eq_true_2 (DInit true ∈ DInit true :: ops)) by set_solver;
    rewrite ?(bool_decide_ext (DInit true ∈ _ :: ops) (DInit true ∈ ops)) by set_solver;
    first [exact (proj1 (IH _ _ Hn) eq_refl)|exact (proj2 (IH _ _ Hn) eq_refl)].
Qed.

(** C11: the SAs registered as distributed and the binder service. However registrations, devices
    that come online and other work are interleaved, the service is told of SAs, and SAs wait for
    it, as a machine of three states says: with SAMGR_ENABLE_DELAY_DBINDER the registered SAs
    wait, in order and once for each registration, until the first device comes online, which
    tells the service of all of them; from then on, and without the option from the start, it
    is told of each SA at its registration. Where GetInstance gives no service, the SAs that
    waited are never told, and SAs registered after it are forgotten. So while GetInstance gives
    the service, none is lost: the SAs the service was told of followed by those that wait are
    the registered ones, and none waits once a device came online. *)
Theorem distributed_kept (userId : Z) (c : Caller) ops w :
  dRun (emptyWorld KSystemAbilityManager userId c) ops w →
  implements w (foldl bStep bStart ops) ∧
  (DInit false ∉ ops → (SAMGR_ENABLE_DELAY_DBINDER = false → env_dBinderService [] = true) →
   proxies (w_trace w) ++ distributedSaList_ (w_distributed w) = registered ops ∧
   (SAMGR_ENABLE_DELAY_DBINDER = false ∨ DInit true ∈ ops → distributedSaList_ (w_distributed w) = [])).
Proof.
  intros Hr. assert (HI : implements w (foldl bStep bStart ops)).
  { apply (dRun_implements _ _ _ Hr). unfold bStart, implements, dView. cbn. destruct SAMGR_ENABLE_DELAY_DBINDER; [done|].
    by destruct (env_dBinderService []). }
  split; [exact HI|]. intros Hn Hs. unfold bStart in HI. destruct SAMGR_ENABLE_DELAY_DBINDER eqn:Hd.
  - rewrite (proj1 (bStep_kept ops [] _ Hn) eq_refl) in HI. case_bool_decide; unfold implements, dView in HI.
    + injection HI as H1 H2 H3 H4 H5. rewrite H3, H4, app_nil_r. by split.
    + destruct HI as [_ HI]; injection HI as H1 H2 H3 H4 H5. rewrite H3, H4. split; [done|]. by intros [|].
  - rewrite Hs, (proj2 (bStep_kept ops [] _ Hn) eq_refl) in HI by done. unfold implements, dView in HI.
    injection HI as H1 H2 H3 H4 H5. rewrite H3, H4, app_nil_r. by split.
Qed.
End distributed.

(** ** The process a watchdog stops *)

Section peer.
Context `{E : Env}.
Context (pid tid : Z).

(** A line of the kernel's list of transactions: the call is not one-way, thread [tid] of [pid]
    makes it, it has waited a minute or more, and [peer] is to answer it. *)
Definition waitsFor (line : string) (peer : Z) : Prop :=
  ∃ w0 w1 w2 w3 w4 w5 w6 ws client server wait,
    words line = w0 :: w1 :: w2 :: w3 :: w4 :: w5 :: w6 :: ws ∧ contains ASYNC line = false ∧
    splitPhase w0 0 = client ∧ splitPhase w2 0 = server ∧ splitPhase w5 1 = wait ∧
    client ≠ "" ∧ server ≠ "" ∧ wait ≠ "" ∧
    atoi client = pid ∧ atoi (splitPhase w0 1) = tid ∧ MIN_WAIT_NUM ≤ atoi wait ∧ atoi server = peer.

Lemma peerOf_waits line peer : peerOf pid tid line = Some peer ↔ waitsFor line peer.
Proof.
  unfold peerOf, MAX_STRLIST_SIZE. cbv zeta. split.
  - destruct (contains ASYNC line) eqn:Ha; [done|]. cbn [orb].
    destruct (words line) as [|w0 [|w1 [|w2 [|w3 [|w4 [|w5 [|w6 ws]]]]]]] eqn:Hw; try done.
    rewrite bool_decide_eq_true_2 by (cbn; lia). cbn [negb nth].
    repeat (case_bool_decide; [done|]). cbn [orb].
    destruct (Z.eqb_spec (atoi (splitPhase w0 0)) pid); [|done]. destruct (Z.eqb_spec (atoi (splitPhase w0 1)) tid); [|done].
    destruct (Z.ltb_spec (atoi (splitPhase w5 1)) MIN_WAIT_NUM); [done|]. intros [= <-].
    by exists w0, w1, w2, w3, w4, w5, w6, ws, (splitPhase w0 0), (splitPhase w2 0), (splitPhase w5 1).
  - intros (w0 & w1 & w2 & w3 & w4 & w5 & w6 & ws & ? & ? & ? & -> & -> & <- & <- & <- & H1 & H2 & H3 & H4 & H5 & H6 & <-).
    rewrite (bool_decide_eq_true_2 (_ ≤ _)%nat) by (cbn; lia). cbn [negb nth orb].
    rewrite !bool_decide_eq_false_2 by done. cbn [orb].
    rewrite H4, H5, !Z.eqb_refl. cbn [negb orb]. by rewrite (proj2 (Z.ltb_ge _ _) H6).
Qed.

(** The first such line, before the search ends. *)
Definition firstWait (fin : list string) (peer : Z) : Prop :=
  ∃ pre line post, fin = pre ++ line :: post ∧ waitsFor line peer ∧
    Forall (λ l, (∀ p, ¬ waitsFor l p) ∧ endsSearch l = false) pre.

Lemma peerOf_none line : peerOf pid tid line = None ↔ ∀ p, ¬ waitsFor line p.
Proof.
  rewrite eq_None_not_Some. split.
  - intros Hn p Hp%peerOf_waits. apply Hn. by eexists.
  - intros H [p Hp]. by apply peerOf_waits, H in Hp.
Qed.

Lemma Parse_first fin peer : firstWait fin peer → ParsePeerBinderPid fin pid tid = peer.
Proof.
  intros (pre & line & post & -> & Hw & Hpre). induction Hpre as [|l pre [H1 H2] _ IH]; cbn.
  - by rewrite (proj2 (peerOf_waits _ _) Hw).
  - by rewrite (proj2 (peerOf_none _) H1), H2.
Qed.
Lemma Parse_inv fin : firstWait fin (ParsePeerBinderPid fin pid tid) ∨ ParsePeerBinderPid fin pid tid = -1.
Proof.
  induction fin as [|line fin IH]; [by right|]. cbn. destruct (peerOf pid tid line) as [p|] eqn:Hp.
  - left. exists [], line, fin. by apply peerOf_waits in Hp.
  - destruct (endsSearch line) eqn:He; [by right|]. destruct IH as [(pre & l & post & -> & Hw & Hpre)|]; [left|by right].
    exists (line :: pre), l, post. split_and!; [done..|]. constructor; [|done]. split; [exact (proj1 (peerOf_none line) Hp)|done].
Qed.

(** C12: the watchdog of a call stops only the process the call waits for. [KillProcessByPid]
    stops a process exactly if the list of transactions can be read, and its first line, before
    the next context, on which thread [tid] of [pid] has waited for an answer for a minute or
    more names a process that is neither init nor the service itself; it then asks init, once, to
    stop the service with the name of that process. Otherwise it does nothing. *)
Theorem peer_stopped w :
  let '(ret, w') := KillProcessByPid pid tid w in
  (∃ fin peer, env_transaction_proc (w_trace w) = Some fin ∧ firstWait fin peer ∧ INIT_PID < peer ∧ peer ≠ pid ∧
     ret = (env_ServiceControl (w_trace w) =? 0) ∧
     w' = w <| w_trace ::= cons (EvServiceControl (GetProcessNameFromCmdline (w_trace w) peer) SA_STOP BASE_USER None) |>) ∨
  (ret = false ∧ w' = w ∧
   ∀ fin peer, env_transaction_proc (w_trace w) = Some fin → firstWait fin peer → peer ≤ INIT_PID ∨ peer = pid).
Proof.
  unfold KillProcessByPid, mbind, M_bind, gets. destruct (env_transaction_proc (w_trace w)) as [fin|]; [|by right].
  destruct ((ParsePeerBinderPid fin pid tid <=? INIT_PID) || (ParsePeerBinderPid fin pid tid =? pid)) eqn:Hb.
  - right. split_and!; [done..|]. intros fin' peer [= <-] Hf%Parse_first. subst peer.
    apply orb_true_iff in Hb as [?%Z.leb_le|?%Z.eqb_eq]; auto.
  - apply orb_false_iff in Hb as [H1%Z.leb_gt H2%Z.eqb_neq]. left. exists fin, (ParsePeerBinderPid fin pid tid).
    split_and!; try done. destruct (Parse_inv fin) as [Hf|Hf]; [done|]. unfold INIT_PID in *. lia.
Qed.
End peer.

(** ** Witnesses *)

Definition env2 : Env := concreteEnv false true "foo" "/system/bin/frozen".

(** SA 401 is registered before a device comes online, SA 402 after; SA 501 is not distributed. *)
Definition devicesRun `{E : Env} (w : World) : World :=
  (RegisterDistribute 402 true (InitDbinderService (RegisterDistribute 501 false (RegisterDistribute 401 true w).2).2).2).2.
Definition devicesOps : list DOp := [DRegister 401 true; DRegister 501 false; DInit true; DRegister 402 true].
Lemma devicesRun_run w : dRun (E := env2) w devicesOps (devicesRun (E := env2) w).
Proof.
  exact (d_register (E := env2) 401 true _ _ _ (d_register (E := env2) 501 false _ _ _
    (d_init (E := env2) _ _ _ eq_refl (d_register (E := env2) 402 true _ _ _ (d_nil (E := env2) _))))).
Qed.

Lemma distributed_kept_witness :
  let w := devicesRun (E := env2) (emptyWorld (E := env2) KSystemAbilityManager 0 caller0) in
  proxies (w_trace w) = [401; 402] ∧ distributedSaList_ (w_distributed w) = [].
Proof.
  assert (Hn : DInit false ∉ devicesOps) by (unfold devicesOps; set_solver).
  assert (Hi : DInit true ∈ devicesOps) by (unfold devicesOps; set_solver).
  cbv zeta. destruct (@distributed_kept env2 0 caller0 devicesOps _
    (devicesRun_run (emptyWorld (E := env2) KSystemAbilityManager 0 caller0))) as (_ & H).
  destruct (H Hn (λ _, eq_refl)) as [H1 H2]. assert (Hl := H2 (or_intror Hi)). rewrite Hl, app_nil_r in H1. exact (conj H1 Hl).
Defined.

(** The call that waits for a minute names process 250. *)
Lemma peer_stopped_witness :
  w_trace (KillProcessByPid (E := env2) 501 7 booted).2 =
  EvServiceControl "frozen" SA_STOP BASE_USER None :: w_trace booted.
Proof.
  pose proof (@peer_stopped env2 501 7 booted) as H. destruct (KillProcessByPid (E := env2) 501 7 booted) as [ret w'].
  destruct H as [(fin & peer & [= <-] & Hf & _ & _ & _ & ->)|(_ & _ & H)].
  - apply Parse_first in Hf. by vm_compute.
  - exfalso. destruct (H transactions0 250) as [H0|H0]; [done| |done|done].
    destruct (Parse_inv (E := env2) 501 7 transactions0) as [Hf|Hf]; [exact Hf|by vm_compute in Hf].
Defined.
